(* ===== verification/_CoqProject ===== *)
-Q . S2P
Prelude.v
Kmonad.v
Mem.v
Layout.v
Device.v
Libc.v
Heap.v
Kmalloc.v
KmallocFacts.v
KmallocHeap.v
KmallocRealloc.v
KmallocProps.v
Mmap.v
Pmm.v
PmmProps.v
PmmInit.v
PmmFree.v
Dstack.v
Hashtable.v
HashtableProps.v
HashtableRep.v
HeapClients.v
Paging.v
PagingProps.v
Kcache.v
KcacheProps.v
Task.v
Vmm.v
VmmProps.v
Vmalloc.v
Kprintf.v
Cpu.v
Ksym.v
Faults.v
Timer.v
Ramdisk.v
Vfs.v
VfsPaths.v
VfsRamdisk.v
VfsClients.v
Pci.v
Acpi.v
Apic.v
Hpet.v
Ahci.v
BootMem.v
PageTrees.v
BootPaging.v
BootElf.v
ElfLoad.v
Loader.v
HandOver.v
Lienzo.v
Kernel.v
Startup.v
Dumps.v
FaultHandlers.v
ArmMem.v
Registers.v
Xhci.v
DeviceTree.v
Structs.v
