(* ===== verification/Prelude.v ===== *)
(** * RoverOS: a model of the kernel and its boot loader, and proofs about it

    RoverOS is a 64-bit kernel written in C with a UEFI boot loader
    (src/Bootloader/x86_64), a ramdisk builder (src/Ramdisk) and the kernel
    proper (src/Kernel, headers in src/Headers, string routines in src/libc).
    The boot loader loads the kernel, converts the firmware's memory map and
    jumps to [kmain]; [kmain] brings up descriptor tables, memory, timers, tasks,
    ACPI, PCI, the file system and the renderer, in that order.  This library
    translates that code function by function and proves what the functions do,
    including where they do not do what they mean to.

    ** How the code is modelled

    A C function is a computation of the monad [M S A] (Kmonad.v): it returns a
    value and a new state or stops with a [fault]: a panic, a spin on a lock its
    caller holds, an access outside an array, an undefined shift, a division by
    zero, a call through a bad pointer, or a [hlt] loop.  [wp] is total
    correctness: a [wp] theorem says that the function returns.  Most components
    work on [machine] (Mem.v): a byte memory, the scalar C globals ([gvar]) and the
    bytes sent to the debug port.  Structs are objects in that memory, at the
    offsets of the x86_64 ABI, written as numbers or computed by Layout.v; so
    aliasing, overlapping objects and writes out of a block are what they are in
    the program.  Components that only index arrays (mmap.c, pmm.c, timer.c, the
    boot loader's map) have a state record of their own, with lists for the arrays.
    Unsigned arithmetic wraps where the C type does ([u8] .. [u64], [s32], [s64]
    below).  Log calls (kinfo, kerror) are left out unless the output is what the
    function is for; then it is the result (Kprintf.v, Faults.v, Dumps.v).

    Loops that the source bounds are structural.  Loops that it does not bound
    (strings, lists, searches) take fuel; running out is the fault [NoFuel], and the
    theorems say how much is enough: one round more than the length of the list,
    the string or the range walked.  A loop that never ends is shown to give
    [NoFuel] for every fuel ([iter_diverges]).

    ** Components and files

    - Prelude, Kmonad, Mem, Layout, Device: integers, the monad, memory, struct
      layout rules, MMIO and privileged instructions.  Structs: the structs of the
      headers, member by member ([bool] is the enumeration of stdbool.h).  Registers:
      the device registers that the headers describe by macros, field by field.
    - Libc: libc/string, libc/math, libc/std.
    - Heap: the interfaces between the memory components.  Kmalloc, KmallocFacts,
      KmallocHeap, KmallocRealloc, KmallocProps: Kernel/Memory/kmalloc.c.
    - Mmap: mmap.c, mmap.h, bootinfo.h.  Pmm, PmmProps, PmmInit, PmmFree: pmm.c.  Paging, PagingProps:
      Memory/arch/x86_64/paging.c.  Kcache, KcacheProps: kcache.c.  Vmm, VmmProps,
      Vmalloc: vmm.c.
    - Dstack: dstack.c.  Hashtable, HashtableProps, HashtableRep: hashtable.c.  HeapClients:
      both on the real heap.
    - Task: task.c, sleep.c.  Timer: timer.c.
    - Kprintf: kprintf.c, com.c.  Ksym: ksym.c, elf.h, stackTrace.  Dumps: the dump
      functions of vmm.c, kmalloc.c, kutil.c.
    - Cpu: cpu.c, cpu.asm.  Faults, FaultHandlers: Kernel/Faults/x86_64.
    - Ramdisk: both ramdisk.c.  Vfs, VfsPaths: vfs.c.  VfsRamdisk: the builder, the
      driver and the file system together.  VfsClients: all of them on the real heap.
    - Pci: pci.c.  Acpi: acpi.c, apic.c.  Apic: ioapic.c, lapic.c, pit.c.  Hpet:
      hpet.c.  Ahci: ahci.c.
    - BootMem, BootElf, Loader: Bootloader/x86_64 (mem.c, elf.c; file.c, gop.c,
      kload.c, polarboot.c).  PageTrees, BootPaging: the page tables of its mem.c.
      ElfLoad: the segments its elf.c loads.  HandOver, Startup: the page tables in CR3
      when the kernel is entered, and the kernel behind the boot loader.  ArmMem, DeviceTree: Bootloader/aarch64
      (mem.c, dt.c).  Xhci: the part of xhci.c that is C.
    - Lienzo: lienzo.c, libpng.c.  Kernel: kernel.c, syscall.c, mutex.h.

    A Definition has the name of the C function; a loop body or a part of a
    function that a lemma needs has a name of its own.  Where C uses one name
    twice the file tells them apart ([Vfs.openFile], [Loader.openFile]).

    ** How the components meet

    What one component uses of another is a class.  [HeapOps] are kmalloc and
    kfree, [HeapLaws] their contract over the map of live blocks: dstack.c,
    hashtable.c and vfs.c are proved against it, KmallocHeap.v shows that kmalloc.c
    satisfies it, and HeapClients.v and VfsClients.v put them together on concrete
    memory.  The contract says what an allocation costs ([heap_overhead]), so a client
    that allocates many times states the room it needs once.  [VmemOps], [VmemPhysOps], [PhysOps], [CacheOps], [KernelSyms] (Heap.v) are the
    calls between heap, virtual memory, pages and slabs; Vmm.v and Kcache.v
    implement theirs.  [CacheLaws] is what vmm.c relies on of the slab allocator:
    KcacheProps.v proves it of kcache.c, and Vmalloc.v needs nothing else of it.  [VfsOps] is what the ramdisk driver calls, implemented by
    Vfs.v; [EfiFile] is what the ELF loader calls, implemented by Loader.v;
    [ExceptionHandlers] is what isr calls, implemented by FaultHandlers.v;
    [BootCalls] and [KernelParts] are the calls of initPMM and kmain.

    What is not in the repository is a parameter with its documented behaviour as
    a law: port instructions and the 16550 ([Ports], [Uart16550]), the PCI
    configuration mechanism ([PciBus]), register blocks ([Mmio]; of the I/O APIC [IoApicDevice]), MSRs and
    cpuid ([CpuInsns]), the UEFI library ([Efi], [EfiReturns], [EfiPool],
    [PoolSlack], [FileLaws], [EfiProtocols], [EfiExit]).  Every
    theorem that uses a law has a witness with a concrete instance.

    ** What is proved

    - Heap: kmalloc, kfree and krealloc are first fit, free with merging and resize
      or move on the list of blocks (refinement); every sequence of unaligned allocations,
      reallocations to another size and frees keeps the layout and the live blocks apart
      (invariant); a move loses the first byte;
      extension of a full heap; a second kfree and an overwritten redzone panic.
    - Pages and tables: a region made from an entry of the map has all
      its blocks free in every order; order-0 allocation takes the lowest free block; the
      33rd of a fresh region is the first again; an allocation is taken from one region of the requested type; blocks of
      different orders overlap, freeing gives no capacity back, and giving back
      the last block faults; mapPage and mapPages make virtToPhys return the
      frames and leave the other translations (for the memory types that use the PAT bit,
      the frames with bit 12 set: the bit of a large page); kcacheAlloc is a bump allocator over
      the list of slabs up to the 32nd buffer of a slab, where it shifts out of range (the
      path that makes a new slab is only followed when that fails); vmallocPhys and vmalloc map a region, vmalloc to the frames
      it takes from the stack, and record it; two regions of a process can overlap.
    - Data (lemmas): the offsets and sizes used as numbers are those of the struct
      declarations; the fields of the registers that do not overlap are set and read one
      by one.
    - Text: kprintf prints what its format denotes, the integer conversions apart:
      writeUint prints one character that is not the number; writeHex can be read back.
    - Hash table: after inserting keys outside the heap, without the copy flag, a fetch is
      the lookup in the list of entries, with the lone and the first entry of a bucket
      treated as the code does (refinement); the hash is the polynomial of the key's bytes
      at 33, so that leading zero bytes do not count.
    - Ramdisk and files: the image that the builder writes is registered file by
      file, and opening a path then finds the file the hash table's lookup of its name
      gives; open and close of a file; the PNG check rejects every PNG; drawing a
      row changes exactly the pixels from an offset on that is in the wrong unit.
    - Symbols, traces, dumps, exceptions: the first symbol that covers an address,
      one line per frame, dumps that end, and exceptions that print the dump, item by
      item, and stop.
    - Interrupts and devices: the gates initIDT writes; vectors and I/O APIC entries
      are the lowest free ones, but the entry is written only on a device with its window
      where the struct has it and not where devices have it; a scan of a PCI bus enters every device once; the
      capability walk; the MADT search; register offsets.
    - Boot: initMem makes page tables that map exactly the usable memory of the
      firmware's map to itself, but for the last descriptor and what lies beyond the
      first 4 GiB of a descriptor; loadELF puts every byte of every segment where its
      virtual address leads; the memory map handed over lacks the last descriptor; efi_main, behind the loading
      of the kernel, ends in the kernel or back in the firmware, and the kernel finds its
      stack and kinf through the page tables then in CR3 and passes the start of kmain.
    - Locks and tasks: GET_LOCK excludes when its accesses are one step, and does
      not when they are three; sleep never wakes its task.

    Where the program has a fault the theorem states the fault: a function that
    spins, diverges or runs out of its array is proved to do so.

    ** Not modelled

    Assembly apart from the descriptor loads (entry, task switch, MTRR, the string
    routines of misc.asm, which repeat libc); what is not valid C: most of xhci.c,
    [parseNode] of dt.c, polarboot.c of aarch64; unit.c (commented out); libhook, libipc,
    aml, devmap, ksan and the VFS driver (empty bodies; their headers are in Registers
    and Structs); the debug build of kmalloc (KMALLOC_DEBUG is off); dumpRegions, which
    only logs.  The boot loader hands kinf and the memory maps over as records and lists:
    that the kernel's pointer to kinf leads to them is proved, not their bytes.  Loading an image is followed to the open file but not into its
    contents: [mfread] of a mount point is never stored, so no read reaches the driver;
    [ramdiskReadFile] is modelled by itself.
    Processors run one at a time except in the lock model of Kernel.v, and interrupts
    do not preempt the modelled functions. *)

From stdpp Require Export base tactics numbers list gmap strings.
From Stdlib Require Export ZArith Lia.

Open Scope Z_scope.

Declare Scope rover_scope.
Delimit Scope rover_scope with rover.

(** ** Machine integers *)

(** The value an unsigned object of the given width holds after an assignment
    (C17 6.3.1.3: reduction modulo 2^w). *)
Definition u8 (z : Z) : Z := z mod 2 ^ 8.
Definition u16 (z : Z) : Z := z mod 2 ^ 16.
Definition u32 (z : Z) : Z := z mod 2 ^ 32.
Definition u64 (z : Z) : Z := z mod 2 ^ 64.

(** Conversion to a signed 32- or 64-bit object (two's complement, as gcc does). *)
Definition s32 (z : Z) : Z := (z + 2 ^ 31) mod 2 ^ 32 - 2 ^ 31.
Definition s64 (z : Z) : Z := (z + 2 ^ 63) mod 2 ^ 64 - 2 ^ 63.

Create HintDb wrap discriminated.
Create Rewrite HintDb arrays.

Lemma u8_id z : 0 <= z < 2 ^ 8 → u8 z = z.
Proof. apply Z.mod_small. Qed.
Lemma u16_id z : 0 <= z < 2 ^ 16 → u16 z = z.
Proof. apply Z.mod_small. Qed.
Lemma u32_id z : 0 <= z < 2 ^ 32 → u32 z = z.
Proof. apply Z.mod_small. Qed.
Lemma u64_id z : 0 <= z < 2 ^ 64 → u64 z = z.
Proof. apply Z.mod_small. Qed.

Lemma u8_range z : 0 <= u8 z < 2 ^ 8.
Proof. apply Z.mod_pos_bound; lia. Qed.
Lemma u16_range z : 0 <= u16 z < 2 ^ 16.
Proof. apply Z.mod_pos_bound; lia. Qed.
Lemma u32_range z : 0 <= u32 z < 2 ^ 32.
Proof. apply Z.mod_pos_bound; lia. Qed.
Lemma u64_range z : 0 <= u64 z < 2 ^ 64.
Proof. apply Z.mod_pos_bound; lia. Qed.

#[export] Hint Resolve u8_range u16_range u32_range u64_range : wrap.

(** [wrap]: remove every wrap-around that the context shows to be the identity. *)
Ltac wrap :=
  repeat match goal with
    | |- context [u64 ?x] => rewrite (u64_id x) by lia
    | |- context [u32 ?x] => rewrite (u32_id x) by lia
    | |- context [u16 ?x] => rewrite (u16_id x) by lia
    | |- context [u8 ?x] => rewrite (u8_id x) by lia
    end.
Ltac wrap_in H :=
  repeat match type of H with
    | context [u64 ?x] => rewrite (u64_id x) in H by lia
    | context [u32 ?x] => rewrite (u32_id x) in H by lia
    | context [u16 ?x] => rewrite (u16_id x) in H by lia
    | context [u8 ?x] => rewrite (u8_id x) in H by lia
    end.

(** [lia] with division and modulo by constants turned into equations. *)
Ltac zlia := Z.div_mod_to_equations; lia.

(** [lia] on a goal that is the application of a predicate. *)
Ltac blia := cbv beta; lia.

(** Case analysis on the boolean comparisons of [Z] the model's guards use. *)
Ltac zcase :=
  match goal with
  | |- context [Z.eqb ?a ?b] => destruct (Z.eqb_spec a b)
  | |- context [Z.ltb ?a ?b] => destruct (Z.ltb_spec a b)
  | |- context [Z.leb ?a ?b] => destruct (Z.leb_spec a b)
  | |- context [Z.gtb ?a ?b] => rewrite (Z.gtb_ltb a b); destruct (Z.ltb_spec b a)
  | |- context [Z.geb ?a ?b] => rewrite (Z.geb_leb a b); destruct (Z.leb_spec b a)
  end.
Ltac zcases := repeat (zcase; try lia).

Lemma eqb_true a b : a = b → (a =? b) = true.
Proof. apply Z.eqb_eq. Qed.
Lemma eqb_false a b : a ≠ b → (a =? b) = false.
Proof. apply Z.eqb_neq. Qed.
Lemma ltb_true a b : a < b → (a <? b) = true.
Proof. apply Z.ltb_lt. Qed.
Lemma ltb_false a b : b <= a → (a <? b) = false.
Proof. apply Z.ltb_ge. Qed.
Lemma leb_true a b : a <= b → (a <=? b) = true.
Proof. apply Z.leb_le. Qed.
Lemma leb_false a b : b < a → (a <=? b) = false.
Proof. apply Z.leb_gt. Qed.

Create Rewrite HintDb zbool.
#[export] Hint Rewrite eqb_true eqb_false ltb_true ltb_false leb_true leb_false
  using lia : zbool.
(** [zbool]: evaluate the comparisons whose outcome [lia] can decide. *)
Ltac zbool := autorewrite with zbool.

(** ** Bits *)

Lemma land_pow2 w n : 0 <= n → Z.land w (2 ^ n) = if Z.testbit w n then 2 ^ n else 0.
Proof.
  intros Hn. apply Z.bits_inj'. intros i Hi.
  rewrite Z.land_spec, Z.pow2_bits_eqb by lia.
  destruct (Z.testbit w n) eqn:E.
  - rewrite Z.pow2_bits_eqb by lia.
    destruct (Z.eqb_spec n i) as [->|]; [by rewrite E | by rewrite andb_false_r].
  - rewrite Z.bits_0.
    destruct (Z.eqb_spec n i) as [->|]; [by rewrite E | by rewrite andb_false_r].
Qed.

Lemma land_pow2_zero w n : 0 <= n → (Z.land w (2 ^ n) =? 0) = negb (Z.testbit w n).
Proof.
  intros Hn. rewrite land_pow2 by done.
  destruct (Z.testbit w n); simpl; [apply Z.eqb_neq | done].
  pose proof (Z.pow_pos_nonneg 2 n). lia.
Qed.

Lemma lor_pow2_testbit w n i :
  0 <= n → 0 <= i → Z.testbit (Z.lor w (2 ^ n)) i = (n =? i) || Z.testbit w i.
Proof.
  intros. rewrite Z.lor_spec, Z.pow2_bits_eqb by lia. apply orb_comm.
Qed.

Lemma land_bound a b n : 0 <= b < 2 ^ n → 0 <= n → 0 <= Z.land a b < 2 ^ n.
Proof.
  intros Hb Hn. split; [apply Z.land_nonneg; lia|].
  rewrite <- (Z.mod_small b (2 ^ n)) by lia.
  rewrite <- Z.land_ones by lia. rewrite Z.land_assoc, Z.land_ones by lia.
  apply Z.mod_pos_bound. lia.
Qed.

Lemma lor_bound a b n : 0 <= a < 2 ^ n → 0 <= b < 2 ^ n → 0 <= n → 0 <= Z.lor a b < 2 ^ n.
Proof.
  intros Ha Hb Hn. split; [apply Z.lor_nonneg; lia|].
  rewrite <- (Z.mod_small a (2 ^ n)), <- (Z.mod_small b (2 ^ n)) by lia.
  rewrite <- !Z.land_ones by lia. rewrite <- Z.land_lor_distr_l.
  rewrite Z.land_ones by lia. apply Z.mod_pos_bound. lia.
Qed.

(** [bitwise]: prove an equality of integers bit by bit. *)
Ltac bitwise i Hi :=
  apply Z.bits_inj'; intros i Hi;
  repeat (rewrite ?Z.land_spec, ?Z.lor_spec, ?Z.lxor_spec, ?Z.bits_0;
          rewrite ?Z.shiftr_spec by lia; rewrite ?Z.shiftl_spec by lia).

(** ** Lists used as arrays *)

(** [l[i]] for an index of the source, [None] when the access is out of range. *)
Definition nthZ {A} (l : list A) (i : Z) : option A :=
  if decide (0 <= i) then l !! Z.to_nat i else None.

(** [l[i] = x]; the callers test the range first. *)
Definition updZ {A} (l : list A) (i : Z) (x : A) : list A := <[Z.to_nat i := x]> l.

Section arrays.
Context {A : Type}.
Implicit Types (l : list A) (x y : A) (i j : Z).

Lemma nthZ_Some l i x : nthZ l i = Some x → 0 <= i < Z.of_nat (length l).
Proof.
  unfold nthZ. case_decide; [|done]. intros H1%lookup_lt_Some. lia.
Qed.

Lemma nthZ_is_Some l i : 0 <= i < Z.of_nat (length l) → ∃ x, nthZ l i = Some x.
Proof.
  intros H. unfold nthZ. rewrite decide_True by lia.
  apply lookup_lt_is_Some_2. lia.
Qed.

Lemma nthZ_None l i : Z.of_nat (length l) <= i → nthZ l i = None.
Proof. intros H. unfold nthZ. case_decide; [|done]. apply lookup_ge_None_2. lia. Qed.

Lemma length_updZ l i x : length (updZ l i x) = length l.
Proof. apply length_insert. Qed.

Lemma nthZ_updZ_eq l i x : 0 <= i < Z.of_nat (length l) → nthZ (updZ l i x) i = Some x.
Proof.
  intros H. unfold nthZ, updZ. rewrite decide_True by lia.
  apply list_lookup_insert_eq. lia.
Qed.

Lemma nthZ_updZ_ne l i j x : i ≠ j → 0 <= i → nthZ (updZ l i x) j = nthZ l j.
Proof.
  intros Hne Hi. unfold nthZ, updZ. case_decide; [|done].
  apply list_lookup_insert_ne. lia.
Qed.
End arrays.

#[export] Hint Rewrite @length_updZ : arrays.
