(* ===== verification/Kmonad.v ===== *)
(** * The monad of kernel code

    A C function becomes a computation [M S A]: from a state it either
    returns a value and a new state or stops with a [fault].  A fault is an
    outcome the C code really has: a kernel panic, a spin on a lock the caller
    already holds, an out-of-bounds access, a shift the C standard leaves
    undefined, a division by zero or a [hlt] loop.  [NoFuel] says that a loop
    used up the iterations it was given. [wp] is the total-correctness weakest
    precondition: [wp m Q s] holds when [m] returns from [s] (no fault, fuel
    included) in a result and a state that satisfy [Q]. *)

From S2P Require Import Prelude.

Inductive fault :=
  | Panic (why : string)
  | Spin
  | OutOfBounds
  | UndefinedShift
  | DivideByZero
  | Halt
  | WildCall                (* a call through a pointer to no function *)
  | NullDeref               (* a read through a null pointer *)
  | NoFuel.

#[export] Instance fault_eq_dec : EqDecision fault.
Proof. solve_decision. Defined.

Inductive outcome (S A : Type) :=
  | Ok (a : A) (s : S)
  | Fault (f : fault).
Arguments Ok {S A} a s.
Arguments Fault {S A} f.

Definition M (S A : Type) : Type := S → outcome S A.

#[export] Instance M_ret S : MRet (M S) := λ A a s, Ok a s.
#[export] Instance M_bind S : MBind (M S) := λ A B f m s,
  match m s with Ok a s' => f a s' | Fault e => Fault e end.

Definition fail {S A} (f : fault) : M S A := λ _, Fault f.
Definition get {S} : M S S := λ s, Ok s s.
Definition put {S} (s : S) : M S unit := λ _, Ok tt s.
Definition gets {S A} (f : S → A) : M S A := λ s, Ok (f s) s.
Definition modify {S} (f : S → S) : M S unit := λ s, Ok tt (f s).
Definition when {S} (b : bool) (m : M S unit) : M S unit := if b then m else mret tt.

(** [KASSERT(expression, fail)]: kutil.c panics when the expression is 0. *)
Definition kassert {S} (b : bool) (why : string) : M S unit :=
  if b then mret tt else fail (Panic why).

(** A loop: [inl a] goes round again with loop variables [a], [inr b] leaves. *)
Fixpoint iter {S A B} (fuel : nat) (body : A → M S (A + B)) (a : A) : M S B :=
  match fuel with
  | O => fail NoFuel
  | Datatypes.S fuel' =>
      r ← body a; match r with inl a' => iter fuel' body a' | inr b => mret b end
  end.

(** [for (i = lo; i < hi; ++i) body i], for a body with no [break]. *)
Fixpoint for_from {S} (n : nat) (i : Z) (body : Z → M S unit) : M S unit :=
  match n with
  | O => mret tt
  | Datatypes.S n' => _ ← body i; for_from n' (i + 1) body
  end.
Definition for_range {S} (lo hi : Z) (body : Z → M S unit) : M S unit :=
  for_from (Z.to_nat (hi - lo)) lo body.

(** [1 << n] with the [int] literal [1]: defined by C up to 30, gcc defines 31
    as the sign bit, and undefined from 32 on. *)
Definition int_bit {S} (n : Z) : M S Z :=
  if (0 <=? n) && (n <? 31) then mret (2 ^ n)
  else if n =? 31 then mret (- 2 ^ 31)
  else fail UndefinedShift.

(** A read and a write of an array element. *)
Definition array_get {S A} (l : list A) (i : Z) : M S A :=
  match nthZ l i with Some x => mret x | None => fail OutOfBounds end.
Definition array_set {S A} (l : list A) (i : Z) (x : A) : M S (list A) :=
  match nthZ l i with Some _ => mret (updZ l i x) | None => fail OutOfBounds end.

(** Run a computation on a part of a larger state. *)
Definition zoom {S T A} (get_part : S → T) (set_part : T → S → S) (m : M T A) : M S A :=
  λ s, match m (get_part s) with
       | Ok a t => Ok a (set_part t s)
       | Fault e => Fault e
       end.

(** ** Weakest preconditions *)

Definition wp {S A} (m : M S A) (Q : A → S → Prop) (s : S) : Prop :=
  match m s with Ok a s' => Q a s' | Fault _ => False end.

Section wp.
Context {S : Type}.
Implicit Types s : S.

Lemma wp_ret {A} (a : A) (Q : A → S → Prop) s : Q a s → wp (mret a) Q s.
Proof. done. Qed.

Lemma wp_bind {A B} (m : M S A) (f : A → M S B) Q s :
  wp m (λ a, wp (f a) Q) s → wp (m ≫= f) Q s.
Proof. unfold wp, mbind, M_bind. by destruct (m s). Qed.

Lemma wp_bind_inv {A B} (m : M S A) (f : A → M S B) Q s :
  wp (m ≫= f) Q s → wp m (λ a, wp (f a) Q) s.
Proof. unfold wp, mbind, M_bind. by destruct (m s). Qed.

Lemma wp_mono {A} (m : M S A) (Q Q' : A → S → Prop) s :
  wp m Q s → (∀ a s', Q a s' → Q' a s') → wp m Q' s.
Proof. unfold wp. destruct (m s); naive_solver. Qed.

Lemma wp_conj {A} (m : M S A) (Q Q' : A → S → Prop) s :
  wp m Q s → wp m Q' s → wp m (λ a s', Q a s' ∧ Q' a s') s.
Proof. unfold wp. destruct (m s); naive_solver. Qed.

Lemma wp_get (Q : S → S → Prop) s : Q s s → wp get Q s.
Proof. done. Qed.
Lemma wp_gets {A} (f : S → A) (Q : A → S → Prop) s : Q (f s) s → wp (gets f) Q s.
Proof. done. Qed.
Lemma wp_put s0 (Q : unit → S → Prop) s : Q tt s0 → wp (put s0) Q s.
Proof. done. Qed.
Lemma wp_modify f (Q : unit → S → Prop) s : Q tt (f s) → wp (modify f) Q s.
Proof. done. Qed.
Lemma wp_kassert b why (Q : unit → S → Prop) s : b = true → Q tt s → wp (kassert b why) Q s.
Proof. by intros ->. Qed.
Lemma wp_when b m (Q : unit → S → Prop) s :
  (b = true → wp m Q s) → (b = false → Q tt s) → wp (when b m) Q s.
Proof. destruct b; naive_solver. Qed.

Lemma wp_eq {A} (m : M S A) (Q : A → S → Prop) s a s' :
  m s = Ok a s' → Q a s' → wp m Q s.
Proof. unfold wp. by intros ->. Qed.

Lemma wp_ext {A} (m m' : M S A) (Q : A → S → Prop) s : m s = m' s → wp m' Q s → wp m Q s.
Proof. unfold wp. by intros ->. Qed.
Lemma wp_ok {A} (m : M S A) Q s : wp m Q s → ∃ a s', m s = Ok a s' ∧ Q a s'.
Proof. unfold wp. destruct (m s); naive_solver. Qed.

(** One iteration of a loop. *)
Lemma wp_iter_S {A B} (body : A → M S (A + B)) fuel a Q s :
  wp (body a) (λ r, wp (match r with inl a' => iter fuel body a' | inr b => mret b end) Q) s →
  wp (iter (Datatypes.S fuel) body a) Q s.
Proof. intros H. simpl. by apply wp_bind. Qed.

(** A loop with an invariant and a variant that the fuel exceeds. *)
Lemma wp_iter {A B} (Inv : nat → A → S → Prop) (body : A → M S (A + B)) Q :
  (∀ n a s, Inv n a s →
     wp (body a) (λ r s', match r with
                          | inl a' => ∃ n', (n' < n)%nat ∧ Inv n' a' s'
                          | inr b => Q b s'
                          end) s) →
  ∀ fuel n a s, Inv n a s → (n < fuel)%nat → wp (iter fuel body a) Q s.
Proof.
  intros Hbody fuel. induction fuel as [|fuel IH]; intros n a s HI Hn; [lia|].
  simpl. apply wp_bind. eapply wp_mono; [by eapply Hbody|].
  intros [a'|b] s'; [|done]. intros (n' & Hlt & HI').
  eapply IH; [exact HI'|lia].
Qed.

(** A loop body that never leaves and keeps an invariant uses up any fuel. *)
Lemma iter_diverges {A B} (Inv : A → S → Prop) (body : A → M S (A + B)) :
  (∀ a s, Inv a s → ∃ a' s', body a s = Ok (inl a') s' ∧ Inv a' s') →
  ∀ fuel a s, Inv a s → iter fuel body a s = Fault NoFuel.
Proof.
  intros Hbody fuel. induction fuel as [|fuel IH]; intros a s HI; [done|].
  destruct (Hbody a s HI) as (a' & s' & E & HI').
  simpl. unfold mbind, M_bind. rewrite E. by apply IH.
Qed.

Lemma wp_for_from (Inv : Z → S → Prop) body Q :
  ∀ n i, (∀ j s, i <= j < i + Z.of_nat n → Inv j s → wp (body j) (λ _, Inv (j + 1)) s) →
  (∀ s, Inv (i + Z.of_nat n) s → Q tt s) →
  ∀ s, Inv i s → wp (for_from n i body) Q s.
Proof.
  induction n as [|n IH]; intros i Hb HQ s Hs; simpl.
  - apply wp_ret, HQ. by rewrite Z.add_0_r.
  - apply wp_bind. eapply wp_mono; [apply Hb; [lia|done]|].
    intros [] s' Hs'. apply IH; [| |done].
    + intros j s'' Hj. apply Hb. lia.
    + intros s'' Hs''. apply HQ. by replace (i + Z.of_nat (Datatypes.S n))
        with (i + 1 + Z.of_nat n) by lia.
Qed.

Lemma wp_for_range (Inv : Z → S → Prop) lo hi body Q s :
  lo <= hi →
  (∀ j s, lo <= j < hi → Inv j s → wp (body j) (λ _, Inv (j + 1)) s) →
  (∀ s, Inv hi s → Q tt s) →
  Inv lo s → wp (for_range lo hi body) Q s.
Proof.
  intros Hle Hb HQ. apply wp_for_from.
  - intros j s' Hj. apply Hb. lia.
  - intros s' Hs'. apply HQ. by replace hi with (lo + Z.of_nat (Z.to_nat (hi - lo))) by lia.
Qed.

Lemma wp_int_bit n (Q : Z → S → Prop) s : 0 <= n < 31 → Q (2 ^ n) s → wp (int_bit n) Q s.
Proof. intros Hn HQ. unfold int_bit. by rewrite leb_true, ltb_true by lia. Qed.

Lemma int_bit_undefined n s : 32 <= n → int_bit n s = Fault UndefinedShift.
Proof.
  intros Hn. unfold int_bit.
  by rewrite leb_true, ltb_false, eqb_false by lia.
Qed.

Lemma wp_array_get {A} (l : list A) i x (Q : A → S → Prop) s :
  nthZ l i = Some x → Q x s → wp (array_get l i) Q s.
Proof. intros H HQ. unfold array_get. by rewrite H. Qed.

Lemma wp_array_set {A} (l : list A) i x (Q : list A → S → Prop) s :
  0 <= i < Z.of_nat (length l) → Q (updZ l i x) s → wp (array_set l i x) Q s.
Proof.
  intros H HQ. unfold array_set. by destruct (nthZ_is_Some l i H) as [y ->].
Qed.

Lemma wp_zoom {T A} (gp : S → T) (sp : T → S → S) (m : M T A) Q s :
  wp m (λ a t, Q a (sp t s)) (gp s) → wp (zoom gp sp m) Q s.
Proof. unfold wp, zoom. by destruct (m (gp s)). Qed.
End wp.

(** Sequencing equations for the proofs that follow one path. *)
Lemma bind_ok {S A B} (m : M S A) (f : A → M S B) s a s' :
  m s = Ok a s' → (m ≫= f) s = f a s'.
Proof. unfold mbind, M_bind. by intros ->. Qed.
Lemma bind_fault {S A B} (m : M S A) (f : A → M S B) s e :
  m s = Fault e → (m ≫= f) s = Fault e.
Proof. unfold mbind, M_bind. by intros ->. Qed.

#[export] Instance wp_proper {S A} (m : M S A) :
  Proper (pointwise_relation A (pointwise_relation S impl) ==> pointwise_relation S impl) (wp m).
Proof. intros Q Q' HQ s H. eapply wp_mono; [exact H|]. intros a s'. apply HQ. Qed.
