(* ===== verification/Mem.v ===== *)
(** * The kernel's address space

    A byte-addressed memory ([gmap Z Z], absent bytes read as 0) with
    little-endian accesses of 1, 2, 4 and 8 bytes, and the state [machine] of
    the components that work on raw memory: memory, scalar C globals and the
    bytes written to the debug serial port.  Two laws carry every proof about
    memory: a load gives back the value of the last store to the same object,
    and is not changed by a store to a disjoint one. *)

From S2P Require Import Prelude Kmonad.

(** Addresses are only bounded where a component's invariant bounds them:
    pointer arithmetic in C is not a wrapping operation. *)
Definition mbyte (m : gmap Z Z) (a : Z) : Z := u8 (default 0 (m !! a)).

Fixpoint load (n : nat) (m : gmap Z Z) (a : Z) : Z :=
  match n with
  | O => 0
  | S n' => mbyte m a + 256 * load n' m (a + 1)
  end.

Fixpoint store (n : nat) (m : gmap Z Z) (a v : Z) : gmap Z Z :=
  match n with
  | O => m
  | S n' => store n' (<[a := u8 v]> m) (a + 1) (v / 256)
  end.

(** The [n] bytes from [a] on, and writing a list of bytes there. *)
Definition bytes_at (m : gmap Z Z) (a : Z) (n : nat) : list Z :=
  (λ i, mbyte m (a + Z.of_nat i)) <$> seq 0 n.
Fixpoint write_bytes (m : gmap Z Z) (a : Z) (bs : list Z) : gmap Z Z :=
  match bs with
  | [] => m
  | b :: bs' => write_bytes (<[a := u8 b]> m) (a + 1) bs'
  end.

Create Rewrite HintDb mem.

Section laws.
Implicit Types (m : gmap Z Z) (a v : Z) (n k : nat).

Lemma mbyte_range m a : 0 <= mbyte m a < 256.
Proof. apply u8_range. Qed.

Lemma mbyte_insert m a b v : mbyte (<[a := v]> m) b = if decide (a = b) then u8 v else mbyte m b.
Proof. unfold mbyte. rewrite lookup_insert. by case_decide. Qed.

Lemma load_range n m a : 0 <= load n m a < 256 ^ Z.of_nat n.
Proof.
  revert a. induction n as [|n IH]; intros a; [simpl; lia|].
  pose proof (mbyte_range m a). specialize (IH (a + 1)).
  rewrite Nat2Z.inj_succ, Z.pow_succ_r by lia. cbn [load]. lia.
Qed.

Lemma load_ext n m m' a :
  (∀ i, a <= i < a + Z.of_nat n → mbyte m i = mbyte m' i) → load n m a = load n m' a.
Proof.
  revert a. induction n as [|n IH]; intros a H; cbn [load]; [done|].
  rewrite (H a) by lia. rewrite (IH (a + 1)); [done|]. intros i Hi. apply H. lia.
Qed.

Lemma mbyte_store_ne n m a v b :
  b < a ∨ a + Z.of_nat n <= b → mbyte (store n m a v) b = mbyte m b.
Proof.
  revert m a v. induction n as [|n IH]; intros m a v Hb; cbn [store]; [done|].
  rewrite IH by lia. rewrite mbyte_insert. rewrite decide_False by lia. done.
Qed.

Lemma load_store_ne n k m a b v :
  b + Z.of_nat k <= a ∨ a + Z.of_nat n <= b → load k (store n m a v) b = load k m b.
Proof. intros H. apply load_ext. intros i Hi. apply mbyte_store_ne. lia. Qed.

Lemma u8_u8 z : u8 (u8 z) = u8 z.
Proof. unfold u8. by rewrite Z.mod_mod by lia. Qed.

Lemma load_store_eq n m a v : load n (store n m a v) a = v mod 256 ^ Z.of_nat n.
Proof.
  revert m a v. induction n as [|n IH]; intros m a v; cbn [load store].
  - by rewrite Z.mod_1_r.
  - rewrite IH, mbyte_store_ne by lia.
    rewrite mbyte_insert, decide_True by done. rewrite u8_u8. unfold u8.
    rewrite Nat2Z.inj_succ, Z.pow_succ_r by lia.
    rewrite Z.rem_mul_r by lia. change (2 ^ 8) with 256. lia.
Qed.

Lemma load_store_8 m a v : load 8 (store 8 m a v) a = u64 v.
Proof. apply load_store_eq. Qed.
Lemma load_store_4 m a v : load 4 (store 4 m a v) a = u32 v.
Proof. apply load_store_eq. Qed.
Lemma load_store_2 m a v : load 2 (store 2 m a v) a = u16 v.
Proof. apply load_store_eq. Qed.
Lemma load_store_1 m a v : load 1 (store 1 m a v) a = u8 v.
Proof. apply load_store_eq. Qed.

Lemma load_8_range m a : 0 <= load 8 m a < 2 ^ 64.
Proof. apply (load_range 8). Qed.
Lemma load_4_range m a : 0 <= load 4 m a < 2 ^ 32.
Proof. apply (load_range 4). Qed.
Lemma load_2_range m a : 0 <= load 2 m a < 2 ^ 16.
Proof. apply (load_range 2). Qed.
Lemma load_1_range m a : 0 <= load 1 m a < 2 ^ 8.
Proof. apply (load_range 1). Qed.

Lemma load_1 m a : load 1 m a = mbyte m a.
Proof. cbn [load]. lia. Qed.

Lemma mbyte_store_1 m a b v :
  mbyte (store 1 m a v) b = if decide (a = b) then u8 v else mbyte m b.
Proof. cbn [store]. rewrite mbyte_insert. by rewrite u8_u8. Qed.

(** A load of [n + k] bytes splits into its low and high parts. *)
Lemma load_app n k m a :
  load (n + k) m a = load n m a + 256 ^ Z.of_nat n * load k m (a + Z.of_nat n).
Proof.
  revert a. induction n as [|n IH]; intros a.
  - cbn [Nat.add load]. rewrite Z.add_0_r. change (Z.of_nat 0) with 0. lia.
  - cbn [Nat.add load]. rewrite IH.
    replace (a + 1 + Z.of_nat n) with (a + Z.of_nat (S n)) by lia.
    rewrite Nat2Z.inj_succ, Z.pow_succ_r by lia. lia.
Qed.

Lemma length_bytes_at m a n : length (bytes_at m a n) = n.
Proof. unfold bytes_at. by rewrite length_fmap, length_seq. Qed.

Lemma bytes_at_lookup m a n i :
  (i < n)%nat → bytes_at m a n !! i = Some (mbyte m (a + Z.of_nat i)).
Proof. intros H. unfold bytes_at. by rewrite list_lookup_fmap, lookup_seq_lt. Qed.

Lemma bytes_at_S m a n : bytes_at m a (S n) = mbyte m a :: bytes_at m (a + 1) n.
Proof.
  unfold bytes_at. cbn [seq fmap list_fmap]. rewrite Z.add_0_r. f_equal.
  rewrite <- fmap_S_seq, <- list_fmap_compose. apply list_fmap_ext. intros i x _. cbn.
  f_equal. lia.
Qed.

Lemma bytes_at_ext m m' a n :
  (∀ i, a <= i < a + Z.of_nat n → mbyte m i = mbyte m' i) → bytes_at m a n = bytes_at m' a n.
Proof.
  intros H. apply list_eq. intros i. destruct (decide (i < n)%nat).
  - rewrite !bytes_at_lookup by done. f_equal. apply H. lia.
  - rewrite !lookup_ge_None_2; rewrite ?length_bytes_at; lia || done.
Qed.

Lemma mbyte_write_bytes m a bs b :
  mbyte (write_bytes m a bs) b =
  match nthZ bs (b - a) with Some x => u8 x | None => mbyte m b end.
Proof.
  revert m a. induction bs as [|x bs IH]; intros m a; cbn [write_bytes].
  - unfold nthZ. by case_decide.
  - rewrite IH. unfold nthZ. destruct (decide (0 <= b - (a + 1))) as [Hd|Hd].
    + rewrite decide_True by lia.
      replace (Z.to_nat (b - a)) with (S (Z.to_nat (b - (a + 1)))) by lia. cbn.
      destruct (bs !! _); [done|]. rewrite mbyte_insert. by rewrite decide_False by lia.
    + rewrite mbyte_insert. case_decide as E.
      * subst b. rewrite Z.sub_diag. rewrite decide_True by lia. cbn. by rewrite u8_u8.
      * by rewrite decide_False by lia.
Qed.
End laws.

#[global] Arguments load : simpl never.
#[global] Arguments store : simpl never.

#[export] Hint Rewrite load_store_8 load_store_4 load_store_2 load_store_1 : mem.
#[export] Hint Rewrite load_store_ne using lia : mem.
#[export] Hint Resolve load_8_range load_4_range load_2_range load_1_range mbyte_range : wrap.

(** [mem]: resolve loads from the stores that lead to the current memory. *)
Ltac mem := autorewrite with mem.
Ltac mem_wrap := repeat first [progress mem | progress wrap].

(** ** The machine *)

(** The scalar C globals, by name. *)
Inductive gvar :=
  | g_startBlock | g_kmallocLock                         (* kmalloc.c *)
  | g_pageFrames                                         (* paging.c *)
  | g_physStack | g_markerCache                          (* vmm.c *)
  | g_scheduler | g_queueLock | g_ticketCache | g_inQueue
  | g_suspendedQueueSize | g_suspendedTickets            (* task.c *)
  | g_mount | g_slots | g_devices                        (* vfs.c *)
  | g_root_children | g_root_childCount | g_root_mounted
  | g_ramdiskPbase | g_ramdiskVbase                      (* ramdisk.c *)
  | g_gs                                                 (* the CPU's GS selector *)
  | g_symStart | g_symn | g_strBase | g_secstrBase       (* ksym.c *)
  | g_dbgInfo | g_dbgLine | g_dbgStr
  | g_gdtr | g_gdtLimit | g_idtr | g_idtLimit | g_tr       (* CPU registers *)
  | g_pciCount | g_pciDevice | g_pciAlloc | g_msiCache   (* pci.c *)
  | g_pciAddress                                         (* the chipset's CONFIG_ADDRESS *)
  | g_ioapicCount | g_ioapic | g_sysinf_ioapic           (* ioapic.c *)
  | g_lapic | g_apInit | g_lapicLock                     (* lapic.c *)
  | g_hpetMmio | g_hpetPhys | g_hpetTimers | g_hpetExtended | g_hpetLegacy
  | g_hpetMinClock | g_hpetPeriod | g_hpetProtection | g_hpetCallback   (* hpet.c *)
  | g_pitirq                                             (* pit.c *)
  | g_madtBase | g_madtLength                            (* apic.c *)
  | g_portCache | g_ahciMmio | g_ahciPhys                (* ahci.c *)
  | g_vbuffer | g_dbuffer | g_xSz | g_ySz | g_bufferLen | g_bpp.   (* lienzo.c *)

#[export] Instance gvar_eq_dec : EqDecision gvar.
Proof. solve_decision. Defined.

Record machine := Machine {
  memory : gmap Z Z;
  globals : gvar → Z;
  serial : list Z           (* bytes sent to the debug port, last one first *)
}.

Definition set_memory (m : gmap Z Z) (s : machine) : machine :=
  Machine m (globals s) (serial s).
Definition set_global (g : gvar) (v : Z) (s : machine) : machine :=
  Machine (memory s) (λ h, if decide (h = g) then v else globals s h) (serial s).
Definition add_serial (b : Z) (s : machine) : machine :=
  Machine (memory s) (globals s) (b :: serial s).

(** A machine whose memory and globals are all zero. *)
Definition machine0 : machine := Machine ∅ (λ _, 0) [].

(** Typed memory accesses: the number is the size in bytes. *)
Definition ld (n : nat) (a : Z) : M machine Z := λ s, Ok (load n (memory s) a) s.
Definition st (n : nat) (a v : Z) : M machine unit :=
  λ s, Ok tt (set_memory (store n (memory s) a v) s).
Definition gread (g : gvar) : M machine Z := λ s, Ok (globals s g) s.
Definition gwrite (g : gvar) (v : Z) : M machine unit := λ s, Ok tt (set_global g v s).

(** mutex.h: [GET_LOCK] spins while bit 0 is set; with one thread of control a
    lock that is held is never released, so the macro does not return. *)
Definition get_lock (g : gvar) : M machine unit :=
  l ← gread g;
  if Z.testbit l 0 then fail Spin else gwrite g (Z.lor l 1).
Definition free_lock (g : gvar) : M machine unit := gwrite g 0.

(** The same macros on a [mutex_t] field (one byte) of an object in memory. *)
Definition get_lock_at (a : Z) : M machine unit :=
  l ← ld 1 a;
  if Z.testbit l 0 then fail Spin else st 1 a (Z.lor l 1).
Definition free_lock_at (a : Z) : M machine unit := st 1 a 0.

Section machine_laws.
Implicit Types (s : machine) (m : gmap Z Z) (g : gvar).

Lemma globals_set_global s g h v :
  globals (set_global g v s) h = if decide (h = g) then v else globals s h.
Proof. done. Qed.
Lemma globals_set_global_eq s g v : globals (set_global g v s) g = v.
Proof. simpl. by rewrite decide_True. Qed.
Lemma globals_set_global_ne s g h v : h ≠ g → globals (set_global g v s) h = globals s h.
Proof. intros. simpl. by rewrite decide_False. Qed.
Lemma memory_set_global s g v : memory (set_global g v s) = memory s.
Proof. done. Qed.
Lemma memory_set_memory s m : memory (set_memory m s) = m.
Proof. done. Qed.
Lemma globals_set_memory s m : globals (set_memory m s) = globals s.
Proof. done. Qed.

Lemma wp_ld n a (Q : Z → machine → Prop) s : Q (load n (memory s) a) s → wp (ld n a) Q s.
Proof. done. Qed.
Lemma wp_st n a v (Q : unit → machine → Prop) s :
  Q tt (set_memory (store n (memory s) a v) s) → wp (st n a v) Q s.
Proof. done. Qed.
Lemma wp_gread g (Q : Z → machine → Prop) s : Q (globals s g) s → wp (gread g) Q s.
Proof. done. Qed.
Lemma wp_gwrite g v (Q : unit → machine → Prop) s : Q tt (set_global g v s) → wp (gwrite g v) Q s.
Proof. done. Qed.

Lemma wp_get_lock g (Q : unit → machine → Prop) s :
  globals s g = 0 → Q tt (set_global g 1 s) → wp (get_lock g) Q s.
Proof. intros H HQ. unfold get_lock, wp, mbind, M_bind, gread. by rewrite H. Qed.
Lemma get_lock_free g s : globals s g = 0 → get_lock g s = Ok tt (set_global g 1 s).
Proof. intros H. unfold get_lock, mbind, M_bind, gread. by rewrite H. Qed.
Lemma get_lock_held g s : Z.testbit (globals s g) 0 = true → get_lock g s = Fault Spin.
Proof. intros H. unfold get_lock, mbind, M_bind, gread. by rewrite H. Qed.
Lemma wp_get_lock_at a (Q : unit → machine → Prop) s :
  load 1 (memory s) a = 0 → Q tt (set_memory (store 1 (memory s) a 1) s) →
  wp (get_lock_at a) Q s.
Proof. intros H HQ. unfold get_lock_at, wp, mbind, M_bind, ld. by rewrite H. Qed.
Lemma get_lock_at_held a s :
  Z.testbit (load 1 (memory s) a) 0 = true → get_lock_at a s = Fault Spin.
Proof. intros H. unfold get_lock_at, mbind, M_bind, ld. by rewrite H. Qed.
End machine_laws.

#[export] Hint Rewrite globals_set_global_eq memory_set_global memory_set_memory
  globals_set_memory : mem.
#[export] Hint Rewrite globals_set_global_ne using discriminate : mem.

(** One step of symbolic execution with [wp]. *)
Ltac wp_step :=
  lazymatch goal with
  | |- wp (mbind _ _) _ _ => apply wp_bind
  | |- wp (mret _) _ _ => apply wp_ret
  | |- wp (ld _ _) _ _ => apply wp_ld
  | |- wp (st _ _ _) _ _ => apply wp_st
  | |- wp (gread _) _ _ => apply wp_gread
  | |- wp (gwrite _ _) _ _ => apply wp_gwrite
  | |- wp get _ _ => apply wp_get
  | |- wp (gets _) _ _ => apply wp_gets
  | |- wp (put _) _ _ => apply wp_put
  | |- wp (modify _) _ _ => apply wp_modify
  | |- wp (free_lock _) _ _ => apply wp_gwrite
  | |- wp (free_lock_at _) _ _ => apply wp_st
  end; cbv beta.
Ltac wp_steps := repeat wp_step.

(** Run the primitive steps of a computation applied to a state. *)
Ltac run :=
  cbv [mbind M_bind mret M_ret ld st gread gwrite when kassert free_lock free_lock_at]; cbv beta iota.

(** Run the first primitive step of [(m ≫= f) s]. *)
Ltac mstep := erewrite bind_ok by reflexivity; cbv beta.
