(* ===== verification/Layout.v ===== *)
(** * Structure layouts

    A C struct as the list of its members in order.  [offset_of] and [size_of]
    compute the offsets gcc gives them, in a packed struct ([packed]) and with
    natural alignment on x86-64 ([natural]).  The components access the fields
    of firmware tables and device registers through [fld]. *)

From S2P Require Import Prelude Kmonad Mem.

(** A member: its name, the size of an element, the number of elements (1 for a
    member that is not an array) and its alignment. *)
Record member := Member { mb_name : string; mb_size : Z; mb_count : Z; mb_align : Z }.

Definition U8 (x : string) : member := Member x 1 1 1.
Definition U16 (x : string) : member := Member x 2 1 2.
Definition U32 (x : string) : member := Member x 4 1 4.
Definition U64 (x : string) : member := Member x 8 1 8.
(** stdbool.h of the kernel makes [bool] an enumeration, which gcc gives the size of
    an [int]. *)
Definition Bool (x : string) : member := Member x 4 1 4.
(** [t x[n]] *)
Definition Arr (t : string → member) (x : string) (n : Z) : member :=
  Member x (mb_size (t x)) n (mb_align (t x)).

Inductive packing := Packed | Natural.
Record layout := Layout { ly_packing : packing; ly_members : list member }.

Definition align_up (a x : Z) : Z := (x + a - 1) / a * a.

(** The offset at which a member is placed when the previous ones end at [o]. *)
Definition place (p : packing) (m : member) (o : Z) : Z :=
  match p with Packed => o | Natural => align_up (mb_align m) o end.

(** Each member with its offset. *)
Fixpoint placed (p : packing) (ms : list member) (o : Z) : list (Z * member) :=
  match ms with
  | [] => []
  | m :: ms' =>
      let a := place p m o in (a, m) :: placed p ms' (a + mb_size m * mb_count m)
  end.

Definition lookup_member (l : layout) (x : string) : option (Z * member) :=
  head (filter (λ am, mb_name am.2 = x) (placed (ly_packing l) (ly_members l) 0)).

Definition offset_of (l : layout) (x : string) : option Z := fst <$> lookup_member l x.

Fixpoint end_of (p : packing) (ms : list member) (o : Z) : Z :=
  match ms with
  | [] => o
  | m :: ms' => end_of p ms' (place p m o + mb_size m * mb_count m)
  end.
Definition align_of (l : layout) : Z :=
  match ly_packing l with
  | Packed => 1
  | Natural => foldr (λ m, Z.max (mb_align m)) 1 (ly_members l)
  end.
Definition size_of (l : layout) : Z :=
  align_up (align_of l) (end_of (ly_packing l) (ly_members l) 0).

(** A member that is itself a struct. *)
Definition Sub (l : layout) (x : string) : member := Member x (size_of l) 1 (align_of l).

(** The offset of a member, and the access to a scalar member of the struct at [a]. *)
Definition fld (l : layout) (x : string) : Z := default (-1) (offset_of l x).
Definition fsize (l : layout) (x : string) : nat :=
  match lookup_member l x with Some (_, m) => Z.to_nat (mb_size m) | None => 0%nat end.
Definition ldf (l : layout) (x : string) (a : Z) : M machine Z := ld (fsize l x) (a + fld l x).
Definition stf (l : layout) (x : string) (a v : Z) : M machine unit := st (fsize l x) (a + fld l x) v.

(** Compute the offsets and sizes of concrete members. *)
Ltac fields :=
  repeat match goal with
    | |- context [ldf ?l ?x ?a] =>
        let n := eval vm_compute in (fsize l x) in let o := eval vm_compute in (fld l x) in
        change (ldf l x a) with (ld n (a + o))
    | |- context [stf ?l ?x ?a ?v] =>
        let n := eval vm_compute in (fsize l x) in let o := eval vm_compute in (fld l x) in
        change (stf l x a v) with (st n (a + o) v)
    | |- context [fld ?l ?x] => let o := eval vm_compute in (fld l x) in change (fld l x) with o
    | |- context [fsize ?l ?x] => let n := eval vm_compute in (fsize l x) in change (fsize l x) with n
    | |- context [size_of ?l] => let n := eval vm_compute in (size_of l) in change (size_of l) with n
    end.

(** One step of symbolic execution, field accesses included. *)
Ltac fstep :=
  first [ wp_step
        | lazymatch goal with
          | |- wp (ldf _ _ _) _ _ => fields; apply wp_ld; cbv beta
          | |- wp (stf _ _ _ _) _ _ => fields; apply wp_st; cbv beta
          end ].
Ltac fsteps := repeat fstep; fields.

(** ** Members do not overlap *)

Definition member_ok (m : member) : Prop := 0 < mb_size m ∧ 0 < mb_count m ∧ 0 < mb_align m.
Definition member_bytes (m : member) : Z := mb_size m * mb_count m.

Section layouts.
Implicit Types (ms : list member) (p : packing).

Lemma place_ge p m o : 0 < mb_align m → o <= place p m o.
Proof. destruct p; simpl; [lia|]. unfold align_up. intros. zlia. Qed.

Lemma placed_ge p ms o a m :
  Forall member_ok ms → (a, m) ∈ placed p ms o → o <= a.
Proof.
  intros H. revert o. induction H as [|c ms Hc H IH]; intros o; cbn [placed].
  - intros []%elem_of_nil.
  - destruct Hc as (H1 & H2 & H3). pose proof (place_ge p c o H3).
    intros [[= -> ->]|Ha%IH]%elem_of_cons; [lia|]. nia.
Qed.

(** Of two members at different positions the first ends before the second starts. *)
Lemma placed_disjoint p ms o i j a m b k :
  Forall member_ok ms → (i < j)%nat →
  placed p ms o !! i = Some (a, m) → placed p ms o !! j = Some (b, k) →
  a + member_bytes m <= b.
Proof.
  intros H. revert o i j. induction H as [|c ms Hc H IH]; intros o i j Hij Hi Hj; [done|].
  cbn [placed] in Hi, Hj. destruct j as [|j]; [lia|]. cbn [lookup list_lookup] in Hj.
  destruct i as [|i].
  - injection Hi as <- <-. apply list_elem_of_lookup_2 in Hj. by apply placed_ge in Hj.
  - eapply (IH _ i j); [lia|exact Hi|exact Hj].
Qed.
End layouts.
