(* ===== verification/Device.v ===== *)
(** * Access to devices

    Memory-mapped registers are read and written through [Mmio], model-specific
    registers and [cpuid] through [CpuInsns]: the devices are not part of the
    source, so both are parameters. *)

From S2P Require Import Prelude Kmonad Mem Layout.

(** A volatile access of the given number of bytes. *)
Class Mmio := {
  mmio_ld : nat → Z → M machine Z;
  mmio_st : nat → Z → Z → M machine unit
}.

(** Fields of a register block. *)
Definition ldr `{Mmio} (l : layout) (x : string) (a : Z) : M machine Z :=
  mmio_ld (fsize l x) (a + fld l x).
Definition str `{Mmio} (l : layout) (x : string) (a v : Z) : M machine unit :=
  mmio_st (fsize l x) (a + fld l x) v.

(** [rdmsr] leaves the two halves in eax and edx; [wrmsr] takes ecx, edx and eax;
    [cpuid] takes eax and ecx and leaves ebx, edx and ecx. *)
Class CpuInsns := {
  insn_rdmsr : Z → M machine (Z * Z);
  insn_wrmsr : Z → Z → Z → M machine unit;
  insn_cpuid : Z → Z → M machine (Z * Z * Z)
}.

(** ** cpu.h and cpuid.h *)

Definition CPUID_X2APIC_PRESENT : Z := 0x200000.
Definition CPU_TSC_PRESENT : Z := Z.shiftl 1 0.

Section insns.
Context {CI : CpuInsns}.

Definition rdmsr (msr : Z) : M machine Z :=
'(low, high) ← insn_rdmsr msr;
mret (Z.lor low (u64 (Z.shiftl high 32))).

Definition wrmsr (msr val : Z) : M machine unit :=
insn_wrmsr msr (Z.shiftr val 32) (Z.land val 0xFFFFFFFF).

(** The inline assembly moves operand 2 to rax and operand 3 to rcx, and rdx and
  rcx to operands 0 and 1.  Operand 2 is the output [ecxRet]: the register it
  names is not set before the instruction nor written by it ([unset]), and
  operand 3, the function number, ends up in rcx.  The results are the values
  of [*ebx], [*edx] and [*ecx]. *)
Definition CPUID (unset function : Z) : M machine (Z * Z * Z) :=
'(_, rdx, rcx) ← insn_cpuid unset function;
mret (u32 rdx, u32 rcx, u32 unset).

(** [initTSC] of cpu.c: the message it logs.  [check] is the second result of [CPUID]. *)
Definition initTSC (unset : Z) : M machine (option string) :=
'(_, check, _) ← CPUID unset 0x1;
mret (if Z.land check CPU_TSC_PRESENT =? 0 then Some "No TSC detected"%string else None).
End insns.

(** ** Bits of an address *)

(** Bits [lo] to [lo + n - 1]. *)
Definition bits (a lo n : Z) : Z := Z.land (Z.shiftr a lo) (2 ^ n - 1).

Lemma testbit_small x k n : 0 <= x < 2 ^ k → k <= n → Z.testbit x n = false.
Proof.
  intros Hx Hn. destruct (decide (0 <= k)); [|rewrite Z.pow_neg_r in Hx; lia].
  rewrite <- (Z.mod_small x (2 ^ k)) by lia. apply Z.mod_pow2_bits_high. lia.
Qed.

Lemma bits_testbit a lo n i :
  0 <= lo → 0 <= n → 0 <= i → Z.testbit (bits a lo n) i = (i <? n) && Z.testbit a (i + lo).
Proof.
  intros. unfold bits. rewrite Z.land_spec, Z.shiftr_spec by lia.
  replace (2 ^ n - 1) with (Z.ones n) by (rewrite Z.ones_equiv; lia).
  rewrite andb_comm. f_equal. destruct (Z.ltb_spec i n).
  - by apply Z.ones_spec_low.
  - by apply Z.ones_spec_high.
Qed.

Lemma bits_range a lo n : 0 <= n → 0 <= bits a lo n < 2 ^ n.
Proof. intros. apply land_bound; lia. Qed.
