(* ===== verification/Libc.v ===== *)
(** * libc: string, memory and number routines

    [libc/string/*.c], [libc/math/diff.c] and [libc/std/itoa.c] over the byte
    memory of [Mem].  Loops that stop at a NUL byte take fuel; loops that
    count take their count.  [cstr] says that a NUL-terminated string is at an
    address. *)

From S2P Require Import Prelude Kmonad Mem.

(** ** Definitions *)

(** [strlen]: [libc/string/strlen.c]. *)
Definition strlen (fuel : nat) (str : Z) : M machine Z :=
  iter fuel (λ i,
    c ← ld 1 (str + i);
    mret (if c =? 0 then inr i else inl (u64 (i + 1)))) 0.

(** [strcmp]: returns the index of the first difference, 0 when it reaches the
    end of both strings. *)
Definition strcmp (fuel : nat) (s1 s2 : Z) : M machine Z :=
  iter fuel (λ i,
    c1 ← ld 1 (s1 + i);
    c2 ← ld 1 (s2 + i);
    mret (if negb (c1 =? c2) then inr i
          else if (c1 =? 0) || (c2 =? 0) then inr 0
          else inl (s32 (i + 1)))) 0.

(** [strcpy]: both pointers advance; the final [s1] is returned. *)
Definition strcpy (fuel : nat) (s1 s2 : Z) : M machine Z :=
  iter fuel (λ '(p1, p2),
    c ← ld 1 p2;
    if c =? 0 then mret (inr p1)
    else _ ← st 1 p1 c; mret (inl (p1 + 1, p2 + 1))) (s1, s2).

(** [memcpy]: [for(;len > 0;--len) dest[len] = src[len];]. *)
Fixpoint memcpy_loop (n : nat) (dest src : Z) : M machine unit :=
  match n with
  | O => mret tt
  | S n' =>
      c ← ld 1 (src + Z.of_nat n);
      _ ← st 1 (dest + Z.of_nat n) c;
      memcpy_loop n' dest src
  end.
Definition memcpy (dest src len : Z) : M machine Z :=
  _ ← memcpy_loop (Z.to_nat len) dest src; mret dest.

(** [memset]: the value is an [int], stored [bytes/sizeof(int)] times. *)
Definition memset (ptr c bytes : Z) : M machine Z :=
  _ ← for_range 0 (bytes / 4) (λ i, st 4 (ptr + 4 * i) c);
  mret ptr.

(** [diff] of [libc/math/diff.c]. *)
Definition diff (a b : Z) : Z := if a >? b then u64 (a - b) else u64 (b - a).

(** [itoa] and [ltoa] hand over to [lltoa], which returns the buffer untouched. *)
Definition lltoa (n buffer base : Z) : M machine Z := mret buffer.
Definition ltoa (n buffer base : Z) : M machine Z := lltoa n buffer base.
Definition itoa (n buffer base : Z) : M machine Z := lltoa (s64 n) buffer base.

(** ** Strings in memory *)

(** The string [l], whose bytes are not NUL, followed by its terminator. *)
Definition cstr (m : gmap Z Z) (p : Z) (l : list Z) : Prop :=
  (∀ i x, l !! i = Some x → mbyte m (p + Z.of_nat i) = x ∧ 0 < x < 256) ∧
  mbyte m (p + Z.of_nat (length l)) = 0.

(** What [strcmp] computes on two strings, as a function of their contents:
    the index of the first difference. *)
Fixpoint first_diff (l1 l2 : list Z) (i : Z) : Z :=
  match l1, l2 with
  | [], [] => 0
  | x :: l1', y :: l2' => if x =? y then first_diff l1' l2' (i + 1) else i
  | _, _ => i
  end.

Section cstr.
Implicit Types (m : gmap Z Z) (p : Z) (l : list Z).

Lemma cstr_lookup m p l i x : cstr m p l → l !! i = Some x → mbyte m (p + Z.of_nat i) = x.
Proof. intros [H _] Hi. by apply H. Qed.

Lemma cstr_nil_inv m p : cstr m p [] → mbyte m p = 0.
Proof. intros [_ H]. simpl in H. by rewrite Z.add_0_r in H. Qed.

Lemma cstr_cons_inv m p x l :
  cstr m p (x :: l) → mbyte m p = x ∧ 0 < x < 256 ∧ cstr m (p + 1) l.
Proof.
  intros [H E]. destruct (H 0%nat x eq_refl) as [H0 Hx]. rewrite Z.add_0_r in H0.
  split_and!; [done|lia..|]. split.
  - intros i y Hy. destruct (H (S i) y Hy) as [HS ?].
    by replace (p + 1 + Z.of_nat i) with (p + Z.of_nat (S i)) by lia.
  - cbn [length] in E.
    by replace (p + 1 + Z.of_nat (length l)) with (p + Z.of_nat (S (length l))) by lia.
Qed.

Lemma cstr_ext m m' p l :
  (∀ i, p <= i <= p + Z.of_nat (length l) → mbyte m i = mbyte m' i) →
  cstr m p l → cstr m' p l.
Proof.
  intros Hm [H E]. split.
  - intros i x Hi. pose proof (lookup_lt_Some _ _ _ Hi). rewrite <- Hm by lia. by apply H.
  - rewrite <- Hm by lia. done.
Qed.
End cstr.

(** ** The loops *)

Lemma strlen_loop fuel s p l k :
  cstr (memory s) (p + k) l → 0 <= k → k + Z.of_nat (length l) < 2 ^ 64 →
  (length l < fuel)%nat →
  iter fuel (λ i,
    c ← ld 1 (p + i);
    mret (if c =? 0 then inr i else inl (u64 (i + 1)))) k s = Ok (k + Z.of_nat (length l)) s.
Proof.
  revert k fuel. induction l as [|x l IH]; intros k [|fuel] Hs Hk Hb Hf; simpl in Hf; try lia.
  - apply cstr_nil_inv in Hs. cbn [iter].
    unfold mbind, M_bind, ld. rewrite load_1, Hs. cbn. by rewrite Z.add_0_r.
  - apply cstr_cons_inv in Hs as (E & Hx & Hs). cbn [iter]. cbn [length] in *.
    unfold mbind at 1, M_bind at 1, mbind at 1, M_bind at 1, ld at 1.
    rewrite load_1, E, eqb_false by lia. cbn. wrap.
    rewrite IH; [f_equal; lia| |lia..]. by replace (p + (k + 1)) with (p + k + 1) by lia.
Qed.

Lemma strcmp_loop fuel s p1 p2 l1 l2 k :
  cstr (memory s) (p1 + k) l1 → cstr (memory s) (p2 + k) l2 → 0 <= k →
  k + Z.of_nat (length l1) < 2 ^ 31 → (length l1 < fuel)%nat →
  iter fuel (λ i,
    c1 ← ld 1 (p1 + i);
    c2 ← ld 1 (p2 + i);
    mret (if negb (c1 =? c2) then inr i
          else if (c1 =? 0) || (c2 =? 0) then inr 0
          else inl (s32 (i + 1)))) k s = Ok (first_diff l1 l2 k) s.
Proof.
  revert l2 k fuel.
  induction l1 as [|x l1 IH]; intros l2 k [|fuel] H1 H2 Hk Hb Hf; simpl in Hf; try lia;
    cbn [iter]; unfold mbind, M_bind, ld; rewrite !load_1;
    destruct l2 as [|y l2];
    repeat match goal with
      | H : cstr _ _ [] |- _ => apply cstr_nil_inv in H; rewrite H
      | H : cstr _ _ (_ :: _) |- _ =>
          let E := fresh "E" in let R := fresh "R" in
          apply cstr_cons_inv in H as (E & R & H); rewrite E
      end; cbn [first_diff length] in *.
  - done.
  - rewrite eqb_false by lia. done.
  - rewrite eqb_false by lia. done.
  - destruct (Z.eqb_spec x y) as [->|]; cbn; [|done].
    rewrite eqb_false by lia. cbn.
    replace (s32 (k + 1)) with (k + 1) by (unfold s32; zlia).
    apply IH; [..|lia|lia|lia].
    + by replace (p1 + (k + 1)) with (p1 + k + 1) by lia.
    + by replace (p2 + (k + 1)) with (p2 + k + 1) by lia.
Qed.

Lemma first_diff_zero l1 l2 k : 0 < k → first_diff l1 l2 k = 0 ↔ l1 = l2.
Proof.
  revert l2 k. induction l1 as [|x l1 IH]; intros [|y l2] k Hk; simpl;
    [done|(split; [lia|done])..|].
  destruct (Z.eqb_spec x y); [|split; [lia|congruence]].
  rewrite IH by lia. naive_solver.
Qed.

(** ** Properties *)

(** [strlen] returns the length of the string and changes nothing. *)
Theorem strlen_spec fuel s p l :
  cstr (memory s) p l → Z.of_nat (length l) < 2 ^ 64 → (length l < fuel)%nat →
  strlen fuel p s = Ok (Z.of_nat (length l)) s.
Proof.
  intros Hs Hb Hf. unfold strlen.
  rewrite strlen_loop with (l := l); rewrite ?Z.add_0_r; (done || lia).
Qed.

(** [strcmp] computes the first difference, so it returns 0 exactly when the
    strings are equal or differ in their very first byte. *)
Theorem strcmp_zero fuel s p1 p2 l1 l2 :
  cstr (memory s) p1 l1 → cstr (memory s) p2 l2 →
  Z.of_nat (length l1) < 2 ^ 31 → (length l1 < fuel)%nat →
  ∃ r, strcmp fuel p1 p2 s = Ok r s ∧ (r = 0 ↔ l1 = l2 ∨ head l1 ≠ head l2).
Proof.
  intros H1 H2 Hb Hf. exists (first_diff l1 l2 0). split.
  - apply strcmp_loop; rewrite ?Z.add_0_r; (done || lia).
  - destruct l1 as [|x l1], l2 as [|y l2]; simpl; [naive_solver..|].
    destruct (Z.eqb_spec x y) as [->|]; [rewrite first_diff_zero by lia|]; naive_solver.
Qed.

Lemma mbyte_memcpy_loop n dest src s :
  dest + Z.of_nat n < src ∨ src + Z.of_nat n < dest →
  ∃ m', memcpy_loop n dest src s = Ok tt (set_memory m' s) ∧
    ∀ a, mbyte m' a = if decide (dest + 1 <= a <= dest + Z.of_nat n)
                      then mbyte (memory s) (src + (a - dest)) else mbyte (memory s) a.
Proof.
  revert s. induction n as [|n IH]; intros s Hd.
  - exists (memory s). split; [by destruct s|]. intros a. by rewrite decide_False by lia.
  - set (s1 := set_memory (store 1 (memory s) (dest + Z.of_nat (S n))
                 (mbyte (memory s) (src + Z.of_nat (S n)))) s).
    destruct (IH s1) as (m' & E & H); [lia|].
    exists m'. split.
    + cbn [memcpy_loop]. unfold mbind, M_bind, ld, st. rewrite load_1. fold s1. rewrite E.
      done.
    + intros a. rewrite H. cbn [memory s1 set_memory].
      rewrite !mbyte_store_1. repeat case_decide; try lia; try done.
      subst a. replace (dest + Z.of_nat (S n) - dest) with (Z.of_nat (S n)) by lia.
      apply u8_id, mbyte_range.
Qed.

(** C36: [memcpy] on disjoint areas copies the bytes 1 to [len]: the first byte of
    the destination keeps its value and the byte after the area is written. *)
Theorem memcpy_spec s dest src len :
  0 <= len → dest + len < src ∨ src + len < dest →
  ∃ m', memcpy dest src len s = Ok dest (set_memory m' s) ∧
    (∀ i, 1 <= i <= len → mbyte m' (dest + i) = mbyte (memory s) (src + i)) ∧
    (∀ a, a <= dest ∨ dest + len < a → mbyte m' a = mbyte (memory s) a).
Proof.
  intros Hl Hd.
  destruct (mbyte_memcpy_loop (Z.to_nat len) dest src s) as (m' & E & H); [lia|].
  exists m'. split_and!.
  - unfold memcpy. by rewrite (bind_ok _ _ _ _ _ E).
  - intros i Hi. rewrite H, decide_True by lia. f_equal. lia.
  - intros a Ha. rewrite H, decide_False by lia. done.
Qed.

Lemma mbyte_store_4 m a b v :
  mbyte (store 4 m a v) b =
  if decide (a <= b < a + 4) then u8 (v / 256 ^ (b - a)) else mbyte m b.
Proof.
  case_decide as H; [|apply mbyte_store_ne; lia].
  change (store 4 m a v) with
    (<[a + 1 + 1 + 1 := u8 (v / 256 / 256 / 256)]>
      (<[a + 1 + 1 := u8 (v / 256 / 256)]> (<[a + 1 := u8 (v / 256)]> (<[a := u8 v]> m)))).
  rewrite !mbyte_insert. rewrite !Z.div_div by lia.
  assert (b - a = 0 ∨ b - a = 1 ∨ b - a = 2 ∨ b - a = 3) as Hc by lia.
  destruct Hc as [E|[E|[E|E]]]; rewrite E; repeat case_decide; try lia; rewrite u8_u8;
    try done. by rewrite Z.div_1_r.
Qed.

Lemma memset_loop n s ptr c k :
  0 <= k →
  wp (for_from n k (λ i, st 4 (ptr + 4 * i) c)) (λ _ s',
    globals s' = globals s ∧ serial s' = serial s ∧
    ∀ a, mbyte (memory s') a =
         if decide (ptr + 4 * k <= a < ptr + 4 * (k + Z.of_nat n))
         then u8 (c / 256 ^ ((a - ptr) mod 4)) else mbyte (memory s) a) s.
Proof.
  revert s k. induction n as [|n IH]; intros s k Hk; cbn [for_from]; wp_steps.
  - split_and!; [done..|]. intros a. by rewrite decide_False by lia.
  - eapply wp_mono; [apply IH; lia|]. intros _ s' (? & ? & H). split_and!; [done..|].
    intros a. rewrite H. cbn [memory set_memory]. rewrite mbyte_store_4.
    repeat case_decide; try lia; try done.
    by replace ((a - ptr) mod 4) with (a - (ptr + 4 * k)) by zlia.
Qed.

(** [memset] writes the [int] [c] over the whole words of the area, and nothing
    else: the trailing [bytes mod 4] bytes keep their value. *)
Theorem memset_spec s ptr c bytes :
  0 <= bytes →
  wp (memset ptr c bytes) (λ r s',
    r = ptr ∧ globals s' = globals s ∧
    ∀ a, mbyte (memory s') a =
         if decide (ptr <= a < ptr + 4 * (bytes / 4))
         then u8 (c / 256 ^ ((a - ptr) mod 4)) else mbyte (memory s) a) s.
Proof.
  intros Hb. unfold memset, for_range. wp_steps. rewrite Z.sub_0_r.
  eapply wp_mono; [by apply memset_loop|]. intros _ s' (? & ? & H). wp_steps.
  split_and!; [done..|]. intros a. rewrite H.
  rewrite Z2Nat.id by zlia. by rewrite Z.mul_0_r, Z.add_0_r, Z.add_0_l.
Qed.

Lemma strcpy_loop fuel s p1 p2 l :
  cstr (memory s) p2 l →
  p1 + Z.of_nat (length l) <= p2 ∨ p2 + Z.of_nat (length l) < p1 →
  (length l < fuel)%nat →
  wp (strcpy fuel p1 p2) (λ r s',
    r = p1 + Z.of_nat (length l) ∧ globals s' = globals s ∧
    ∀ a, mbyte (memory s') a =
         match nthZ l (a - p1) with Some x => x | None => mbyte (memory s) a end) s.
Proof.
  revert s p1 p2 fuel.
  induction l as [|x l IH]; intros s p1 p2 [|fuel] Hs Hd Hf; cbn [length] in *; try lia;
    unfold strcpy; cbn [iter]; wp_steps; rewrite load_1.
  - apply cstr_nil_inv in Hs. rewrite Hs. cbn. wp_steps.
    split_and!; [lia|done|]. intros a. unfold nthZ. by case_decide.
  - apply cstr_cons_inv in Hs as (E & Hx & Hs). rewrite E, eqb_false by lia. wp_steps.
    eapply wp_mono; [apply IH; [|lia|lia]|].
    + eapply cstr_ext; [|exact Hs]. intros i Hi. cbn [memory set_memory].
      rewrite mbyte_store_1. by rewrite decide_False by lia.
    + cbn. intros r s' (-> & ? & H). split_and!; [lia|done|]. intros a. rewrite H.
      rewrite mbyte_store_1. unfold nthZ.
      destruct (decide (p1 = a)) as [->|].
      * rewrite Z.sub_diag. rewrite decide_False by lia. rewrite decide_True by lia. cbn.
        change (u8 x = x). apply u8_id. lia.
      * destruct (decide (0 <= a - (p1 + 1))).
        -- rewrite decide_True by lia.
           by replace (Z.to_nat (a - p1)) with (S (Z.to_nat (a - (p1 + 1)))) by lia.
        -- by rewrite decide_False by lia.
Qed.

(** [strcpy] copies the characters of the source and returns the end of the
    copy; the terminator is not written. *)
Theorem strcpy_spec fuel s p1 p2 l :
  cstr (memory s) p2 l →
  p1 + Z.of_nat (length l) <= p2 ∨ p2 + Z.of_nat (length l) < p1 →
  (length l < fuel)%nat →
  wp (strcpy fuel p1 p2) (λ r s',
    r = p1 + Z.of_nat (length l) ∧
    (∀ i x, l !! i = Some x → mbyte (memory s') (p1 + Z.of_nat i) = x) ∧
    mbyte (memory s') (p1 + Z.of_nat (length l)) =
      mbyte (memory s) (p1 + Z.of_nat (length l))) s.
Proof.
  intros Hs Hd Hf. eapply wp_mono; [by apply strcpy_loop|].
  intros r s' (-> & _ & H). split_and!; [done|..].
  - intros i x Hi. rewrite H. unfold nthZ. rewrite decide_True by lia.
    replace (Z.to_nat (p1 + Z.of_nat i - p1)) with i by lia. by rewrite Hi.
  - rewrite H. rewrite nthZ_None by lia. done.
Qed.

(** ** Witnesses *)

(** "ab" at 0x100 and "xb" at 0x200. *)
Definition two_strings : machine :=
  set_memory (write_bytes (write_bytes ∅ 0x100 [97; 98; 0]) 0x200 [120; 98; 0]) machine0.

Ltac cstr_eval :=
  split; [intros [|[|i]] x; simpl; [intros [= <-]..|done]; by vm_compute | by vm_compute].

Lemma strlen_spec_witness : strlen 5 0x100 two_strings = Ok 2 two_strings.
Proof. apply (strlen_spec 5 two_strings 0x100 [97; 98]); [cstr_eval|done|simpl; lia]. Defined.

(** "ab" and "xb" compare equal. *)
Lemma strcmp_zero_witness :
  ∃ r, strcmp 5 0x100 0x200 two_strings = Ok r two_strings ∧
       (r = 0 ↔ [97; 98] = [120; 98] ∨ head [97; 98] ≠ head [120; 98]).
Proof.
  apply (strcmp_zero 5 two_strings 0x100 0x200 [97; 98] [120; 98]);
    [cstr_eval|cstr_eval|done|simpl; lia].
Defined.

Lemma memcpy_spec_witness :
  ∃ m', memcpy 0x200 0x100 2 two_strings = Ok 0x200 (set_memory m' two_strings) ∧
    (∀ i, 1 <= i <= 2 → mbyte m' (0x200 + i) = mbyte (memory two_strings) (0x100 + i)) ∧
    (∀ a, a <= 0x200 ∨ 0x200 + 2 < a → mbyte m' a = mbyte (memory two_strings) a).
Proof. apply (memcpy_spec two_strings 0x200 0x100 2); [lia|right; lia]. Defined.

Lemma memset_spec_witness :
  wp (memset 0x100 7 10) (λ r s',
    r = 0x100 ∧ globals s' = globals two_strings ∧
    ∀ a, mbyte (memory s') a =
         if decide (0x100 <= a < 0x100 + 4 * (10 / 4))
         then u8 (7 / 256 ^ ((a - 0x100) mod 4)) else mbyte (memory two_strings) a) two_strings.
Proof. apply (memset_spec two_strings 0x100 7 10). lia. Defined.

Lemma strcpy_spec_witness :
  wp (strcpy 5 0x200 0x100) (λ r s',
    r = 0x200 + Z.of_nat (length [97; 98]) ∧
    (∀ i x, [97; 98] !! i = Some x → mbyte (memory s') (0x200 + Z.of_nat i) = x) ∧
    mbyte (memory s') (0x200 + Z.of_nat (length [97; 98])) =
      mbyte (memory two_strings) (0x200 + Z.of_nat (length [97; 98]))) two_strings.
Proof.
  apply (strcpy_spec 5 two_strings 0x200 0x100 [97; 98]); [cstr_eval|simpl; lia|simpl; lia].
Defined.
