(* ===== verification/Heap.v ===== *)
(** * Interfaces: what the kernel heap and the virtual memory manager promise

    [HeapOps] are the entry points of kmalloc.c and [HeapLaws] their contract,
    stated over the map [L] of the live allocations (pointer to size).  The
    clients (dstack.c, hashtable.c, vfs.c, ramdisk.c, kcache.c) are proved
    against these classes; [Kmalloc] discharges them.  [CacheLaws] is what a cache
    of kcache.c promises to vmm.c; KcacheProps.v discharges it.  [VmemOps] are the two
    functions of vmm.c that kmalloc.c calls to extend and shrink the heap. *)

From S2P Require Import Prelude Kmonad Mem.

Class VmemOps := {
  vmalloc : Z → Z → Z → M machine Z;      (* bytes, type, flags *)
  vmFree : Z → M machine unit
}.

Class HeapOps := {
  kmalloc : Z → M machine Z;
  kmallocAligned : Z → M machine Z;
  kfree : Z → M machine unit;
  krealloc : Z → Z → M machine Z
}.

(** The page allocator of pmm.c: the address and the value of [*actual]. *)
Class PhysOps := {
  allocPhys : Z → Z → Z → M machine (Z * Z);      (* bytes, type, flags *)
  freeNPhys : Z → Z → M machine unit
}.

(** [vmallocPhys] of vmm.c: phys, bytes, type, flags. *)
Class VmemPhysOps := { vmallocPhys : Z → Z → Z → Z → M machine Z }.

(** [kcacheAlloc] and [kcacheCreate] of kcache.c. *)
Class CacheOps := {
  kcacheAlloc : Z → Z → M machine Z;               (* cache, flags *)
  kcacheCreate : Z → Z → Z → Z → Z → M machine Z   (* name, objSize, align, type, flags *)
}.

(** Addresses of static objects and functions, as the linker places them. *)
Class KernelSyms := {
  sym_kspace : Z;                 (* pageSpace kspace (paging.c) *)
  sym_heapEnd : Z;                (* __heapEnd (linker script) *)
  sym_ftask : Z;                  (* struct processTicket ftask (task.c) *)
  sym_fschedule : Z;              (* struct cpuScheduler fschedule (task.c) *)
  sym_internalkcacheCache : Z;    (* kcache internalkcacheCache (kcache.c) *)
  sym_kcName : Z;                 (* char *kcName (kcache.c) *)
  sym_slabConstructor : Z;
  sym_slabDestructor : Z
}.

(** [a] belongs to a live allocation of [L]. *)
Definition owned (L : gmap Z Z) (a : Z) : Prop :=
  ∃ p z, L !! p = Some z ∧ p <= a < p + z.

(** Memory agrees on the addresses of [P]. *)
Definition same_on (P : Z → Prop) (m m' : gmap Z Z) : Prop :=
  ∀ a, P a → mbyte m' a = mbyte m a.

Class HeapLaws `{HeapOps} := {
  (** The addresses the allocator manages. *)
  arena : Z → Prop;
  (** The globals the allocator keeps its state in. *)
  heap_global : gvar → Prop;
  heap_inv : machine → gmap Z Z → Prop;
  (** An allocation of that size fits without extending the heap, and what one
      costs besides its size. *)
  heap_room : machine → Z → Prop;
  heap_overhead : Z;

  heap_live s L p z :
    heap_inv s L → L !! p = Some z →
    0 < p ∧ 0 < z ∧ p + z < 2 ^ 63 ∧ ∀ a, p <= a < p + z → arena a;
  heap_disjoint s L p q z w :
    heap_inv s L → L !! p = Some z → L !! q = Some w → p ≠ q → p + z <= q ∨ q + w <= p;
  (** The client may write its allocations and everything outside the arena. *)
  heap_frame s s' L :
    heap_inv s L →
    (∀ g, heap_global g → globals s' g = globals s g) →
    same_on (λ a, arena a ∧ ¬ owned L a) (memory s) (memory s') →
    heap_inv s' L ∧ ∀ sz, heap_room s sz → heap_room s' sz;
  heap_room_mono s sz sz' : sz' <= sz → heap_room s sz → heap_room s sz';
  heap_overhead_pos : 0 <= heap_overhead;
  kmalloc_spec s L sz :
    heap_inv s L → heap_room s sz → 0 < sz →
    wp (kmalloc sz) (λ p s',
      L !! p = None ∧ heap_inv s' (<[p := sz]> L) ∧
      same_on (λ a, owned L a ∨ ¬ arena a) (memory s) (memory s') ∧
      (∀ g, ¬ heap_global g → globals s' g = globals s g) ∧
      serial s' = serial s ∧
      ∀ k, heap_room s (sz + heap_overhead + k) → heap_room s' k) s;
  kfree_spec s L p z :
    heap_inv s L → L !! p = Some z →
    wp (kfree p) (λ _ s',
      heap_inv s' (delete p L) ∧
      same_on (λ a, owned (delete p L) a ∨ ¬ arena a) (memory s) (memory s') ∧
      (∀ g, ¬ heap_global g → globals s' g = globals s g) ∧
      serial s' = serial s) s
}.
Arguments heap_live {_ _} s L p z.
Arguments heap_disjoint {_ _} s L p q z w.
Arguments heap_frame {_ _} s s' L.
Arguments heap_room_mono {_ _} s sz sz'.

(** The contract of one cache, stated over the list [L] of the objects it has
    handed out: a new object meets none of them, and the cache only depends on
    its own bytes ([co_arena]) that are not in an object. *)
Definition in_object (size : Z) (L : list Z) (a : Z) : Prop := ∃ p, p ∈ L ∧ p <= a < p + size.

Class CacheLaws `{CacheOps} := {
  co_cache : Z;
  co_size : Z;
  co_arena : Z → Prop;
  cache_inv : machine → list Z → Prop;
  (** The next allocation does not need a new slab. *)
  cache_room : machine → Prop;

  cache_live s L p :
    cache_inv s L → p ∈ L →
    0 < p ∧ p + co_size < 2 ^ 64 ∧ ∀ a, p <= a < p + co_size → co_arena a;
  cache_frame s s' L :
    cache_inv s L → same_on (λ a, co_arena a ∧ ¬ in_object co_size L a) (memory s) (memory s') →
    cache_inv s' L ∧ (cache_room s → cache_room s');
  kcacheAlloc_spec s L flags :
    cache_inv s L → cache_room s →
    wp (kcacheAlloc co_cache flags) (λ p s',
      cache_inv s' (p :: L) ∧ Forall (λ q, q + co_size <= p ∨ p + co_size <= q) L ∧
      same_on (λ a, ¬ co_arena a ∨ in_object co_size L a) (memory s) (memory s') ∧
      globals s' = globals s ∧ serial s' = serial s) s
}.
Arguments cache_live {_ _} s L p.
Arguments cache_frame {_ _} s s' L.
Arguments kcacheAlloc_spec {_ _} s L flags.

Section same_on.
Implicit Types (P Q : Z → Prop) (m : gmap Z Z).

Lemma same_on_refl P m : same_on P m m.
Proof. done. Qed.
Lemma same_on_trans P m1 m2 m3 : same_on P m1 m2 → same_on P m2 m3 → same_on P m1 m3.
Proof. intros H1 H2 a Ha. rewrite H2 by done. by apply H1. Qed.
Lemma same_on_sym P m1 m2 : same_on P m1 m2 → same_on P m2 m1.
Proof. intros H a Ha. symmetry. by apply H. Qed.
Lemma same_on_weaken P Q m m' : same_on P m m' → (∀ a, Q a → P a) → same_on Q m m'.
Proof. intros H HQ a Ha. apply H, HQ, Ha. Qed.
Lemma same_on_load P m m' n a :
  same_on P m m' → (∀ i, a <= i < a + Z.of_nat n → P i) → load n m' a = load n m a.
Proof. intros H HP. apply load_ext. intros i Hi. apply H, HP, Hi. Qed.
Lemma same_on_store P m n a v :
  (∀ i, P i → i < a ∨ a + Z.of_nat n <= i) → same_on P m (store n m a v).
Proof. intros H i Hi. apply mbyte_store_ne. by apply H. Qed.
End same_on.

#[export] Instance same_on_preorder P : PreOrder (same_on P).
Proof. split; [intros m; apply same_on_refl | intros m1 m2 m3; apply same_on_trans]. Qed.
