(* ===== verification/Kmalloc.v ===== *)
(** * kmalloc.c: the kernel heap

    The heap is a list of blocks in memory: a 32-byte header, the data, an
    8-byte redzone, then the block's free bytes up to the next block.  The
    definitions translate kmalloc.c over the byte memory; the field offsets
    are those of the x86_64 ABI ([bool] is the 4-byte enum of stdbool.h).
    Log output ([kinfo], the dumps before a panic) is left out. *)

From S2P Require Import Prelude Kmonad Mem Libc Heap.

(** [kheapBlock] as a value, and reading one from memory. *)
Record kheapBlock := KheapBlock {
  kb_magic : Z;        (* uint16_t at 0 *)
  kb_allocated : Z;    (* uint32_t at 4 *)
  kb_free : Z;         (* uint32_t at 8 *)
  kb_chunkBorder : Z;  (* bool at 12 *)
  kb_prev : Z;         (* void* at 16 *)
  kb_next : Z          (* void* at 24 *)
}.
Definition read_block (m : gmap Z Z) (a : Z) : kheapBlock :=
  KheapBlock (load 2 m a) (load 4 m (a + 4)) (load 4 m (a + 8)) (load 4 m (a + 12))
             (load 8 m (a + 16)) (load 8 m (a + 24)).

Definition KHEAP_MAGIC : Z := 0xFEEF.
Definition KHEAP_REDZONE_MAGIC : Z := 0xABCDEFFEDCABCAFE.
Abbreviation KHEAP_BLOCK_DATA_SZ := 32 (only parsing).
Abbreviation PAGE_SZ := 0x1000 (only parsing).
Abbreviation VTYPE_HEAP := 1 (only parsing).

(** The macros of kmalloc.h, on the address and the fields of a block. *)
Definition KHEAP_MAX_ALLOC_PTR (block allocated : Z) : Z :=
  u64 (block + allocated + KHEAP_BLOCK_DATA_SZ).
Definition KHEAP_REDZONE_OFFSET (block allocated : Z) : Z :=
  u64 (block + (KHEAP_BLOCK_DATA_SZ + allocated)).
Definition KHEAP_MAX_TOTAL_PTR (block allocated free : Z) : Z :=
  u64 (block + free + 8 + allocated + KHEAP_BLOCK_DATA_SZ).
Definition KHEAP_ALIGNMENT_OFFSET (block allocated : Z) : Z :=
  0x1000 - Z.land (u64 (KHEAP_MAX_ALLOC_PTR block allocated + 8)) 0xFFF.
Definition KHEAP_NEW_UNALIGNED_BLOCK (block allocated : Z) : Z :=
  u64 (KHEAP_MAX_ALLOC_PTR block allocated + 8).
Definition KHEAP_FREE_DATA (basePtr maxPtr sz : Z) : Z :=
  u64 (u64 (maxPtr - basePtr) - u64 (KHEAP_BLOCK_DATA_SZ + 8 + sz)).
Definition KHEAP_BLOCK_FROM_PTR (ptr : Z) : Z := u64 (ptr - KHEAP_BLOCK_DATA_SZ).
Definition KHEAP_BLOCK_DATA_PTR (block : Z) : Z := u64 (block + KHEAP_BLOCK_DATA_SZ).

(** [initKmalloc] *)
Definition initKmalloc (heapStart size : Z) : M machine unit :=
  _ ← gwrite g_startBlock heapStart;
  _ ← st 2 heapStart KHEAP_MAGIC;
  _ ← st 4 (heapStart + 4) 0;
  _ ← st 4 (heapStart + 8) (KHEAP_FREE_DATA heapStart (u64 (heapStart + size)) 0);
  _ ← st 4 (heapStart + 12) 0;
  _ ← st 8 (heapStart + 16) 0;
  _ ← st 8 (heapStart + 24) 0;
  alloc ← ld 4 (heapStart + 4);
  st 8 (KHEAP_REDZONE_OFFSET heapStart alloc) KHEAP_REDZONE_MAGIC.

Definition checkRedzone (block : Z) : M machine unit :=
  alloc ← ld 4 (block + 4);
  rdz ← ld 8 (KHEAP_REDZONE_OFFSET block alloc);
  kassert (rdz =? KHEAP_REDZONE_MAGIC) "Corrupted redzone".

Definition checkMagic (block : Z) : M machine unit :=
  magic ← ld 2 block;
  kassert (magic =? KHEAP_MAGIC) "Invalid kblock magic".

Section kmalloc.
Context `{VmemOps}.

(** [extendHeap]: VFLAG_WRITE|VFLAG_KERNEL|VFLAG_MAKE is 1 + 64 + 16. *)
Definition extendHeap (min : Z) : M machine Z :=
  let pages := u32 (min / PAGE_SZ) in
  let min := u32 ((pages + 5) * PAGE_SZ) in
  nblock ← vmalloc min VTYPE_HEAP 81;
  _ ← kassert (negb (nblock =? 0)) "Failed to extend kernel heap";
  _ ← st 4 (nblock + 4) 0;
  _ ← st 4 (nblock + 8) (u64 (min - (KHEAP_BLOCK_DATA_SZ + 8)));
  _ ← st 4 (nblock + 12) 1;
  _ ← st 8 (nblock + 16) 0;
  _ ← st 8 (nblock + 24) 0;
  mret nblock.

Definition shrinkHeap (block : Z) : M machine unit :=
  border ← ld 4 (block + 12);
  if negb (border =? 1) then mret tt else vmFree block.

(** The search loop of [kmallocInt]: the block it stops at and [split]. *)
Definition kmalloc_search (fuel : nat) (csz : Z) (align : bool) (start : Z)
    : M machine (Z * bool) :=
  iter fuel (λ block,
    _ ← checkMagic block;
    alloc ← ld 4 (block + 4);
    free ← ld 4 (block + 8);
    let off := KHEAP_ALIGNMENT_OFFSET block alloc in
    if align && (off <? KHEAP_BLOCK_DATA_SZ) then mret (inl block) (* continue *)
    else if align && (free >=? u64 (csz + off)) then mret (inr (block, true))
    else if (free >=? csz) && negb align then mret (inr (block, true))
    else
      next ← ld 8 (block + 24);
      mret (if next =? 0 then inr (block, false) else inl next)) start.

(** The [align && split] branch: returns [nblock]. *)
Definition kmalloc_split_aligned (block sz : Z) : M machine Z :=
  alloc ← ld 4 (block + 4);
  free ← ld 4 (block + 8);
  let basePtr := u64 (KHEAP_MAX_ALLOC_PTR block alloc + 8) in
  let offset := KHEAP_ALIGNMENT_OFFSET block alloc in
  let alignedPtr := u64 (basePtr + offset) in
  let maxPtr := KHEAP_MAX_TOTAL_PTR block alloc free in
  let nblock := u64 (alignedPtr - KHEAP_BLOCK_DATA_SZ) in
  _ ← st 4 (nblock + 8) (KHEAP_FREE_DATA nblock maxPtr sz);
  _ ← st 4 (nblock + 4) sz;
  _ ← st 8 (nblock + 16) block;
  next ← ld 8 (block + 24);
  _ ← st 8 (nblock + 24) next;
  bnext ← ld 8 (block + 24);
  _ ← (if negb (bnext =? 0)
       then nn ← ld 8 (nblock + 24); st 8 (nn + 16) nblock
       else mret tt);
  balloc ← ld 4 (block + 4);
  _ ← st 4 (block + 8) (KHEAP_FREE_DATA block nblock balloc);
  mret nblock.

(** The [split] branch. *)
Definition kmalloc_split (block sz : Z) : M machine Z :=
  alloc ← ld 4 (block + 4);
  let nblock := KHEAP_NEW_UNALIGNED_BLOCK block alloc in
  _ ← st 4 (nblock + 4) sz;
  balloc ← ld 4 (block + 4);
  bfree ← ld 4 (block + 8);
  _ ← st 4 (nblock + 8) (KHEAP_FREE_DATA nblock (KHEAP_MAX_TOTAL_PTR block balloc bfree) sz);
  _ ← st 4 (nblock + 12) 0;
  _ ← st 8 (nblock + 16) block;
  next ← ld 8 (block + 24);
  _ ← st 8 (nblock + 24) next;
  _ ← st 8 (block + 24) nblock;
  _ ← st 4 (block + 8) 0;
  nnext ← ld 8 (nblock + 24);
  _ ← (if negb (nnext =? 0) then st 8 (nnext + 16) nblock else mret tt);
  mret nblock.

(** "Heap needs more space". *)
Definition kmalloc_extend (block csz sz : Z) : M machine Z :=
  nblock ← extendHeap csz;
  free ← ld 4 (nblock + 8);
  _ ← kassert (free >=? sz) "extendHeap() did not allocate enough memory";
  _ ← st 4 (nblock + 4) sz;
  free' ← ld 4 (nblock + 8);
  _ ← st 4 (nblock + 8) (free' - sz);
  _ ← st 8 (block + 24) nblock;
  _ ← st 8 (nblock + 16) block;
  _ ← st 4 (nblock + 12) 1;
  mret nblock.

Definition kmallocInt (fuel : nat) (sz : Z) (align : bool) : M machine Z :=
  start ← gread g_startBlock;
  let csz := u64 (sz + 8 + KHEAP_BLOCK_DATA_SZ) in
  if sz =? 0 then mret 0 else
  '(block, split) ← kmalloc_search fuel csz align start;
  _ ← checkRedzone block;
  nblock ← (if align && split then kmalloc_split_aligned block sz
            else if split then kmalloc_split block sz
            else kmalloc_extend block csz sz);
  alloc ← ld 4 (nblock + 4);
  _ ← st 8 (KHEAP_REDZONE_OFFSET nblock alloc) KHEAP_REDZONE_MAGIC;
  _ ← st 2 nblock KHEAP_MAGIC;
  mret (KHEAP_BLOCK_DATA_PTR nblock).

Definition kfreeInt (ptr : Z) : M machine unit :=
  let block := KHEAP_BLOCK_FROM_PTR ptr in
  _ ← checkMagic block;
  _ ← checkRedzone block;
  pblock ← ld 8 (block + 16);
  border ← ld 4 (block + 12);
  _ ← (if border =? 0 then
         pfree ← ld 4 (pblock + 8);
         alloc ← ld 4 (block + 4);
         free ← ld 4 (block + 8);
         st 4 (pblock + 8) (pfree + (KHEAP_BLOCK_DATA_SZ + alloc + free + 8))
       else mret tt);
  next ← ld 8 (block + 24);
  _ ← st 8 (pblock + 24) next;
  bnext ← ld 8 (block + 24);
  _ ← (if negb (bnext =? 0) then
         bprev ← ld 8 (block + 16); st 8 (bnext + 16) bprev
       else mret tt);
  _ ← st 2 block 0;
  border' ← ld 4 (block + 12);
  if border' =? 1 then shrinkHeap block else mret tt.

(** The public [kfree]. *)
Definition kfree_ (ptr : Z) : M machine unit :=
  _ ← get_lock g_kmallocLock;
  _ ← kfreeInt ptr;
  free_lock g_kmallocLock.

Definition krealloc_ (fuel : nat) (ptr sz : Z) : M machine Z :=
  _ ← get_lock g_kmallocLock;
  let block := KHEAP_BLOCK_FROM_PTR ptr in
  _ ← checkMagic block;
  _ ← checkRedzone block;
  alloc ← ld 4 (block + 4);
  if alloc =? sz then mret ptr else       (* returns without FREE_LOCK *)
  free ← ld 4 (block + 8);
  if u32 (alloc + free) >=? sz then
    let diff := if sz >? alloc then u64 (sz - alloc) else u64 (alloc - sz) in
    _ ← (if sz >? alloc then
           _ ← st 4 (block + 8) (free - diff); st 4 (block + 4) (alloc + diff)
         else
           _ ← st 4 (block + 8) (free + diff); st 4 (block + 4) (alloc - diff));
    alloc' ← ld 4 (block + 4);
    _ ← st 8 (KHEAP_REDZONE_OFFSET block alloc') KHEAP_REDZONE_MAGIC;
    _ ← free_lock g_kmallocLock;
    mret ptr
  else
  nptr ← kmallocInt fuel sz false;
  if nptr =? 0 then _ ← free_lock g_kmallocLock; mret 0 else
  alloc' ← ld 4 (block + 4);
  _ ← memcpy nptr ptr alloc';
  _ ← kfreeInt ptr;
  _ ← free_lock g_kmallocLock;
  mret nptr.

Definition kmallocWrapper (fuel : nat) (sz : Z) (align : bool) : M machine Z :=
  _ ← get_lock g_kmallocLock;
  ptr ← kmallocInt fuel sz align;
  if ptr =? 0 then _ ← free_lock g_kmallocLock; mret 0
  else _ ← free_lock g_kmallocLock; mret ptr.
End kmalloc.
