(* ===== verification/KmallocFacts.v ===== *)
(** * The kernel heap: layout invariant and allocator contract

    A heap is described by the list of its blocks (address, allocated bytes,
    free bytes).  [seg] says that memory holds such a list: consecutive
    addresses, correct links, magics and redzones.  [kmallocInt] is first fit
    over that list, and the kernel heap implements [Heap.HeapLaws]. *)

From S2P Require Import Prelude Kmonad Mem Libc Heap Kmalloc.

Record hblk := HBlk { ba : Z; bz : Z; bf : Z }.

Definition blk_end (b : hblk) : Z := ba b + 40 + bz b + bf b.

(** The header and the redzone of [b], with its neighbours in the list. *)
Definition blk_ok (m : gmap Z Z) (prev nxt : Z) (b : hblk) : Prop :=
  read_block m (ba b) = KheapBlock KHEAP_MAGIC (bz b) (bf b) 0 prev nxt ∧
  load 8 m (ba b + 32 + bz b) = KHEAP_REDZONE_MAGIC.

Definition first_of (l : list hblk) (d : Z) : Z := match l with [] => d | b :: _ => ba b end.
Definition last_of (d : Z) (l : list hblk) : Z := match last l with Some b => ba b | None => d end.

(** [l] tiles the addresses from [lo] to [e]. *)
Fixpoint seg (m : gmap Z Z) (prev lo : Z) (l : list hblk) (nxt e : Z) : Prop :=
  match l with
  | [] => lo = e
  | b :: l' => ba b = lo ∧ blk_ok m prev (first_of l' nxt) b ∧
               seg m lo (blk_end b) l' nxt e
  end.

(** The bytes of headers and redzones. *)
Definition meta_of (b : hblk) (a : Z) : Prop :=
  ba b <= a < ba b + 32 ∨ ba b + 32 + bz b <= a < ba b + 40 + bz b.

Section seg.
Implicit Types (m : gmap Z Z) (l : list hblk) (b : hblk).

Lemma blk_ok_sizes m p n b : blk_ok m p n b → 0 <= bz b < 2 ^ 32 ∧ 0 <= bf b < 2 ^ 32.
Proof.
  intros [H _]. unfold read_block in H. injection H as _ H1 H2 _ _ _.
  pose proof (load_4_range m (ba b + 4)). pose proof (load_4_range m (ba b + 8)). lia.
Qed.

Lemma blk_ok_ext m m' p n b : same_on (meta_of b) m m' → blk_ok m p n b → blk_ok m' p n b.
Proof.
  intros Hs H. pose proof (blk_ok_sizes _ _ _ _ H) as Hz. destruct H as [H1 H2].
  unfold blk_ok, read_block in *.
  assert (∀ k n, 0 <= k → k + Z.of_nat n <= 32 →
            load n m' (ba b + k) = load n m (ba b + k)) as E.
  { intros k j Hk Hj. eapply same_on_load; [exact Hs|]. intros i Hi. left. lia. }
  pose proof (E 0 2%nat) as E0. rewrite Z.add_0_r in E0.
  rewrite E0, !E by lia. split; [done|].
  rewrite <- H2. eapply same_on_load; [exact Hs|]. intros i Hi. right. lia.
Qed.

Lemma seg_app m prev lo l1 l2 nxt e :
  seg m prev lo (l1 ++ l2) nxt e ↔
  ∃ mid, seg m prev lo l1 (first_of l2 nxt) mid ∧ seg m (last_of prev l1) mid l2 nxt e.
Proof.
  revert prev lo. induction l1 as [|b l1 IH]; intros prev lo; simpl.
  - split; [intros H; by exists lo | intros (mid & -> & H); exact H].
  - assert (first_of (l1 ++ l2) nxt = first_of l1 (first_of l2 nxt)) as -> by by destruct l1.
    assert (last_of prev (b :: l1) = last_of (ba b) l1) as ->.
    { unfold last_of. rewrite last_cons. by destruct (last l1). }
    rewrite IH. split.
    + intros (<- & H & mid & H1 & H2). by exists mid.
    + intros (mid & (<- & H & H1) & H2). eauto.
Qed.

Lemma seg_le m prev lo l nxt e : seg m prev lo l nxt e → lo + 40 * Z.of_nat (length l) <= e.
Proof.
  revert prev lo. induction l as [|b l IH]; intros prev lo; cbn [seg length]; [lia|].
  intros (E & H & Hs). apply IH in Hs. apply blk_ok_sizes in H. unfold blk_end in Hs. lia.
Qed.

Lemma seg_in m prev lo l nxt e b :
  seg m prev lo l nxt e → b ∈ l →
  lo <= ba b ∧ blk_end b <= e ∧ 0 <= bz b < 2 ^ 32 ∧ 0 <= bf b < 2 ^ 32.
Proof.
  revert prev lo. induction l as [|c l IH]; intros prev lo; cbn [seg]; [by intros _ ?%not_elem_of_nil|].
  intros (E & H & Hs) Hb. apply blk_ok_sizes in H. pose proof (seg_le _ _ _ _ _ _ Hs).
  apply elem_of_cons in Hb as [->|Hb]; unfold blk_end in *; [lia|].
  specialize (IH _ _ Hs Hb). lia.
Qed.

(** Two blocks of a heap are the same or do not overlap. *)
Lemma seg_disjoint m prev lo l nxt e b c :
  seg m prev lo l nxt e → b ∈ l → c ∈ l → b = c ∨ blk_end b <= ba c ∨ blk_end c <= ba b.
Proof.
  revert prev lo. induction l as [|d l IH]; intros prev lo; cbn [seg]; [by intros _ ?%not_elem_of_nil|].
  intros (E & H & Hs) Hb Hc.
  apply elem_of_cons in Hb as [->|Hb]; apply elem_of_cons in Hc as [->|Hc]; eauto.
  - pose proof (seg_in _ _ _ _ _ _ _ Hs Hc). lia.
  - pose proof (seg_in _ _ _ _ _ _ _ Hs Hb). lia.
Qed.

Lemma seg_ext m m' prev lo l nxt e :
  same_on (λ a, ∃ b, b ∈ l ∧ meta_of b a) m m' →
  seg m prev lo l nxt e → seg m' prev lo l nxt e.
Proof.
  revert prev lo. induction l as [|b l IH]; intros prev lo Hs; [done|].
  intros (E & H & Hr). split; [done|]. split.
  - eapply blk_ok_ext; [|exact H]. intros a Ha. apply Hs. exists b. split; [constructor|done].
  - eapply IH; [|exact Hr]. intros a (c & Hc & Ha). apply Hs. exists c. split; [by constructor|done].
Qed.

Lemma seg_ext_range m m' prev lo l nxt e :
  same_on (λ a, lo <= a < e) m m' → seg m prev lo l nxt e → seg m' prev lo l nxt e.
Proof.
  intros Hs H. eapply seg_ext; [|exact H]. intros a (b & Hb & Ha).
  pose proof (seg_in _ _ _ _ _ _ _ H Hb). apply Hs. unfold meta_of, blk_end in *. blia.
Qed.

(** Changing the back link of the first block. *)
Lemma seg_relink m m' prev prev' lo l nxt e :
  seg m prev lo l nxt e →
  same_on (λ a, (lo <= a < lo + 16 ∨ lo + 24 <= a < e) ∧ lo < e) m m' →
  (l ≠ [] → load 8 m' (lo + 16) = prev') →
  seg m' prev' lo l nxt e.
Proof.
  destruct l as [|b l]; [done|]. intros (E & [H1 H2] & Hr) Hs Hp. subst lo.
  pose proof (seg_le _ _ _ _ _ _ Hr) as Hle.
  pose proof (blk_ok_sizes m prev (first_of l nxt) b (conj H1 H2)) as Hz. unfold blk_end in Hle.
  assert (∀ k n, 0 <= k → (k + Z.of_nat n <= 16 ∨ 24 <= k) → k + Z.of_nat n <= e - ba b →
            load n m' (ba b + k) = load n m (ba b + k)) as L.
  { intros k j Hk Hj Hke. eapply same_on_load; [exact Hs|]. intros i Hi. blia. }
  split; [done|]. split.
  - unfold blk_ok, read_block in *. pose proof (L 0 2%nat) as L0. rewrite Z.add_0_r in L0.
    rewrite L0, (L 4), (L 8), (L 12), (L 24) by lia.
    rewrite <- Z.add_assoc in H2. rewrite <- Z.add_assoc, (L (32 + bz b)) by lia.
    split; [|done]. rewrite Hp by done. injection H1 as E1 E2 E3 E4 E5 E6. by f_equal.
  - eapply seg_ext_range; [|exact Hr]. intros a Ha. apply Hs. unfold blk_end in Ha. blia.
Qed.

Lemma seg_fun m prev lo l l' nxt e :
  seg m prev lo l nxt e → seg m prev lo l' nxt e → l = l'.
Proof.
  revert prev lo l'. induction l as [|b l IH]; intros prev lo [|c l']; cbn [seg]; [done|..].
  - intros -> (E & H & Hs). apply seg_le in Hs. apply blk_ok_sizes in H. unfold blk_end in Hs. lia.
  - intros (E & H & Hs) ->. apply seg_le in Hs. apply blk_ok_sizes in H. unfold blk_end in Hs. lia.
  - intros (E & [H _] & Hs) (E' & [H' _] & Hs'). rewrite E in H. rewrite E' in H'.
    rewrite H in H'. destruct b as [a z f], c as [a' z' f']; simpl in *. subst a a'.
    injection H' as -> -> _. f_equal. by eapply IH.
Qed.
End seg.

Lemma read_block_inv m a mg al fr bo pv nx :
  read_block m a = KheapBlock mg al fr bo pv nx →
  load 2 m a = mg ∧ load 4 m (a + 4) = al ∧ load 4 m (a + 8) = fr ∧
  load 4 m (a + 12) = bo ∧ load 8 m (a + 16) = pv ∧ load 8 m (a + 24) = nx.
Proof. unfold read_block. intros H. by injection H. Qed.

(** ** The heap between [lo] and [hi] *)

Section layout.
Context (lo hi : Z).

Record layout (s : machine) (l : list hblk) : Prop := {
  layout_start : globals s g_startBlock = lo;
  layout_ne : l ≠ [];
  layout_seg : seg (memory s) 0 lo l 0 hi;
  layout_lo : 0 < lo;
  layout_hi : hi < 2 ^ 63;
  layout_size : hi - lo < 2 ^ 32;
  layout_pos : Forall (λ b, 0 < bz b) (tail l)
}.

(** The live allocations: every block but the one at the start of the heap. *)
Definition lives (l : list hblk) (L : gmap Z Z) : Prop :=
  ∀ p z, L !! p = Some z ↔ ∃ b, b ∈ tail l ∧ p = ba b + 32 ∧ z = bz b.

Definition heap_inv (s : machine) (L : gmap Z Z) : Prop :=
  globals s g_kmallocLock = 0 ∧ ∃ l, layout s l ∧ lives l L.

Definition heap_room (s : machine) (sz : Z) : Prop :=
  ∃ l, layout s l ∧ Exists (λ b, sz + 40 <= bf b) l.

Lemma layout_fun s l l' : layout s l → layout s l' → l = l'.
Proof. intros H H'. eapply seg_fun; [apply H|apply H']. Qed.
End layout.

(** ** The search *)

Lemma search_step m prev lo b l nxt e fuel csz s :
  seg m prev lo (b :: l) nxt e → memory s = m → 0 < lo → e < 2 ^ 63 →
  kmalloc_search (S fuel) csz false lo s =
  if bf b >=? csz then Ok (lo, true) s
  else if first_of l nxt =? 0 then Ok (lo, false) s
  else kmalloc_search fuel csz false (first_of l nxt) s.
Proof.
  intros (E & [H _] & _) Hm Hlo He. subst lo.
  apply read_block_inv in H as (H1 & H2 & H3 & _ & _ & H6). rewrite <- Hm in *.
  unfold kmalloc_search. cbn [iter]. unfold checkMagic. run.
  rewrite ?H1, ?Z.eqb_refl. run. rewrite H2, H3. cbn [andb negb].
  rewrite andb_true_r. destruct (bf b >=? csz); [done|]. run. rewrite H6.
  by destruct (first_of l nxt =? 0).
Qed.

Lemma search_first_fit prev lo l1 b l2 e fuel csz s :
  seg (memory s) prev lo (l1 ++ b :: l2) 0 e → 0 < lo → e < 2 ^ 63 →
  Forall (λ c, bf c < csz) l1 → csz <= bf b → (length l1 < fuel)%nat →
  kmalloc_search fuel csz false lo s = Ok (ba b, true) s.
Proof.
  revert prev lo fuel. induction l1 as [|c l1 IH]; intros prev lo [|fuel] Hs Hlo He Hl Hb Hf;
    simpl in Hf; try lia; cbn [app] in Hs.
  - erewrite search_step by done. rewrite Z.geb_leb, leb_true by lia. by destruct Hs as (-> & _).
  - apply Forall_cons in Hl as [Hc Hl]. erewrite search_step by done.
    rewrite Z.geb_leb, leb_false by lia. destruct Hs as (E & Hok & Hs).
    assert (first_of (l1 ++ b :: l2) 0 = blk_end c) as ->.
    { destruct l1; simpl in *; tauto. }
    apply blk_ok_sizes in Hok. unfold blk_end in *. rewrite eqb_false by lia.
    eapply IH; [exact Hs|lia..|done|done|lia].
Qed.

(** No block is large enough: the search stops at the last block. *)
Lemma search_no_fit prev lo l b e fuel csz s :
  seg (memory s) prev lo (l ++ [b]) 0 e → 0 < lo → e < 2 ^ 63 →
  Forall (λ c, bf c < csz) (l ++ [b]) → (length l < fuel)%nat →
  kmalloc_search fuel csz false lo s = Ok (ba b, false) s.
Proof.
  revert prev lo fuel. induction l as [|c l IH]; intros prev lo [|fuel] Hs Hlo He Hl Hf;
    simpl in Hf; try lia; cbn [app] in Hs, Hl; apply Forall_cons in Hl as [Hc Hl].
  - erewrite search_step by done. rewrite Z.geb_leb, leb_false by lia. by destruct Hs as (-> & _).
  - erewrite search_step by done. rewrite Z.geb_leb, leb_false by lia. destruct Hs as (E & Hok & Hs).
    assert (first_of (l ++ [b]) 0 = blk_end c) as ->.
    { destruct l; simpl in *; tauto. }
    apply blk_ok_sizes in Hok. unfold blk_end in *. rewrite eqb_false by lia.
    eapply IH; [exact Hs|lia..|done|lia].
Qed.

Lemma Exists_first {A} (P : A → Prop) `{∀ x, Decision (P x)} l :
  Exists P l → ∃ l1 x l2, l = l1 ++ x :: l2 ∧ Forall (λ y, ¬ P y) l1 ∧ P x.
Proof.
  induction l as [|y l IH]; intros He; [by apply Exists_nil in He|].
  destruct (decide (P y)) as [Hy|Hy]; [by exists [], y, l|].
  apply Exists_cons in He as [?|He]; [done|].
  destruct (IH He) as (l1 & x & l2 & -> & Hl & Hx). exists (y :: l1), x, l2. naive_solver.
Qed.

(** ** Splitting a block *)

(** The addresses an allocation from [l] may write: headers, redzones and free
    bytes.  The data of the live blocks is not among them. *)
Definition writable (l : list hblk) (a : Z) : Prop :=
  ∃ c, c ∈ l ∧ (ba c <= a < ba c + 32 ∨ ba c + 32 + bz c <= a < blk_end c).

Section split.
Context `{VmemOps} (lo hi : Z).

Lemma kmalloc_split_ok s l1 b l2 sz :
  layout lo hi s (l1 ++ b :: l2) → 0 < sz → sz + 40 <= bf b →
  let nb := ba b + 40 + bz b in
  let nx := first_of l2 0 in
  wp (kmalloc_split (ba b) sz) (λ r s', ∃ m',
    r = nb ∧ s' = set_memory m' s ∧
    read_block m' (ba b) = KheapBlock KHEAP_MAGIC (bz b) 0 0 (last_of 0 l1) nb ∧
    (∃ mg, read_block m' nb = KheapBlock mg sz (bf b - 40 - sz) 0 (ba b) nx) ∧
    (l2 ≠ [] → load 8 m' (nx + 16) = nb) ∧
    same_on (λ a, ¬ (ba b + 8 <= a < ba b + 32) ∧ ¬ (nb <= a < nb + 32) ∧
                  ¬ (l2 ≠ [] ∧ nx + 16 <= a < nx + 24)) (memory s) m') s.
Proof.
  intros [_ _ Hseg Hlo Hhi Hsz _] Hp Hf nb nx.
  apply seg_app in Hseg as (mid & Hl1 & (E & Hok & Hr)). subst mid.
  pose proof (seg_le _ _ _ _ _ _ Hl1) as Hle1.
  pose proof (blk_ok_sizes _ _ _ _ Hok) as Hz.
  pose proof (seg_le _ _ _ _ _ _ Hr) as Hle. unfold blk_end in Hle, Hr.
  destruct Hok as [Hb _]. apply read_block_inv in Hb as (B1 & B2 & B3 & B4 & B5 & B6).
  assert (l2 = [] ∧ nx = 0 ∨ l2 ≠ [] ∧ nb + 40 <= nx ∧ nx + 40 <= hi) as Hnx.
  { subst nx nb. destruct l2 as [|c l2]; [by left|right]. simpl in *.
    destruct Hr as (E & _). split_and!; [done|lia..]. }
  fold nx in B6. assert (0 < ba b) as Hb0 by lia.
  assert (nb = ba b + 40 + bz b) as Hnb by done. clearbody nb nx.
  assert (KHEAP_NEW_UNALIGNED_BLOCK (ba b) (bz b) = nb) as Enb.
  { unfold KHEAP_NEW_UNALIGNED_BLOCK, KHEAP_MAX_ALLOC_PTR. wrap. lia. }
  assert (KHEAP_FREE_DATA nb (KHEAP_MAX_TOTAL_PTR (ba b) (bz b) (bf b)) sz = bf b - 40 - sz) as Ef.
  { unfold KHEAP_FREE_DATA, KHEAP_MAX_TOTAL_PTR. wrap. lia. }
  unfold kmalloc_split. wp_steps. rewrite B2, Enb. wp_steps. cbn [memory set_memory].
  mem. rewrite B2, B3, Ef. mem. rewrite B6.
  wrap. destruct Hnx as [[-> ->]|(Hl2 & Hn1 & Hn2)].
  - cbn [Z.eqb negb]. wp_steps. cbn [memory set_memory].
    eexists. split_and!; [done|done|..].
    + unfold read_block. mem_wrap. by rewrite B1, B2, B4, B5.
    + eexists. unfold read_block. mem_wrap. reflexivity.
    + done.
    + intros a Ha. by rewrite !mbyte_store_ne by lia.
  - rewrite eqb_false by lia. cbn [negb]. wp_steps. cbn [memory set_memory].
    eexists. split_and!; [done|done|..].
    + unfold read_block. mem_wrap. by rewrite B1, B2, B4, B5.
    + eexists. unfold read_block. mem_wrap. reflexivity.
    + intros _. mem_wrap. done.
    + intros a (Ha1 & Ha2 & Ha3). assert (¬ nx + 16 <= a < nx + 24) by naive_solver.
      by rewrite !mbyte_store_ne by lia.
Qed.

(** The two blocks a split leaves, and the block a merge leaves. *)
Definition split_fst (b : hblk) : hblk := HBlk (ba b) (bz b) 0.
Definition split_snd (b : hblk) (sz : Z) : hblk :=
  HBlk (ba b + 40 + bz b) sz (bf b - 40 - sz).
Definition merged (b c : hblk) : hblk := HBlk (ba b) (bz b) (bf b + 40 + bz c + bf c).

Lemma first_of_app l b l' d : first_of (l ++ b :: l') d = first_of (l ++ [b]) d.
Proof. by destruct l. Qed.

Lemma elem_of_tail_app (l1 : list hblk) b X x :
  x ∈ tail (l1 ++ b :: X) ↔ (x ∈ tail l1 ∨ l1 ≠ [] ∧ x = b) ∨ x ∈ X.
Proof.
  destruct l1 as [|c l1]; simpl.
  - split; [by right | intros [[H0%not_elem_of_nil|[? _]]|]; done].
  - rewrite elem_of_app, elem_of_cons. naive_solver.
Qed.

Lemma split_seg m0 m2 l1 b l2 sz prev :
  seg m0 prev lo (l1 ++ b :: l2) 0 hi → 0 < sz → sz + 40 <= bf b →
  let nb := ba b + 40 + bz b in
  read_block m2 (ba b) = KheapBlock KHEAP_MAGIC (bz b) 0 0 (last_of prev l1) nb →
  read_block m2 nb = KheapBlock KHEAP_MAGIC sz (bf b - 40 - sz) 0 (ba b) (first_of l2 0) →
  load 8 m2 (nb + 32 + sz) = KHEAP_REDZONE_MAGIC →
  (l2 ≠ [] → load 8 m2 (first_of l2 0 + 16) = nb) →
  same_on (λ a, ¬ (ba b + 8 <= a < ba b + 32) ∧ ¬ (nb <= a < nb + 40 + sz) ∧
                ¬ (l2 ≠ [] ∧ first_of l2 0 + 16 <= a < first_of l2 0 + 24)) m0 m2 →
  seg m2 prev lo (l1 ++ split_fst b :: split_snd b sz :: l2) 0 hi.
Proof.
  intros Hs Hp Hf nb Hb' Hn Hrz Hl2 Hsame. apply seg_app in Hs as (mid & H1 & E & Hok & H2).
  subst mid. pose proof (seg_le _ _ _ _ _ _ H2) as Hle.
  pose proof (blk_ok_sizes _ _ _ _ Hok) as Hz. unfold blk_end in *.
  assert (l2 ≠ [] → first_of l2 0 = ba b + 40 + bz b + bf b) as Hf2.
  { destruct l2; [done|]. by destruct H2. }
  assert (blk_ok m2 (last_of prev l1) nb (split_fst b)) as Hb1.
  { split; [exact Hb'|]. destruct Hok as [_ Hr]. rewrite <- Hr. cbn [ba bz split_fst].
    eapply same_on_load; [exact Hsame|]. intros i Hi. unfold nb.
    split_and!; [lia..|]. intros [? ?]. rewrite Hf2 in * by done. lia. }
  apply seg_app. exists (ba b). split.
  { eapply seg_ext_range; [|exact H1]. intros a Ha'. apply Hsame.
    split_and!; [blia..|]. intros [? ?]. rewrite Hf2 in * by done. blia. }
  split; [done|]. split; [exact Hb1|].
  split; [unfold blk_end; cbn; lia|]. split; [by split|].
  unfold blk_end; cbn [ba bz bf split_fst split_snd].
  replace (ba b + 40 + bz b + 40 + sz + (bf b - 40 - sz))
    with (ba b + 40 + bz b + bf b) by lia.
  eapply seg_relink; [exact H2| |].
  - intros a Ha'. apply Hsame. unfold nb. split_and!; [blia..|].
    intros [? ?]. rewrite Hf2 in * by done. blia.
  - intros Hne. rewrite <- Hf2 by done. replace (ba b + 40 + bz b + 0) with nb by lia. by apply Hl2.
Qed.

Lemma layout_seg_in s l b :
  layout lo hi s l → b ∈ l → lo <= ba b ∧ blk_end b <= hi ∧ 0 <= bz b < 2 ^ 32 ∧ 0 <= bf b < 2 ^ 32.
Proof. intros [_ _ Hs _ _ _ _]. by eapply seg_in. Qed.

Lemma Forall_tail_split (P : hblk → Prop) l1 b b' X :
  (P b → P b') → Forall P X → Forall P (tail (l1 ++ [b])) → Forall P (tail (l1 ++ b' :: X)).
Proof.
  intros HP HX. destruct l1 as [|c l1]; simpl; [done|].
  rewrite !Forall_app, !Forall_cons. naive_solver.
Qed.

(** The layout after a split, and what the split may have written. *)
Lemma split_layout s l1 b l2 sz m2 :
  layout lo hi s (l1 ++ b :: l2) → 0 < sz → sz + 40 <= bf b →
  let nb := ba b + 40 + bz b in
  read_block m2 (ba b) = KheapBlock KHEAP_MAGIC (bz b) 0 0 (last_of 0 l1) nb →
  read_block m2 nb = KheapBlock KHEAP_MAGIC sz (bf b - 40 - sz) 0 (ba b) (first_of l2 0) →
  load 8 m2 (nb + 32 + sz) = KHEAP_REDZONE_MAGIC →
  (l2 ≠ [] → load 8 m2 (first_of l2 0 + 16) = nb) →
  same_on (λ a, ¬ (ba b + 8 <= a < ba b + 32) ∧ ¬ (nb <= a < nb + 40 + sz) ∧
                ¬ (l2 ≠ [] ∧ first_of l2 0 + 16 <= a < first_of l2 0 + 24)) (memory s) m2 →
  layout lo hi (set_memory m2 s) (l1 ++ split_fst b :: split_snd b sz :: l2).
Proof.
  intros [Hst _ Hseg Hlo Hhi Hsz Hpos] Hp Hf nb R1 R2 R3 R4 R5.
  split; [done|by destruct l1|by eapply split_seg|done|done|done|].
  apply (Forall_tail_split _ l1 b); [done| |].
  - constructor; [done|]. by destruct l1; simpl in Hpos; [|apply Forall_app in Hpos as [_ [_ ?]%Forall_cons]].
  - destruct l1; simpl in *; [done|]. apply Forall_app in Hpos as [? [? _]%Forall_cons].
    apply Forall_app; by split; [|constructor].
Qed.

Lemma split_frame s l1 b l2 sz m2 :
  layout lo hi s (l1 ++ b :: l2) → 0 < sz → sz + 40 <= bf b →
  let nb := ba b + 40 + bz b in
  same_on (λ a, ¬ (ba b + 8 <= a < ba b + 32) ∧ ¬ (nb <= a < nb + 40 + sz) ∧
                ¬ (l2 ≠ [] ∧ first_of l2 0 + 16 <= a < first_of l2 0 + 24)) (memory s) m2 →
  same_on (λ a, ¬ writable (l1 ++ b :: l2) a) (memory s) m2.
Proof.
  intros HL Hp Hf nb Hs a Ha.
  assert (b ∈ l1 ++ b :: l2) as Hb by (rewrite elem_of_app, elem_of_cons; tauto).
  pose proof (layout_seg_in s _ b HL Hb) as Hin.
  apply Hs. split_and!; intros Hc; apply Ha.
  - exists b. split; [done|]. lia.
  - exists b. split; [done|]. unfold blk_end, nb in *. lia.
  - destruct Hc as [Hne Hc]. destruct l2 as [|c l2]; [done|]. exists c. simpl in Hc.
    split; [rewrite elem_of_app, !elem_of_cons; tauto|lia].
Qed.

Lemma kmallocInt_ok fuel s l1 b l2 sz :
  layout lo hi s (l1 ++ b :: l2) → Forall (λ c, bf c < sz + 40) l1 → sz + 40 <= bf b →
  0 < sz → (length l1 < fuel)%nat →
  wp (kmallocInt fuel sz false) (λ p s', ∃ m',
    p = ba b + 72 + bz b ∧ s' = set_memory m' s ∧
    layout lo hi s' (l1 ++ split_fst b :: split_snd b sz :: l2) ∧
    same_on (λ a, ¬ writable (l1 ++ b :: l2) a) (memory s) m' ∧
    same_on (λ a, p <= a < p + sz) (memory s) m') s.
Proof.
  intros HL Hl1 Hfit Hp Hf. pose proof HL as [Hst _ Hseg Hlo Hhi Hsz Hpos].
  assert (b ∈ l1 ++ b :: l2) as Hbin by (rewrite elem_of_app, elem_of_cons; tauto).
  pose proof (seg_in _ _ _ _ _ _ _ Hseg Hbin) as Hin. unfold blk_end in Hin.
  unfold kmallocInt. wp_steps. rewrite Hst, eqb_false by lia. wrap. wp_steps.
  replace (sz + 8 + 32) with (sz + 40) by lia.
  eapply wp_eq; [eapply search_first_fit; (exact Hseg || done)|]. cbn [andb]. wp_steps.
  pose proof Hseg as (mid & _ & E & [_ Hrz] & H2)%seg_app. subst mid.
  pose proof Hseg as (mid & _ & E & Hok & _)%seg_app. subst mid.
  pose proof Hok as [(_ & B2 & _)%read_block_inv _].
  unfold checkRedzone. wp_steps. rewrite B2. unfold KHEAP_REDZONE_OFFSET at 1. wrap.
  rewrite Z.add_assoc, Hrz. apply wp_kassert; [by rewrite Z.eqb_refl|].
  wp_step. eapply wp_mono; [exact (kmalloc_split_ok s l1 b l2 sz HL Hp Hfit)|].
  intros r s' (m' & -> & -> & Rb & [mg Rn] & Hx & Hsame).
  set (nb := ba b + 40 + bz b) in *.
  assert (l2 ≠ [] → first_of l2 0 = blk_end b) as Hf2.
  { destruct l2; [done|]. by destruct H2. }
  pose proof (seg_le _ _ _ _ _ _ H2) as Hle. unfold blk_end in Hle, Hf2.
  wp_steps. cbn [memory set_memory].
  pose proof Rn as (_ & R2 & _)%read_block_inv. mem. rewrite R2.
  unfold KHEAP_REDZONE_OFFSET, KHEAP_BLOCK_DATA_PTR. wrap.
  eexists. split; [lia|]. split; [reflexivity|].
  set (m2 := store 2 _ nb KHEAP_MAGIC).
  assert (same_on (λ a, ¬ (ba b + 8 <= a < ba b + 32) ∧ ¬ (nb <= a < nb + 40 + sz) ∧
            ¬ (l2 ≠ [] ∧ first_of l2 0 + 16 <= a < first_of l2 0 + 24)) (memory s) m2) as Hs2.
  { intros a (Ha1 & Ha2 & Ha3). unfold m2. rewrite !mbyte_store_ne by lia. apply Hsame.
    split_and!; [lia..|done]. }
  split; [|split].
  - apply (split_layout s l1 b l2 sz m2 HL Hp Hfit); [| | | |exact Hs2].
    + refine (eq_trans _ Rb). unfold read_block, m2. by mem.
    + apply read_block_inv in Rn as (R1 & R2' & R3 & R4 & R5 & R6).
      unfold read_block, m2. fold nb. mem. by rewrite R2', R3, R4, R5, R6.
    + unfold m2. fold nb. replace (nb + (32 + sz)) with (nb + 32 + sz) by lia. mem. done.
    + intros Hne. specialize (Hx Hne). unfold m2. rewrite Hf2 in * by done. mem. exact Hx.
  - apply (split_frame s l1 b l2 sz m2 HL Hp Hfit Hs2).
  - intros a Ha. unfold m2, nb in *. rewrite !mbyte_store_ne by lia. apply Hsame.
    split_and!; [lia..|]. intros [Hne ?]. rewrite Hf2 in * by done. lia.
Qed.
End split.
