(* ===== verification/KmallocHeap.v ===== *)
(** * The kernel heap implements the allocator contract

    [kfree] merges a block into its predecessor, [kmalloc] and [kfree] keep the
    map of live allocations, and together they are an instance of
    [Heap.HeapLaws]. *)

From S2P Require Import Prelude Kmonad Mem Libc Heap Kmalloc KmallocFacts.

Section free.
Context `{VmemOps} (lo hi : Z).

Lemma merge_seg m0 m2 l1 b c l2 prev :
  seg m0 prev lo (l1 ++ b :: c :: l2) 0 hi → hi - lo < 2 ^ 32 →
  let nx := first_of l2 0 in
  read_block m2 (ba b) =
    KheapBlock KHEAP_MAGIC (bz b) (bf b + 40 + bz c + bf c) 0 (last_of prev l1) nx →
  (l2 ≠ [] → load 8 m2 (nx + 16) = ba b) →
  same_on (λ a, ¬ (ba b + 8 <= a < ba b + 32) ∧ ¬ (ba c <= a < ba c + 2) ∧
                ¬ (l2 ≠ [] ∧ nx + 16 <= a < nx + 24)) m0 m2 →
  seg m2 prev lo (l1 ++ merged b c :: l2) 0 hi.
Proof.
  intros Hs Hsz nx Hb Hx Hsame. apply seg_app in Hs as (mid & H1 & E & Hok & E2 & Hokc & H2).
  subst mid. pose proof (seg_le _ _ _ _ _ _ H2) as Hle.
  pose proof (blk_ok_sizes _ _ _ _ Hok) as Hz. pose proof (blk_ok_sizes _ _ _ _ Hokc) as Hzc.
  assert (l2 ≠ [] → nx = blk_end c) as Hf2.
  { unfold nx. destruct l2; [done|]. by destruct H2. }
  unfold blk_end in *.
  apply seg_app. exists (ba b). split; [|split; [done|split; [split; [exact Hb|]|]]].
  - eapply seg_ext_range; [|exact H1]. intros a Ha. apply Hsame.
    split_and!; [blia..|]. intros [? ?]. rewrite Hf2 in * by done. blia.
  - destruct Hok as [_ Hr]. rewrite <- Hr. cbn [ba bz merged].
    eapply same_on_load; [exact Hsame|]. intros i Hi.
    split_and!; [lia..|]. intros [? ?]. rewrite Hf2 in * by done. lia.
  - unfold blk_end; cbn [ba bz bf merged].
    replace (ba b + 40 + bz b + (bf b + 40 + bz c + bf c)) with (ba c + 40 + bz c + bf c) by lia.
    eapply seg_relink; [exact H2| |].
    + intros a Ha. apply Hsame. split_and!; [blia..|].
      intros [? ?]. rewrite Hf2 in * by done. blia.
    + intros Hne. rewrite <- Hf2 by done. by apply Hx.
Qed.

(** The layout after a merge, and what it may have written. *)
Lemma merge_layout s l1 b c l2 m2 :
  layout lo hi s (l1 ++ b :: c :: l2) →
  read_block m2 (ba b) =
    KheapBlock KHEAP_MAGIC (bz b) (bf b + 40 + bz c + bf c) 0 (last_of 0 l1) (first_of l2 0) →
  (l2 ≠ [] → load 8 m2 (first_of l2 0 + 16) = ba b) →
  same_on (λ a, ¬ (ba b + 8 <= a < ba b + 32) ∧ ¬ (ba c <= a < ba c + 2) ∧
        ¬ (l2 ≠ [] ∧ first_of l2 0 + 16 <= a < first_of l2 0 + 24)) (memory s) m2 →
  layout lo hi (set_memory m2 s) (l1 ++ merged b c :: l2) ∧
  same_on (λ a, ¬ writable (l1 ++ b :: c :: l2) a) (memory s) m2.
Proof.
  intros [Hst _ Hseg Hlo Hhi Hsz Hpos] R1 R2 R3. split.
  - split; [done|by destruct l1|by eapply merge_seg|done|done|done|].
    destruct l1 as [|d l1]; simpl in *; [by apply Forall_cons in Hpos as [_ ?]|].
    rewrite !Forall_app, !Forall_cons in *. naive_solver.
  - intros a Ha. apply R3. split_and!; intros Hc; apply Ha.
    + exists b. split; [rewrite elem_of_app, !elem_of_cons; tauto|lia].
    + exists c. split; [rewrite elem_of_app, !elem_of_cons; tauto|lia].
    + destruct Hc as [Hne Hc]. destruct l2 as [|d l2]; [done|]. exists d. simpl in Hc.
      split; [rewrite elem_of_app, !elem_of_cons; tauto|lia].
Qed.

Lemma kfreeInt_ok s l1 b c l2 :
  layout lo hi s (l1 ++ b :: c :: l2) →
  wp (kfreeInt (ba c + 32)) (λ _ s', ∃ m',
    s' = set_memory m' s ∧ layout lo hi s' (l1 ++ merged b c :: l2) ∧
    same_on (λ a, ¬ writable (l1 ++ b :: c :: l2) a) (memory s) m' ∧
    load 2 m' (ba c) = 0) s.
Proof.
  intros HL. pose proof HL as [Hst _ Hseg Hlo Hhi Hsz Hpos].
  pose proof Hseg as (mid & Hl1 & E & Hok & E2 & Hokc & H2)%seg_app. subst mid.
  pose proof (seg_le _ _ _ _ _ _ H2) as Hle. pose proof (seg_le _ _ _ _ _ _ Hl1) as Hle1.
  pose proof (blk_ok_sizes _ _ _ _ Hok) as Hz. pose proof (blk_ok_sizes _ _ _ _ Hokc) as Hzc.
  pose proof (read_block_inv _ _ _ _ _ _ _ _ (proj1 Hok)) as (B1 & B2 & B3 & B4 & B5 & B6).
  destruct Hokc as [(C1 & C2 & C3 & C4 & C5 & C6)%read_block_inv Hrz].
  unfold blk_end in *. cbn [first_of] in *.
  assert (l2 = [] ∧ first_of l2 0 = 0 ∨ l2 ≠ [] ∧ first_of l2 0 = ba c + 40 + bz c + bf c ∧
          first_of l2 0 + 40 <= hi) as Hnx.
  { destruct l2 as [|d l2]; [by left|right]. destruct H2 as (E3 & _). cbn [first_of length] in *.
    split_and!; [done|lia..]. }
  pose proof (merge_layout s l1 b c l2) as Hfin.
  unfold kfreeInt, KHEAP_BLOCK_FROM_PTR. rewrite (u64_id (ba c + 32 - 32)) by lia.
  rewrite Z.add_simpl_r. unfold checkMagic, checkRedzone, KHEAP_REDZONE_OFFSET.
  wp_steps. rewrite C1. apply wp_kassert; [done|]. wp_steps. rewrite C2. wrap.
  rewrite Z.add_assoc, Hrz. apply wp_kassert; [done|]. wp_steps.
  rewrite C4, C5. cbn [Z.eqb]. wp_steps. rewrite B3, C2, C3. cbn [memory set_memory].
  mem. rewrite C6. wrap.
  destruct Hnx as [[-> E0]|(Hl2 & E0 & Hn2)].
  - rewrite E0 in *. cbn [Z.eqb negb]. wp_steps. cbn [memory set_memory]. mem. rewrite C4.
    cbn [Z.eqb]. wp_steps. eexists. split; [reflexivity|].
    apply Logic.and_assoc. split; [apply Hfin; [done| |done|]|by mem].
    + unfold read_block. mem. wrap. rewrite B1, B2, B4, B5. f_equal; lia.
    + intros a Ha. by rewrite !mbyte_store_ne by lia.
  - rewrite eqb_false by lia. cbn [negb]. wp_steps. cbn [memory set_memory]. mem. rewrite C5, C4.
    cbn [Z.eqb]. wp_steps. eexists. split; [reflexivity|].
    apply Logic.and_assoc. split; [apply Hfin; [done|..]|by mem].
    + unfold read_block. mem. wrap. rewrite B1, B2, B4, B5. f_equal; lia.
    + intros _. mem. wrap. done.
    + intros a (Ha1 & Ha2 & Ha3). assert (¬ first_of l2 0 + 16 <= a < first_of l2 0 + 24) by naive_solver.
      by rewrite !mbyte_store_ne by lia.
Qed.
End free.

(** ** The map of live allocations *)

Section lives.
Context (lo hi : Z).
Implicit Types (s : machine) (l : list hblk) (L : gmap Z Z).

Lemma elem_of_tail (x : hblk) l : x ∈ tail l → x ∈ l.
Proof. destruct l; simpl; [done|by right]. Qed.

Lemma elem_of_tail_split (c : hblk) l : c ∈ tail l → ∃ l1 b l2, l = l1 ++ b :: c :: l2.
Proof.
  intros Hc. destruct l as [|b l]; [by apply not_elem_of_nil in Hc|].
  apply list_elem_of_split in Hc as (k1 & k2 & E). simpl in E. subst l.
  destruct k1 as [|x k1 _] using rev_ind; [by exists [], b, k2|].
  exists (b :: k1), x, k2. by rewrite <- app_assoc.
Qed.

Lemma layout_same_block s l b c : layout lo hi s l → b ∈ l → c ∈ l → ba b = ba c → b = c.
Proof.
  intros HL Hb Hc E. pose proof (layout_seg_in lo hi s l b HL Hb).
  pose proof (layout_seg_in lo hi s l c HL Hc). unfold blk_end in *.
  pose proof (layout_seg _ _ _ _ HL) as Hs.
  destruct (seg_disjoint _ _ _ _ _ _ b c Hs Hb Hc) as [|[?|?]]; [done|unfold blk_end in *; lia..].
Qed.

Lemma lives_owned s l L a :
  layout lo hi s l → lives l L → owned L a → lo <= a < hi ∧ ¬ writable l a.
Proof.
  intros HL Hv (p & z & Hp & Ha). apply Hv in Hp as (b & Hb & -> & ->).
  pose proof (layout_seg_in lo hi s l b HL (elem_of_tail _ _ Hb)) as Hin. unfold blk_end in Hin.
  split; [lia|]. intros (c & Hc & Hac).
  pose proof (layout_seg_in lo hi s l c HL Hc) as Hinc.
  pose proof (layout_seg _ _ _ _ HL) as Hs.
  destruct (seg_disjoint _ _ _ _ _ _ b c Hs (elem_of_tail _ _ Hb) Hc) as [->|[?|?]];
    unfold blk_end in *; lia.
Qed.

Lemma lives_split s l1 b l2 L sz :
  layout lo hi s (l1 ++ b :: l2) → lives (l1 ++ b :: l2) L → 0 < sz → sz + 40 <= bf b →
  L !! (ba b + 72 + bz b) = None ∧
  lives (l1 ++ split_fst b :: split_snd b sz :: l2) (<[ba b + 72 + bz b := sz]> L).
Proof.
  intros HL Hv Hp Hf.
  assert (b ∈ l1 ++ b :: l2) as Hb by (rewrite elem_of_app, elem_of_cons; tauto).
  pose proof (layout_seg_in lo hi s _ b HL Hb) as Hin.
  assert (L !! (ba b + 72 + bz b) = None) as HN.
  { destruct (L !! (ba b + 72 + bz b)) as [z|] eqn:E; [|done].
    apply Hv in E as (c & Hc & E & _).
    pose proof (layout_seg_in lo hi s _ c HL (elem_of_tail _ _ Hc)).
    pose proof (layout_seg _ _ _ _ HL) as Hs.
    destruct (seg_disjoint _ _ _ _ _ _ b c Hs Hb (elem_of_tail _ _ Hc)) as [->|[?|?]];
      unfold blk_end in *; lia. }
  split; [done|]. intros p z.
  destruct (decide (p = ba b + 72 + bz b)) as [->|Hne].
  - rewrite lookup_insert_eq. split.
    + intros [= <-]. exists (split_snd b sz). rewrite elem_of_tail_app, elem_of_cons.
      cbn. split_and!; [tauto|lia|done].
    + intros (c & Hc & E & ->). rewrite elem_of_tail_app, elem_of_cons in Hc.
      destruct Hc as [[Hc|[_ ->]]|[->|Hc]]; [| cbn in E; lia | done |]; exfalso;
        (assert (L !! (ba b + 72 + bz b) = Some (bz c)); [|congruence]);
        apply Hv; exists c; rewrite elem_of_tail_app; auto.
  - rewrite lookup_insert_ne by done. rewrite (Hv p z). split; intros (c & Hc & -> & ->).
    + apply elem_of_tail_app in Hc as [[Hc|[Hl ->]]|Hc].
      * exists c. rewrite elem_of_tail_app. auto.
      * exists (split_fst b). rewrite elem_of_tail_app. auto.
      * exists c. rewrite elem_of_tail_app, elem_of_cons. auto.
    + rewrite elem_of_tail_app, elem_of_cons in Hc. destruct Hc as [[Hc|[Hl ->]]|[->|Hc]].
      * exists c. rewrite elem_of_tail_app. auto.
      * exists b. rewrite elem_of_tail_app. auto.
      * cbn in Hne. lia.
      * exists c. rewrite elem_of_tail_app. auto.
Qed.

Lemma lives_merge s l1 b c l2 L :
  layout lo hi s (l1 ++ b :: c :: l2) → lives (l1 ++ b :: c :: l2) L →
  lives (l1 ++ merged b c :: l2) (delete (ba c + 32) L).
Proof.
  intros HL Hv p z. pose proof HL as [_ _ Hs _ _ _ _].
  apply seg_app in Hs as (mid & H1 & E & Hok & E2 & Hokc & H2). subst mid.
  pose proof (blk_ok_sizes _ _ _ _ Hok). pose proof (blk_ok_sizes _ _ _ _ Hokc).
  unfold blk_end in *.
  assert (∀ d, d ∈ tail l1 ∨ d ∈ l2 → ba d ≠ ba c) as Hne.
  { intros d [Hd|Hd].
    - pose proof (seg_in _ _ _ _ _ _ _ H1 (elem_of_tail _ _ Hd)). unfold blk_end in *. lia.
    - pose proof (seg_in _ _ _ _ _ _ _ H2 Hd). lia. }
  destruct (decide (p = ba c + 32)) as [->|Hp].
  - rewrite lookup_delete_eq. split; [done|]. intros (d & Hd & E3 & _).
    apply elem_of_tail_app in Hd as [[Hd|[Hl ->]]|Hd]; [|cbn in E3; lia|];
      (assert (ba d ≠ ba c) by auto; lia).
  - rewrite lookup_delete_ne by done. rewrite (Hv p z). split; intros (d & Hd & -> & ->).
    + rewrite elem_of_tail_app, elem_of_cons in Hd. destruct Hd as [[Hd|[Hl ->]]|[->|Hd]]; [| |done|].
      * exists d. rewrite elem_of_tail_app. auto.
      * exists (merged b c). rewrite elem_of_tail_app. auto.
      * exists d. rewrite elem_of_tail_app. auto.
    + apply elem_of_tail_app in Hd as [[Hd|[Hl ->]]|Hd].
      * exists d. rewrite elem_of_tail_app. auto.
      * exists b. rewrite elem_of_tail_app. auto.
      * exists d. rewrite elem_of_tail_app, elem_of_cons. auto.
Qed.
End lives.

(** ** The instance *)

(** The entry points of kmalloc.c; [kmalloc_fuel] bounds the search loop. *)
Definition kheap_ops `{VmemOps} (kmalloc_fuel : nat) : HeapOps := {|
  Heap.kmalloc := λ sz, kmallocWrapper kmalloc_fuel sz false;
  Heap.kmallocAligned := λ sz, kmallocWrapper kmalloc_fuel sz true;
  Heap.kfree := kfree_;
  Heap.krealloc := krealloc_ kmalloc_fuel
|}.

Definition kheap_global (g : gvar) : Prop := g = g_startBlock ∨ g = g_kmallocLock.

Section contract.
Context `{VmemOps} (lo hi : Z).
Implicit Types (s : machine) (L : gmap Z Z).

Lemma layout_set_global s l g v :
  g ≠ g_startBlock → layout lo hi s l → layout lo hi (set_global g v s) l.
Proof. intros Hg []. split; [by rewrite globals_set_global_ne by congruence|done..]. Qed.

Lemma heap_inv_live s L p z :
  heap_inv lo hi s L → L !! p = Some z →
  0 < p ∧ 0 < z ∧ p + z < 2 ^ 63 ∧ ∀ a, p <= a < p + z → lo <= a < hi.
Proof.
  intros (_ & l & HL & Hv) (b & Hb & -> & ->)%Hv.
  pose proof (layout_seg_in lo hi s l b HL (elem_of_tail _ _ Hb)) as Hin. unfold blk_end in *.
  destruct HL as [_ _ _ ? ? ? Hpos]. rewrite Forall_forall in Hpos.
  specialize (Hpos b Hb). split_and!; [lia..|]. intros a Ha. lia.
Qed.

Lemma heap_inv_disjoint s L p q z w :
  heap_inv lo hi s L → L !! p = Some z → L !! q = Some w → p ≠ q → p + z <= q ∨ q + w <= p.
Proof.
  intros (_ & l & HL & Hv) (b & Hb & -> & ->)%Hv (c & Hc & -> & ->)%Hv Hne.
  pose proof (layout_seg_in lo hi s l b HL (elem_of_tail _ _ Hb)).
  pose proof (layout_seg_in lo hi s l c HL (elem_of_tail _ _ Hc)).
  pose proof (layout_seg _ _ _ _ HL) as Hs. unfold blk_end in *.
  destruct (seg_disjoint _ _ _ _ _ _ b c Hs (elem_of_tail _ _ Hb) (elem_of_tail _ _ Hc))
    as [->|[?|?]]; [done|unfold blk_end in *; lia..].
Qed.

(** Headers and redzones belong to no live allocation. *)
Lemma meta_not_owned s l L b a :
  layout lo hi s l → lives l L → b ∈ l → meta_of b a → lo <= a < hi ∧ ¬ owned L a.
Proof.
  intros HL Hv Hb Ha. pose proof (layout_seg_in lo hi s l b HL Hb) as Hin.
  unfold meta_of, blk_end in *. split; [lia|].
  intros Ho. destruct (lives_owned lo hi s l L a HL Hv Ho) as [_ Hw]. apply Hw.
  exists b. unfold blk_end. split; [done|lia].
Qed.

Lemma layout_frame s s' l L :
  layout lo hi s l → lives l L → globals s' g_startBlock = globals s g_startBlock →
  same_on (λ a, lo <= a < hi ∧ ¬ owned L a) (memory s) (memory s') → layout lo hi s' l.
Proof.
  intros HL Hv Hg Hm. pose proof HL as [? ? Hs ? ? ? ?].
  split; [congruence|done| |done..]. eapply seg_ext; [|exact Hs].
  intros a (b & Hb & Ha). apply Hm. by eapply meta_not_owned.
Qed.

Lemma heap_inv_frame s s' L :
  heap_inv lo hi s L → (∀ g, kheap_global g → globals s' g = globals s g) →
  same_on (λ a, lo <= a < hi ∧ ¬ owned L a) (memory s) (memory s') →
  heap_inv lo hi s' L ∧ ∀ sz, heap_room lo hi s sz → heap_room lo hi s' sz.
Proof.
  intros (Hk & l & HL & Hv) Hg Hm. unfold kheap_global in Hg.
  assert (layout lo hi s' l) as HL' by (eapply layout_frame; eauto).
  split; [split; [rewrite Hg by auto; done|by exists l]|].
  intros sz (l' & HL2 & He). exists l. split; [done|].
  by rewrite (layout_fun lo hi s l l' HL HL2).
Qed.

Lemma kfree_ok s L p z :
  heap_inv lo hi s L → L !! p = Some z →
  wp (kfree_ p) (λ _ s',
    heap_inv lo hi s' (delete p L) ∧
    same_on (λ a, owned (delete p L) a ∨ ¬ (lo <= a < hi)) (memory s) (memory s') ∧
    (∀ g, ¬ kheap_global g → globals s' g = globals s g) ∧
    serial s' = serial s) s.
Proof.
  intros (Hk & l & HL & Hv) (c & Hc & -> & ->)%Hv.
  apply elem_of_tail_split in Hc as (l1 & b & l2 & ->).
  pose proof (lives_merge lo hi s l1 b c l2 L HL Hv) as Hv'.
  unfold kfree_. wp_step. apply wp_get_lock; [done|]. wp_step.
  eapply wp_mono; [eapply kfreeInt_ok; by apply layout_set_global|].
  intros [] s' (m' & -> & HL' & Hm & _). wp_steps. split_and!.
  - split; [done|]. eexists. split; [|exact Hv']. by apply layout_set_global.
  - intros a [Ha|Ha]; apply Hm.
    + eapply lives_owned; [exact HL|exact Hv|]. destruct Ha as (q & w & Hq & Haq).
      apply lookup_delete_Some in Hq as [_ Hq]. by exists q, w.
    + intros (d & Hd & Had). pose proof (layout_seg_in lo hi s _ d HL Hd). unfold blk_end in *. lia.
  - intros g Hg. unfold kheap_global in Hg. rewrite globals_set_global_ne by tauto.
    rewrite globals_set_memory. rewrite globals_set_global_ne by tauto. done.
  - done.
Qed.

Lemma heap_room_le s sz sz' : sz' <= sz → heap_room lo hi s sz → heap_room lo hi s sz'.
Proof.
  intros Hle (l & HL & He). exists l. split; [done|]. eapply Exists_impl; [exact He|]. cbv beta. lia.
Qed.

(** A split takes the size and 40 bytes from one block. *)
Lemma room_after_split l1 b l2 sz k :
  0 <= sz → Exists (λ c, sz + 40 + k + 40 <= bf c) (l1 ++ b :: l2) →
  Exists (λ c, k + 40 <= bf c) (l1 ++ split_fst b :: split_snd b sz :: l2).
Proof.
  intros Hsz. rewrite !Exists_app, !Exists_cons. intros [He|[He|He]].
  - left. eapply Exists_impl; [exact He|]. cbv beta. lia.
  - right; right; left. cbn. lia.
  - right; right; right. eapply Exists_impl; [exact He|]. cbv beta. lia.
Qed.

(** Fuel for every block the heap can hold. *)
Context (fuel : nat) (Hfuel : hi - lo < 40 * Z.of_nat fuel).

Lemma kmallocWrapper_ok s L sz :
  heap_inv lo hi s L → heap_room lo hi s sz → 0 < sz →
  wp (kmallocWrapper fuel sz false) (λ p s',
    L !! p = None ∧ heap_inv lo hi s' (<[p := sz]> L) ∧
    same_on (λ a, owned L a ∨ ¬ (lo <= a < hi)) (memory s) (memory s') ∧
    (∀ g, ¬ kheap_global g → globals s' g = globals s g) ∧
    serial s' = serial s ∧
    ∀ k, heap_room lo hi s (sz + 40 + k) → heap_room lo hi s' k) s.
Proof.
  intros (Hk & l & HL & Hv) (l' & HL2 & He) Hp.
  rewrite <- (layout_fun lo hi s l l' HL HL2) in He. clear l' HL2.
  apply Exists_first in He as (l1 & b & l2 & -> & Hl1 & Hfit); [|intros; apply _].
  assert ((length l1 < fuel)%nat) as Hf.
  { pose proof (seg_le _ _ _ _ _ _ (layout_seg _ _ _ _ HL)) as Hle.
    rewrite length_app in Hle. cbn [length] in Hle. lia. }
  assert (Forall (λ c, bf c < sz + 40) l1) as Hl1'.
  { eapply Forall_impl; [exact Hl1|]. cbv beta. lia. }
  pose proof (lives_split lo hi s l1 b l2 L sz HL Hv Hp Hfit) as [HN Hv'].
  unfold kmallocWrapper. wp_step. apply wp_get_lock; [done|]. wp_step.
  eapply wp_mono; [eapply kmallocInt_ok; [by apply layout_set_global|done..]|].
  intros p s' (m' & -> & -> & HL' & Hm & _).
  assert (b ∈ l1 ++ b :: l2) as Hb by (rewrite elem_of_app, elem_of_cons; tauto).
  pose proof (layout_seg_in lo hi s _ b HL Hb) as Hin. pose proof (layout_lo _ _ _ _ HL).
  rewrite eqb_false by lia. wp_steps. split_and!.
  - done.
  - split; [done|]. eexists. split; [|exact Hv']. by apply layout_set_global.
  - intros a Ha. apply Hm. destruct Ha as [Ha|Ha].
    + by eapply lives_owned.
    + intros (c & Hc & Hac). pose proof (layout_seg_in lo hi s _ c HL Hc). unfold blk_end in *. lia.
  - intros g Hg. unfold kheap_global in Hg. rewrite globals_set_global_ne by tauto.
    rewrite globals_set_memory. rewrite globals_set_global_ne by tauto. done.
  - done.
  - intros k (l' & HL2 & He). rewrite <- (layout_fun lo hi s _ l' HL HL2) in He.
    eexists. split; [by apply layout_set_global|]. apply room_after_split; [lia|exact He].
Qed.

(** The kernel heap is an allocator. *)
Definition kheap_laws : @HeapLaws (kheap_ops fuel).
Proof.
  refine (@Build_HeapLaws (kheap_ops fuel) (λ a, lo <= a < hi) kheap_global
            (KmallocFacts.heap_inv lo hi) (KmallocFacts.heap_room lo hi) 40 _ _ _ _ _ _ _).
  - exact heap_inv_live.
  - exact heap_inv_disjoint.
  - exact heap_inv_frame.
  - exact heap_room_le.
  - lia.
  - exact kmallocWrapper_ok.
  - exact kfree_ok.
Defined.
End contract.
