(* ===== verification/KmallocRealloc.v ===== *)
(** * krealloc

    [krealloc] resizes a block inside its own space when the bytes after it are
    free, and otherwise allocates a new block, copies and frees the old one.
    Both ways keep the layout of the heap; the proofs compose the lemmas of
    KmallocFacts and KmallocHeap. *)

From S2P Require Import Prelude Kmonad Mem Libc Heap Kmalloc KmallocFacts KmallocHeap.

(** The block [c] with [sz] bytes allocated; its space is unchanged. *)
Definition resized (c : hblk) (sz : Z) : hblk := HBlk (ba c) sz (bz c + bf c - sz).

Section layout.
Context (lo hi : Z).
Implicit Types (s : machine) (l : list hblk) (L : gmap Z Z).

(** The middle of a layout: a block, its links and its place. *)
Lemma layout_block s l1 b c l2 :
  layout lo hi s (l1 ++ b :: c :: l2) →
  blk_ok (memory s) (ba b) (first_of l2 0) c ∧ lo + 40 <= ba c ∧ blk_end c <= hi ∧
  0 < bz c < 2 ^ 32 ∧ 0 <= bf c < 2 ^ 32 ∧ bz c + bf c < 2 ^ 32 ∧ ba c = blk_end b.
Proof.
  intros HL. pose proof HL as [_ _ Hs _ _ Hsz Hpos].
  pose proof (layout_seg_in lo hi s _ c HL ltac:(rewrite elem_of_app, !elem_of_cons; tauto)) as Hin.
  pose proof (layout_seg_in lo hi s _ b HL ltac:(rewrite elem_of_app, elem_of_cons; tauto)) as Hb.
  rewrite Forall_forall in Hpos.
  assert (0 < bz c) by (apply Hpos; rewrite elem_of_tail_app, elem_of_cons; tauto).
  apply seg_app in Hs as (mid & _ & E & _ & E2 & Hc & _). subst mid. unfold blk_end in *.
  split; [exact Hc|]. split_and!; lia.
Qed.

(** The data bytes of a block are not metadata and not free. *)
Lemma data_not_writable s l b a :
  layout lo hi s l → b ∈ l → ba b + 32 <= a < ba b + 32 + bz b → ¬ writable l a.
Proof.
  intros HL Hb Ha (c & Hc & Hac). pose proof (layout_seg_in lo hi s l b HL Hb) as Hin.
  pose proof (layout_seg_in lo hi s l c HL Hc) as Hinc.
  destruct (seg_disjoint _ _ _ _ _ _ b c (layout_seg _ _ _ _ HL) Hb Hc) as [->|[?|?]];
    unfold blk_end in *; lia.
Qed.

Lemma data_not_meta s l b a c :
  layout lo hi s l → b ∈ l → c ∈ l → ba b + 32 <= a < ba b + 32 + bz b → ¬ meta_of c a.
Proof.
  intros HL Hb Hc Ha Hm. apply (data_not_writable s l b a HL Hb Ha). exists c.
  pose proof (layout_seg_in lo hi s l c HL Hc). unfold meta_of, blk_end in *. split; [done|lia].
Qed.

(** Writing the data of a block keeps the layout. *)
Lemma layout_data s l b m' :
  layout lo hi s l → b ∈ l →
  (∀ a, ¬ (ba b + 32 <= a < ba b + 32 + bz b) → mbyte m' a = mbyte (memory s) a) →
  layout lo hi (set_memory m' s) l.
Proof.
  intros HL Hb Hm. pose proof HL as [? ? Hs ? ? ? ?]. split; [done..| |done|done|done|done].
  eapply seg_ext; [|exact Hs]. intros a (c & Hc & Ha). apply Hm. intros Had.
  by apply (data_not_meta s l b a c HL Hb Hc).
Qed.

(** No other block is at the address of [c]. *)
Lemma layout_others s l1 b c l2 d :
  layout lo hi s (l1 ++ b :: c :: l2) → d ∈ l1 ++ [b] ∨ d ∈ l2 → ba d ≠ ba c.
Proof.
  intros HL Hd E. pose proof HL as [_ _ Hs _ _ _ _].
  change (b :: c :: l2) with ([b] ++ c :: l2) in Hs. rewrite app_assoc in Hs.
  apply seg_app in Hs as (mid & H1 & E2 & Hc & H2). apply blk_ok_sizes in Hc as Hz.
  destruct Hd as [Hd|Hd].
  - pose proof (seg_in _ _ _ _ _ _ _ H1 Hd). unfold blk_end in *. lia.
  - pose proof (seg_in _ _ _ _ _ _ _ H2 Hd). unfold blk_end in *. lia.
Qed.

(** Other blocks than [c] keep their place and size when [c] is resized. *)
Lemma lives_resized s l1 b c l2 L sz :
  layout lo hi s (l1 ++ b :: c :: l2) → lives (l1 ++ b :: c :: l2) L →
  lives (l1 ++ b :: resized c sz :: l2) (<[ba c + 32 := sz]> L).
Proof.
  intros HL Hv p z.
  assert (∀ d, d ∈ tail (l1 ++ [b]) ∨ d ∈ l2 → ba d ≠ ba c) as Hne.
  { intros d Hd. apply (layout_others s l1 b c l2 d HL). destruct Hd; [left; by apply elem_of_tail|by right]. }
  assert (∀ d x, d ∈ tail (l1 ++ b :: x :: l2) ↔ (d ∈ tail (l1 ++ [b]) ∨ d ∈ l2) ∨ d = x) as Hin.
  { intros d x. rewrite !elem_of_tail_app, elem_of_cons. pose proof (not_elem_of_nil d). tauto. }
  destruct (decide (p = ba c + 32)) as [->|Hp].
  - rewrite lookup_insert_eq. split.
    + intros [= <-]. exists (resized c sz). rewrite Hin. tauto.
    + intros (d & [Hd| ->]%Hin & E & ->); [|done]. apply Hne in Hd. lia.
  - rewrite lookup_insert_ne by done. rewrite (Hv p z). split; intros (d & Hd & -> & ->);
      (apply Hin in Hd as [Hd| ->]; [|done]); exists d; rewrite Hin; tauto.
Qed.
End layout.

Section realloc.
Context `{VmemOps} (lo hi : Z) (fuel : nat).
Implicit Types (s : machine) (l : list hblk) (L : gmap Z Z).

(** The list after a resize: only the two sizes of [c] and its redzone change. *)
Lemma resize_seg m0 m2 l1 b c l2 sz :
  seg m0 0 lo (l1 ++ b :: c :: l2) 0 hi → 0 < sz <= bz c + bf c → bz c + bf c < 2 ^ 32 →
  load 4 m2 (ba c + 4) = sz → load 4 m2 (ba c + 8) = bz c + bf c - sz →
  load 8 m2 (ba c + 32 + sz) = KHEAP_REDZONE_MAGIC →
  same_on (λ a, ¬ (ba c + 4 <= a < ba c + 12) ∧ ¬ (ba c + 32 + sz <= a < ba c + 40 + sz)) m0 m2 →
  seg m2 0 lo (l1 ++ b :: resized c sz :: l2) 0 hi.
Proof.
  intros Hs Hsz Hz L1 L2 L3 Hsame. apply seg_app in Hs as (mid & H1 & E & Hb & E2 & Hc & H2).
  pose proof (seg_le _ _ _ _ _ _ H2) as Hle. pose proof (blk_ok_sizes _ _ _ _ Hb) as Zb.
  pose proof (blk_ok_sizes _ _ _ _ Hc) as Zc. unfold blk_end in *.
  apply seg_app. exists mid. split; [|split; [done|split; [|split; [done|split]]]].
  - eapply seg_ext_range; [|exact H1]. intros a Ha. apply Hsame. blia.
  - eapply blk_ok_ext; [|exact Hb]. intros a Ha. apply Hsame. unfold meta_of in Ha. lia.
  - destruct Hc as [(C1 & _ & _ & C4 & C5 & C6)%read_block_inv _].
    split; [|cbn [ba bz resized]; rewrite <- L3; f_equal; lia].
    unfold read_block. cbn [ba bz bf resized].
    rewrite L1, L2. rewrite !(same_on_load _ _ _ _ _ Hsame) by blia.
    rewrite C1, C4, C5, C6. unfold blk_end. f_equal; lia.
  - unfold blk_end; cbn [ba bz bf resized].
    replace (ba c + 40 + sz + (bz c + bf c - sz)) with (ba c + 40 + bz c + bf c) by lia.
    eapply seg_ext_range; [|exact H2]. intros a Ha. apply Hsame. unfold blk_end in Ha. blia.
Qed.

(** What a resize in place stores: the two sizes and the new redzone. *)
Definition resize_memory (m : gmap Z Z) (c : hblk) (sz : Z) : gmap Z Z :=
  store 8 (store 4 (store 4 m (ba c + 8) (bz c + bf c - sz)) (ba c + 4) sz)
    (ba c + (32 + sz)) KHEAP_REDZONE_MAGIC.

Lemma resize_memory_same m c sz :
  same_on (λ a, ¬ (ba c + 4 <= a < ba c + 12) ∧ ¬ (ba c + 32 + sz <= a < ba c + 40 + sz))
    m (resize_memory m c sz).
Proof. intros a Ha. unfold resize_memory. by rewrite !mbyte_store_ne by lia. Qed.

Lemma resize_layout s l1 b c l2 sz :
  layout lo hi s (l1 ++ b :: c :: l2) → 0 < sz <= bz c + bf c →
  layout lo hi (set_memory (resize_memory (memory s) c sz) s) (l1 ++ b :: resized c sz :: l2).
Proof.
  intros HL Hsz. pose proof (layout_block lo hi s l1 b c l2 HL) as Hc.
  pose proof HL as [? ? Hs ? ? ? Hpos].
  split; [done|by destruct l1| |done|done|done|].
  - eapply resize_seg; [exact Hs|lia|lia| | | |apply resize_memory_same];
      cbn [memory set_memory]; unfold resize_memory; rewrite <- ?Z.add_assoc; mem_wrap; done.
  - change (b :: c :: l2) with ([b] ++ c :: l2) in Hpos.
    change (b :: resized c sz :: l2) with ([b] ++ resized c sz :: l2).
    rewrite app_assoc in *. destruct (l1 ++ [b]) eqn:E; [by destruct l1|]. simpl in *.
    rewrite !Forall_app, !Forall_cons in *. cbn [bz resized]. naive_solver lia.
Qed.

Lemma checkMagic_ok s a : load 2 (memory s) a = KHEAP_MAGIC → checkMagic a s = Ok tt s.
Proof. intros H0. unfold checkMagic. run. by rewrite H0. Qed.

Lemma checkRedzone_ok s a z :
  load 4 (memory s) (a + 4) = z → load 8 (memory s) (a + 32 + z) = KHEAP_REDZONE_MAGIC →
  0 <= z < 2 ^ 32 → 0 <= a → a + 32 + z < 2 ^ 64 → checkRedzone a s = Ok tt s.
Proof.
  intros H0 H1 Hz Ha Hb. unfold checkRedzone, KHEAP_REDZONE_OFFSET. run. rewrite H0. wrap.
  by rewrite Z.add_assoc, H1.
Qed.

(** [krealloc] up to its decision: the lock, the block's magic and redzone. *)
Lemma krealloc_enter s l1 b c l2 sz Q :
  layout lo hi s (l1 ++ b :: c :: l2) → globals s g_kmallocLock = 0 → sz ≠ bz c →
  wp (
    if bz c + bf c >=? sz then
      let diff := if sz >? bz c then u64 (sz - bz c) else u64 (bz c - sz) in
      _ ← (if sz >? bz c then
             _ ← st 4 (ba c + 8) (bf c - diff); st 4 (ba c + 4) (bz c + diff)
           else
             _ ← st 4 (ba c + 8) (bf c + diff); st 4 (ba c + 4) (bz c - diff));
      alloc' ← ld 4 (ba c + 4);
      _ ← st 8 (KHEAP_REDZONE_OFFSET (ba c) alloc') KHEAP_REDZONE_MAGIC;
      _ ← free_lock g_kmallocLock;
      mret (ba c + 32)
    else
    nptr ← kmallocInt fuel sz false;
    if nptr =? 0 then _ ← free_lock g_kmallocLock; mret 0 else
    alloc' ← ld 4 (ba c + 4);
    _ ← memcpy nptr (ba c + 32) alloc';
    _ ← kfreeInt (ba c + 32);
    _ ← free_lock g_kmallocLock;
    mret nptr) Q (set_global g_kmallocLock 1 s) →
  wp (krealloc_ fuel (ba c + 32) sz) Q s.
Proof.
  intros HL Hk Hne HQ. pose proof (layout_block lo hi s l1 b c l2 HL) as ([Hc Hrz] & B).
  apply read_block_inv in Hc as (C1 & C2 & C3 & _). pose proof HL as [_ _ _ Hlo Hhi _ _].
  unfold blk_end in B.
  unfold krealloc_. wp_step. apply wp_get_lock; [done|]. wp_step.
  unfold KHEAP_BLOCK_FROM_PTR. rewrite Z.add_simpl_r, (u64_id (ba c)) by lia. cbv zeta.
  eapply wp_eq; [by apply checkMagic_ok|]. wp_step.
  eapply wp_eq; [by eapply checkRedzone_ok; [exact C2|exact Hrz|lia..]|].
  wp_step. wp_step. cbn [memory set_global].
  rewrite C2, eqb_false by done. wp_step. wp_step. cbn [memory set_global]. rewrite C3.
  rewrite (u32_id (bz c + bf c)) by lia. exact HQ.
Qed.

(** Growing or shrinking in place. *)
Lemma krealloc_resize_ok s l1 b c l2 sz :
  layout lo hi s (l1 ++ b :: c :: l2) → globals s g_kmallocLock = 0 →
  0 < sz <= bz c + bf c → sz ≠ bz c →
  wp (krealloc_ fuel (ba c + 32) sz) (λ r s',
    r = ba c + 32 ∧ layout lo hi s' (l1 ++ b :: resized c sz :: l2) ∧
    s' = set_global g_kmallocLock 0 (set_memory (resize_memory (memory s) c sz)
           (set_global g_kmallocLock 1 s))) s.
Proof.
  intros HL Hk Hsz Hne. pose proof (layout_block lo hi s l1 b c l2 HL) as (_ & B).
  unfold blk_end in B. pose proof HL as [_ _ _ Hlo Hhi _ _].
  assert (∀ s', s' = set_global g_kmallocLock 0 (set_memory (resize_memory (memory s) c sz)
           (set_global g_kmallocLock 1 s)) →
         layout lo hi s' (l1 ++ b :: resized c sz :: l2)) as Hfin.
  { intros s' ->. apply layout_set_global; [done|].
    apply (resize_layout (set_global g_kmallocLock 1 s)); [by apply layout_set_global|done]. }
  eapply krealloc_enter; [exact HL|done|done|]. unfold KHEAP_REDZONE_OFFSET.
  rewrite Z.geb_leb, leb_true by lia. cbv zeta.
  destruct (Z.gtb_spec sz (bz c)) as [Hgt|Hgt];
    wp_steps; cbn [memory set_global set_memory]; mem_wrap.
  - replace (bf c - (sz - bz c)) with (bz c + bf c - sz) by lia.
    replace (bz c + (sz - bz c)) with sz by lia. split_and!; [done|by apply Hfin|done].
  - replace (bf c + (bz c - sz)) with (bz c + bf c - sz) by lia.
    replace (bz c - (bz c - sz)) with sz by lia. split_and!; [done|by apply Hfin|done].
Qed.

(** The two blocks a move works with: [d], which is split for the new block,
    and the old block [c], which stays in the list. *)
Lemma move_blocks s k1 d k2 c sz :
  layout lo hi s (k1 ++ d :: k2) → c ∈ tail (k1 ++ d :: k2) → bz c + bf c < sz →
  sz + 40 <= bf d → c ≠ d ∧ c ∈ tail (k1 ++ split_fst d :: split_snd d sz :: k2).
Proof.
  intros HL Hc Hlt Hfit.
  pose proof (layout_seg_in lo hi s _ c HL (elem_of_tail _ _ Hc)) as Hin.
  assert (c ≠ d) as Hne by (intros ->; lia). split; [done|].
  rewrite elem_of_tail_app in Hc. rewrite elem_of_tail_app, elem_of_cons. tauto.
Qed.

(** After the split the block at the address of [c] is still [c]. *)
Lemma split_block_at s k1 d k2 c c' sz :
  layout lo hi s (k1 ++ d :: k2) → c ∈ k1 ++ d :: k2 → bz c + bf c < sz → sz + 40 <= bf d →
  c' ∈ k1 ++ split_fst d :: split_snd d sz :: k2 → ba c' = ba c → c' = c.
Proof.
  intros HL Hc Hlt Hfit Hc' E.
  assert (d ∈ k1 ++ d :: k2) as Hd by (rewrite elem_of_app, elem_of_cons; tauto).
  pose proof (layout_seg_in lo hi s _ c HL Hc) as Ic.
  pose proof (layout_seg_in lo hi s _ d HL Hd) as Id.
  rewrite elem_of_app, !elem_of_cons in Hc'. destruct Hc' as [Hi|[->|[->|Hi]]].
  - apply (layout_same_block lo hi s (k1 ++ d :: k2)); [done|rewrite elem_of_app; tauto|done..].
  - assert (d = c) as -> by (apply (layout_same_block lo hi s (k1 ++ d :: k2)); done). lia.
  - destruct (seg_disjoint _ _ _ _ _ _ c d (layout_seg _ _ _ _ HL) Hc Hd) as [->|[?|?]];
      cbn [ba split_snd] in E; unfold blk_end in *; lia.
  - apply (layout_same_block lo hi s (k1 ++ d :: k2));
      [done|rewrite elem_of_app, elem_of_cons; tauto|done..].
Qed.

(** The copy of a move, from the allocated bytes of [c] into the larger [n]. *)
Lemma move_copy_ok s l c n :
  layout lo hi s l → c ∈ l → n ∈ l → c ≠ n → bz c < bz n →
  ∃ m', memcpy (ba n + 32) (ba c + 32) (bz c) s = Ok (ba n + 32) (set_memory m' s) ∧
    layout lo hi (set_memory m' s) l ∧
    (∀ a, mbyte m' a = if decide (ba n + 33 <= a <= ba n + 32 + bz c)
                       then mbyte (memory s) (ba c + (a - ba n)) else mbyte (memory s) a).
Proof.
  intros HL Hc Hn Hne Hlt.
  pose proof (layout_seg_in lo hi s l c HL Hc) as Ic.
  pose proof (layout_seg_in lo hi s l n HL Hn) as In.
  assert (blk_end c <= ba n ∨ blk_end n <= ba c) as Hd.
  { destruct (seg_disjoint _ _ _ _ _ _ c n (layout_seg _ _ _ _ HL) Hc Hn) as [?|?]; [done|tauto]. }
  unfold blk_end in *.
  destruct (mbyte_memcpy_loop (Z.to_nat (bz c)) (ba n + 32) (ba c + 32) s) as (m' & E & Hm); [lia|].
  assert (∀ a, mbyte m' a = if decide (ba n + 33 <= a <= ba n + 32 + bz c)
                       then mbyte (memory s) (ba c + (a - ba n)) else mbyte (memory s) a) as Hm'.
  { intros a. rewrite Hm. repeat case_decide; try lia. f_equal. lia. }
  exists m'. split; [unfold memcpy; by rewrite (bind_ok _ _ _ _ _ E)|]. split; [|done].
  apply (layout_data lo hi s l n m' HL Hn). intros a Ha. rewrite Hm', decide_False by lia. done.
Qed.

(** A split makes no byte writable that was not. *)
Lemma writable_split k1 d k2 sz a :
  0 <= sz → 0 <= bz d → sz + 40 <= bf d →
  writable (k1 ++ split_fst d :: split_snd d sz :: k2) a → writable (k1 ++ d :: k2) a.
Proof.
  intros Hs Hz Hd (x & Hx & Ha). rewrite elem_of_app, !elem_of_cons in Hx.
  destruct Hx as [Hx|[->|[->|Hx]]].
  - exists x. rewrite elem_of_app. tauto.
  - exists d. rewrite elem_of_app, elem_of_cons. unfold blk_end in *. cbn in Ha. split; [tauto|lia].
  - exists d. rewrite elem_of_app, elem_of_cons. unfold blk_end in *. cbn in Ha. split; [tauto|lia].
  - exists x. rewrite elem_of_app, elem_of_cons. tauto.
Qed.

(** Moving to a new block: first fit, the copy, and the merge of the old block. *)
Lemma krealloc_move_ok s l1 b c l2 k1 d k2 j1 e j2 sz :
  layout lo hi s (l1 ++ b :: c :: l2) → globals s g_kmallocLock = 0 →
  hi - lo < 40 * Z.of_nat fuel → bz c + bf c < sz →
  l1 ++ b :: c :: l2 = k1 ++ d :: k2 → Forall (λ x, bf x < sz + 40) k1 → sz + 40 <= bf d →
  k1 ++ split_fst d :: split_snd d sz :: k2 = j1 ++ e :: c :: j2 →
  let q := ba d + 72 + bz d in
  wp (krealloc_ fuel (ba c + 32) sz) (λ r s',
    r = q ∧ layout lo hi s' (j1 ++ merged e c :: j2) ∧
    (∃ s1, layout lo hi s1 (j1 ++ e :: c :: j2)) ∧
    (∃ m', s' = set_global g_kmallocLock 0 (set_memory m' (set_global g_kmallocLock 1 s))) ∧
    (∀ i, 1 <= i < bz c → mbyte (memory s') (q + i) = mbyte (memory s) (ba c + 32 + i)) ∧
    mbyte (memory s') q = mbyte (memory s) q ∧
    same_on (λ a, ¬ writable (l1 ++ b :: c :: l2) a) (memory s) (memory s')) s.
Proof.
  intros HL Hk Hfuel Hlt El Hk1 Hfit Ej q.
  pose proof (layout_block lo hi s l1 b c l2 HL) as (_ & B). unfold blk_end in B.
  assert (c ∈ tail (l1 ++ b :: c :: l2)) as Hc by (rewrite elem_of_tail_app, elem_of_cons; tauto).
  pose proof (elem_of_tail _ _ Hc) as Hcl.
  eapply krealloc_enter; [exact HL|done|lia|].
  rewrite Z.geb_leb, leb_false by lia. rewrite El in *.
  pose proof (move_blocks s k1 d k2 c sz HL Hc Hlt Hfit) as [Hne Hc'].
  assert ((length k1 < fuel)%nat) as Hf.
  { pose proof (seg_le _ _ _ _ _ _ (layout_seg _ _ _ _ HL)) as Hle.
    rewrite length_app in Hle. cbn [length] in Hle. lia. }
  pose proof (layout_seg_in lo hi s _ d HL ltac:(rewrite elem_of_app, elem_of_cons; tauto)) as Id.
  pose proof (layout_lo _ _ _ _ HL) as Hlo. unfold blk_end in Id.
  wp_step. eapply wp_mono; [eapply kmallocInt_ok; [by apply layout_set_global|done|done|lia|done]|].
  intros p s1 (m1 & -> & -> & HL1 & Hm1 & Hq1). rewrite eqb_false by lia. cbn [memory set_global] in *.
  rewrite Ej in HL1. set (l' := j1 ++ e :: c :: j2) in *.
  assert (c ∈ l') as Hcl' by (unfold l'; rewrite elem_of_app, !elem_of_cons; tauto).
  assert (split_snd d sz ∈ l') as Hn by (rewrite <- Ej, elem_of_app, !elem_of_cons; tauto).
  assert (c ≠ split_snd d sz) as Hcn by (intros ->; cbn in Hlt; lia).
  pose proof (layout_block lo hi _ j1 e c j2 HL1) as [[(_ & C2 & _)%read_block_inv _] _].
  destruct (move_copy_ok _ l' c (split_snd d sz) HL1 Hcl' Hn Hcn) as (m2 & E2 & HL2 & Hm2);
    [cbn; lia|].
  cbn [ba split_snd] in *. replace (ba d + 40 + bz d + 32) with (ba d + 72 + bz d) in * by lia.
  cbn [memory set_memory set_global] in C2.
  do 2 wp_step. cbn [memory set_memory set_global]. rewrite C2. wp_step. eapply wp_eq; [exact E2|]. wp_step.
  eapply wp_mono; [eapply kfreeInt_ok; exact HL2|].
  intros [] s3 (m3 & -> & HL3 & Hm3 & _). cbn [memory set_memory set_global] in *. wp_steps.
  cbn [memory set_memory set_global].
  assert (∀ a, q <= a < q + sz → mbyte m3 a = mbyte m2 a) as Hdata.
  { intros a Ha. apply Hm3. apply (data_not_writable lo hi _ l' (split_snd d sz) a HL2 Hn).
    cbn. lia. }
  split_and!; [done|by apply layout_set_global|by eexists|by exists m3| | |].
  - intros i Hi. rewrite Hdata, Hm2, decide_True by lia. rewrite Hm1.
    + f_equal. lia.
    + apply (data_not_writable lo hi s _ c _ HL Hcl). lia.
  - rewrite Hdata, Hm2, decide_False by lia. apply Hq1. lia.
  - intros a Ha. rewrite Hm3, Hm2.
    + rewrite decide_False; [by apply Hm1|]. intros Hin. apply Ha. exists d.
      rewrite elem_of_app, elem_of_cons. unfold blk_end. split; [tauto|lia].
    + intros Hw. apply Ha. apply (writable_split k1 d k2 sz); [lia..|]. by rewrite Ej.
Qed.

(** The block of [p] has the space, or some block can be split for the move. *)
Definition realloc_room s p sz : Prop :=
  ∃ l c, layout lo hi s l ∧ c ∈ tail l ∧ p = ba c + 32 ∧
    (sz <= bz c + bf c ∨ Exists (λ b, sz + 40 <= bf b) l).

(** [krealloc] on the map of live allocations. *)
Lemma krealloc_ok s L p z sz :
  heap_inv lo hi s L → L !! p = Some z → hi - lo < 40 * Z.of_nat fuel →
  0 < sz → sz ≠ z → realloc_room s p sz →
  wp (krealloc_ fuel p sz) (λ q s',
    (q = p ∨ L !! q = None) ∧ heap_inv lo hi s' (<[q := sz]> (delete p L)) ∧
    (∀ i, 1 <= i < Z.min z sz → mbyte (memory s') (q + i) = mbyte (memory s) (p + i))) s.
Proof.
  intros (Hk & l & HL & Hv) Hp Hfuel Hsz Hne (l' & c & HL' & Hc & -> & Hroom).
  rewrite (layout_fun lo hi s l' l HL' HL) in Hc, Hroom. clear l' HL'.
  assert (z = bz c) as ->.
  { apply Hv in Hp as (c' & Hc' & E & ->). f_equal.
    apply (layout_same_block lo hi s l); [done|by apply elem_of_tail..|lia]. }
  pose proof Hc as (l1 & b & l2 & ->)%elem_of_tail_split.
  pose proof (elem_of_tail _ _ Hc) as Hcl.
  destruct (decide (sz <= bz c + bf c)) as [Hin|Hout].
  - eapply wp_mono; [by apply (krealloc_resize_ok s l1 b c l2 sz)|].
    intros q s' (-> & HL' & ->). split; [by left|]. split.
    + split; [done|]. eexists. split; [exact HL'|]. rewrite insert_delete_eq.
      by apply (lives_resized lo hi s l1 b c l2).
    + intros i Hi. cbn [memory set_memory set_global]. apply resize_memory_same. lia.
  - destruct Hroom as [?|(k1 & d & k2 & El & Hk1 & Hfit)%Exists_first]; [lia| |intros; apply _].
    assert (Forall (λ x, bf x < sz + 40) k1) as Hk1'.
    { eapply Forall_impl; [exact Hk1|]. cbv beta. lia. }
    rewrite El in Hc, Hv. pose proof HL as HLd. rewrite El in HLd.
    pose proof (move_blocks s k1 d k2 c sz HLd Hc ltac:(lia) Hfit) as [_ Hc'].
    pose proof Hc' as (j1 & e & j2 & Ej)%elem_of_tail_split.
    pose proof (lives_split lo hi s k1 d k2 L sz HLd Hv Hsz Hfit) as [HN Hv'].
    rewrite Ej in Hv'.
    eapply wp_mono; [eapply (krealloc_move_ok s l1 b c l2 k1 d k2 j1 e j2 sz); (done || lia)|].
    intros q s' (-> & HL' & [s1 HL1] & [m' ->] & Hcopy & _). split; [by right|]. split.
    + split; [done|]. eexists. split; [exact HL'|]. rewrite <- delete_insert_ne by congruence.
      by apply (lives_merge lo hi s1).
    + intros i Hi. apply Hcopy. lia.
Qed.
End realloc.
