(* ===== verification/KmallocProps.v ===== *)
(** * Properties of the kernel heap

    First fit as a function on the list of blocks and the refinement theorems,
    the contract at run time ([initKmalloc] gives an empty heap, [kmalloc] and
    [kfree] keep the map of live blocks), and the error behaviour: double free,
    overflow, [krealloc] to the same size, aligned searches. *)

From S2P Require Import Prelude Kmonad Mem Libc Heap Kmalloc KmallocFacts KmallocHeap KmallocRealloc.

(** ** First fit on the list of blocks *)

Fixpoint ff_alloc (l : list hblk) (sz : Z) : option (Z * list hblk) :=
  match l with
  | [] => None
  | b :: l' =>
      if sz + 40 <=? bf b then Some (ba b + 72 + bz b, split_fst b :: split_snd b sz :: l')
      else '(p, l'') ← ff_alloc l' sz; Some (p, b :: l'')
  end.

Fixpoint ff_free (l : list hblk) (p : Z) : option (list hblk) :=
  match l with
  | b :: ((c :: l') as r) =>
      if ba c + 32 =? p then Some (merged b c :: l') else cons b <$> ff_free r p
  | _ => None
  end.

Lemma ff_alloc_inv l sz p l' :
  ff_alloc l sz = Some (p, l') →
  ∃ l1 b l2, l = l1 ++ b :: l2 ∧ Forall (λ c, bf c < sz + 40) l1 ∧ sz + 40 <= bf b ∧
    p = ba b + 72 + bz b ∧ l' = l1 ++ split_fst b :: split_snd b sz :: l2.
Proof.
  revert p l'. induction l as [|b l IH]; intros p l'; simpl; [done|].
  destruct (Z.leb_spec (sz + 40) (bf b)) as [Hb|Hb].
  - intros [= <- <-]. exists [], b, l. split_and!; [done|constructor|lia|done..].
  - destruct (ff_alloc l sz) as [[p' l'']|] eqn:E; simpl; [|done]. intros [= <- <-].
    destruct (IH _ _ eq_refl) as (l1 & c & l2 & -> & Hl1 & Hc & -> & ->).
    exists (b :: l1), c, l2. split_and!; [done|by constructor|done..].
Qed.

Lemma ff_free_cons b c l p :
  ff_free (b :: c :: l) p =
  if ba c + 32 =? p then Some (merged b c :: l) else cons b <$> ff_free (c :: l) p.
Proof. done. Qed.

Lemma ff_free_inv l p l' :
  ff_free l p = Some l' →
  ∃ l1 b c l2, l = l1 ++ b :: c :: l2 ∧ p = ba c + 32 ∧ l' = l1 ++ merged b c :: l2.
Proof.
  revert l'. induction l as [|b [|c l] IH]; intros l'; [done..|]. rewrite ff_free_cons.
  destruct (Z.eqb_spec (ba c + 32) p) as [<-|Hne].
  - intros [= <-]. by exists [], b, c, l.
  - destruct (ff_free (c :: l) p) as [l''|] eqn:E; [|done]. intros [= <-].
    destruct (IH _ eq_refl) as (l1 & d & e & l2 & E1 & -> & ->).
    exists (b :: l1), d, e, l2. by rewrite E1.
Qed.

(** [krealloc] on the list: in place when the block's own space is enough,
    otherwise a first-fit allocation followed by a free. *)
Definition ff_block (l : list hblk) (p : Z) : option hblk :=
  find (λ c, ba c + 32 =? p) (tail l).

Definition ff_realloc (l : list hblk) (p sz : Z) : option (Z * list hblk) :=
  c ← ff_block l p;
  if sz <=? bz c + bf c
  then Some (p, map (λ x, if ba x + 32 =? p then resized x sz else x) l)
  else '(q, l') ← ff_alloc l sz; l'' ← ff_free l' p; Some (q, l'').

Lemma ff_block_inv l p c :
  ff_block l p = Some c → ∃ l1 b l2, l = l1 ++ b :: c :: l2 ∧ p = ba c + 32.
Proof.
  intros [Hc%list_elem_of_In E%Z.eqb_eq]%find_some.
  apply elem_of_tail_split in Hc as (l1 & b & l2 & ->). by exists l1, b, l2.
Qed.

Lemma map_resized lo hi s l1 b c l2 sz :
  layout lo hi s (l1 ++ b :: c :: l2) →
  map (λ x, if ba x + 32 =? ba c + 32 then resized x sz else x) (l1 ++ b :: c :: l2) =
  l1 ++ b :: resized c sz :: l2.
Proof.
  intros HL.
  assert (∀ k, (∀ d, d ∈ k → d ∈ l1 ++ [b] ∨ d ∈ l2) →
    map (λ x, if ba x + 32 =? ba c + 32 then resized x sz else x) k = k) as Hk.
  { induction k as [|d k IH]; intros Hd; [done|]. simpl.
    pose proof (layout_others lo hi s l1 b c l2 d HL (Hd d ltac:(constructor))) as Hn.
    rewrite eqb_false by lia. f_equal. apply IH. intros x Hx. apply Hd. by constructor. }
  replace (l1 ++ b :: c :: l2) with ((l1 ++ [b]) ++ c :: l2) by by rewrite <- app_assoc.
  rewrite map_app. simpl. rewrite Z.eqb_refl, !Hk by tauto. by rewrite <- app_assoc.
Qed.

Section refinement.
Context `{VmemOps} (lo hi : Z) (fuel : nat).
Implicit Types (s : machine).

(** C1: [kmalloc] refines first fit: on a heap whose blocks are [l] it returns
  the address first fit returns, leaves exactly the blocks first fit leaves,
  releases the lock and writes only headers, redzones and free bytes. *)
Theorem kmalloc_refines_first_fit s l l' sz p :
layout lo hi s l → globals s g_kmallocLock = 0 → 0 < sz →
hi - lo < 40 * Z.of_nat fuel → ff_alloc l sz = Some (p, l') →
wp (kmallocWrapper fuel sz false) (λ r s',
  r = p ∧ layout lo hi s' l' ∧ globals s' g_kmallocLock = 0 ∧
  same_on (λ a, ¬ writable l a) (memory s) (memory s')) s.
Proof.
intros HL Hk Hp Hfuel (l1 & b & l2 & -> & Hl1 & Hb & -> & ->)%ff_alloc_inv.
assert ((length l1 < fuel)%nat) as Hf.
{ pose proof (seg_le _ _ _ _ _ _ (layout_seg _ _ _ _ HL)) as Hle.
  rewrite length_app in Hle. cbn [length] in Hle. lia. }
pose proof (layout_seg_in lo hi s _ b HL ltac:(rewrite elem_of_app, elem_of_cons; tauto)) as Hin.
pose proof (layout_lo _ _ _ _ HL).
unfold kmallocWrapper. wp_step. apply wp_get_lock; [done|]. wp_step.
eapply wp_mono; [eapply kmallocInt_ok; [by apply layout_set_global|done..]|].
intros r s' (m' & -> & -> & HL' & Hm & _). rewrite eqb_false by lia. wp_steps.
split_and!; [done|by apply layout_set_global|done|done].
Qed.

(** C3: [kfree] of a block's data pointer merges the block, header, redzone and
  free bytes included, into the block before it. *)
Theorem kfree_refines_first_fit s l l' p :
layout lo hi s l → globals s g_kmallocLock = 0 → ff_free l p = Some l' →
wp (kfree_ p) (λ _ s',
  layout lo hi s' l' ∧ globals s' g_kmallocLock = 0 ∧
  same_on (λ a, ¬ writable l a) (memory s) (memory s')) s.
Proof.
intros HL Hk (l1 & b & c & l2 & -> & -> & ->)%ff_free_inv.
unfold kfree_. wp_step. apply wp_get_lock; [done|]. wp_step.
eapply wp_mono; [eapply kfreeInt_ok; by apply layout_set_global|].
intros [] s' (m' & -> & HL' & Hm & _). wp_steps.
split_and!; [by apply layout_set_global|done|done].
Qed.

(** C4: [krealloc] to a new size refines the list operation: in place when the
  block and the free bytes after it are enough, otherwise first fit followed by
  the merge of the old block.  Either way the lock is released and every byte
  both sizes share is kept, except the first one, which a move does not copy. *)
Theorem krealloc_refines_first_fit s l l' p q c sz :
layout lo hi s l → globals s g_kmallocLock = 0 → hi - lo < 40 * Z.of_nat fuel →
ff_block l p = Some c → 0 < sz → sz ≠ bz c → ff_realloc l p sz = Some (q, l') →
wp (krealloc_ fuel p sz) (λ r s',
  r = q ∧ layout lo hi s' l' ∧ globals s' g_kmallocLock = 0 ∧
  (∀ i, 1 <= i < Z.min (bz c) sz → mbyte (memory s') (q + i) = mbyte (memory s) (p + i)) ∧
  mbyte (memory s') q = mbyte (memory s) q) s.
Proof.
intros HL Hk Hf Hc Hsz Hne Hr. unfold ff_realloc in Hr. rewrite Hc in Hr. simpl in Hr.
apply ff_block_inv in Hc as (l1 & b & l2 & -> & ->).
destruct (Z.leb_spec sz (bz c + bf c)) as [Hin|Hout].
- injection Hr as <- <-. rewrite (map_resized lo hi s) by done.
  eapply wp_mono; [by apply (krealloc_resize_ok lo hi fuel s l1 b c l2 sz)|].
  intros r s' (-> & HL' & ->). cbn [memory set_memory set_global].
  split_and!; [done|done|done| |apply resize_memory_same; lia].
  intros i Hi. apply resize_memory_same. lia.
- destruct (ff_alloc (l1 ++ b :: c :: l2) sz) as [[q' m]|] eqn:Ea; simpl in Hr; [|done].
  destruct (ff_free m (ba c + 32)) as [m'|] eqn:Ef; simpl in Hr; [|done].
  injection Hr as <- <-.
  apply ff_alloc_inv in Ea as (k1 & d & k2 & El & Hk1 & Hd & -> & ->).
  apply ff_free_inv in Ef as (j1 & e & c' & j2 & Ej & Ec & ->).
  rewrite El in HL.
  assert (c' = c) as ->.
  { apply (split_block_at lo hi s k1 d k2 c c' sz); [done| |lia..| |lia].
    - rewrite <- El, elem_of_app, !elem_of_cons. tauto.
    - rewrite Ej, elem_of_app, !elem_of_cons. tauto. }
  eapply wp_mono; [rewrite <- El in HL;
    apply (krealloc_move_ok lo hi fuel s l1 b c l2 k1 d k2 j1 e j2 sz); (done || lia)|].
  intros r s' (-> & HL' & _ & [m' ->] & Hcopy & H0 & _).
  split_and!; [done..|intros i Hi; apply Hcopy; lia|done].
Qed.
End refinement.

(** ** The heap at run time *)

Section runtime.
Context `{VmemOps} (lo hi : Z) (fuel : nat).
Implicit Types (s : machine) (L : gmap Z Z).

Lemma initKmalloc_layout s size :
0 < lo → lo + size < 2 ^ 63 → 40 <= size < 2 ^ 32 → globals s g_kmallocLock = 0 →
wp (initKmalloc lo size) (λ _ s',
  layout lo (lo + size) s' [HBlk lo 0 (size - 40)] ∧ globals s' g_kmallocLock = 0) s.
Proof.
intros Hlo Hhi Hsz Hk. unfold initKmalloc. wp_steps.
cbn [memory set_memory set_global globals]. mem.
assert (KHEAP_FREE_DATA lo (u64 (lo + size)) 0 = size - 40) as ->.
{ unfold KHEAP_FREE_DATA. wrap. lia. }
unfold KHEAP_REDZONE_OFFSET. change (u32 0) with 0. wrap. replace (lo + (32 + 0)) with (lo + 32) by lia.
split; [|done]. split; [done|done| |done|lia|lia|constructor].
cbn [memory set_memory seg first_of]. unfold blk_end, blk_ok, read_block; cbn [ba bz bf].
rewrite Z.add_0_r. mem_wrap. split_and!; [done..|lia].
Qed.

(** The steps of a running kernel that concern the heap: allocations and
  reallocations that fit, frees of live blocks, and writes of the kernel into its live blocks. *)
Inductive heap_step : machine * gmap Z Z → machine * gmap Z Z → Prop :=
| step_kmalloc s L sz p s' :
    heap_room lo hi s sz → 0 < sz → kmallocWrapper fuel sz false s = Ok p s' →
    heap_step (s, L) (s', <[p := sz]> L)
| step_kfree s L p z s' :
    L !! p = Some z → kfree_ p s = Ok tt s' → heap_step (s, L) (s', delete p L)
| step_krealloc s L p z sz q s' :
    L !! p = Some z → 0 < sz → sz ≠ z → realloc_room lo hi s p sz →
    krealloc_ fuel p sz s = Ok q s' → heap_step (s, L) (s', <[q := sz]> (delete p L))
| step_write s L a n v :
    (∀ i, a <= i < a + Z.of_nat n → owned L i) →
    heap_step (s, L) (set_memory (store n (memory s) a v) s, L).

Lemma heap_step_inv s L s' L' :
hi - lo < 40 * Z.of_nat fuel → heap_inv lo hi s L → heap_step (s, L) (s', L') →
heap_inv lo hi s' L'.
Proof.
intros Hf HI Hst. inversion Hst; subst.
- pose proof (kmallocWrapper_ok lo hi fuel Hf s L sz HI ltac:(done) ltac:(done)) as W.
  unfold wp in W. match goal with E : kmallocWrapper _ _ _ _ = _ |- _ => rewrite E in W end.
  naive_solver.
- pose proof (kfree_ok lo hi s L p z HI ltac:(done)) as W.
  unfold wp in W. match goal with E : kfree_ _ _ = _ |- _ => rewrite E in W end.
  naive_solver.
- pose proof (krealloc_ok lo hi fuel s L p z sz HI ltac:(done) Hf ltac:(done) ltac:(done) ltac:(done)) as W.
  unfold wp in W. match goal with E : krealloc_ _ _ _ _ = _ |- _ => rewrite E in W end.
  naive_solver.
- apply (heap_inv_frame lo hi s _ L' HI); [done|]. intros i [_ Ho]. cbn [memory set_memory].
  destruct (decide (a <= i < a + Z.of_nat n)) as [Hi|Hi]; [by destruct (Ho (H1 i Hi))|].
  apply mbyte_store_ne. lia.
Qed.

(** C2: from [initKmalloc] on, under any sequence of unaligned allocations that fit,
  reallocations of a live block to another size that fit (in place or to a new block),
  frees of live blocks and writes into live blocks, the heap stays well formed for the
  map of its live blocks; in particular no two live blocks overlap.  Aligned
  allocations and a reallocation to the size the block has are left out: the one may
  search for ever, the other keeps the lock. *)
Theorem heap_invariant s0 s1 s L size :
hi = lo + size → 0 < lo → hi < 2 ^ 63 → 40 <= size < 2 ^ 32 →
size < 40 * Z.of_nat fuel → globals s0 g_kmallocLock = 0 →
initKmalloc lo size s0 = Ok tt s1 → rtc heap_step (s1, ∅) (s, L) →
heap_inv lo hi s L ∧
(∀ p q z w, L !! p = Some z → L !! q = Some w → p ≠ q → p + z <= q ∨ q + w <= p).
Proof.
intros Ehi Hlo Hhi Hsz Hf Hk Hi Hr.
assert (heap_inv lo hi s1 ∅) as H1.
{ pose proof (initKmalloc_layout s0 size Hlo ltac:(lia) Hsz Hk) as W.
  unfold wp in W. rewrite Hi, <- Ehi in W. destruct W as [W1 W2].
  split; [done|]. eexists. split; [exact W1|]. intros p z. rewrite lookup_empty.
  split; [done|]. intros (b & Hb & _). by apply not_elem_of_nil in Hb. }
assert (heap_inv lo hi s L) as HI; [|by split; [|intros p q z w; apply (heap_inv_disjoint lo hi s L)]].
change (heap_inv lo hi (fst (s, L)) (snd (s, L))).
change (heap_inv lo hi (fst (s1, ∅ : gmap Z Z)) (snd (s1, ∅ : gmap Z Z))) in H1.
revert H1. clear Hi. induction Hr as [|[a A] [b B] [c C] Hst _ IH]; [done|].
intros Hx. apply IH. eapply heap_step_inv; [lia|exact Hx|exact Hst].
Qed.

(** freeing a pointer twice panics on the second call. *)
Theorem kfree_double_free s L p z :
heap_inv lo hi s L → L !! p = Some z →
wp (kfree_ p) (λ _ s', kfree_ p s' = Fault (Panic "Invalid kblock magic")) s.
Proof.
intros (Hk & l & HL & Hv) (c & Hc & -> & ->)%Hv.
pose proof (layout_seg_in lo hi s l c HL (elem_of_tail _ _ Hc)) as Hin.
apply elem_of_tail_split in Hc as (l1 & b & l2 & ->).
pose proof (layout_hi _ _ _ _ HL). pose proof (layout_lo _ _ _ _ HL). unfold blk_end in Hin.
unfold kfree_ at 1. wp_step. apply wp_get_lock; [done|]. wp_step.
eapply wp_mono; [eapply kfreeInt_ok; by apply layout_set_global|].
intros [] s' (m' & -> & _ & _ & Hm). wp_steps.
unfold kfree_. erewrite bind_ok by (by apply get_lock_free). apply bind_fault.
unfold kfreeInt, KHEAP_BLOCK_FROM_PTR. rewrite Z.add_simpl_r. wrap. apply bind_fault.
unfold checkMagic. run. cbn [memory set_global set_memory]. by rewrite Hm.
Qed.

Lemma kfree_corrupted s s' L p z :
heap_inv lo hi s L → L !! p = Some z →
same_on (λ a, ¬ (p + z <= a < p + z + 8)) (memory s) (memory s') →
globals s' g_kmallocLock = 0 → load 8 (memory s') (p + z) ≠ KHEAP_REDZONE_MAGIC →
kfree_ p s' = Fault (Panic "Corrupted redzone").
Proof.
intros (Hk & l & HL & Hv) (c & Hc & -> & ->)%Hv Hm Hk' Hne.
pose proof (layout_seg_in lo hi s l c HL (elem_of_tail _ _ Hc)) as Hin.
apply elem_of_tail_split in Hc as (l1 & b & l2 & ->).
pose proof HL as [_ _ Hs Hlo Hhi _ _]. unfold blk_end in *.
apply seg_app in Hs as (mid & _ & E & _ & E2 & [Hc _] & _).
apply read_block_inv in Hc as (C1 & C2 & _).
rewrite <- (same_on_load _ _ _ _ _ Hm) in C1 by blia.
rewrite <- (same_on_load _ _ _ _ _ Hm) in C2 by blia.
unfold kfree_. rewrite (bind_ok _ _ _ _ _ (get_lock_free _ _ Hk')). apply bind_fault.
unfold kfreeInt, KHEAP_BLOCK_FROM_PTR. rewrite Z.add_simpl_r. wrap.
unfold checkMagic, checkRedzone, KHEAP_REDZONE_OFFSET. run.
cbn [memory set_global]. rewrite C1, Z.eqb_refl. cbn [memory set_global]. rewrite C2. wrap. rewrite Z.add_assoc, eqb_false by done. done.
Qed.

(** C35: when the eight bytes after a live block were overwritten, freeing the
  block panics instead of corrupting the list. *)
Theorem kfree_detects_overflow s s' L p z :
heap_inv lo hi s L → L !! p = Some z →
same_on (λ a, ¬ (p + z <= a < p + z + 8)) (memory s) (memory s') →
globals s' g_kmallocLock = 0 → load 8 (memory s') (p + z) ≠ KHEAP_REDZONE_MAGIC →
kfree_ p s' = Fault (Panic "Corrupted redzone").
Proof. apply kfree_corrupted. Qed.

(** [krealloc] to the size a block already has returns the pointer with
  [kmallocLock] still held: every later heap operation spins for ever. *)
Theorem krealloc_same_size_keeps_lock s L p z :
heap_inv lo hi s L → L !! p = Some z →
∃ s', krealloc_ fuel p z s = Ok p s' ∧
  ∀ fuel' sz align q, kmallocWrapper fuel' sz align s' = Fault Spin ∧ kfree_ q s' = Fault Spin.
Proof.
intros (Hk & l & HL & Hv) (c & Hc & -> & ->)%Hv.
pose proof (layout_seg_in lo hi s l c HL (elem_of_tail _ _ Hc)) as Hin.
apply elem_of_tail_split in Hc as (l1 & b & l2 & ->).
pose proof HL as [_ _ Hs Hlo Hhi _ _]. unfold blk_end in *.
apply seg_app in Hs as (mid & _ & E & _ & E2 & [Hc Hrz] & _).
apply read_block_inv in Hc as (C1 & C2 & _).
exists (set_global g_kmallocLock 1 s). split.
- unfold krealloc_. rewrite (bind_ok _ _ _ _ _ (get_lock_free _ _ Hk)).
  unfold KHEAP_BLOCK_FROM_PTR. rewrite Z.add_simpl_r. wrap.
  unfold checkMagic, checkRedzone, KHEAP_REDZONE_OFFSET. run.
  cbn [memory set_global]. rewrite C1, Z.eqb_refl. cbn [memory set_global]. rewrite C2. wrap.
  rewrite Z.add_assoc, Hrz, Z.eqb_refl. cbn [memory set_global]. by rewrite C2, Z.eqb_refl.
- intros fuel' sz align q. split; apply bind_fault; by apply get_lock_held.
Qed.

(** an aligned request on a heap whose first block ends less than a header
  before a page boundary never returns: [continue] skips the advance. *)
Theorem kmalloc_aligned_search_diverges s l b sz :
layout lo hi s (b :: l) → KHEAP_ALIGNMENT_OFFSET (ba b) (bz b) < 32 → sz ≠ 0 →
∀ fuel', kmallocInt fuel' sz true s = Fault NoFuel.
Proof.
intros [Hst _ (E & [Hb _] & _) _ _ _ _] Ho Hsz fuel'.
apply read_block_inv in Hb as (B1 & B2 & B3 & _). rewrite <- E in Hst.
unfold kmallocInt, gread. unfold mbind at 1, M_bind at 1. cbv beta iota.
rewrite Hst, eqb_false by done. apply bind_fault. unfold kmalloc_search.
apply (iter_diverges (λ a t, a = ba b ∧ t = s)); [|done]. intros a t [-> ->].
exists (ba b), s. split; [|done]. unfold checkMagic. run.
rewrite B1, Z.eqb_refl. cbv iota. rewrite B2, ltb_true by done. done.
Qed.
End runtime.

(** ** Extending the heap *)

Section extend.
Context `{VmemOps} (lo hi : Z).

(** What an extension asks [vmalloc] for. *)
Definition extension_size (sz : Z) : Z := ((sz + 40) / 0x1000 + 5) * 0x1000.

(** C34: when no block has room, [kmalloc] asks [vmalloc] for the request
  rounded down to pages plus five pages, and the region it gets becomes a
  block of the requested size at the end of the list. *)
Theorem kmalloc_extends_heap s s1 l b sz r fuel :
layout lo hi s (l ++ [b]) → Forall (λ c, bf c < sz + 40) (l ++ [b]) →
0 < sz < 2 ^ 31 → (length l < fuel)%nat →
vmalloc (extension_size sz) 1 81 s = Ok r s1 →
same_on (λ a, lo <= a < hi) (memory s) (memory s1) →
hi <= r → r + extension_size sz < 2 ^ 63 →
wp (kmallocInt fuel sz false) (λ p s',
  p = r + 32 ∧
  read_block (memory s') r = KheapBlock KHEAP_MAGIC sz (extension_size sz - 40 - sz) 1 (ba b) 0 ∧
  load 8 (memory s') (r + 32 + sz) = KHEAP_REDZONE_MAGIC ∧
  load 8 (memory s') (ba b + 24) = r) s.
Proof.
intros HL Hfull Hsz Hf Hvm Hsame Hr Hr2. pose proof HL as [Hst _ Hseg Hlo Hhi Hh Hpos].
assert (sz + 40 + 4096 * 4 < extension_size sz < 2 ^ 32) as Hx by (unfold extension_size; zlia).
assert (b ∈ l ++ [b]) as Hb by (rewrite elem_of_app, elem_of_cons; tauto).
pose proof (layout_seg_in lo hi s _ b HL Hb) as Hin. unfold blk_end in Hin.
pose proof Hseg as (mid & _ & E & [(_ & B2 & _)%read_block_inv Hrz] & _)%seg_app. subst mid.
unfold kmallocInt. wp_steps. rewrite Hst, eqb_false by lia. wrap. wp_steps.
replace (sz + 8 + 32) with (sz + 40) by lia.
eapply wp_eq; [eapply search_no_fit; (exact Hseg || done)|]. cbn [andb]. wp_steps.
unfold checkRedzone. wp_steps. rewrite B2. unfold KHEAP_REDZONE_OFFSET at 1. wrap.
rewrite Z.add_assoc, Hrz. apply wp_kassert; [by rewrite Z.eqb_refl|]. wp_step.
unfold kmalloc_extend, extendHeap.
replace (u32 ((u32 ((sz + 40) / 0x1000) + 5) * 0x1000)) with (extension_size sz)
  by (unfold extension_size in *; rewrite (u32_id ((sz + 40) / 4096)) by zlia; by rewrite u32_id by lia).
do 2 wp_step. eapply wp_eq; [exact Hvm|]. wp_steps.
apply wp_kassert; [by rewrite eqb_false by lia|]. wp_steps.
cbn [memory set_memory]. mem_wrap.
apply wp_kassert; [by rewrite Z.geb_leb, leb_true by lia|]. wp_steps.
cbn [memory set_memory]. mem_wrap. unfold KHEAP_REDZONE_OFFSET, KHEAP_BLOCK_DATA_PTR. wrap.
split_and!; [lia| | |].
- unfold read_block. mem_wrap. f_equal; lia.
- rewrite <- Z.add_assoc. mem_wrap. done.
- mem_wrap. done.
Qed.
End extend.


(** A heap of 8 KiB at 0x10000, for the witnesses. *)
Section example.
#[local] Instance no_vmem : VmemOps := {| vmalloc _ _ _ := mret 0; vmFree _ := mret tt |}.

Definition heap8k : machine :=
match initKmalloc 0x10000 0x2000 machine0 with Ok _ s => s | Fault _ => machine0 end.

Lemma heap8k_layout : layout 0x10000 0x12000 heap8k [HBlk 0x10000 0 0x1FD8].
Proof. split; [done|done|repeat split; by vm_compute|done..|constructor]. Qed.

Lemma kmalloc_refines_first_fit_witness :
wp (kmallocWrapper 205 100 false) (λ r s',
  r = 0x10048 ∧
  layout 0x10000 0x12000 s' [HBlk 0x10000 0 0; HBlk 0x10028 100 8012] ∧
  globals s' g_kmallocLock = 0 ∧
  same_on (λ a, ¬ writable [HBlk 0x10000 0 0x1FD8] a) (memory heap8k) (memory s')) heap8k.
Proof.
apply (kmalloc_refines_first_fit 0x10000 0x12000 205 heap8k [HBlk 0x10000 0 0x1FD8]);
  [apply heap8k_layout|done|done|done|done].
Defined.

(** The same heap with one live block of 100 bytes. *)
Definition heap8k_1 : machine :=
match kmallocWrapper 205 100 false heap8k with Ok _ s => s | Fault _ => machine0 end.
Definition live1 : gmap Z Z := {[0x10048 := 100]}.

Lemma heap8k_1_layout :
layout 0x10000 0x12000 heap8k_1 [HBlk 0x10000 0 0; HBlk 0x10028 100 8012].
Proof.
split; [done|done|repeat split; by vm_compute|done..|].
by repeat constructor.
Qed.

Lemma heap8k_1_inv : heap_inv 0x10000 0x12000 heap8k_1 live1.
Proof.
split; [done|]. eexists. split; [apply heap8k_1_layout|]. intros p z. unfold live1.
rewrite lookup_singleton_Some. split.
- intros [<- <-]. exists (HBlk 0x10028 100 8012). split; [|done]. simpl. constructor.
- intros (b & Hb & -> & ->). simpl in Hb. apply list_elem_of_singleton in Hb as ->. done.
Qed.

Lemma kfree_refines_first_fit_witness :
wp (kfree_ 0x10048) (λ _ s',
  layout 0x10000 0x12000 s' [HBlk 0x10000 0 0x1FD8] ∧
  globals s' g_kmallocLock = 0 ∧
  same_on (λ a, ¬ writable [HBlk 0x10000 0 0; HBlk 0x10028 100 8012] a)
    (memory heap8k_1) (memory s')) heap8k_1.
Proof.
apply (kfree_refines_first_fit 0x10000 0x12000 heap8k_1
         [HBlk 0x10000 0 0; HBlk 0x10028 100 8012]); [apply heap8k_1_layout|done|done].
Defined.

(** Two live blocks: the first has no free bytes left after it. *)
Definition heap8k_2 : machine :=
match kmallocWrapper 205 50 false heap8k_1 with Ok _ s => s | Fault _ => machine0 end.

Lemma krealloc_refines_first_fit_witness :
wp (krealloc_ 205 0x10048 200) (λ r s',
  r = 0x1012E ∧
  layout 0x10000 0x12000 s' [HBlk 0x10000 0 140; HBlk 0x100B4 50 0; HBlk 0x1010E 200 7682] ∧
  globals s' g_kmallocLock = 0 ∧
  (∀ i, 1 <= i < Z.min 100 200 → mbyte (memory s') (0x1012E + i) = mbyte (memory heap8k_2) (0x10048 + i)) ∧
  mbyte (memory s') 0x1012E = mbyte (memory heap8k_2) 0x1012E) heap8k_2.
Proof.
apply (krealloc_refines_first_fit 0x10000 0x12000 205 heap8k_2
  [HBlk 0x10000 0 0; HBlk 0x10028 100 0; HBlk 0x100B4 50 7922] _ 0x10048 0x1012E (HBlk 0x10028 100 0) 200);
  [|done..].
split; [done|done|repeat split; by vm_compute|done..|]. by repeat constructor.
Defined.

Lemma heap_invariant_witness :
heap_inv 0x10000 0x12000 heap8k_1 (<[0x10048 := 100]> ∅) ∧
(∀ p q z w, (<[0x10048 := 100]> ∅ : gmap Z Z) !! p = Some z →
  (<[0x10048 := 100]> ∅ : gmap Z Z) !! q = Some w → p ≠ q → p + z <= q ∨ q + w <= p).
Proof.
apply (heap_invariant 0x10000 0x12000 205 machine0 heap8k heap8k_1 _ 0x2000);
  [done|done|done|done|done|done|by vm_compute|].
apply rtc_once. apply step_kmalloc; [|done|by vm_compute].
exists [HBlk 0x10000 0 0x1FD8]. split; [apply heap8k_layout|]. by constructor.
Defined.

Lemma kfree_double_free_witness :
wp (kfree_ 0x10048) (λ _ s', kfree_ 0x10048 s' = Fault (Panic "Invalid kblock magic")) heap8k_1.
Proof.
apply (kfree_double_free 0x10000 0x12000 heap8k_1 live1 0x10048 100);
  [apply heap8k_1_inv|done].
Defined.

(** Writing one byte past the end of the block. *)
Lemma kfree_detects_overflow_witness :
kfree_ 0x10048 (set_memory (store 1 (memory heap8k_1) 0x100AC 0) heap8k_1) =
  Fault (Panic "Corrupted redzone").
Proof.
apply (kfree_detects_overflow 0x10000 0x12000 heap8k_1 _ live1 0x10048 100);
  [apply heap8k_1_inv|done| |done|by vm_compute].
intros a Ha. cbn [memory set_memory]. apply mbyte_store_ne. lia.
Defined.

Lemma krealloc_same_size_keeps_lock_witness :
∃ s', krealloc_ 205 0x10048 100 heap8k_1 = Ok 0x10048 s' ∧
  ∀ fuel' sz align q, kmallocWrapper fuel' sz align s' = Fault Spin ∧ kfree_ q s' = Fault Spin.
Proof.
apply (krealloc_same_size_keeps_lock 0x10000 0x12000 205 heap8k_1 live1 0x10048 100);
  [apply heap8k_1_inv|done].
Defined.

(** A heap that starts at 0x1FC0: its first data area ends 24 bytes before a
  page. *)
Definition heap_odd : machine :=
match initKmalloc 0x1FC0 0x2000 machine0 with Ok _ s => s | Fault _ => machine0 end.

Lemma kmalloc_aligned_search_diverges_witness :
kmallocInt 1000 100 true heap_odd = Fault NoFuel.
Proof.
apply (kmalloc_aligned_search_diverges 0x1FC0 0x3FC0 heap_odd [] (HBlk 0x1FC0 0 0x1FD8));
  [|done|done].
split; [done|done|repeat split; by vm_compute|done..|constructor].
Defined.
End example.

Section example_extend.
#[local] Instance const_vmem : VmemOps :=
{| vmalloc _ _ _ := mret 0x20000; vmFree _ := mret tt |}.

Lemma kmalloc_extends_heap_witness :
wp (kmallocInt 10 0x3000 false) (λ p s',
  p = 0x20020 ∧
  read_block (memory s') 0x20000 =
    KheapBlock KHEAP_MAGIC 0x3000 (extension_size 0x3000 - 40 - 0x3000) 1 0x10000 0 ∧
  load 8 (memory s') (0x20000 + 32 + 0x3000) = KHEAP_REDZONE_MAGIC ∧
  load 8 (memory s') (0x10000 + 24) = 0x20000) heap8k.
Proof.
apply (kmalloc_extends_heap 0x10000 0x12000 heap8k heap8k [] (HBlk 0x10000 0 0x1FD8) 0x3000 0x20000 10);
  [apply heap8k_layout|by repeat constructor|done|simpl; lia|done|done|done|done].
Defined.
End example_extend.
