(* ===== verification/Mmap.v ===== *)
(** * Boot information and the memory map (bootinfo.h, mmap.h, mmap.c)

    The structures the boot loader hands over, and the kernel's search of the
    memory map and of the allocation map.  An array behind a pointer is a list;
    an access past its end is the fault [OutOfBounds]. *)

From S2P Require Import Prelude Kmonad.

Record gopInfo := GopInfo {
  gop_Xres : Z; gop_Yres : Z; gop_pps : Z; gop_rmask : Z; gop_gmask : Z; gop_bmask : Z;
  gop_resmask : Z; gop_size : Z; gop_framebuffer : Z
}.

Record mmapEntry := MmapEntry {
  me_magic : Z; me_flags : Z; me_type : Z; me_phys : Z; me_virt : Z; me_bytes : Z
}.

Definition MMAP_TYPE_IGNORE : Z := 0x0.
Definition MMAP_TYPE_FREE : Z := 0x1.
Definition MMAP_TYPE_UEFI : Z := 0x2.
Definition MMAP_TYPE_VESA : Z := 0x3.
Definition MMAP_TYPE_MMIO : Z := 0x4.
Definition MMAP_TYPE_ACPI : Z := 0x5.
Definition MMAP_TYPE_RESV : Z := 0x6.
Definition MMAP_TYPE_UNUSABLE : Z := 0x7.
Definition MMAP_TYPE_KERNEL : Z := 0x8.
Definition MMAP_TYPE_OTHER : Z := 0x9.
Definition MMAP_TYPE_ELF : Z := 0xA.
Definition MMAP_TYPE_PAGE : Z := 0xB.
Definition MMAP_TYPE_BOOT : Z := 0xC.
Definition MMAP_TYPE_PMM : Z := 0xD.
Definition MMAP_TYPE_MAX : Z := 0xD.
Definition MMAP_MAGIC : Z := 0xAEFADEADAEFADEAD.
Definition MMAP_FLAG_ALIGN : Z := 1.
Definition MMAP_FLAG_PARSED : Z := 2.

(** [struct memInfo]: [ptr] and [aptr] are the arrays they point to, [None] for
    a null pointer. *)
Record memInfo := MemInfo {
  mi_ptr : option (list mmapEntry);
  mi_entries : Z;
  mi_aptr : option (list mmapEntry);
  mi_aentries : Z;
  mi_symptr : Z;
  mi_symsz : Z
}.

Record bootInfo := BootInfo {
  bi_magic : Z; bi_ui : gopInfo; bi_mem : memInfo; bi_rdptr : Z; bi_rdsz : Z;
  bi_acpiptr : Z; bi_devtree : Z
}.

(** The globals of mmap.c. *)
Record mmap_state := MmapState {
  entries : Z;
  aentries : Z;
  mmap : option (list mmapEntry);
  allocMap : option (list mmapEntry)
}.
Definition mmap_state0 : mmap_state := MmapState 0 0 None None.

Definition initMmap (kinf : bootInfo) : M mmap_state unit :=
  let mem := bi_mem kinf in
  _ ← modify (λ s, MmapState (entries s) (aentries s) (mi_ptr mem) (allocMap s));
  _ ← kassert (bool_decide (is_Some (mi_ptr mem))) "Bootloader failed to pass valid mmap";
  modify (λ s, MmapState (mi_entries mem) (mi_aentries mem) (mmap s) (mi_aptr mem)).

Definition getMmap : M mmap_state (option (list mmapEntry)) := gets mmap.

(** [map[i]] through a pointer that may be null. *)
Definition map_get {S} (map : option (list mmapEntry)) (i : Z) : M S mmapEntry :=
  match map with Some l => array_get l i | None => fail OutOfBounds end.

Definition entry_covers (phys : Z) (e : mmapEntry) : bool :=
  negb (me_type e =? MMAP_TYPE_IGNORE) &&
  (me_phys e <=? phys) && (u64 (me_phys e + me_bytes e) >=? phys).

(** [getMmapEntry_internal]: the index of the entry, [None] for NULL.  The
    [limit] the [alloc] branch declares is a new variable of its block. *)
Definition getMmapEntry_internal (phys : Z) (alloc : bool) : M mmap_state (option Z) :=
  s ← get;
  let limit := entries s in
  let map := if alloc then allocMap s else mmap s in
  iter (S (Z.to_nat limit)) (λ i,
    if negb (i <? limit) then mret (inr None)
    else
      e ← map_get map i;
      mret (if entry_covers phys e then inr (Some i) else inl (i + 1))) 0.

Definition getMmapEntry (phys : Z) : M mmap_state (option Z) := getMmapEntry_internal phys false.
Definition getAllocMapEntry (phys : Z) : M mmap_state (option Z) := getMmapEntry_internal phys true.

(** ** dumpMmap *)

Definition mmapTypeString : list string :=
  ["IGNORE"%string; "FREE"%string; "UEFI"%string; "VESA"%string; "MMIO"%string; "ACPI"%string; "RESV"%string;
   "UNUSABLE"%string; "KERNEL"%string; "OTHER"%string; "ELF"%string; "PAGE"%string; "BOOT"%string; "PMM"%string].

(** The line an entry is printed as. *)
Record mmap_line := MmapLine {
  ml_bad_magic : bool; ml_type : string; ml_align : bool; ml_parsed : bool; ml_from : Z; ml_to : Z; ml_bytes : Z
}.
Definition flag_set (e : mmapEntry) (f : Z) : bool := negb (Z.land (me_flags e) f =? 0).

(** [mmapTypeString[type]] is read behind its end for a type above [MMAP_TYPE_MAX]. *)
Definition dump_entry (e : mmapEntry) : M mmap_state mmap_line :=
  t ← array_get mmapTypeString (me_type e);
  mret (MmapLine (negb (me_magic e =? MMAP_MAGIC)) t (flag_set e MMAP_FLAG_ALIGN) (flag_set e MMAP_FLAG_PARSED)
          (me_phys e) (u64 (me_phys e + me_bytes e)) (me_bytes e)).

Definition dump_map_step (map : option (list mmapEntry)) (n : Z) (st : Z * list mmap_line)
    : M mmap_state (Z * list mmap_line + list mmap_line) :=
  let '(i, out) := st in
  if negb (i <? n) then mret (inr out)
  else
    e ← map_get map i;
    if me_type e =? MMAP_TYPE_IGNORE then mret (inl (i + 1, out))
    else l ← dump_entry e; mret (inl (i + 1, out ++ [l])).
Definition dump_map (map : option (list mmapEntry)) (n : Z) : M mmap_state (list mmap_line) :=
  iter (S (Z.to_nat n)) (dump_map_step map n) (0, []).

(** [dumpMmap]: both rounds count to [entries].  [prm == allocMap] after the first
    round holds for two null pointers only; the boot loader gives two arrays. *)
Definition dumpMmap : M mmap_state (list mmap_line) :=
  s ← get;
  first ← dump_map (mmap s) (entries s);
  match mmap s, allocMap s with
  | None, None => mret first
  | _, _ => second ← dump_map (allocMap s) (entries s); mret (first ++ second)
  end.

(** ** The search *)

(** The index of the first element that satisfies [p], counted from [i]. *)
Fixpoint find_from {A} (p : A → bool) (l : list A) (i : Z) : option Z :=
  match l with
  | [] => None
  | x :: l' => if p x then Some i else find_from p l' (i + 1)
  end.

Lemma nthZ_app_cons {A} (pre : list A) (x : A) l :
  nthZ (pre ++ x :: l) (Z.of_nat (length pre)) = Some x.
Proof.
  unfold nthZ. rewrite decide_True by lia. rewrite Nat2Z.id.
  rewrite lookup_app_r by lia. by rewrite Nat.sub_diag.
Qed.

Lemma mmap_search_loop {S} (phys limit : Z) pre l rest (s : S) fuel :
  limit = Z.of_nat (length pre + length l) → (length l < fuel)%nat →
  iter fuel (λ i,
    if negb (i <? limit) then mret (inr None)
    else
      e ← map_get (Some (pre ++ l ++ rest)) i;
      mret (if entry_covers phys e then inr (Some i) else inl (i + 1)))
    (Z.of_nat (length pre)) s = Ok (find_from (entry_covers phys) l (Z.of_nat (length pre))) s.
Proof.
  intros Hl Hf. revert pre fuel Hl Hf. induction l as [|e l IH]; intros pre [|fuel] Hl Hf; simpl in *; try lia.
  - rewrite ltb_false by lia. done.
  - rewrite ltb_true by lia. cbn [negb]. unfold mbind, M_bind, array_get.
    rewrite nthZ_app_cons. cbn.
    destruct (entry_covers phys e); [done|].
    replace (Z.of_nat (length pre) + 1) with (Z.of_nat (length (pre ++ [e])))
      by (rewrite length_app; simpl; lia).
    replace (pre ++ e :: l ++ rest) with ((pre ++ [e]) ++ l ++ rest) by by rewrite <- app_assoc.
    apply IH; [rewrite length_app; simpl; lia|lia].
Qed.

(** [getMmapEntry] returns the first entry of the map that is not to be
    ignored and whose range, its end included, contains the address; a search of
    the allocation map looks at as many entries as the memory map has, whatever
    the length of the allocation map. *)
Theorem getMmapEntry_first s l rest (alloc : bool) phys :
  (if alloc then allocMap s else mmap s) = Some (l ++ rest) →
  entries s = Z.of_nat (length l) →
  getMmapEntry_internal phys alloc s = Ok (find_from (entry_covers phys) l 0) s.
Proof.
  intros Hm He. unfold getMmapEntry_internal. unfold mbind at 1, M_bind at 1, get.
  rewrite Hm, He. apply (mmap_search_loop phys _ [] l rest s); simpl; [done|lia].
Qed.

(** when the memory map has more entries than the allocation map, looking up
    an address no allocation covers reads past the allocation map. *)
Theorem getAllocMapEntry_overruns s l phys :
  allocMap s = Some l → Forall (λ e, entry_covers phys e = false) l →
  Z.of_nat (length l) < entries s → getAllocMapEntry phys s = Fault OutOfBounds.
Proof.
  intros Hm Hf Hl. unfold getAllocMapEntry, getMmapEntry_internal.
  unfold mbind at 1, M_bind at 1, get. rewrite Hm.
  assert (∀ pre l' fuel, l = pre ++ l' → (length l' < fuel)%nat →
    iter fuel (λ i, if negb (i <? entries s) then mret (inr None)
      else e ← map_get (Some l) i;
           mret (if entry_covers phys e then inr (Some i) else inl (i + 1)))
      (Z.of_nat (length pre)) s = Fault OutOfBounds) as H.
  { intros pre l'. revert pre. induction l' as [|e l' IH]; intros pre [|fuel] -> Hfu; simpl in *; try lia;
      rewrite length_app in Hl; simpl in Hl; rewrite ltb_true by lia; cbn [negb];
      unfold mbind, M_bind, array_get.
    - rewrite nthZ_None by (rewrite length_app; simpl; lia). done.
    - rewrite nthZ_app_cons. cbn. apply Forall_app in Hf as [_ [He _]%Forall_cons]. rewrite He.
      replace (Z.of_nat (length pre) + 1) with (Z.of_nat (length (pre ++ [e])))
        by (rewrite length_app; simpl; lia).
      apply IH; [by rewrite <- app_assoc|lia]. }
  apply (H [] l); [done|]. lia.
Qed.

(** ** The dump *)

(** The lines of the entries that are not to be ignored. *)
Definition line_of_entry (e : mmapEntry) : option mmap_line :=
  if me_type e =? MMAP_TYPE_IGNORE then None
  else (λ t, MmapLine (negb (me_magic e =? MMAP_MAGIC)) t (flag_set e MMAP_FLAG_ALIGN) (flag_set e MMAP_FLAG_PARSED)
          (me_phys e) (u64 (me_phys e + me_bytes e)) (me_bytes e)) <$> nthZ mmapTypeString (me_type e).

Definition type_known (e : mmapEntry) : Prop := 0 <= me_type e <= MMAP_TYPE_MAX.

(** What one entry adds to the lines printed so far. *)
Lemma dump_map_step_ok pre e l rest n out s :
  type_known e → Z.of_nat (length pre) < n →
  dump_map_step (Some (pre ++ (e :: l) ++ rest)) n (Z.of_nat (length pre), out) s =
  Ok (inl (Z.of_nat (length pre) + 1, out ++ option_list (line_of_entry e))) s.
Proof.
  intros Ht Hn. unfold dump_map_step, map_get, array_get, line_of_entry. rewrite ltb_true by done. cbn [negb].
  change ((e :: l) ++ rest) with (e :: l ++ rest). rewrite nthZ_app_cons. cbv [mbind M_bind mret M_ret].
  destruct (me_type e =? MMAP_TYPE_IGNORE); [by rewrite app_nil_r|].
  unfold dump_entry, array_get. destruct (nthZ_is_Some mmapTypeString (me_type e)) as [t ->]; [|done].
  unfold type_known, MMAP_TYPE_MAX in Ht. simpl. lia.
Qed.

Lemma dump_map_loop pre l rest n out fuel s :
  n = Z.of_nat (length pre + length l) → Forall type_known l → (length l < fuel)%nat →
  iter fuel (dump_map_step (Some (pre ++ l ++ rest)) n) (Z.of_nat (length pre), out) s =
  Ok (out ++ omap line_of_entry l) s.
Proof.
  revert pre out fuel. induction l as [|e l IH]; intros pre out [|fuel] Hn Hk Hf; simpl in Hf; try lia; cbn [iter].
  - unfold dump_map_step. rewrite ltb_false by (simpl in Hn; lia). cbn. by rewrite app_nil_r.
  - apply Forall_cons in Hk as [He Hk].
    rewrite (bind_ok _ _ _ _ _ (dump_map_step_ok pre e l rest n out s He ltac:(simpl in Hn; lia))).
    replace (Z.of_nat (length pre) + 1) with (Z.of_nat (length (pre ++ [e]))) by (rewrite length_app; simpl; lia).
    replace (pre ++ (e :: l) ++ rest) with ((pre ++ [e]) ++ l ++ rest) by by rewrite <- app_assoc.
    rewrite IH; [|rewrite length_app; simpl in *; lia|done|lia].
    rewrite <- app_assoc. simpl. by destruct (line_of_entry e).
Qed.

Lemma dump_map_ok l rest n s :
  n = Z.of_nat (length l) → Forall type_known l → dump_map (Some (l ++ rest)) n s = Ok (omap line_of_entry l) s.
Proof.
  intros Hn Hk. unfold dump_map. apply (dump_map_loop [] l rest n [] _ s); simpl; [lia|done|lia].
Qed.

(** When the two maps have at least [entries] entries of known types, the dump
    shows the first [entries] of each. *)
Lemma dumpMmap_ok s l rest al arest :
  mmap s = Some (l ++ rest) → allocMap s = Some (al ++ arest) →
  entries s = Z.of_nat (length l) → entries s = Z.of_nat (length al) →
  Forall type_known l → Forall type_known al →
  dumpMmap s = Ok (omap line_of_entry l ++ omap line_of_entry al) s.
Proof.
  intros Hm Ha Hl Hal Hk Hka. unfold dumpMmap. erewrite bind_ok by reflexivity. rewrite Hm, Ha.
  rewrite (bind_ok _ _ _ _ _ (dump_map_ok l rest _ s Hl Hk)).
  by rewrite (bind_ok _ _ _ _ _ (dump_map_ok al arest _ s Hal Hka)).
Qed.

(** The dump reads behind an allocation map with fewer entries than the memory map. *)
Lemma dump_map_overruns l n s :
  Forall type_known l → Z.of_nat (length l) < n → dump_map (Some l) n s = Fault OutOfBounds.
Proof.
  intros Hk Hn. unfold dump_map.
  assert (∀ l' pre out fuel, l = pre ++ l' → (length l' < fuel)%nat →
    iter fuel (dump_map_step (Some l) n) (Z.of_nat (length pre), out) s = Fault OutOfBounds) as H.
  { induction l' as [|e l' IH]; intros pre out [|fuel] -> Hf; simpl in Hf; try lia; cbn [iter].
    - apply bind_fault. unfold dump_map_step, map_get, array_get. rewrite app_nil_r in *.
      rewrite ltb_true by done. by rewrite nthZ_None by lia.
    - rewrite length_app in Hn. simpl in Hn. apply Forall_app in Hk as HH. destruct HH as [_ [He _]%Forall_cons].
      pose proof (dump_map_step_ok pre e l' [] n out s He ltac:(lia)) as E. rewrite app_nil_r in E.
      rewrite (bind_ok _ _ _ _ _ E).
      replace (Z.of_nat (length pre) + 1) with (Z.of_nat (length (pre ++ [e]))) by (rewrite length_app; simpl; lia).
      apply IH; [by rewrite <- app_assoc|lia]. }
  apply (H l []); [done|lia].
Qed.

(** ** Witnesses *)

Definition map2 : list mmapEntry :=
  [MmapEntry 0 0 MMAP_TYPE_FREE 0x1000 0 0x1000; MmapEntry 0 0 MMAP_TYPE_ACPI 0x8000 0 0x1000].
Definition mmap_state2 : mmap_state := MmapState 2 1 (Some map2) (Some (take 1 map2)).

Lemma getMmapEntry_first_witness :
  getMmapEntry_internal 0x9000 false mmap_state2 = Ok (Some 1) mmap_state2.
Proof. apply (getMmapEntry_first mmap_state2 map2 [] false 0x9000); done. Defined.

Lemma getAllocMapEntry_overruns_witness :
  getAllocMapEntry 0x8000 mmap_state2 = Fault OutOfBounds.
Proof. apply (getAllocMapEntry_overruns mmap_state2 (take 1 map2)); [done|by repeat constructor|done]. Defined.
