(* ===== verification/Pmm.v ===== *)
(** * pmm.c: the physical memory manager

    Each usable region of the memory map has up to [MAXORDER] bitmaps, one bit
    per block of [0x4000 << order] bytes.  A bitmap is the list of the 64-bit
    words allocated for it; an access past it, through a null bitmap or past the
    ten orders is [OutOfBounds]; [1<<n] is the [int] shift the source writes. *)

From S2P Require Import Prelude Kmonad Mmap.

Definition MAXORDER : Z := 10.
Definition ORDER_MIN_BLOCK_SIZE : Z := 0x4000.
Definition ORDER_BLOCK_SIZE (o : Z) : Z := Z.shiftl 1 o * ORDER_MIN_BLOCK_SIZE.
Definition MEMORY_TYPE_ANY : Z := 0x0.
Definition MEMORY_TYPE_1MB : Z := 0x1.
Definition MEMORY_TYPE_LOW : Z := 0x2.
Definition MEMORY_TYPE_HGH : Z := 0x3.
Definition MEMORY_TYPE_ISA : Z := 0x4.
Definition MEMORY_ALLOCATION_FAILED : Z := 0xFFF.
Definition ORDER_IS_RIGHT_BLOCK (blk : Z) : bool := negb (Z.land ((blk + 2) mod 2) 1 =? 0).
Definition ORDER_GET_PARENT_BIT_LBIT (lblk idx : Z) : Z := Z.shiftr (u64 (u64 (idx * 64) + lblk)) 1.
Definition ORDER_ADDRESS_TO_BIT (addr base : Z) : Z := u64 (addr - base) / ORDER_MIN_BLOCK_SIZE.
Definition ORDER_GET_IDX_FROM_BIT (bit : Z) : Z := bit / 64.
Definition ORDER_GET_CHILD_NUM (order pbit : Z) : Z := u64 (Z.shiftl (u64 pbit) order).
Definition ORDER_CALCULATE_ABS_ADDRESS (order bit base : Z) : Z :=
  u64 (u64 (ORDER_GET_CHILD_NUM order bit * ORDER_MIN_BLOCK_SIZE) + base).

Record memOrder := MemOrder {
  entryn : Z;                    (* uint32_t *)
  used : Z;                      (* uint32_t *)
  entry : option (list Z)        (* uint64_t*, [None] for NULL *)
}.

Record memRegion := MemRegion {
  mr_type : Z; mr_flags : Z; base : Z; limit : Z; blockCount : Z; ordern : Z;
  mr_order : list memOrder       (* struct memOrder order[MAXORDER] *)
}.

Record pmm := Pmm {
  regionCount : Z;
  region : list memRegion;       (* [] until it is allocated *)
  buddyLock : Z;
  shouldInit : bool
}.

Definition memOrder0 : memOrder := MemOrder 0 0 None.
Definition memRegion0 : memRegion := MemRegion 0 0 0 0 0 0 (replicate 10 memOrder0).
Definition pmm0 : pmm := Pmm 0 [] 0 true.

Definition set_orders (os : list memOrder) (r : memRegion) : memRegion :=
  MemRegion (mr_type r) (mr_flags r) (base r) (limit r) (blockCount r) (ordern r) os.
Definition set_region (rs : list memRegion) (s : pmm) : pmm :=
  Pmm (regionCount s) rs (buddyLock s) (shouldInit s).
Definition set_buddyLock (l : Z) (s : pmm) : pmm := Pmm (regionCount s) (region s) l (shouldInit s).

(** [r->order[o]], [r->order[o].entry[i]] and their updates. *)
Definition order_get (o : Z) : M memRegion memOrder := r ← get; array_get (mr_order r) o.
Definition order_put (o : Z) (mo : memOrder) : M memRegion unit :=
  r ← get; os ← array_set (mr_order r) o mo; put (set_orders os r).
Definition word_get (o i : Z) : M memRegion Z :=
  mo ← order_get o;
  match entry mo with Some ws => array_get ws i | None => fail OutOfBounds end.
Definition word_put (o i w : Z) : M memRegion unit :=
  mo ← order_get o;
  match entry mo with
  | Some ws => ws' ← array_set ws i w; order_put o (MemOrder (entryn mo) (used mo) (Some ws'))
  | None => fail OutOfBounds
  end.
Definition add_used (o n : Z) : M memRegion unit :=
  mo ← order_get o; order_put o (MemOrder (entryn mo) (u32 (used mo + n)) (entry mo)).

(** [entry[i] |= (1<<b)] and [entry[i] &= ~(1<<b)]: the [int] is converted to
    [uint64_t]. *)
Definition word_or_bit (o i b : Z) : M memRegion unit :=
  v ← int_bit b; w ← word_get o i; word_put o i (Z.lor w (u64 v)).
Definition word_clear_bit (o i b : Z) : M memRegion unit :=
  v ← int_bit b; w ← word_get o i; word_put o i (Z.land w (u64 (Z.lnot v))).
Definition word_test_bit (o i b : Z) : M memRegion bool :=
  w ← word_get o i; v ← int_bit b; mret (negb (Z.land w (u64 v) =? 0)).

(** ** Bitmaps *)

Definition setBit (order idx bit : Z) : M memRegion unit :=
  let childBaseBit := ORDER_GET_CHILD_NUM order bit in
  let childBaseBit := if ORDER_IS_RIGHT_BLOCK childBaseBit then childBaseBit - 1 else childBaseBit in
  let childBaseIdx := ORDER_GET_IDX_FROM_BIT childBaseBit in
  let childBaseBit := childBaseBit / 64 in
  _ ← iter (S (Z.to_nat order)) (λ '(i, cbit, cidx),
    if negb (i <? order) then mret (inr tt)
    else
      _ ← word_or_bit i cidx cidx;
      _ ← add_used i 2;
      let cbit := ORDER_GET_PARENT_BIT_LBIT cbit cidx in
      mret (inl (i + 1, cbit mod 64, ORDER_GET_IDX_FROM_BIT cbit)))
    (0, childBaseBit, childBaseIdx);
  _ ← word_or_bit order idx bit;
  _ ← add_used order 1;
  let bit := if ORDER_IS_RIGHT_BLOCK bit then bit - 1 else bit in
  let bit := u8 (ORDER_GET_PARENT_BIT_LBIT bit idx) in
  let idx := ORDER_GET_IDX_FROM_BIT bit in
  let bit := bit / 64 in
  r ← get;
  iter (S (Z.to_nat (ordern r))) (λ '(order, idx, bit),
    if negb (order <? ordern r) then mret (inr tt)
    else
      mo ← order_get order;
      if entryn mo =? 0 then mret (inr tt)
      else
        _ ← word_or_bit order idx bit;
        _ ← add_used order 1;
        let bit := u8 (ORDER_GET_PARENT_BIT_LBIT bit idx) in
        mret (inl (u16 (order + 1), ORDER_GET_IDX_FROM_BIT bit, bit mod 64)))
    (u16 (order + 1), idx, bit).

Definition freeBit (order idx bit : Z) : M memRegion unit :=
  let lbit := if ORDER_IS_RIGHT_BLOCK bit then bit else u8 (bit - 1) in
  let test := if ORDER_IS_RIGHT_BLOCK bit then lbit else u8 (bit + 1) in
  _ ← word_clear_bit order idx bit;
  buddy ← word_test_bit order idx test;
  if (buddy : bool) then mret tt
  else
    iter (S (Z.to_nat MAXORDER)) (λ '(order, parentIdx, parentBit),
      if negb (order <? MAXORDER) then mret (inr tt)
      else
        let parentBit := u8 (ORDER_GET_PARENT_BIT_LBIT parentBit parentIdx) in
        let parentIdx := ORDER_GET_IDX_FROM_BIT parentBit in
        let parentBit := parentBit mod 64 in
        _ ← word_clear_bit order parentIdx parentBit;
        b ← word_test_bit order parentIdx (parentBit + 1);
        mret (if (b : bool) then inr tt else inl (u16 (order + 1), parentIdx, parentBit)))
      (u16 (order + 1), u8 idx, bit).

(** The inner loop of [allocRegion]: the first clear bit of word [idx]. *)
Definition find_bit (order idx i n : Z) : M memRegion Z :=
  iter 65 (λ '(i, bit),
    if negb ((i <? n) && (bit <? 64)) then mret (inr bit)
    else
      b ← word_test_bit order idx bit;
      mret (if (b : bool) then inl (u32 (i + 1), bit + 1) else inr bit)) (i, 0).

Definition allocRegion (order : Z) : M memRegion Z :=
  mo ← order_get order;
  if used mo >=? entryn mo then mret MEMORY_ALLOCATION_FAILED
  else
    '(idx, bit) ← iter (S (Z.to_nat (entryn mo / 64 + 1))) (λ '(i, idx),
      if negb (i <? entryn mo) then mret (inr (idx, -1))
      else
        let idx := i / 64 in
        w ← word_get order idx;
        if w =? 0xFFFFFFFFFFFFFFFF then mret (inl (u32 (i + 64), idx))
        else bit ← find_bit order idx i (entryn mo); mret (inr (idx, bit))) (0, 0);
    if bit =? -1 then mret MEMORY_ALLOCATION_FAILED
    else
      _ ← setBit order idx (u8 bit);
      r ← get;
      mret (ORDER_CALCULATE_ABS_ADDRESS order bit (base r)).

(** ** The allocator *)

(** Run an operation on [region[i]]. *)
Definition on_region {A} (i : Z) (m : M memRegion A) : M pmm A :=
  s ← get;
  r ← array_get (region s) i;
  match m r with
  | Ok a r' => _ ← put (set_region (updZ (region s) i r') s); mret a
  | Fault e => fail e
  end.

Definition get_buddyLock : M pmm unit :=
  s ← get;
  if Z.testbit (buddyLock s) 0 then fail Spin else put (set_buddyLock (Z.lor (buddyLock s) 1) s).
Definition free_buddyLock : M pmm unit := modify (set_buddyLock 0).

(** The first loop of [allocPhys]: [for(;order < MAXORDER; ++order){ if(sz >=
    bytes){break;} sz = sz<<order; }]. *)
Fixpoint order_loop (n : nat) (sz bytes order : Z) : Z :=
  match n with
  | O => order
  | S n' => if sz >=? bytes then order
            else order_loop n' (u64 (Z.shiftl sz order)) bytes (order + 1)
  end.
Definition order_for (bytes : Z) : Z := order_loop 10 ORDER_MIN_BLOCK_SIZE bytes 0.

(** The second loop: the index of the region that is used.  The test of
    [REGION_FLAG_COMPLETE] is [flags & (1<<0 == 0)], which is never true. *)
Fixpoint choose_region (rs : list memRegion) (i type flags order : Z) (best : option Z)
    : M pmm (option Z) :=
  match rs with
  | [] => mret best
  | r :: rs' =>
      let skip := choose_region rs' (i + 1) type flags order best in
      let take := choose_region rs' (i + 1) type flags order (Some i) in
      if negb (type =? MEMORY_TYPE_1MB) && (mr_type r =? MEMORY_TYPE_1MB) then skip
      else if negb (Z.land flags 1 =? 0) && negb (mr_type r =? type) then skip
      else
        mo ← array_get (mr_order r) order;
        if bool_decide (entry mo = None) then skip
        else if mr_type r =? type then take
        else if bool_decide (best = None) then take
        else if (mr_type r >? MEMORY_TYPE_1MB) && (mr_type r <? MEMORY_TYPE_ISA) then
          if i =? 0x3 then mret best else take
        else skip
  end.

(** [allocPhys]: the result and the value stored to [*actual]. *)
Definition allocPhys (bytes type flags : Z) : M pmm (Z * Z) :=
  _ ← get_buddyLock;
  let flags := if negb (Z.land flags 1 =? 0) && (type =? MEMORY_TYPE_ANY)
               then Z.land flags (u16 (Z.lnot 1)) else flags in
  let order := order_for bytes in
  if order >? MAXORDER then _ ← free_buddyLock; mret (MEMORY_ALLOCATION_FAILED, 0)
  else
    let flags := if type =? MEMORY_TYPE_1MB then Z.lor flags 1 else flags in
    s ← get;
    best ← choose_region (region s) 0 type flags order None;
    match best with
    | None => fail (Panic "No memory available")
    | Some i =>
        ptr ← on_region i (allocRegion order);
        _ ← free_buddyLock;
        mret (ptr, ORDER_BLOCK_SIZE order)
    end.

Definition KALIGN (addr : Z) : Z := Z.land addr 0xFFFFFFFFFFFFF000.
Definition IS_UNALIGNED (addr : Z) : bool := negb (Z.land addr 0xFFF =? 0).

Definition allocPhysAddress (addr bytes : Z) : M pmm Z :=
  _ ← get_buddyLock;
  s ← get;
  match find_from (λ r, (base r <? addr) && (limit r >? addr)) (region s) 0 with
  | None => _ ← free_buddyLock; mret MEMORY_ALLOCATION_FAILED
  | Some rn =>
      r ← array_get (region s) rn;
      _ ← iter (S (Z.to_nat (bytes / ORDER_MIN_BLOCK_SIZE + 1))) (λ '(bytes, ptr),
        if bytes =? 0 then mret (inr tt)
        else
          let bit := ORDER_ADDRESS_TO_BIT ptr (base r) in
          let idx := u32 (ORDER_GET_IDX_FROM_BIT bit) in
          _ ← on_region rn (setBit 0 idx (bit mod 64));
          mret (inl (if bytes >? ORDER_MIN_BLOCK_SIZE then bytes - ORDER_MIN_BLOCK_SIZE else 0,
                     u64 (ptr + ORDER_MIN_BLOCK_SIZE)))) (bytes, KALIGN addr);
      _ ← free_buddyLock;
      mret addr
  end.

Definition freePhys (ptr : Z) : M pmm unit :=
  if IS_UNALIGNED ptr then mret tt
  else
    _ ← get_buddyLock;
    s ← get;
    match find_from (λ r, (ptr >=? base r) && (ptr <=? limit r)) (region s) 0 with
    | None => mret tt                                    (* returns without FREE_LOCK *)
    | Some i =>
        r ← array_get (region s) i;
        let bit := ORDER_ADDRESS_TO_BIT ptr (base r) in
        let idx := ORDER_GET_IDX_FROM_BIT bit in
        _ ← on_region i (freeBit 0 idx (u8 bit));
        free_buddyLock
    end.

Definition freeNPhys (fuel : nat) (ptr bytes : Z) : M pmm unit :=
  if IS_UNALIGNED ptr then mret tt
  else
    iter fuel (λ '(i, bytes),
      _ ← freePhys (u64 (ptr + u32 (ORDER_MIN_BLOCK_SIZE * i)));
      mret (if u64 (bytes - ORDER_MIN_BLOCK_SIZE) <=? 0 then inr tt
            else inl (u32 (i + 1), u64 (bytes - ORDER_MIN_BLOCK_SIZE)))) (0, bytes).

(** ** Initialisation *)

Definition setRegionType (ent : mmapEntry) : Z :=
  if me_phys ent <? 0x100000 then MEMORY_TYPE_1MB
  else if me_phys ent <? 0x100000000 then MEMORY_TYPE_LOW
  else MEMORY_TYPE_HGH.

(** The bitmap of an order of [blc] blocks: [blc/64] zeroed words, at least one. *)
Definition new_bitmap (blc : Z) : list Z :=
  replicate (if blc / 64 =? 0 then 1%nat else Z.to_nat (blc / 64)) 0.

(** [while((blc > 0) && (order < MAXORDER))]: the orders and their number. *)
Fixpoint make_orders (n : nat) (blc : Z) : list memOrder :=
  match n with
  | O => []
  | S n' => if blc >? 0 then MemOrder (u32 blc) 0 (Some (new_bitmap blc)) :: make_orders n' (blc / 2)
            else []
  end.

Definition createRegion (rn : Z) (e : mmapEntry) (kinf : bootInfo) : M pmm unit :=
  s ← get;
  r ← array_get (region s) rn;
  let blc := me_bytes e / ORDER_MIN_BLOCK_SIZE in
  let blc := if negb (blc mod 2 =? 0) then blc - 1 else blc in
  let os := make_orders 10 blc in
  let r' := MemRegion (setRegionType e) (Z.lor (mr_flags r) 1) (me_phys e)
              (u64 (me_phys e + me_bytes e)) blc (Z.of_nat (length os))
              (os ++ drop (length os) (mr_order r)) in
  _ ← put (Pmm (regionCount s) (updZ (region s) rn r') (buddyLock s)
             (if mr_type r' >=? MEMORY_TYPE_LOW then false else shouldInit s));
  for_range 0 (mi_aentries (bi_mem kinf)) (λ z,
    a ← map_get (mi_aptr (bi_mem kinf)) z;
    if me_phys a <? me_phys e then mret tt
    else if u64 (me_phys a + me_bytes a) >? u64 (me_phys e + me_bytes e) then mret tt
    else _ ← allocPhysAddress (me_phys a) (me_bytes a); mret tt).

(** The other components [initPMM] starts. *)
Class BootCalls := {
  call_initKmalloc : M pmm unit;
  call_createFakeTask : M pmm unit;
  call_initPaging : M pmm unit;
  call_initKsym : Z → M pmm unit;
  call_initSLAB : M pmm unit;
  call_initVmalloc : M pmm unit
}.

Section init.
Context `{BootCalls}.

Definition usable (e : mmapEntry) : bool :=
(me_type e =? MMAP_TYPE_FREE) && negb (me_bytes e / ORDER_MIN_BLOCK_SIZE =? 0).
Definition set_parsed (e : mmapEntry) : mmapEntry :=
MmapEntry (me_magic e) (Z.lor (me_flags e) MMAP_FLAG_PARSED) (me_type e) (me_phys e)
  (me_virt e) (me_bytes e).

(** The first region that is LOW or HIGH memory: [frn] counts the FREE entries
  before it, itself included. *)
Fixpoint find_boot_region (es : list mmapEntry) (i frn : Z) : option (Z * Z * mmapEntry) :=
match es with
| [] => None
| e :: es' =>
    if negb (me_type e =? MMAP_TYPE_FREE) then find_boot_region es' (i + 1) frn
    else
      let frn := u32 (frn + 1) in
      let rt := setRegionType e in
      if negb (rt =? MEMORY_TYPE_LOW) && negb (rt =? MEMORY_TYPE_HGH)
      then find_boot_region es' (i + 1) frn
      else Some (i, frn, e)
end.

(** The last loop: [region[rn].type] is read after [++rn]. *)
Fixpoint init_regions (es : list mmapEntry) (rn : Z) (kinf : bootInfo) : M pmm unit :=
match es with
| [] => mret tt
| e :: es' =>
    if negb (me_type e =? MMAP_TYPE_FREE) then init_regions es' rn kinf
    else if negb (Z.land (me_flags e) MMAP_FLAG_PARSED =? 0) then init_regions es' rn kinf
    else
      _ ← createRegion rn e kinf;
      s ← get;
      r ← array_get (region s) (rn + 1);
      _ ← (if mr_type r >=? MEMORY_TYPE_LOW
           then put (Pmm (regionCount s) (region s) (buddyLock s) true) else mret tt);
      init_regions es' (rn + 1) kinf
end.

(** [initPMM] on the entries the memory map holds. *)
Definition initPMM (kinf : bootInfo) (es : list mmapEntry) : M pmm unit :=
_ ← call_initKmalloc;
_ ← call_createFakeTask;
_ ← call_initPaging;
_ ← call_initKsym (mi_symptr (bi_mem kinf));
s ← get;
let count := regionCount s + Z.of_nat (length (List.filter usable es)) in
_ ← put (Pmm count (replicate (Z.to_nat count) memRegion0) (buddyLock s) (shouldInit s));
es' ← match find_boot_region es 0 0 with
      | None => mret es
      | Some (i, frn, e) => _ ← createRegion frn e kinf; mret (updZ es i (set_parsed e))
      end;
_ ← call_initSLAB;
_ ← call_initVmalloc;
init_regions es' 0 kinf.
End init.
