(* ===== verification/PmmProps.v ===== *)
(** * Properties of the physical memory manager

    Order-0 allocation takes the lowest free block and marks it; past the first
    bitmap word the returned addresses repeat; the size of an allocation against
    the request; locks and termination of the free paths; the region table. *)

From S2P Require Import Prelude Kmonad Mem Mmap Pmm.

(** ** Regions whose bitmaps are in place *)

Definition order_live (r : memRegion) (o : Z) : Prop :=
  ∃ mo w ws, nthZ (mr_order r) o = Some mo ∧ 0 < entryn mo ∧ entry mo = Some (w :: ws).

Record wf_region (r : memRegion) : Prop := {
  wf_length : length (mr_order r) = 10%nat;
  wf_ordern : 0 <= ordern r <= 10;
  wf_live : ∀ o, 0 <= o < ordern r → order_live r o
}.

(** The value [entry[i] |= (1<<bit)] ors in. *)
Definition bit_mask (bit : Z) : Z := if bit =? 31 then 2 ^ 64 - 2 ^ 31 else 2 ^ bit.

(** What marking a block changes: one order, its bitmap. *)
Definition mark_order (o i m n : Z) (r r' : memRegion) : Prop :=
  ∃ mo ws w, nthZ (mr_order r) o = Some mo ∧ entry mo = Some ws ∧ nthZ ws i = Some w ∧
    r' = set_orders (updZ (mr_order r) o
           (MemOrder (entryn mo) (u32 (used mo + n)) (Some (updZ ws i (Z.lor w m))))) r.

Section bits.
Implicit Types (r : memRegion).

Lemma int_bit_mask {S} bit (Q : Z → S → Prop) s :
0 <= bit <= 31 → (∀ v, u64 v = bit_mask bit → Q v s) → wp (int_bit bit) Q s.
Proof.
intros Hb HQ. unfold int_bit. destruct (Z.eqb_spec bit 31) as [->|Hne].
- apply wp_ret, HQ. done.
- rewrite leb_true, ltb_true by lia. apply wp_ret, HQ.
  unfold bit_mask. rewrite eqb_false by done. apply u64_id.
  split; [lia|]. apply Z.pow_lt_mono_r; lia.
Qed.

Lemma updZ_updZ {A} (l : list A) i x y : updZ (updZ l i x) i y = updZ l i y.
Proof. unfold updZ. apply list_insert_insert_eq. Qed.

(** [entry[i] |= (1<<bit); used += n] *)
Lemma mark_ok r o i bit n mo ws w :
nthZ (mr_order r) o = Some mo → entry mo = Some ws → nthZ ws i = Some w → 0 <= bit <= 31 →
wp (word_or_bit o i bit) (λ _ r1, wp (add_used o n) (λ _, mark_order o i (bit_mask bit) n r) r1) r.
Proof.
intros Ho He Hw Hb. unfold word_or_bit. apply wp_bind. apply int_bit_mask; [done|].
intros v Hv. unfold word_get, word_put, add_used, order_get, order_put.
pose proof (nthZ_Some _ _ _ Ho). pose proof (nthZ_Some _ _ _ Hw).
wp_steps. eapply wp_array_get; [done|]. rewrite He. eapply wp_array_get; [done|].
wp_steps. eapply wp_array_get; [done|]. rewrite He. wp_steps.
apply wp_array_set; [done|]. wp_steps. apply wp_array_set; [done|]. wp_steps.
cbn [mr_order set_orders].
eapply wp_array_get; [by apply nthZ_updZ_eq|]. wp_steps. cbn [mr_order set_orders entryn used entry].
apply wp_array_set; [by rewrite length_updZ|]. wp_steps.
exists mo, ws, w. split_and!; [done..|]. unfold set_orders. cbn. by rewrite updZ_updZ, Hv.
Qed.

Lemma mark_at o i m n r r' k u ws w :
mark_order o i m n r r' → nthZ (mr_order r) o = Some (MemOrder k u (Some ws)) → nthZ ws i = Some w →
nthZ (mr_order r') o = Some (MemOrder k (u32 (u + n)) (Some (updZ ws i (Z.lor w m)))).
Proof.
intros (mo & ws' & w' & Ho & He & Hw' & ->) H0 Hw. cbn. rewrite H0 in Ho. injection Ho as <-.
cbn in He. injection He as <-. rewrite Hw in Hw'. injection Hw' as <-. apply nthZ_updZ_eq. by eapply nthZ_Some.
Qed.

Lemma mark_wf o i m n r r' :
mark_order o i m n r r' → 0 <= i → wf_region r → wf_region r' ∧ base r' = base r ∧ ordern r' = ordern r.
Proof.
intros (mo & ws & w & Ho & He & Hw & ->) Hi [H1 H2 H3]. split; [|done].
pose proof (nthZ_Some _ _ _ Ho) as Hr. split; [by cbn; rewrite length_updZ|done|].
intros o' Ho'. unfold order_live. cbn [mr_order set_orders].
destruct (H3 o' Ho') as (mo' & w' & ws' & E & Hn & E').
destruct (decide (o = o')) as [<-|Hne].
- rewrite Ho in E. injection E as <-. rewrite He in E'. injection E' as ->.
  assert (∃ w'' ws'', updZ (w' :: ws') i (Z.lor w m) = w'' :: ws'') as (w'' & ws'' & Ew).
  { unfold updZ. destruct (Z.to_nat i); simpl; eauto. }
  eexists _, w'', ws''. rewrite nthZ_updZ_eq by done. split_and!; [done|done|].
  cbn. by rewrite Ew.
- exists mo', w', ws'. rewrite nthZ_updZ_ne by lia. done.
Qed.

Lemma mark_other o i m n r r' o' :
mark_order o i m n r r' → o ≠ o' → nthZ (mr_order r') o' = nthZ (mr_order r) o'.
Proof.
intros (mo & ws & w & Ho & _ & _ & ->) Hne. pose proof (nthZ_Some _ _ _ Ho).
cbn. by apply nthZ_updZ_ne; lia.
Qed.

(** What survives the marks an order-0 allocation makes: in order 0, and bit 0 of
  word 0 of the orders above. *)
Definition marks_keep (P : memRegion → Prop) : Prop :=
∀ o i m r r', (o = 0 ∧ 0 <= i) ∨ (1 <= o ∧ i = 0 ∧ m = 1) → P r → mark_order o i m 1 r r' → P r'.

Lemma marks_keep_True : marks_keep (λ _, True).
Proof. done. Qed.

(** The parents of the first 64 blocks: bit 0 of word 0 of every order above. *)
Lemma setBit_parents (P : memRegion → Prop) r n u ws k :
marks_keep P → P r → wf_region r → nthZ (mr_order r) 0 = Some (MemOrder n u ws) → 1 <= k <= 10 →
wp (iter (S (Z.to_nat (ordern r))) (λ '(order, idx, bit),
  if negb (order <? ordern r) then mret (inr tt)
  else
    mo ← order_get order;
    if entryn mo =? 0 then mret (inr tt)
    else
      _ ← word_or_bit order idx bit;
      _ ← add_used order 1;
      let bit := u8 (ORDER_GET_PARENT_BIT_LBIT bit idx) in
      mret (inl (u16 (order + 1), ORDER_GET_IDX_FROM_BIT bit, bit mod 64))) (k, 0, 0))
(λ _ r', P r' ∧ wf_region r' ∧ base r' = base r ∧ nthZ (mr_order r') 0 = Some (MemOrder n u ws)) r.
Proof.
intros HP HPr Hwf H0 Hk.
apply (wp_iter (λ v '(order, idx, bit) r', v = Z.to_nat (ordern r - order) ∧
  1 <= order <= 11 ∧ idx = 0 ∧ bit = 0 ∧ P r' ∧ wf_region r' ∧ base r' = base r ∧
  ordern r' = ordern r ∧ nthZ (mr_order r') 0 = Some (MemOrder n u ws)))
  with (n := Z.to_nat (ordern r - k)); [|by split_and!; [done|lia..| | | | |]|destruct Hwf; lia].
intros v [[o idx] bit] r' (-> & Ho & -> & -> & HP' & Hwf' & Hb & Hn & H0').
destruct (Z.ltb_spec o (ordern r)) as [Hlt|Hge]; cbn [negb]; [|by apply wp_ret].
destruct (wf_live r' Hwf' o ltac:(lia)) as (mo & w & ws' & E & Hpos & Ee).
apply wp_bind. unfold order_get. apply wp_bind, wp_get. eapply wp_array_get; [done|].
rewrite eqb_false by lia. apply wp_bind.
eapply wp_mono; [apply (mark_ok r' o 0 0 1 mo (w :: ws') w); (done || lia)|].
intros [] r1 Hr1. apply wp_bind. eapply wp_mono; [exact Hr1|]. intros [] r2 Hm.
apply wp_ret. exists (Z.to_nat (ordern r - (o + 1))). split; [lia|].
destruct (mark_wf _ _ _ _ _ _ Hm ltac:(lia) Hwf') as (Hwf2 & Hb2 & Hn2).
pose proof (wf_ordern _ Hwf'). rewrite (u16_id (o + 1)) by lia.
split_and!; [done|lia|lia|done|done|eapply HP; [|exact HP'|exact Hm]; right; split_and!; [lia|done|done]|done|congruence|congruence|].
rewrite (mark_other _ _ _ _ _ _ 0 Hm) by lia. done.
Qed.

(** The parent of a block of the first two words, as [setBit] computes its word
  and its bit. *)
Lemma parent_bit idx bit : 0 <= idx <= 1 → 0 <= bit <= 31 →
u8 (ORDER_GET_PARENT_BIT_LBIT (if ORDER_IS_RIGHT_BLOCK bit then bit - 1 else bit) idx) / 64 = 0.
Proof.
intros Hi Hb. set (bit' := if ORDER_IS_RIGHT_BLOCK bit then bit - 1 else bit).
assert (0 <= bit' <= 31) as Hb'.
{ subst bit'. unfold ORDER_IS_RIGHT_BLOCK. destruct (Z.eqb_spec bit 0) as [->|]; [done|].
  destruct (negb _); lia. }
unfold ORDER_GET_PARENT_BIT_LBIT. rewrite (u64_id (idx * 64)), u64_id by lia.
rewrite Z.shiftr_div_pow2 by lia. unfold u8. zlia.
Qed.

Lemma setBit_order0 (P : memRegion → Prop) r n u ws idx bit w :
marks_keep P → P r → wf_region r → nthZ (mr_order r) 0 = Some (MemOrder n u (Some ws)) → nthZ ws idx = Some w →
0 <= idx <= 1 → 0 <= bit <= 31 →
wp (setBit 0 idx bit) (λ _ r', P r' ∧ wf_region r' ∧ base r' = base r ∧
  nthZ (mr_order r') 0 =
    Some (MemOrder n (u32 (u + 1)) (Some (updZ ws idx (Z.lor w (bit_mask bit)))))) r.
Proof.
intros HP HPr Hwf H0 Hw Hi Hb. unfold setBit. apply wp_bind. cbn [iter]. apply wp_ret.
apply wp_bind. eapply wp_mono; [eapply mark_ok; [exact H0|done|exact Hw|lia]|].
intros [] r0 Hr0. apply wp_bind. eapply wp_mono; [exact Hr0|].
intros [] r1 Hm. destruct (mark_wf _ _ _ _ _ _ Hm ltac:(lia) Hwf) as (Hwf1 & Hb1 & Hn1).
pose proof (mark_at _ _ _ _ _ _ _ _ _ _ Hm H0 Hw) as H1.
pose proof (parent_bit idx bit Hi Hb) as Hp. apply wp_bind, wp_get. unfold ORDER_GET_IDX_FROM_BIT. rewrite Hp.
change (u16 (0 + 1)) with 1.
assert (P r1) as HP1 by (eapply HP; [|exact HPr|exact Hm]; left; split; [done|lia]).
eapply wp_mono; [exact (setBit_parents P r1 _ _ _ 1 HP HP1 Hwf1 H1 ltac:(lia))|].
intros [] r' (? & ? & ? & ?). split_and!; [done|done|congruence|done].
Qed.

(** An order-1 block marks block 0 of order 0, whichever block it is. *)
Lemma setBit_order1 r n u w ws n1 u1 w1 ws1 bit :
wf_region r → nthZ (mr_order r) 0 = Some (MemOrder n u (Some (w :: ws))) →
nthZ (mr_order r) 1 = Some (MemOrder n1 u1 (Some (w1 :: ws1))) → 0 <= bit <= 31 →
wp (setBit 1 0 bit) (λ _ r', wf_region r' ∧ base r' = base r ∧
  nthZ (mr_order r') 0 = Some (MemOrder n (u32 (u + 2)) (Some (Z.lor w 1 :: ws)))) r.
Proof.
intros Hwf H0 H1 Hb. unfold setBit.
assert (ORDER_GET_CHILD_NUM 1 bit = 2 * bit) as ->.
{ unfold ORDER_GET_CHILD_NUM. rewrite Z.shiftl_mul_pow2 by lia. wrap. lia. }
assert (ORDER_IS_RIGHT_BLOCK (2 * bit) = false) as ->.
{ unfold ORDER_IS_RIGHT_BLOCK. replace (2 * bit + 2) with ((bit + 1) * 2) by lia. by rewrite Z.mod_mul. }
assert (ORDER_GET_IDX_FROM_BIT (2 * bit) = 0) as -> by (apply Z.div_small; lia).
rewrite (Z.div_small (2 * bit)) by lia.
apply wp_bind. change (Z.to_nat 1) with 1%nat. cbn [iter]. change (0 <? 1) with true. cbn [negb].
do 2 apply wp_bind. eapply wp_mono; [apply (mark_ok r 0 0 0 2 _ (w :: ws) w H0 eq_refl eq_refl); lia|].
intros [] r0 Hr0. apply wp_bind. eapply wp_mono; [exact Hr0|]. intros [] r1 Hm. cbn beta iota.
pose proof (mark_at _ _ _ _ _ _ _ _ _ _ Hm H0 eq_refl) as H0'.
destruct (mark_wf _ _ _ _ _ _ Hm ltac:(lia) Hwf) as (Hwf1 & Hb1 & Hn1).
pose proof (mark_other _ _ _ _ _ _ 1 Hm ltac:(lia)) as H1'. rewrite H1 in H1'.
wp_steps. change (0 + 1 <? 1) with false. cbn [negb]. wp_steps.
eapply wp_mono; [apply (mark_ok r1 1 0 bit 1 _ (w1 :: ws1) w1 H1' eq_refl eq_refl Hb)|].
intros [] r2 Hr2. apply wp_bind. eapply wp_mono; [exact Hr2|]. intros [] r3 Hm2.
destruct (mark_wf _ _ _ _ _ _ Hm2 ltac:(lia) Hwf1) as (Hwf3 & Hb3 & Hn3).
pose proof (mark_other _ _ _ _ _ _ 0 Hm2 ltac:(lia)) as H03. rewrite H0' in H03.
pose proof (parent_bit 0 bit ltac:(lia) Hb) as Hp. apply wp_bind, wp_get. unfold ORDER_GET_IDX_FROM_BIT. rewrite Hp.
change (u16 (1 + 1)) with 2.
eapply wp_mono; [exact (setBit_parents _ r3 _ _ _ 2 marks_keep_True I Hwf3 H03 ltac:(lia))|].
intros [] r' (_ & ? & ? & ?). split_and!; [done|congruence|done].
Qed.
End bits.

(** ** Order-0 allocation *)

Section alloc.
Implicit Types (r : memRegion).

Lemma word_test_bit_ok r o i b mo ws w (Q : bool → memRegion → Prop) :
nthZ (mr_order r) o = Some mo → entry mo = Some ws → nthZ ws i = Some w →
0 <= b <= 31 → Q (negb (Z.land w (bit_mask b) =? 0)) r → wp (word_test_bit o i b) Q r.
Proof.
intros Ho He Hw Hb HQ. unfold word_test_bit, word_get, order_get. wp_steps.
eapply wp_array_get; [done|]. rewrite He. eapply wp_array_get; [done|]. wp_steps.
apply int_bit_mask; [done|]. intros v Hv. apply wp_ret. by rewrite Hv.
Qed.

Lemma bit_mask_test w b : 0 <= b < 31 → (Z.land w (bit_mask b) =? 0) = negb (Z.testbit w b).
Proof.
intros Hb. unfold bit_mask. rewrite (eqb_false b 31) by lia. apply land_pow2_zero. lia.
Qed.

(** The search stops at the lowest clear bit. *)
Lemma find_bit_ok o r n u ws idx w i0 b k :
nthZ (mr_order r) o = Some (MemOrder n u (Some ws)) → nthZ ws idx = Some w →
0 <= i0 → i0 + b < n → n < 2 ^ 32 → 0 <= k <= b → b <= 31 →
(∀ j, k <= j < b → Z.testbit w j = true) →
Z.land w (bit_mask b) = 0 →
∀ fuel, (Z.to_nat (b - k) < fuel)%nat →
wp (iter fuel (λ '(i, bit),
    if negb ((i <? n) && (bit <? 64)) then mret (inr bit)
    else
      t ← word_test_bit o idx bit;
      mret (if (t : bool) then inl (u32 (i + 1), bit + 1) else inr bit)) (i0 + k, k))
  (λ bit r', bit = b ∧ r' = r) r.
Proof.
intros H0 Hw Hi0 Hn Hn2 Hk Hb Hset Hclr fuel. revert k Hk Hset.
induction fuel as [|fuel IH]; intros k Hk Hset Hf; [lia|]. cbn [iter].
rewrite ltb_true, (ltb_true k) by lia. cbn [andb negb]. wp_step. wp_step.
eapply word_test_bit_ok; [done|done|done|lia|]. wp_steps.
destruct (decide (k = b)) as [->|Hne].
- rewrite Hclr. cbn. by wp_steps.
- rewrite bit_mask_test, Hset by lia. cbn.
  rewrite u32_id by lia. replace (i0 + k + 1) with (i0 + (k + 1)) by lia.
  apply IH; [lia|intros j Hj; apply Hset; lia|lia].
Qed.

Lemma all_ones_test w b : 0 <= b < 64 → Z.testbit w b = false → w ≠ 0xFFFFFFFFFFFFFFFF.
Proof.
intros Hb Ht ->. change 0xFFFFFFFFFFFFFFFF with (Z.ones 64) in Ht.
rewrite Z.ones_spec_low in Ht by lia. done.
Qed.

(** An allocation whose first word has its bits below [b] set and bit [b] clear (for
  31: the 33 bits the mask of 31 covers) sets that bit. *)
Lemma allocRegion_search o r n u w ws b (Q : Z → memRegion → Prop) :
nthZ (mr_order r) o = Some (MemOrder n u (Some (w :: ws))) →
u < n → n < 2 ^ 32 → 0 <= b <= 31 → b < n →
(∀ j, 0 <= j < b → Z.testbit w j = true) → Z.land w (bit_mask b) = 0 →
wp (setBit o 0 b) (λ _ r', Q (ORDER_CALCULATE_ABS_ADDRESS o b (base r')) r') r → wp (allocRegion o) Q r.
Proof.
intros H0 Hu Hn Hb Hbn Hset Hclr HQ. unfold allocRegion, order_get.
assert (w ≠ 0xFFFFFFFFFFFFFFFF) as Hw.
{ apply (all_ones_test w b); [lia|]. destruct (decide (b = 31)) as [->|].
  - destruct (Z.testbit w 31) eqn:E; [|done].
    assert (Z.testbit (Z.land w (bit_mask 31)) 31 = true) as E2 by (rewrite Z.land_spec, E; done).
    rewrite Hclr in E2. done.
  - pose proof (bit_mask_test w b ltac:(lia)) as E. rewrite Hclr in E. cbn in E.
    by destruct (Z.testbit w b). }
wp_steps. eapply wp_array_get; [done|]. cbn [used entryn]. rewrite Z.geb_leb, leb_false by lia.
wp_step. cbn [iter]. rewrite ltb_true by lia. cbn [negb]. wp_step. wp_step.
unfold word_get, order_get. wp_steps. eapply wp_array_get; [done|]. cbn [entry].
change (0 / 64) with 0. apply (wp_array_get _ _ w); [done|]. rewrite eqb_false by done. wp_step.
unfold find_bit. eapply wp_mono.
{ apply (find_bit_ok o r n u (w :: ws) 0 w 0 b 0); (done || lia). }
intros bit r0 [-> ->]. wp_steps. rewrite eqb_false by lia. wp_step. rewrite u8_id by lia.
eapply wp_mono; [exact HQ|]. intros [] r' H. by wp_steps.
Qed.

Lemma allocRegion_word0 (P : memRegion → Prop) r n u w ws b :
marks_keep P → P r → wf_region r → nthZ (mr_order r) 0 = Some (MemOrder n u (Some (w :: ws))) →
u < n → n < 2 ^ 32 → 0 <= b <= 31 → b < n → 0 <= base r → base r + 0x80000 < 2 ^ 64 →
(∀ j, 0 <= j < b → Z.testbit w j = true) → Z.land w (bit_mask b) = 0 →
wp (allocRegion 0) (λ p r', p = base r + b * 0x4000 ∧ P r' ∧ wf_region r' ∧ base r' = base r ∧
  nthZ (mr_order r') 0 =
    Some (MemOrder n (u32 (u + 1)) (Some (Z.lor w (bit_mask b) :: ws)))) r.
Proof.
intros HP HPr Hwf H0 Hu Hn Hb Hbn Hbase Hbase2 Hset Hclr.
eapply (allocRegion_search 0); [exact H0|done..|].
eapply wp_mono; [apply (setBit_order0 P r n u (w :: ws) 0 b w); (done || lia)|].
intros [] r' (HP' & Hwf' & Hb' & H0'). split_and!; [|done|done|done|done].
rewrite Hb'. unfold ORDER_CALCULATE_ABS_ADDRESS, ORDER_GET_CHILD_NUM, ORDER_MIN_BLOCK_SIZE.
rewrite Z.shiftl_0_r. wrap. lia.
Qed.

(** C20: an order-0 allocation returns the address of the lowest free block of the
  first 32 of the region and marks exactly that block in the order-0 bitmap. *)
Theorem allocRegion_lowest_free r n u w ws b :
wf_region r → nthZ (mr_order r) 0 = Some (MemOrder n u (Some (w :: ws))) →
0 <= u < n → n < 2 ^ 32 → 0 <= b < 31 → b < n → 0 <= base r → base r + 0x80000 < 2 ^ 64 →
(∀ j, 0 <= j < b → Z.testbit w j = true) → Z.testbit w b = false →
wp (allocRegion 0) (λ p r', p = base r + b * ORDER_MIN_BLOCK_SIZE ∧ wf_region r' ∧
  ∃ w', nthZ (mr_order r') 0 = Some (MemOrder n (u + 1) (Some (w' :: ws))) ∧
    ∀ j, 0 <= j → Z.testbit w' j = (b =? j) || Z.testbit w j) r.
Proof.
intros Hwf H0 Hu Hn Hb Hbn H1 H2 Hset Hclr.
eapply wp_mono.
{ apply (allocRegion_word0 (λ _, True) r n u w ws b); [done..|lia|done|lia|done|done|done|done|].
  pose proof (bit_mask_test w b Hb) as E. rewrite Hclr in E. by apply Z.eqb_eq. }
intros p r' (-> & _ & Hwf' & _ & H0'). split_and!; [done|done|]. rewrite u32_id in H0' by lia.
eexists. split; [exact H0'|]. intros j Hj. unfold bit_mask. rewrite eqb_false by lia.
apply lor_pow2_testbit; lia.
Qed.

(** C22: allocations of different orders overlap.  An order-1 allocation does not
  mark its two order-0 blocks (it marks block 0), so when its block [p] is the
  first free one of order 1 and the order-0 blocks below it are taken, the next
  order-0 allocation returns the address that was just handed out. *)
Theorem allocRegion_orders_overlap r n u w ws n1 u1 w1 ws1 p :
wf_region r → 1 <= p <= 15 → 0 <= base r → base r + 0x80000 < 2 ^ 64 →
nthZ (mr_order r) 0 = Some (MemOrder n u (Some (w :: ws))) → 0 <= u → u + 2 < n < 2 ^ 32 → 2 * p < n →
(∀ j, 0 <= j < 2 * p → Z.testbit w j = true) → Z.testbit w (2 * p) = false →
nthZ (mr_order r) 1 = Some (MemOrder n1 u1 (Some (w1 :: ws1))) → u1 < n1 < 2 ^ 32 → p < n1 →
(∀ j, 0 <= j < p → Z.testbit w1 j = true) → Z.testbit w1 p = false →
wp (a ← allocRegion 1; b ← allocRegion 0; mret (a, b)) (λ '(a, b) _,
  a = base r + p * ORDER_BLOCK_SIZE 1 ∧ b = a) r.
Proof.
intros Hwf Hp Hb Hb2 H0 Hu Hn Hpn Hset Hclr H1 Hu1 Hp1 Hset1 Hclr1.
assert (∀ x j, 0 <= j < 31 → Z.testbit x j = false → Z.land x (bit_mask j) = 0) as Hmask.
{ intros x j Hj Hx. pose proof (bit_mask_test x j Hj) as E. rewrite Hx in E. by apply Z.eqb_eq. }
assert (Z.lor w 1 = w) as Hw1.
{ bitwise i Hi. change 1 with (2 ^ 0). rewrite Z.pow2_bits_eqb by lia.
  destruct (Z.eqb_spec 0 i) as [<-|]; [rewrite Hset by lia; done|by rewrite orb_false_r]. }
wp_step. apply (allocRegion_search 1 r n1 u1 w1 ws1 p); [exact H1|lia|lia|lia|lia|done|by apply Hmask; [lia|]|].
eapply wp_mono; [apply (setBit_order1 r n u w ws n1 u1 w1 ws1 p Hwf H0 H1); lia|].
intros [] r1 (Hwf1 & Hb1 & H01). rewrite Hw1, u32_id in H01 by lia. rewrite Hb1.
assert (ORDER_CALCULATE_ABS_ADDRESS 1 p (base r) = base r + p * ORDER_BLOCK_SIZE 1) as ->.
{ unfold ORDER_CALCULATE_ABS_ADDRESS, ORDER_GET_CHILD_NUM, ORDER_MIN_BLOCK_SIZE, ORDER_BLOCK_SIZE.
  rewrite !Z.shiftl_mul_pow2 by lia. unfold ORDER_MIN_BLOCK_SIZE. wrap. lia. }
wp_step. eapply wp_mono.
{ apply (allocRegion_word0 (λ _, True) r1 n (u + 2) w ws (2 * p)); try (done || lia). by apply Hmask; [lia|]. }
intros b r2 (-> & _). wp_step. split; [done|]. rewrite Hb1. unfold ORDER_BLOCK_SIZE, ORDER_MIN_BLOCK_SIZE.
rewrite Z.shiftl_mul_pow2 by lia. lia.
Qed.

(** Successive order-0 allocations. *)
Fixpoint alloc_many (k : nat) : M memRegion (list Z) :=
match k with
| O => mret []
| S k' => p ← allocRegion 0; ps ← alloc_many k'; mret (p :: ps)
end.

(** Word 0 after [k] allocations from a region that was all free. *)
Definition word_after (k : Z) : Z := if k =? 32 then 2 ^ 64 - 1 else Z.ones k.

Lemma word_after_succ k :
0 <= k < 32 → Z.lor (word_after k) (bit_mask k) = word_after (k + 1).
Proof.
intros Hk. destruct (decide (k = 31)) as [->|]; [done|].
unfold word_after, bit_mask. rewrite !eqb_false by lia. bitwise i Hi.
rewrite Z.pow2_bits_eqb, !Z.testbit_ones_nonneg by lia.
destruct (Z.eqb_spec k i), (Z.ltb_spec i k), (Z.ltb_spec i (k + 1)); lia || done.
Qed.

Lemma word_after_clear k : 0 <= k < 32 → Z.land (word_after k) (bit_mask k) = 0.
Proof.
intros Hk. destruct (decide (k = 31)) as [->|]; [done|].
unfold word_after, bit_mask. rewrite !eqb_false by lia. bitwise i Hi.
rewrite Z.pow2_bits_eqb, Z.testbit_ones_nonneg by lia.
destruct (Z.eqb_spec k i), (Z.ltb_spec i k); lia || done.
Qed.

Lemma alloc_many_from k r n u ws :
wf_region r → nthZ (mr_order r) 0 = Some (MemOrder n u (Some (word_after k :: 0 :: ws))) →
0 <= k <= 32 → u = k → 128 <= n < 2 ^ 32 → 0 <= base r → base r + 0x80000 < 2 ^ 64 →
wp (alloc_many (Z.to_nat (33 - k))) (λ ps _,
  ps = ((λ j, base r + j * 0x4000) <$> seqZ k (32 - k)) ++ [base r]) r.
Proof.
intros Hwf H0 Hk -> Hn Hb Hb2. remember (Z.to_nat (32 - k)) as m eqn:Em.
replace (Z.to_nat (33 - k)) with (S m) by lia.
revert k r Hwf H0 Hk Hb Hb2 Em. induction m as [|m IH]; intros k r Hwf H0 Hk Hb Hb2 Em.
- assert (k = 32) as -> by lia. cbn [alloc_many]. wp_step. unfold allocRegion, order_get. wp_steps.
  eapply wp_array_get; [done|]. cbn [used entryn]. rewrite Z.geb_leb, leb_false by lia. wp_step.
  replace (Z.to_nat (n / 64 + 1)) with (S (S (Z.to_nat (n / 64 - 1)))) by zlia.
  apply wp_iter_S. rewrite ltb_true by lia. cbn [negb]. wp_step.
  unfold word_get, order_get. wp_steps. eapply wp_array_get; [done|]. cbn [entry].
  change (0 / 64) with 0. apply (wp_array_get _ _ (word_after 32)); [done|].
  change (word_after 32 =? _) with true. wp_steps. change (u32 (0 + 64)) with 64.
  apply wp_iter_S. rewrite ltb_true by lia. cbn [negb]. wp_steps. eapply wp_array_get; [done|]. cbn [entry].
  change (64 / 64) with 1. apply (wp_array_get _ _ 0); [done|]. cbn [Z.eqb]. wp_step.
  unfold find_bit. eapply wp_mono.
  { apply (find_bit_ok 0 r n 32 (word_after 32 :: 0 :: ws) 1 0 64 0 0); done || lia. }
  intros bit r0 [-> ->]. wp_steps. change (0 =? -1) with false. cbv iota. wp_step.
  change (u8 0) with 0. eapply wp_mono.
  { apply (setBit_order0 (λ _, True) r n 32 (word_after 32 :: 0 :: ws) 1 0 0); done || lia. }
  intros [] r' (_ & _ & Hb' & _). wp_steps. rewrite Hb'.
  unfold ORDER_CALCULATE_ABS_ADDRESS, ORDER_GET_CHILD_NUM, ORDER_MIN_BLOCK_SIZE.
  change (u64 (u64 (Z.shiftl (u64 0) 0) * 16384)) with 0. wrap. rewrite Z.add_0_l. done.
- change (alloc_many (S (S m))) with (p ← allocRegion 0; ps ← alloc_many (S m); mret (p :: ps)).
  wp_step. eapply wp_mono.
  { apply (allocRegion_word0 (λ _, True) r n k (word_after k) (0 :: ws) k); try (done || lia).
    - intros j Hj. unfold word_after. rewrite eqb_false by lia. apply Z.ones_spec_low. lia.
    - apply word_after_clear. lia. }
  intros p r' (-> & _ & Hwf' & Hb' & H0'). rewrite word_after_succ, u32_id in H0' by lia.
  wp_step. eapply wp_mono; [apply (IH (k + 1) r'); rewrite ?Hb'; (done || lia)|].
  intros ps r'' ->. wp_steps. rewrite Hb'.
  rewrite (seqZ_cons k (32 - k)) by lia.
  replace (Z.pred (32 - k)) with (32 - (k + 1)) by lia. done.
Qed.

(** [allocRegion] hands out memory twice: of 33 successive order-0
  allocations from a free region of at least 128 blocks, the first 32 return
  the first 32 blocks and the 33rd returns the first block again. *)
Theorem allocRegion_hands_out_twice r n ws :
wf_region r → nthZ (mr_order r) 0 = Some (MemOrder n 0 (Some (0 :: 0 :: ws))) →
128 <= n < 2 ^ 32 → 0 <= base r → base r + 0x80000 < 2 ^ 64 →
wp (alloc_many 33) (λ ps _,
  ps = ((λ j, base r + j * ORDER_MIN_BLOCK_SIZE) <$> seqZ 0 32) ++ [base r]) r.
Proof.
intros Hwf H0 Hn Hb Hb2. by apply (alloc_many_from 0 r n 0 ws).
Qed.
End alloc.

(** ** [allocPhys] *)

Lemma order_for_cases bytes :
  order_for bytes =
    if 0x4000 >=? bytes then 0 else if 0x8000 >=? bytes then 2 else if 0x20000 >=? bytes then 3
    else if 0x100000 >=? bytes then 4 else if 0x1000000 >=? bytes then 5
    else if 0x20000000 >=? bytes then 6 else if 0x800000000 >=? bytes then 7
    else if 0x40000000000 >=? bytes then 8 else if 0x4000000000000 >=? bytes then 9 else 10.
Proof.
  unfold order_for. cbv -[Z.geb]. destruct (16384 >=? bytes); [done|]. done.
Qed.

(** The region the second loop settles on satisfies the request. *)
Definition region_suits (type flags order : Z) (r : memRegion) : Prop :=
  (type ≠ MEMORY_TYPE_1MB → mr_type r ≠ MEMORY_TYPE_1MB) ∧
  (Z.land flags 1 ≠ 0 → mr_type r = type) ∧
  ∃ mo, nthZ (mr_order r) order = Some mo ∧ entry mo ≠ None.

Lemma choose_region_ok all rs pre type flags order best s res s' :
  all = pre ++ rs →
  (∀ b, best = Some b → ∃ r, nthZ all b = Some r ∧ region_suits type flags order r) →
  choose_region rs (Z.of_nat (length pre)) type flags order best s = Ok res s' →
  s' = s ∧ ∀ b, res = Some b → ∃ r, nthZ all b = Some r ∧ region_suits type flags order r.
Proof.
  revert pre best. induction rs as [|r rs IH]; intros pre best Hall Hbest; cbn [choose_region].
  - intros [= <- <-]. done.
  - set (i := Z.of_nat (length pre)).
    assert (∀ b, (∀ b', b = Some b' → ∃ r, nthZ all b' = Some r ∧ region_suits type flags order r) →
      choose_region rs (i + 1) type flags order b s = Ok res s' →
      s' = s ∧ ∀ b, res = Some b → ∃ r, nthZ all b = Some r ∧ region_suits type flags order r) as Hnext.
    { intros b Hb. replace (i + 1) with (Z.of_nat (length (pre ++ [r])))
        by (rewrite length_app; simpl; lia).
      apply IH; [by rewrite <- app_assoc|done]. }
    destruct (Z.eqb_spec type MEMORY_TYPE_1MB) as [Ht|Ht], (Z.eqb_spec (mr_type r) MEMORY_TYPE_1MB) as [Hr|Hr];
      cbn [negb andb]; try by apply Hnext.
    all: destruct (Z.eqb_spec (Z.land flags 1) 0) as [Hf|Hf], (Z.eqb_spec (mr_type r) type) as [Hrt|Hrt];
      cbn [negb andb]; try (by apply Hnext); unfold mbind, M_bind, array_get.
    all: destruct (nthZ (mr_order r) order) as [mo|] eqn:Eo; [|done]; cbn.
    all: case_bool_decide as He; [by apply Hnext|].
    all: assert (∀ b', Some i = Some b' → ∃ r, nthZ all b' = Some r ∧ region_suits type flags order r)
      as Htake by (intros b' [= <-]; exists r; split; [by subst all i; apply nthZ_app_cons|];
                   unfold region_suits; split_and!; [done|done|by exists mo]).
    all: try (by apply Hnext); case_bool_decide; try (by apply Hnext);
      destruct (_ && _); try (by apply Hnext); destruct (i =? 3); try (by apply Hnext);
      by intros [= <- <-].
Qed.

Lemma get_buddyLock_inv s u s' :
  get_buddyLock s = Ok u s' → Z.testbit (buddyLock s) 0 = false ∧ s' = set_buddyLock (Z.lor (buddyLock s) 1) s.
Proof.
  unfold get_buddyLock, mbind, M_bind, get. destruct (Z.testbit (buddyLock s) 0); [done|].
  by intros [= <- <-].
Qed.

Lemma on_region_inv {A} i (m : M memRegion A) s a s' :
  on_region i m s = Ok a s' →
  ∃ r r', nthZ (region s) i = Some r ∧ m r = Ok a r' ∧ s' = set_region (updZ (region s) i r') s.
Proof.
  unfold on_region, mbind, M_bind, get, array_get.
  destruct (nthZ (region s) i) as [r|] eqn:E; [|done]. cbn.
  destruct (m r) as [a' r'|] eqn:Em; [|done]. intros [= -> <-]. by exists r, r'.
Qed.

(** The flags the region search works with. *)
Definition effective_flags (type flags : Z) : Z :=
  let flags := if negb (Z.land flags 1 =? 0) && (type =? MEMORY_TYPE_ANY)
               then Z.land flags (u16 (Z.lnot 1)) else flags in
  if type =? MEMORY_TYPE_1MB then Z.lor flags 1 else flags.

Lemma allocPhys_inv bytes type flags s p actual s' :
  allocPhys bytes type flags s = Ok (p, actual) s' →
  ∃ i r r', nthZ (region s) i = Some r ∧
    region_suits type (effective_flags type flags) (order_for bytes) r ∧
    allocRegion (order_for bytes) r = Ok p r' ∧
    actual = ORDER_BLOCK_SIZE (order_for bytes) ∧
    s' = set_buddyLock 0 (set_region (updZ (region s) i r') s).
Proof.
  unfold allocPhys. unfold mbind at 1, M_bind at 1.
  destruct (get_buddyLock s) as [u s1|] eqn:El; [|done].
  apply get_buddyLock_inv in El as [_ ->].
  assert (order_for bytes >? MAXORDER = false) as ->.
  { rewrite order_for_cases. repeat (destruct (_ >=? bytes); [done|]); done. }
  unfold mbind at 1, M_bind at 1, get. unfold mbind at 1, M_bind at 1.
  destruct (choose_region _ _ _ _ _ _ _) as [best s1|] eqn:Ec; [|done].
  eapply (choose_region_ok _ _ []) in Ec as [-> Hb]; [|done|done].
  destruct best as [i|]; [|done]. unfold mbind at 1, M_bind at 1.
  destruct (on_region _ _ _) as [p' s2|] eqn:Eo; [|done].
  apply on_region_inv in Eo as (r & r' & Hr & Ha & ->).
  destruct (Hb i eq_refl) as (r0 & Hr0 & Hs). cbn in Hr, Hr0. rewrite Hr in Hr0. injection Hr0 as <-.
  intros [= -> <- <-]. by exists i, r, r'.
Qed.

(** a successful [allocPhys] takes its memory from one region, which has the
    requested type when the strict flag is in force and is never the memory below
    1 MB unless that was asked for; no other region changes and the lock is
    released. *)
Theorem allocPhys_region bytes type flags s p actual s' :
  allocPhys bytes type flags s = Ok (p, actual) s' →
  ∃ i r r', nthZ (region s) i = Some r ∧ allocRegion (order_for bytes) r = Ok p r' ∧
    (type ≠ MEMORY_TYPE_1MB → mr_type r ≠ MEMORY_TYPE_1MB) ∧
    (type = MEMORY_TYPE_1MB → mr_type r = MEMORY_TYPE_1MB) ∧
    region s' = updZ (region s) i r' ∧ buddyLock s' = 0.
Proof.
  intros (i & r & r' & Hr & (H1 & H2 & _) & Ha & _ & ->)%allocPhys_inv.
  exists i, r, r'. split_and!; [done|done|done| |done|done].
  intros ->. apply H2. unfold effective_flags. rewrite Z.eqb_refl, andb_false_r.
  rewrite Z.land_lor_distr_l. intros E%Z.lor_eq_0_iff. by destruct E.
Qed.

(** the block [allocPhys] reports is at least as large as the request exactly
    for requests of at most 256 KiB: the size loop shifts by the order instead of
    by one, so larger requests get a smaller block without any error. *)
Theorem allocPhys_actual_size bytes type flags s p actual s' :
  Forall (λ r, length (mr_order r) = 10%nat) (region s) →
  allocPhys bytes type flags s = Ok (p, actual) s' →
  (bytes <= actual ↔ bytes <= 0x40000).
Proof.
  intros Hlen (i & r & r' & Hr & (_ & _ & mo & Ho & _) & _ & -> & _)%allocPhys_inv.
  assert (length (mr_order r) = 10%nat) as Hl.
  { unfold nthZ in Hr. case_decide; [|done]. rewrite Forall_lookup in Hlen. by eapply Hlen. }
  apply nthZ_Some in Ho. rewrite Hl in Ho. rewrite order_for_cases in *. unfold ORDER_BLOCK_SIZE.
  unfold ORDER_MIN_BLOCK_SIZE. rewrite Z.shiftl_1_l. revert Ho. repeat zcase; lia.
Qed.

(** ** Freeing *)

(** [freePhys] of an address outside every region returns with [buddyLock]
    held, and the next allocation spins for ever. *)
Theorem freePhys_unknown_keeps_lock s ptr :
  IS_UNALIGNED ptr = false → buddyLock s = 0 →
  Forall (λ r, ptr < base r ∨ limit r < ptr) (region s) →
  ∃ s', freePhys ptr s = Ok tt s' ∧ ∀ bytes type flags, allocPhys bytes type flags s' = Fault Spin.
Proof.
  intros Hp Hl Hr. exists (set_buddyLock 1 s). split.
  - unfold freePhys. rewrite Hp. unfold mbind, M_bind, get_buddyLock, get, mbind, M_bind. rewrite Hl.
    cbn.
    assert (∀ rs i, Forall (λ r, ptr < base r ∨ limit r < ptr) rs →
      find_from (λ r, (ptr >=? base r) && (ptr <=? limit r)) rs i = None) as ->; [|done|done].
    intros rs. induction rs as [|r rs IH]; intros i Hf; [done|]. apply Forall_cons in Hf as [H1 H2].
    cbn [find_from]. rewrite Z.geb_leb.
    destruct (Z.leb_spec (base r) ptr), (Z.leb_spec ptr (limit r)); cbn; (lia || by apply IH).
  - done.
Qed.

(** [freeNPhys] of a size that is not a multiple of the block size never
    returns: the unsigned difference is never 0. *)
Theorem freeNPhys_never_returns fuel s ptr bytes :
  IS_UNALIGNED ptr = false → 0 <= bytes < 2 ^ 64 → bytes mod ORDER_MIN_BLOCK_SIZE ≠ 0 →
  ∀ s', freeNPhys fuel ptr bytes s ≠ Ok tt s'.
Proof.
  intros Hp Hb Hm s'. unfold freeNPhys. rewrite Hp. generalize 0 at 2 as i.
  revert s bytes Hb Hm. induction fuel as [|fuel IH]; intros s bytes Hb Hm i; [done|].
  cbn [iter]. unfold mbind, M_bind. destruct (freePhys _ s) as [[] s1|]; [|done]. cbn.
  assert (u64 (bytes - ORDER_MIN_BLOCK_SIZE) mod ORDER_MIN_BLOCK_SIZE ≠ 0) as Hm'
    by (unfold u64, ORDER_MIN_BLOCK_SIZE in *; zlia).
  pose proof (u64_range (bytes - ORDER_MIN_BLOCK_SIZE)).
  destruct (Z.leb_spec (u64 (bytes - ORDER_MIN_BLOCK_SIZE)) 0) as [Hle|Hgt]; [|by apply IH].
  assert (u64 (bytes - ORDER_MIN_BLOCK_SIZE) = 0) as E by lia. by rewrite E in Hm'.
Qed.

(** ** Initialisation *)

Section init_props.
Context `{BootCalls}.

(** on a memory map whose only usable entry is a region above 1 MB, [initPMM]
  writes outside the region table: the first region is created at index 1. *)
Theorem initPMM_single_region_overflows kinf e s0 s1 s2 s3 s4 :
call_initKmalloc s0 = Ok tt s1 → call_createFakeTask s1 = Ok tt s2 →
call_initPaging s2 = Ok tt s3 → call_initKsym (mi_symptr (bi_mem kinf)) s3 = Ok tt s4 →
regionCount s4 = 0 → usable e = true → 0x100000 <= me_phys e →
initPMM kinf [e] s0 = Fault OutOfBounds.
Proof.
intros H1 H2 H3 H4 Hc Hu Hp. unfold initPMM.
rewrite (bind_ok _ _ _ _ _ H1), (bind_ok _ _ _ _ _ H2), (bind_ok _ _ _ _ _ H3), (bind_ok _ _ _ _ _ H4).
unfold mbind at 1, M_bind at 1, get. unfold mbind at 1, M_bind at 1, put.
cbn [List.filter]. rewrite Hu, Hc. cbn [length Z.of_nat]. cbn [find_boot_region].
unfold usable in Hu. apply andb_prop in Hu as [-> _]. cbn [negb].
unfold setRegionType. rewrite ltb_false by lia.
destruct (me_phys e <? 0x100000000); done.
Qed.
End init_props.

(** ** Witnesses: one region of 128 blocks at 1 MB *)

Definition entry128 : mmapEntry := MmapEntry 0 0 MMAP_TYPE_FREE 0x100000 0 0x200000.
Definition kinf0 : bootInfo :=
  BootInfo 0 (GopInfo 0 0 0 0 0 0 0 0 0) (MemInfo (Some [entry128]) 1 (Some []) 0 0 0) 0 0 0 0.
Definition pmm128 : pmm :=
  match createRegion 0 entry128 kinf0 (Pmm 1 [memRegion0] 0 true) with
  | Ok _ s => s | Fault _ => pmm0 end.
Definition region128 : memRegion := List.hd memRegion0 (region pmm128).

Lemma region128_wf : wf_region region128.
Proof.
  split; [done|done|]. intros o Ho.
  change (ordern region128) with 8 in Ho.
  assert (o = 0 ∨ o = 1 ∨ o = 2 ∨ o = 3 ∨ o = 4 ∨ o = 5 ∨ o = 6 ∨ o = 7) as Hc by lia.
  repeat destruct Hc as [->|Hc]; [..|subst o]; eexists _, _, _; by split_and!.
Qed.

Lemma allocRegion_lowest_free_witness :
  wp (allocRegion 0) (λ p r', p = base region128 + 0 * ORDER_MIN_BLOCK_SIZE ∧ wf_region r' ∧
    ∃ w', nthZ (mr_order r') 0 = Some (MemOrder 128 (0 + 1) (Some (w' :: [0]))) ∧
      ∀ j, 0 <= j → Z.testbit w' j = (0 =? j) || Z.testbit 0 j) region128.
Proof.
  apply (allocRegion_lowest_free region128 128 0 0 [0] 0);
    [apply region128_wf|done|done|done|done|done|done|done|intros j Hj; lia|done].
Defined.

Lemma allocRegion_hands_out_twice_witness :
  wp (alloc_many 33) (λ ps _,
    ps = ((λ j, base region128 + j * ORDER_MIN_BLOCK_SIZE) <$> seqZ 0 32) ++ [base region128]) region128.
Proof.
  apply (allocRegion_hands_out_twice region128 128 []); [apply region128_wf|done|done|done|done].
Defined.

(** The region after two order-0 allocations: two blocks and their parent in use. *)
Definition region128_used : memRegion := Eval vm_compute in
  match alloc_many 2 region128 with Ok _ r => r | Fault _ => memRegion0 end.

Lemma region128_used_wf : wf_region region128_used.
Proof.
  split; [done|done|]. intros o Ho.
  change (ordern region128_used) with 8 in Ho.
  assert (o = 0 ∨ o = 1 ∨ o = 2 ∨ o = 3 ∨ o = 4 ∨ o = 5 ∨ o = 6 ∨ o = 7) as Hc by lia.
  repeat destruct Hc as [->|Hc]; [..|subst o]; eexists _, _, _; by split_and!.
Qed.

Lemma allocRegion_orders_overlap_witness :
  wp (a ← allocRegion 1; b ← allocRegion 0; mret (a, b)) (λ '(a, b) _,
    a = base region128_used + 1 * ORDER_BLOCK_SIZE 1 ∧ b = a) region128_used.
Proof.
  apply (allocRegion_orders_overlap region128_used 128 2 3 [0] 64 2 1 [] 1);
    [apply region128_used_wf|lia|done|done|done|lia|lia|lia| |done|done|lia|lia| |done].
  - intros j Hj. assert (j = 0 ∨ j = 1) as [-> | ->] by lia; done.
  - intros j Hj. by replace j with 0 by lia.
Defined.

(** The state after an allocation of 512 KiB. *)
Definition pmm_after : pmm :=
  match allocPhys 0x80000 0 0 pmm128 with Ok _ s => s | Fault _ => pmm0 end.

Lemma allocPhys_region_witness :
  ∃ i r r', nthZ (region pmm128) i = Some r ∧ allocRegion (order_for 0x80000) r = Ok 0x100000 r' ∧
    (0 ≠ MEMORY_TYPE_1MB → mr_type r ≠ MEMORY_TYPE_1MB) ∧
    (0 = MEMORY_TYPE_1MB → mr_type r = MEMORY_TYPE_1MB) ∧
    region pmm_after = updZ (region pmm128) i r' ∧ buddyLock pmm_after = 0.
Proof. apply (allocPhys_region 0x80000 0 0 pmm128 0x100000 0x40000 pmm_after). by vm_compute. Defined.

(** 512 KiB are asked for, 256 KiB are given. *)
Lemma allocPhys_actual_size_witness : 0x80000 <= 0x40000 ↔ 0x80000 <= 0x40000.
Proof.
  apply (allocPhys_actual_size 0x80000 0 0 pmm128 0x100000 0x40000 pmm_after);
    [by repeat constructor|by vm_compute].
Defined.

Lemma freePhys_unknown_keeps_lock_witness :
  ∃ s', freePhys 0x80000000 pmm128 = Ok tt s' ∧
    ∀ bytes type flags, allocPhys bytes type flags s' = Fault Spin.
Proof.
  apply (freePhys_unknown_keeps_lock pmm128 0x80000000); [done|done|].
  constructor; [right; by vm_compute|constructor].
Defined.

Lemma freeNPhys_never_returns_witness : freeNPhys 100 0x100000 0x1000 pmm128 ≠ Ok tt pmm128.
Proof. apply (freeNPhys_never_returns 100 pmm128 0x100000 0x1000); [done|done|done]. Defined.

Section init_witness.
#[local] Instance boot_nop : BootCalls := {|
call_initKmalloc := mret tt; call_createFakeTask := mret tt; call_initPaging := mret tt;
call_initKsym _ := mret tt; call_initSLAB := mret tt; call_initVmalloc := mret tt |}.

Lemma initPMM_single_region_overflows_witness :
initPMM kinf0 [entry128] pmm0 = Fault OutOfBounds.
Proof. by apply (initPMM_single_region_overflows kinf0 entry128 pmm0 pmm0 pmm0 pmm0 pmm0). Defined.
End init_witness.
