(* ===== verification/PmmInit.v ===== *)
(** * Regions of the physical memory manager from the memory map

    What [createRegion] builds for a usable entry of the map, order by order, and
    what such a region then hands out: its first 32 blocks and the first one again. *)

From S2P Require Import Prelude Kmonad Mem Mmap Pmm PmmProps.

(** Order [o] of a region of [blc] blocks: a bit for every block, rounded down to
    whole words and at least one word. *)
Definition fresh_order (blc o : Z) : memOrder :=
  MemOrder (blc / 2 ^ o) 0 (Some (replicate (Z.to_nat (Z.max 1 (blc / 2 ^ o / 64))) 0)).

(** The region of entry [e] when nothing in it is in use. *)
Record fresh_region (e : mmapEntry) (r : memRegion) : Prop := {
  fr_type : mr_type r = setRegionType e;
  fr_base : base r = me_phys e;
  fr_limit : limit r = me_phys e + me_bytes e;
  fr_blocks : blockCount r = 2 * (me_bytes e / 0x8000);
  fr_ordern : ordern r = Z.min 10 (Z.log2 (blockCount r) + 1);
  fr_length : length (mr_order r) = 10%nat;
  fr_order o : 0 <= o < ordern r → nthZ (mr_order r) o = Some (fresh_order (blockCount r) o)
}.

(** ** The orders *)

Lemma make_orders_length n blc :
  0 <= blc → Z.of_nat (length (make_orders n blc)) = if blc =? 0 then 0 else Z.min (Z.of_nat n) (Z.log2 blc + 1).
Proof.
  revert blc. induction n as [|n IH]; intros blc Hb; cbn [make_orders].
  - pose proof (Z.log2_nonneg blc). cbn. destruct (blc =? 0); lia.
  - destruct (Z.eqb_spec blc 0) as [->|Hne]; [done|]. rewrite Z.gtb_ltb, ltb_true by lia.
    cbn [length]. rewrite Nat2Z.inj_succ, IH by zlia.
    destruct (decide (blc = 1)) as [->|H1]; [change (1 / 2 =? 0) with true; change (Z.log2 1) with 0; cbv iota; lia|].
    assert (blc / 2 ≠ 0) as H2 by zlia. rewrite (proj2 (Z.eqb_neq _ _) H2).
    rewrite <- Z.div2_div, Z.div2_spec, Z.log2_shiftr by lia.
    assert (1 <= Z.log2 blc) by (apply (Z.log2_le_mono 2); lia). lia.
Qed.

Lemma nthZ_cons_S {A} (x : A) l i : 0 <= i → nthZ (x :: l) (i + 1) = nthZ l i.
Proof.
  intros Hi. unfold nthZ. rewrite !decide_True by lia. by replace (Z.to_nat (i + 1)) with (S (Z.to_nat i)) by lia.
Qed.

Lemma make_orders_nth n blc o :
  0 <= blc < 2 ^ 32 → 0 <= o < Z.of_nat (length (make_orders n blc)) →
  nthZ (make_orders n blc) o = Some (fresh_order blc o).
Proof.
  revert blc o. induction n as [|n IH]; intros blc o Hb Ho; cbn [make_orders length] in *; [lia|].
  rewrite Z.gtb_ltb in *. destruct (Z.ltb_spec 0 blc) as [Hpos|]; cbn [length] in Ho; [|lia].
  destruct (decide (o = 0)) as [->|Hne].
  - cbn. unfold fresh_order, new_bitmap. rewrite u32_id by lia. rewrite Z.pow_0_r, Z.div_1_r.
    destruct (Z.eqb_spec (blc / 64) 0) as [->|]; [done|]. by rewrite Z.max_r by zlia.
  - replace o with (o - 1 + 1) at 1 by lia. rewrite nthZ_cons_S, IH by zlia.
    unfold fresh_order. rewrite Z.div_div by lia. rewrite <- Z.pow_succ_r by lia.
    by replace (Z.succ (o - 1)) with o by lia.
Qed.

Lemma even_blocks b : 0 <= b →
  (if negb (b / 0x4000 mod 2 =? 0) then b / 0x4000 - 1 else b / 0x4000) = 2 * (b / 0x8000).
Proof.
  intros Hb. change 0x8000 with (0x4000 * 2). rewrite <- Z.div_div by lia.
  destruct (Z.eqb_spec (b / 0x4000 mod 2) 0); cbn [negb]; zlia.
Qed.

(** ** The region *)

Lemma fresh_wf e r : fresh_region e r → 2 <= blockCount r < 2 ^ 32 → wf_region r.
Proof.
  intros [_ _ _ _ Hn Hl Ho] Hb. pose proof (Z.log2_nonneg (blockCount r)) as Hlog.
  split; [done|lia|]. intros o Hor. unfold order_live.
  eexists _, _, _. split; [by apply Ho|]. unfold fresh_order. cbn [entryn entry]. split.
  - apply Z.div_str_pos. split; [apply Z.pow_pos_nonneg; lia|].
    etrans; [|apply Z.log2_spec; lia]. apply Z.pow_le_mono_r; lia.
  - replace (Z.to_nat (Z.max 1 (blockCount r / 2 ^ o / 64)))
      with (S (Z.to_nat (Z.max 1 (blockCount r / 2 ^ o / 64) - 1))) by lia. reflexivity.
Qed.

(** The allocation of the boot loader reaches out of the region of [e]. *)
Definition reaches_out (e a : mmapEntry) : Prop :=
  me_phys a < me_phys e ∨ u64 (me_phys e + me_bytes e) < u64 (me_phys a + me_bytes a).

Lemma createRegion_fresh rn e kinf amap s r0 :
  nthZ (region s) rn = Some r0 → length (mr_order r0) = 10%nat →
  mi_aptr (bi_mem kinf) = Some amap → mi_aentries (bi_mem kinf) = Z.of_nat (length amap) →
  Forall (reaches_out e) amap →
  0x8000 <= me_bytes e < 2 ^ 46 → me_phys e + me_bytes e < 2 ^ 64 → 0 <= me_phys e →
  wp (createRegion rn e kinf) (λ _ s', ∃ r, fresh_region e r ∧ region s' = updZ (region s) rn r) s.
Proof.
  intros Hr Hl Hap Han Hout Hb Hfit Hphys. unfold createRegion. wp_steps.
  eapply wp_array_get; [done|]. rewrite even_blocks by lia. cbv zeta.
  set (blc := 2 * (me_bytes e / 0x8000)).
  assert (2 <= blc < 2 ^ 32) as Hblc by (unfold blc; zlia).
  set (r' := MemRegion _ _ _ _ _ _ _).
  assert (fresh_region e r') as Hfresh.
  { pose proof (make_orders_length 10 blc ltac:(lia)) as HL. rewrite eqb_false in HL by lia.
    split; cbn [r' mr_type base limit blockCount ordern mr_order]; try done.
    - by rewrite u64_id by lia.
    - rewrite length_app, length_drop, Hl. change (Z.of_nat 10) with 10 in HL. lia.
    - intros o Ho. unfold nthZ. rewrite decide_True by lia. rewrite lookup_app_l by lia.
      pose proof (make_orders_nth 10 blc o ltac:(lia) Ho) as E. unfold nthZ in E.
      by rewrite decide_True in E by lia. }
  clearbody r'. wp_step. set (s1 := Pmm _ _ _ _).
  assert (∃ r, fresh_region e r ∧ region s1 = updZ (region s) rn r) as Hend by (by exists r').
  apply (wp_for_range (λ _ s', s' = s1)); [lia| |by intros ? ->|done].
  intros z s' Hz ->. rewrite Hap. unfold map_get. wp_step.
  destruct (nthZ_is_Some amap z ltac:(lia)) as [a Ha]. eapply wp_array_get; [exact Ha|].
  assert (reaches_out e a) as Ho.
  { rewrite Forall_lookup in Hout. unfold nthZ in Ha. rewrite decide_True in Ha by lia. by eapply Hout. }
  destruct Ho as [Ho|Ho]; [rewrite ltb_true by done; by apply wp_ret|].
  rewrite Z.gtb_ltb, (ltb_true (u64 _) (u64 _)) by done.
  destruct (me_phys a <? me_phys e); by apply wp_ret.
Qed.

(** C21: [createRegion] on a usable entry that contains no allocation of the boot
  loader builds a region with the type, base and limit of the entry, an even number
  of blocks and an order for every power of two up to 2^9, each with all its blocks
  free; of 33 blocks then allocated from a region of 2 MiB or more the first 32 are
  the first of the region, and the 33rd is the first one again. *)
Theorem createRegion_hands_out_twice rn e kinf amap s r0 :
  nthZ (region s) rn = Some r0 → length (mr_order r0) = 10%nat →
  mi_aptr (bi_mem kinf) = Some amap → mi_aentries (bi_mem kinf) = Z.of_nat (length amap) →
  Forall (reaches_out e) amap →
  0x8000 <= me_bytes e < 2 ^ 46 → me_phys e + me_bytes e < 2 ^ 64 → 0 <= me_phys e →
  wp (createRegion rn e kinf) (λ _ s', ∃ r, fresh_region e r ∧ region s' = updZ (region s) rn r ∧
    (0x200000 <= me_bytes e →
      wp (alloc_many 33) (λ ps _,
        ps = ((λ j, me_phys e + j * ORDER_MIN_BLOCK_SIZE) <$> seqZ 0 32) ++ [me_phys e]) r)) s.
Proof.
  intros Hr Hl Hap Han Hout Hb Hfit Hphys. eapply wp_mono; [by eapply createRegion_fresh|].
  intros [] s' (r & Hf & Hs). exists r. split_and!; [done..|]. intros Hbig.
  pose proof (fr_blocks _ _ Hf) as Eb. assert (128 <= blockCount r < 2 ^ 32) as Hblc by zlia.
  assert (1 <= ordern r) as Hon by (rewrite (fr_ordern _ _ Hf); pose proof (Z.log2_nonneg (blockCount r)); lia).
  pose proof (fr_order _ _ Hf 0 ltac:(lia)) as H0. unfold fresh_order in H0.
  rewrite Z.pow_0_r, Z.div_1_r in H0.
  replace (Z.to_nat (Z.max 1 (blockCount r / 64))) with (S (S (Z.to_nat (blockCount r / 64 - 2)))) in H0 by zlia.
  cbn [replicate] in H0. rewrite <- (fr_base _ _ Hf) in *.
  eapply wp_mono; [eapply (alloc_many_from 0); [by eapply fresh_wf; [|lia]|exact H0|lia..]|]. done.
Qed.

(** The region of a usable entry of 2 MiB at 1 MB. *)
Lemma createRegion_hands_out_twice_witness :
  wp (createRegion 0 entry128 kinf0) (λ _ s', ∃ r, fresh_region entry128 r ∧
    region s' = updZ [memRegion0] 0 r ∧
    (0x200000 <= me_bytes entry128 →
      wp (alloc_many 33) (λ ps _,
        ps = ((λ j, me_phys entry128 + j * ORDER_MIN_BLOCK_SIZE) <$> seqZ 0 32) ++ [me_phys entry128]) r))
    (Pmm 1 [memRegion0] 0 true).
Proof.
  apply (createRegion_hands_out_twice 0 entry128 kinf0 [] (Pmm 1 [memRegion0] 0 true) memRegion0);
    [done|done|done|done|constructor|cbn; lia|cbn; lia|cbn; lia].
Defined.
