(* ===== verification/PmmFree.v ===== *)
(** * Freeing physical memory

    What [freeBit] does to a region: it never gives capacity back, because the
    counter of used blocks only grows, and freeing the block that was allocated
    last follows the null bitmap above the region's highest order. *)

From S2P Require Import Prelude Kmonad Mem Mmap Pmm PmmProps.

(** ** One bit *)

Section bits.
Implicit Types (r : memRegion).

(** [w & ~(1<<b)], on the bits the search for a free block looks at. *)
Lemma clear_mask_testbit w b j :
0 <= b < 31 → 0 <= j < 64 → Z.testbit (Z.land w (u64 (Z.lnot (2 ^ b)))) j = Z.testbit w j && negb (b =? j).
Proof.
intros Hb Hj. rewrite Z.land_spec. f_equal. unfold u64.
rewrite Z.mod_pow2_bits_low, Z.lnot_spec, Z.pow2_bits_eqb by lia. done.
Qed.

(** The region after word [i] of order [o] became [w]. *)
Definition with_word (o i w : Z) (mo : memOrder) (ws : list Z) (r : memRegion) : memRegion :=
set_orders (updZ (mr_order r) o (MemOrder (entryn mo) (used mo) (Some (updZ ws i w)))) r.

Lemma word_clear_bit_eq r o i b mo ws w :
nthZ (mr_order r) o = Some mo → entry mo = Some ws → nthZ ws i = Some w → 0 <= b < 31 →
word_clear_bit o i b r = Ok tt (with_word o i (Z.land w (u64 (Z.lnot (2 ^ b)))) mo ws r).
Proof.
intros Ho He Hw Hb. pose proof (nthZ_Some _ _ _ Ho). pose proof (nthZ_Some _ _ _ Hw).
assert (wp (word_clear_bit o i b) (λ _ r', r' = with_word o i (Z.land w (u64 (Z.lnot (2 ^ b)))) mo ws r) r)
  as ([] & r' & E & ->)%wp_ok; [|exact E].
unfold word_clear_bit. wp_step. apply wp_int_bit; [lia|]. unfold word_get, word_put, order_get, order_put.
wp_steps. eapply wp_array_get; [done|]. rewrite He. eapply wp_array_get; [done|]. wp_steps.
eapply wp_array_get; [done|]. rewrite He. wp_steps. apply wp_array_set; [done|]. wp_steps.
by apply wp_array_set.
Qed.

Lemma word_test_bit_eq r o i b mo ws w :
nthZ (mr_order r) o = Some mo → entry mo = Some ws → nthZ ws i = Some w → 0 <= b < 31 →
word_test_bit o i b r = Ok (Z.testbit w b) r.
Proof.
intros Ho He Hw Hb.
assert (wp (word_test_bit o i b) (λ t r', t = Z.testbit w b ∧ r' = r) r) as (t & r' & E & -> & ->)%wp_ok;
  [|exact E].
eapply word_test_bit_ok; [exact Ho|exact He|exact Hw|lia|]. split; [|done].
rewrite bit_mask_test by lia. apply negb_involutive.
Qed.

(** A null bitmap. *)
Lemma word_clear_bit_null r o i b mo :
nthZ (mr_order r) o = Some mo → entry mo = None → 0 <= b < 31 →
word_clear_bit o i b r = Fault OutOfBounds.
Proof.
intros Ho He Hb. unfold word_clear_bit. rewrite (bind_ok _ _ _ (2 ^ b) r); [|unfold int_bit; by rewrite leb_true, ltb_true by lia].
apply bind_fault. unfold word_get.
rewrite (bind_ok _ _ _ mo r); [by rewrite He|]. unfold order_get, array_get, mbind, M_bind, get.
by rewrite Ho.
Qed.
End bits.

(** ** The counters *)

Section used.
Implicit Types (r : memRegion).

(** Two regions whose orders count the same blocks. *)
Definition same_counts (r r' : memRegion) : Prop :=
(λ mo, (entryn mo, used mo)) <$> mr_order r = (λ mo, (entryn mo, used mo)) <$> mr_order r'.

#[export] Instance same_counts_equiv : Equivalence same_counts.
Proof. unfold same_counts. split; [intros r; done|intros r r'; done|intros r r' r''; congruence]. Qed.

Lemma same_counts_order r r' o mo :
same_counts r r' → nthZ (mr_order r) o = Some mo →
∃ mo', nthZ (mr_order r') o = Some mo' ∧ entryn mo' = entryn mo ∧ used mo' = used mo.
Proof.
unfold same_counts, nthZ. intros E. case_decide; [|done]. intros H1.
apply (f_equal (.!! Z.to_nat o)) in E. rewrite !list_lookup_fmap, H1 in E. cbn in E.
destruct (mr_order r' !! Z.to_nat o) as [mo'|]; [|done]. injection E as E1 E2. by exists mo'.
Qed.

Lemma word_put_counts o i w r r' : word_put o i w r = Ok tt r' → same_counts r r'.
Proof.
unfold word_put, order_get, order_put, array_get, array_set, mbind, M_bind, get, put, mret, M_ret.
destruct (nthZ (mr_order r) o) as [mo|] eqn:Eo; [|done].
destruct (entry mo) as [ws|]; [|done]. destruct (nthZ ws i); [|done]. rewrite Eo.
intros [= <-]. unfold same_counts. cbn [mr_order set_orders]. unfold nthZ, updZ in *.
case_decide; [|done]. rewrite list_fmap_insert. symmetry. apply list_insert_id.
by rewrite list_lookup_fmap, Eo.
Qed.

Lemma word_clear_counts o i b r r' : word_clear_bit o i b r = Ok tt r' → same_counts r r'.
Proof.
unfold word_clear_bit, mbind, M_bind. destruct (int_bit b r) as [v r1|] eqn:E1; [|done].
assert (r1 = r) as -> by (unfold int_bit, mret, M_ret, fail in E1; repeat case_match; by simplify_eq).
destruct (word_get o i r) as [w r2|] eqn:E2; [|done].
assert (r2 = r) as ->; [|apply word_put_counts].
unfold word_get, order_get, array_get, mbind, M_bind, get, mret, M_ret in E2.
repeat case_match; by simplify_eq.
Qed.

Lemma word_test_state o i b r t r' : word_test_bit o i b r = Ok t r' → r' = r.
Proof.
unfold word_test_bit, word_get, order_get, array_get, int_bit, fail, mbind, M_bind, get, mret, M_ret.
intros E. repeat case_match; by simplify_eq.
Qed.

(** One round of the loop over the parents in [freeBit]. *)
Definition free_round (st : Z * Z * Z) : M memRegion (Z * Z * Z + unit) :=
let '(order, parentIdx, parentBit) := st in
if negb (order <? MAXORDER) then mret (inr tt)
else
  let parentBit := u8 (ORDER_GET_PARENT_BIT_LBIT parentBit parentIdx) in
  let parentIdx := ORDER_GET_IDX_FROM_BIT parentBit in
  let parentBit := parentBit mod 64 in
  _ ← word_clear_bit order parentIdx parentBit;
  b ← word_test_bit order parentIdx (parentBit + 1);
  mret (if (b : bool) then inr tt else inl (u16 (order + 1), parentIdx, parentBit)).

Lemma freeBit_rounds o i b :
freeBit o i b =
  (_ ← word_clear_bit o i b;
   buddy ← word_test_bit o i (if ORDER_IS_RIGHT_BLOCK b
             then (if ORDER_IS_RIGHT_BLOCK b then b else u8 (b - 1)) else u8 (b + 1));
   if (buddy : bool) then mret tt else iter 11 free_round (u16 (o + 1), u8 i, b)).
Proof. reflexivity. Qed.

Lemma free_round_counts st r a r' : free_round st r = Ok a r' → same_counts r r'.
Proof.
destruct st as [[o i] b]. unfold free_round. destruct (o <? MAXORDER); cbn [negb]; [|by intros [= _ <-]].
unfold mbind, M_bind. destruct (word_clear_bit _ _ _ r) as [[] r1|] eqn:E1; [|done].
apply word_clear_counts in E1. destruct (word_test_bit _ _ _ r1) as [t r2|] eqn:E2; [|done].
apply word_test_state in E2 as ->. intros [= _ <-]. exact E1.
Qed.

Lemma free_rounds_counts fuel st r r' : iter fuel free_round st r = Ok tt r' → same_counts r r'.
Proof.
revert st r. induction fuel as [|fuel IH]; intros st r; [done|]. cbn [iter]. unfold mbind, M_bind.
destruct (free_round st r) as [[st'|[]] r1|] eqn:E; [| |done]; apply free_round_counts in E; rewrite E.
- apply IH.
- by intros [= <-].
Qed.

Lemma freeBit_counts o i b r r' : freeBit o i b r = Ok tt r' → same_counts r r'.
Proof.
rewrite freeBit_rounds. unfold mbind, M_bind.
destruct (word_clear_bit o i b r) as [[] r1|] eqn:E1; [|done].
apply word_clear_counts in E1. destruct (word_test_bit _ _ _ r1) as [t r2|] eqn:E2; [|done].
apply word_test_state in E2 as ->. rewrite E1. destruct t; [by intros [= <-]|]. apply free_rounds_counts.
Qed.

(** Any frees of blocks of any order. *)
Definition region_free (r r' : memRegion) : Prop := ∃ o i b, freeBit o i b r = Ok tt r'.

Lemma frees_counts r r' : rtc region_free r r' → same_counts r r'.
Proof.
induction 1 as [|r r1 r2 (o & i & b & E) _ IH]; [done|]. rewrite <- IH. by eapply freeBit_counts.
Qed.

(** freeing gives no capacity back.  Once the counter of an order has
  reached its number of blocks, [allocRegion] fails for that order after any
  sequence of frees, even when every bit of the bitmap is clear again: [freeBit]
  never decrements [used]. *)
Theorem free_keeps_used r r' o mo :
nthZ (mr_order r) o = Some mo → entryn mo <= used mo → rtc region_free r r' →
allocRegion o r' = Ok MEMORY_ALLOCATION_FAILED r'.
Proof.
intros Ho Hu Hf. destruct (same_counts_order r r' o mo (frees_counts r r' Hf) Ho) as (mo' & Ho' & En & Eu).
unfold allocRegion, order_get, array_get, mbind, M_bind, get, mret, M_ret. rewrite Ho'.
rewrite En, Eu, Z.geb_leb, leb_true by lia. done.
Qed.
End used.

(** ** Freeing the block that was allocated last *)

Section free.
Implicit Types (r : memRegion).

(** Below ten orders, with nothing but bit 0 set in the first word of the orders
    above 0: what allocations of order 0 leave. *)
Record light_above (r : memRegion) : Prop := {
la_orders : 1 <= ordern r < 10;
la_parents o : 1 <= o < ordern r → ∃ mo w ws, nthZ (mr_order r) o = Some mo ∧
  entry mo = Some (w :: ws) ∧ ∀ j, 1 <= j < 31 → Z.testbit w j = false;
la_null : ∃ mo, nthZ (mr_order r) (ordern r) = Some mo ∧ entry mo = None
}.

(** Replacing the first word of an order by one with no bit from 1 to 30 more. *)
Lemma light_above_word r o w w' mo ws n :
light_above r → nthZ (mr_order r) o = Some mo → entry mo = Some (w :: ws) →
(1 <= o → (∀ j, 1 <= j < 31 → Z.testbit w j = false) → ∀ j, 1 <= j < 31 → Z.testbit w' j = false) →
light_above (set_orders (updZ (mr_order r) o (MemOrder (entryn mo) n (Some (w' :: ws)))) r).
Proof.
intros [H1 H2 (mt & H3 & H4)] Ho He Hw. pose proof (nthZ_Some _ _ _ Ho) as Hr. split; [exact H1| |].
- cbn [mr_order set_orders ordern]. intros o' Ho'. destruct (decide (o = o')) as [<-|Hne].
  + destruct (H2 o Ho') as (mo' & x & xs & E & E' & Hx). rewrite Ho in E. injection E as <-.
    rewrite He in E'. injection E' as <- <-. eexists _, w', ws. rewrite nthZ_updZ_eq by done.
    split_and!; [done|done|]. apply Hw; [lia|done].
  + rewrite nthZ_updZ_ne by lia. by apply H2.
- cbn [mr_order set_orders ordern]. exists mt. rewrite nthZ_updZ_ne; [done| |lia].
  intros ->. rewrite Ho in H3. injection H3 as ->. congruence.
Qed.

Lemma light_above_marks lim : marks_keep (λ r, light_above r ∧ limit r = lim).
Proof.
intros o i m r r' Hc [Hl Hlim] (mo & ws & w & Ho & He & Hw & ->). split; [|exact Hlim].
destruct Hc as [[-> Hi]|(H1 & -> & ->)].
- destruct Hl as [Hn Hp (mt & Ht & Htn)]. split; [exact Hn| |].
  + intros o' Ho'. cbn [mr_order set_orders ordern]. rewrite nthZ_updZ_ne by lia. by apply Hp.
  + exists mt. cbn [mr_order set_orders ordern]. rewrite nthZ_updZ_ne by lia. done.
- destruct ws as [|w0 ws]; [done|]. injection Hw as ->.
  change (updZ (w :: ws) 0 (Z.lor w 1)) with (Z.lor w 1 :: ws).
  eapply light_above_word; [done..|]. intros _ Hz j Hj. rewrite Z.lor_spec, Hz by lia.
  change 1 with (2 ^ 0). rewrite Z.pow2_bits_eqb by lia. by rewrite eqb_false by lia.
Qed.

Lemma free_round_eq o b r :
o < 10 → 0 <= b <= 30 →
free_round (o, 0, b) r =
  (_ ← word_clear_bit o 0 (b / 2); t ← word_test_bit o 0 (b / 2 + 1);
   mret (if (t : bool) then inr tt else inl (u16 (o + 1), 0, b / 2))) r.
Proof.
intros Ho Hb. unfold free_round, MAXORDER. rewrite ltb_true by lia. cbn [negb].
assert (u8 (ORDER_GET_PARENT_BIT_LBIT b 0) = b / 2) as ->.
{ unfold ORDER_GET_PARENT_BIT_LBIT. rewrite Z.mul_0_l. change (u64 0) with 0. rewrite Z.add_0_l.
  rewrite u64_id, Z.shiftr_div_pow2 by lia. change (2 ^ 1) with 2. apply u8_id. zlia. }
assert (0 <= b / 2 <= 15) as Hb2 by zlia.
unfold ORDER_GET_IDX_FROM_BIT. by rewrite (Z.div_small (b / 2)), (Z.mod_small (b / 2)) by lia.
Qed.

(** A round below the top order goes on. *)
Lemma free_round_next o b r :
light_above r → 1 <= o < ordern r → 0 <= b <= 30 →
∃ r', free_round (o, 0, b) r = Ok (inl (o + 1, 0, b / 2)) r' ∧ light_above r' ∧ ordern r' = ordern r.
Proof.
intros Hl Ho Hb. assert (0 <= b / 2 <= 15) as Hb2 by zlia. pose proof (la_orders _ Hl).
destruct (la_parents _ Hl o ltac:(lia)) as (mo & w & ws & Hn & He & Hz).
pose proof (word_clear_bit_eq r o 0 (b / 2) mo (w :: ws) w Hn He eq_refl ltac:(lia)) as E.
set (w' := Z.land w (u64 (Z.lnot (2 ^ (b / 2))))) in E.
set (r' := with_word o 0 w' mo (w :: ws) r) in E. exists r'.
assert (Z.testbit w' (b / 2 + 1) = false) as Ez.
{ unfold w'. rewrite clear_mask_testbit, Hz by lia. done. }
assert (word_test_bit o 0 (b / 2 + 1) r' = Ok (Z.testbit w' (b / 2 + 1)) r') as E2.
{ pose proof (nthZ_Some _ _ _ Hn). eapply word_test_bit_eq; [by apply nthZ_updZ_eq|reflexivity|reflexivity|lia]. }
rewrite Ez in E2. split; [|split; [|done]].
- rewrite free_round_eq by lia. rewrite (bind_ok _ _ _ _ _ E), (bind_ok _ _ _ _ _ E2).
  rewrite u16_id by lia. done.
- apply (light_above_word r o w w' mo ws (used mo) Hl Hn He). intros _ Hw j Hj. unfold w'.
  by rewrite clear_mask_testbit, Hw by lia.
Qed.

(** The walk over the parents ends in the null bitmap. *)
Lemma free_rounds_fault fuel o b r :
light_above r → 1 <= o <= ordern r → 0 <= b <= 30 → (Z.to_nat (ordern r - o) < fuel)%nat →
iter fuel free_round (o, 0, b) r = Fault OutOfBounds.
Proof.
revert o b r. induction fuel as [|fuel IH]; intros o b r Hl Ho Hb Hf; [lia|].
pose proof (la_orders _ Hl) as Hord. assert (0 <= b / 2 <= 15) as Hb2 by zlia. cbn [iter].
destruct (decide (o = ordern r)) as [->|Hne].
- destruct (la_null _ Hl) as (mo & Hn & He). apply bind_fault.
  rewrite free_round_eq by lia. apply bind_fault. apply (word_clear_bit_null _ _ _ _ mo); [done|done|lia].
- destruct (free_round_next o b r Hl ltac:(lia) Hb) as (r' & E & Hl' & Hn').
  rewrite (bind_ok _ _ _ _ _ E). apply IH; [done|lia..].
Qed.

(** Freeing a block of the first word whose right neighbour is not in use (for a
    right block: any) faults. *)
Lemma freeBit_fault r n u w ws b :
light_above r → nthZ (mr_order r) 0 = Some (MemOrder n u (Some (w :: ws))) →
0 <= b < 30 → Z.testbit w (b + 1) = false → freeBit 0 0 b r = Fault OutOfBounds.
Proof.
intros Hl H0 Hb Hw. pose proof (nthZ_Some _ _ _ H0) as Hr.
pose proof (word_clear_bit_eq r 0 0 b _ (w :: ws) w H0 eq_refl eq_refl ltac:(lia)) as E.
set (w' := Z.land w (u64 (Z.lnot (2 ^ b)))) in E.
set (r1 := with_word 0 0 w' _ _ r) in E.
assert (light_above r1) as Hl1.
{ apply (light_above_word r 0 w w' _ ws u Hl H0 eq_refl). lia. }
set (t := if ORDER_IS_RIGHT_BLOCK b then (if ORDER_IS_RIGHT_BLOCK b then b else u8 (b - 1)) else u8 (b + 1)).
assert (t = b ∨ t = b + 1) as Ht.
{ unfold t. destruct (ORDER_IS_RIGHT_BLOCK b); [by left|right]. apply u8_id. lia. }
assert (Z.testbit w' t = false) as Ez.
{ unfold w'. rewrite clear_mask_testbit by lia. destruct Ht as [->| ->].
  - by rewrite Z.eqb_refl, andb_false_r.
  - by rewrite Hw. }
assert (word_test_bit 0 0 t r1 = Ok (Z.testbit w' t) r1) as E2.
{ eapply word_test_bit_eq; [by apply nthZ_updZ_eq|reflexivity|reflexivity|lia]. }
rewrite freeBit_rounds. fold t. rewrite (bind_ok _ _ _ _ _ E), (bind_ok _ _ _ _ _ E2), Ez.
change (u16 (0 + 1)) with 1. change (u8 0) with 0. pose proof (la_orders _ Hl1).
apply free_rounds_fault; [done|lia|lia|lia].
Qed.

(** A region whose first [k] blocks were allocated one by one. *)
Record light (k : Z) (r : memRegion) : Prop := {
li_wf : wf_region r;
li_above : light_above r;
li_count : 0 <= k < 30;
li_word : ∃ n ws, nthZ (mr_order r) 0 = Some (MemOrder n k (Some (Z.ones k :: ws))) ∧ k < n < 2 ^ 32;
li_base : 0 <= base r ∧ base r mod 4096 = 0 ∧ base r + 0x80000 < 2 ^ 64;
li_limit : base r + (k + 1) * ORDER_MIN_BLOCK_SIZE <= limit r
}.

Lemma light_alloc k r p r' :
light k r → allocRegion 0 r = Ok p r' →
p = base r + k * ORDER_MIN_BLOCK_SIZE ∧ base r' = base r ∧ limit r' = limit r ∧ light_above r' ∧
∃ n ws, nthZ (mr_order r') 0 = Some (MemOrder n (k + 1) (Some (Z.ones (k + 1) :: ws))).
Proof.
intros [Hwf Hl Hk (n & ws & H0 & Hn) (Hb1 & _ & Hb2) _] E.
assert (word_after k = Z.ones k ∧ word_after (k + 1) = Z.ones (k + 1)) as [Ew1 Ew2].
{ unfold word_after. by rewrite !eqb_false by lia. }
pose proof (allocRegion_word0 (λ r', light_above r' ∧ limit r' = limit r) r n k (Z.ones k) ws k
  (light_above_marks (limit r)) (conj Hl eq_refl) Hwf H0 ltac:(lia) ltac:(lia) ltac:(lia) ltac:(lia) Hb1 Hb2) as W.
rewrite <- Ew1 in W. specialize (W ltac:(intros j Hj; rewrite Ew1; apply Z.ones_spec_low; lia) (word_after_clear k ltac:(lia))).
unfold wp in W. rewrite E in W. destruct W as (-> & [Hl' Hlim] & _ & Hb' & H0').
rewrite word_after_succ, u32_id, Ew2 in H0' by lia. split_and!; [done..|]. by exists n, ws.
Qed.

Lemma find_from_unique {A} (f : A → bool) l i k x :
nthZ l k = Some x → f x = true → (∀ j y, nthZ l j = Some y → f y = true → j = k) →
find_from f l i = Some (i + k).
Proof.
revert i k. induction l as [|y l IH]; intros i k Hx Hf Hu; [by apply nthZ_Some in Hx; simpl in Hx; lia|].
cbn [find_from]. destruct (f y) eqn:Ey.
- assert (0 = k) as <- by by apply (Hu 0 y). f_equal. lia.
- assert (∀ j, 0 <= j → nthZ (y :: l) (j + 1) = nthZ l j) as Hs.
  { intros j Hj. unfold nthZ. rewrite !decide_True by lia.
    by replace (Z.to_nat (j + 1)) with (S (Z.to_nat j)) by lia. }
  pose proof (nthZ_Some _ _ _ Hx) as Hr. destruct (decide (k = 0)) as [->|].
  { injection Hx as <-. congruence. }
  replace k with (k - 1 + 1) in Hx by lia. rewrite Hs in Hx by lia.
  rewrite (IH (i + 1) (k - 1)); [f_equal; lia|done|done|].
  intros j z Hj Hz. pose proof (nthZ_Some _ _ _ Hj). assert (j + 1 = k); [|lia].
  apply (Hu _ z); [by rewrite Hs by lia|done].
Qed.

(** C23: a block cannot be given back.  When every region has fewer than ten
  orders and served fewer than 30 blocks so far, one block of [allocPhys] followed
  by [freePhys] of the address it returned faults: [freeBit] walks the parents up
  to order 9 and follows the null bitmap of the first order that the region does
  not have. *)
Theorem alloc_then_free_faults bytes type flags s p actual s' :
(∀ i r, nthZ (region s) i = Some r → ∃ k, light k r) →
(∀ i j ri rj, nthZ (region s) i = Some ri → nthZ (region s) j = Some rj → i ≠ j →
   limit ri < base rj ∨ limit rj < base ri) →
bytes <= ORDER_MIN_BLOCK_SIZE → allocPhys bytes type flags s = Ok (p, actual) s' →
freePhys p s' = Fault OutOfBounds.
Proof.
intros Hlight Hdis Hbytes (i & r & r' & Hi & _ & Ha & _ & ->)%allocPhys_inv.
rewrite order_for_cases, Z.geb_leb, leb_true in Ha by done. destruct (Hlight i r Hi) as [k Hk].
destruct (light_alloc k r p r' Hk Ha) as (-> & Eb & El & Hl & n & ws & H0).
destruct Hk as [_ _ Hk _ (Hb1 & Hb2 & Hb3) Hlim]. pose proof (nthZ_Some _ _ _ Hi) as Hir.
unfold ORDER_MIN_BLOCK_SIZE in *. set (p := base r + k * 0x4000) in *.
assert (IS_UNALIGNED p = false) as Ep.
{ unfold IS_UNALIGNED. change 0xFFF with (Z.ones 12). rewrite Z.land_ones by lia.
  assert (p mod 2 ^ 12 = 0) as -> by (unfold p; change (2 ^ 12) with 4096; zlia). done. }
set (s1 := set_buddyLock 1 (set_region (updZ (region s) i r') s)).
assert (find_from (λ r, (p >=? base r) && (p <=? limit r)) (region s1) 0 = Some (0 + i)) as Ef.
{ change (region s1) with (updZ (region s) i r'). apply (find_from_unique _ _ 0 i r'); [by apply nthZ_updZ_eq| |].
  - rewrite Eb, El, Z.geb_leb, !leb_true by lia. done.
  - intros j y Hj [Hy1 Hy2]%andb_prop. destruct (decide (j = i)) as [|Hne]; [done|].
    rewrite nthZ_updZ_ne in Hj by lia. rewrite Z.geb_leb in Hy1.
    destruct (Hdis i j r y Hi Hj ltac:(done)); lia. }
unfold freePhys. rewrite Ep. rewrite (bind_ok _ _ _ tt s1); [|reflexivity].
rewrite (bind_ok get _ s1 s1 s1 eq_refl), Ef, Z.add_0_l.
pose proof (nthZ_updZ_eq _ _ r' Hir) as Hn.
rewrite (bind_ok _ _ s1 r' s1); [|unfold array_get; cbn [region s1 set_region set_buddyLock]; by rewrite Hn].
apply bind_fault. unfold on_region. rewrite (bind_ok get _ s1 s1 s1 eq_refl).
rewrite (bind_ok _ _ s1 r' s1); [|unfold array_get; cbn [region s1 set_region set_buddyLock]; by rewrite Hn].
assert (ORDER_ADDRESS_TO_BIT p (base r') = k) as ->.
{ unfold ORDER_ADDRESS_TO_BIT, ORDER_MIN_BLOCK_SIZE. rewrite Eb. unfold p.
  replace (base r + k * 0x4000 - base r) with (k * 0x4000) by lia. rewrite u64_id by lia. by apply Z.div_mul. }
unfold ORDER_GET_IDX_FROM_BIT. rewrite Z.div_small, u8_id by lia.
rewrite (freeBit_fault r' n (k + 1) (Z.ones (k + 1)) ws k Hl H0 Hk); [done|].
apply Z.ones_spec_high. lia.
Qed.
End free.

(** ** Witnesses on the region of 128 blocks *)

Lemma region128_light : light 0 region128.
Proof.
  split; [apply region128_wf| |done| |done|done].
  - split; [done| |by eexists]. intros o Ho. change (ordern region128) with 8 in Ho.
    assert (o = 1 ∨ o = 2 ∨ o = 3 ∨ o = 4 ∨ o = 5 ∨ o = 6 ∨ o = 7) as Hc by lia.
    repeat destruct Hc as [->|Hc]; [..|subst o]; eexists _, _, _; split_and!; try done;
      intros j _; apply Z.bits_0.
  - exists 128, [0]. split; [by vm_compute|done].
Qed.

Definition pmm128_one : pmm := Eval vm_compute in
  match allocPhys 0x4000 0 0 pmm128 with Ok _ s => s | Fault _ => pmm0 end.

Lemma pmm128_region i r : nthZ (region pmm128) i = Some r → i = 0 ∧ r = region128.
Proof.
  intros Hi. pose proof (nthZ_Some _ _ _ Hi) as Hr. change (Z.of_nat (length (region pmm128))) with 1 in Hr.
  assert (i = 0) as -> by lia. split; [done|]. by injection Hi as <-.
Qed.

Lemma alloc_then_free_faults_witness : freePhys 0x100000 pmm128_one = Fault OutOfBounds.
Proof.
  apply (alloc_then_free_faults 0x4000 0 0 pmm128 0x100000 0x4000 pmm128_one).
  - intros i r Hi. exists 0. destruct (pmm128_region i r Hi) as [_ ->]. apply region128_light.
  - intros i j ri rj Hi Hj Hne. destruct (pmm128_region i ri Hi) as [-> _], (pmm128_region j rj Hj) as [-> _].
    done.
  - done.
  - by vm_compute.
Defined.

(** The region after its first block was given back: order 7 stays full. *)
Definition region128_freed : memRegion := Eval vm_compute in
  match freeBit 0 0 0 region128_used with Ok _ r => r | Fault _ => memRegion0 end.

Lemma free_keeps_used_witness : allocRegion 7 region128_freed = Ok MEMORY_ALLOCATION_FAILED region128_freed.
Proof.
  apply (free_keeps_used region128_used region128_freed 7 (MemOrder 1 2 (Some [1]))); [done|done|].
  apply rtc_once. exists 0, 0, 0. by vm_compute.
Defined.
