(* ===== verification/Dstack.v ===== *)
(** * dstack.c: the data stack

    A [dstack] is 32 bytes on the kernel heap ([base] at 0, [top] at 8, [maxSize]
    at 16, [lock] at 24) and a separately allocated array of 64-bit items.  The
    theorems are proved against the allocator interface of [Heap]. *)

From S2P Require Import Prelude Kmonad Mem Heap.

Section dstack.
Context `{HeapOps}.

Definition DSTACK_BYTES_IN_USE (stack : Z) : M machine Z :=
top ← ld 8 (stack + 8); base ← ld 8 stack; mret (u64 (top - base)).

Definition shrinkStack (stack sz : Z) : M machine unit :=
_ ← get_lock_at (stack + 24);
inUse ← DSTACK_BYTES_IN_USE stack;
maxSize ← ld 8 (stack + 16);
let shrinkSize := u64 (maxSize - (if inUse >? sz then inUse else sz)) in
base ← ld 8 stack;
nptr ← krealloc base shrinkSize;
if nptr =? 0 then free_lock_at (stack + 24)
else
  _ ← st 8 stack nptr;
  _ ← st 8 (stack + 8) (nptr + inUse);
  _ ← st 8 (stack + 16) shrinkSize;
  free_lock_at (stack + 24).

Definition growStack (stack sz : Z) : M machine unit :=
_ ← get_lock_at (stack + 24);
inUse ← DSTACK_BYTES_IN_USE stack;
base ← ld 8 stack;
maxSize ← ld 8 (stack + 16);
nptr ← krealloc base (u64 (maxSize + sz));
if nptr =? 0 then free_lock_at (stack + 24)
else
  _ ← st 8 stack nptr;
  _ ← st 8 (stack + 8) (nptr + inUse);
  maxSize' ← ld 8 (stack + 16);
  _ ← st 8 (stack + 16) (maxSize' + sz);
  free_lock_at (stack + 24).

(** [popStack]: the item and the value of [*fetched]. *)
Definition popStack (stack : Z) : M machine (Z * bool) :=
_ ← get_lock_at (stack + 24);
base ← ld 8 stack;
top ← ld 8 (stack + 8);
if base =? top then _ ← free_lock_at (stack + 24); mret (0, false)
else
  item ← ld 8 (top - 8);
  _ ← st 8 (stack + 8) (top - 8);
  _ ← free_lock_at (stack + 24);
  mret (item, true).

Definition pushStack (stack data : Z) : M machine unit :=
_ ← get_lock_at (stack + 24);
inUse ← DSTACK_BYTES_IN_USE stack;
maxSize ← ld 8 (stack + 16);
_ ← (if u64 (inUse + 8) >? maxSize then
       _ ← growStack stack 80;
       maxSize' ← ld 8 (stack + 16);
       st 8 (stack + 16) (maxSize' + 80)
     else mret tt);
top ← ld 8 (stack + 8);
_ ← st 8 top data;
_ ← st 8 (stack + 8) (top + 8);
free_lock_at (stack + 24).

Definition createDstack (initialSize : Z) : M machine Z :=
stack ← kmalloc 32;
if stack =? 0 then mret 0
else
  b ← kmalloc initialSize;
  _ ← st 8 stack b;
  base ← ld 8 stack;
  if base =? 0 then _ ← kfree stack; mret 0
  else
    _ ← st 8 (stack + 8) base;
    _ ← st 8 (stack + 16) initialSize;
    _ ← free_lock_at (stack + 24);
    mret stack.

Definition stackCount (stack : Z) : M machine Z :=
_ ← get_lock_at (stack + 24);
inUse ← DSTACK_BYTES_IN_USE stack;
_ ← free_lock_at (stack + 24);
mret (if inUse =? 0 then 0 else inUse / 8).

Definition destroyDstack (stack : Z) : M machine unit :=
_ ← get_lock_at (stack + 24);
base ← ld 8 stack;
_ ← kfree base;
kfree stack.

(** ** Representation *)

(** The stack at [stk] with its items, bottom first, in an array of [cap] bytes. *)
Record dstack_rep (m : gmap Z Z) (stk b cap : Z) (items : list Z) : Prop := {
ds_base : load 8 m stk = b;
ds_top : load 8 m (stk + 8) = b + 8 * Z.of_nat (length items);
ds_max : load 8 m (stk + 16) = cap;
ds_lock : load 1 m (stk + 24) = 0;
ds_items : ∀ i x, items !! i = Some x → load 8 m (b + 8 * Z.of_nat i) = x;
ds_fits : 8 * Z.of_nat (length items) <= cap;
ds_apart : stk + 32 <= b ∨ b + cap <= stk;
ds_range : 0 < stk ∧ 0 < b ∧ b + cap < 2 ^ 63
}.

(** The addresses the operations write. *)
Definition dstack_area (stk b cap a : Z) : Prop := stk <= a < stk + 32 ∨ b <= a < b + cap.

Lemma pushStack_rep s stk b cap items x :
dstack_rep (memory s) stk b cap items → 8 * Z.of_nat (length items) + 8 <= cap →
0 <= x < 2 ^ 64 →
wp (pushStack stk x) (λ _ s', ∃ m', s' = set_memory m' s ∧
  dstack_rep m' stk b cap (items ++ [x]) ∧
  same_on (λ a, ¬ dstack_area stk b cap a) (memory s) m') s.
Proof.
intros [Hb Ht Hm Hl Hi Hf Ha Hr] Hroom Hx. unfold pushStack, DSTACK_BYTES_IN_USE.
wp_step. apply wp_get_lock_at; [done|]. wp_steps. cbn [memory set_memory]. mem.
rewrite Ht, Hb, Hm. rewrite (u64_id (b + _ - b)) by lia. rewrite u64_id by lia.
rewrite Z.gtb_ltb, ltb_false by lia. wp_steps. cbn [memory set_memory]. mem. rewrite Ht.
eexists. split; [reflexivity|]. split.
- split; try done.
  + mem. by rewrite Hb.
  + mem. rewrite length_app. cbn [length]. wrap. lia.
  + mem. done.
  + by mem.
  + intros i y Hy. apply lookup_app_Some in Hy as [Hy|[Hge Hy]].
    * pose proof (lookup_lt_Some _ _ _ Hy). mem. by apply Hi.
    * apply list_lookup_singleton_Some in Hy as [E ->].
      replace i with (length items) by lia. mem. by wrap.
  + rewrite length_app. cbn [length]. lia.
- intros a Hna. unfold dstack_area in Hna. by rewrite !mbyte_store_ne by lia.
Qed.

Lemma popStack_rep s stk b cap items x :
dstack_rep (memory s) stk b cap (items ++ [x]) →
wp (popStack stk) (λ r s', r = (x, true) ∧ ∃ m', s' = set_memory m' s ∧
  dstack_rep m' stk b cap items ∧
  same_on (λ a, ¬ dstack_area stk b cap a) (memory s) m') s.
Proof.
intros [Hb Ht Hm Hl Hi Hf Ha Hr]. rewrite length_app in *. cbn [length] in *.
unfold popStack. wp_step. apply wp_get_lock_at; [done|]. wp_steps. cbn [memory set_memory].
mem. rewrite Ht, Hb, eqb_false by lia. wp_steps. cbn [memory set_memory].
assert (load 8 (memory s) (b + 8 * Z.of_nat (length items + 1) - 8) = x) as Ex.
{ specialize (Hi (length items) x). rewrite lookup_app_r, Nat.sub_diag in Hi by lia.
  rewrite <- Hi by done. f_equal. lia. }
mem. split; [by rewrite Ex|]. eexists. split; [reflexivity|]. split.
- split; try done.
  + by mem.
  + mem. wrap. lia.
  + by mem.
  + by mem.
  + intros i y Hy. pose proof (lookup_lt_Some _ _ _ Hy). mem. apply Hi.
    by rewrite lookup_app_l by done.
  + lia.
- intros a Hna. unfold dstack_area in Hna. by rewrite !mbyte_store_ne by lia.
Qed.

(** ** Properties *)

Context `{!HeapLaws}.

(** The stack's blocks are live allocations. *)
Definition dstack_owned (L : gmap Z Z) (stk b cap : Z) : Prop :=
L !! stk = Some 32 ∧ L !! b = Some cap.

Lemma dstack_area_owned L stk b cap a :
dstack_owned L stk b cap → dstack_area stk b cap a → owned L a.
Proof.
intros [H1 H2] [Ha|Ha]; [exists stk, 32|exists b, cap]; done.
Qed.

Lemma dstack_heap_frame s m' L stk b cap :
heap_inv s L → dstack_owned L stk b cap →
same_on (λ a, ¬ dstack_area stk b cap a) (memory s) m' → heap_inv (set_memory m' s) L.
Proof.
intros HI Ho Hs. apply (heap_frame s (set_memory m' s) L HI); [done|].
intros a [_ Ha]. apply Hs. intros Hd. apply Ha. by eapply dstack_area_owned.
Qed.

(** C14: while there is room, [pushStack] and [popStack] are push and pop of a
  list: pushing [x] and then popping returns [x] with [fetched] set, leaves
  the items as they were, and the kernel heap stays well formed. *)
Theorem push_pop_lifo s L stk b cap items x :
heap_inv s L → dstack_owned L stk b cap →
dstack_rep (memory s) stk b cap items → 8 * Z.of_nat (length items) + 8 <= cap →
0 <= x < 2 ^ 64 →
wp (pushStack stk x) (λ _ s1, dstack_rep (memory s1) stk b cap (items ++ [x]) ∧ heap_inv s1 L ∧
  wp (popStack stk) (λ r s2, r = (x, true) ∧
    dstack_rep (memory s2) stk b cap items ∧ heap_inv s2 L) s1) s.
Proof.
intros HI Ho Hr Hroom Hx. eapply wp_mono; [by apply pushStack_rep|].
intros [] s1 (m1 & -> & Hr1 & Hs1).
assert (heap_inv (set_memory m1 s) L) as HI1 by by eapply dstack_heap_frame.
split; [done|]. split; [done|]. eapply wp_mono; [by apply popStack_rep|].
intros r s2 (-> & m2 & -> & Hr2 & Hs2). split; [done|]. split; [done|].
by eapply (dstack_heap_frame (set_memory m1 s)).
Qed.

(** [pushStack] on a full stack never returns: it calls [growStack], which
  takes the lock [pushStack] holds. *)
Theorem pushStack_full_deadlocks s stk b cap items x :
dstack_rep (memory s) stk b cap items → cap < 8 * Z.of_nat (length items) + 8 →
pushStack stk x s = Fault Spin.
Proof.
intros [Hb Ht Hm Hl Hi Hf Ha Hr] Hfull. unfold pushStack, get_lock_at at 1.
run. rewrite Hl. change (Z.testbit 0 0) with false. run.
cbn [memory set_memory]. unfold DSTACK_BYTES_IN_USE. run. mem. rewrite Ht, Hb, Hm.
rewrite (u64_id (b + _ - b)) by lia. rewrite u64_id by lia. rewrite Z.gtb_ltb, ltb_true by lia.
unfold growStack, get_lock_at. run. cbn [memory set_memory]. mem. done.
Qed.

(** [createDstack] returns an empty stack of the requested capacity whose two
  blocks are live, or runs out of heap. *)
Theorem createDstack_empty s L size :
heap_inv s L → heap_room s 32 → 0 < size < 2 ^ 62 →
(∀ p s', kmalloc 32 s = Ok p s' → heap_room s' size) →
wp (createDstack size) (λ stk s', ∃ b, dstack_rep (memory s') stk b size [] ∧
  heap_inv s' (<[b := size]> (<[stk := 32]> L)) ∧ L !! stk = None ∧ L !! b = None) s.
Proof.
intros HI Hroom Hsz Hroom2. unfold createDstack. wp_step.
pose proof (kmalloc_spec s L 32 HI Hroom ltac:(lia)) as W1.
apply wp_ok in W1 as (stk & s1 & E1 & HN1 & HI1 & _ & _ & _). eapply wp_eq; [exact E1|].
specialize (Hroom2 _ _ E1).
assert ((<[stk:=32]> L) !! stk = Some 32) as Hl1 by apply lookup_insert_eq.
destruct (heap_live s1 _ stk 32 HI1 Hl1) as (Hp1 & _ & Hlt1 & _).
rewrite eqb_false by lia. wp_step.
pose proof (kmalloc_spec s1 _ size HI1 Hroom2 ltac:(lia)) as W2.
apply wp_ok in W2 as (b & s2 & E2 & HN2 & HI2 & _ & _ & _). eapply wp_eq; [exact E2|].
assert (b ≠ stk) as Hne by (intros ->; congruence).
assert ((<[b:=size]> (<[stk:=32]> L)) !! b = Some size) as Hl2 by apply lookup_insert_eq.
assert ((<[b:=size]> (<[stk:=32]> L)) !! stk = Some 32) as Hl3 by by rewrite lookup_insert_ne.
destruct (heap_live s2 _ b size HI2 Hl2) as (Hp2 & _ & Hlt2 & _).
destruct (heap_disjoint s2 _ stk b 32 size HI2 Hl3 Hl2) as [Hd|Hd]; [done| |].
all: wp_steps; cbn [memory set_memory]; mem_wrap; rewrite eqb_false by lia; wp_steps;
  cbn [memory set_memory]; mem_wrap; exists b; split_and!.
all: try (split; rewrite ?Z.mul_0_r; mem_wrap; try done; try lia; cbn [length]; lia).
all: try (rewrite lookup_insert_ne in HN2 by done; done); try done.
all: eapply (heap_frame s2); [exact HI2|done|]; intros a [_ Hna]; cbn [memory set_memory];
  rewrite !mbyte_store_ne; [done|..]; apply Decidable.not_not; try (unfold Decidable.decidable; lia);
  intros Hc; apply Hna; exists stk, 32; (split; [done|lia]).
Qed.
End dstack.
