(* ===== verification/Hashtable.v ===== *)
(** * hashtable.c: the chained hash table

    A table is 16 bytes ([buckets] at 0, [bucketCount] at 8), a bucket 40 bytes
    ([hash] at 0, [hashLen] at 8, [flags] at 16, [data] at 24, [chain] at 32), all
    on the kernel heap behind the interface of [Heap].  Chains take fuel. *)

From S2P Require Import Prelude Kmonad Mem Libc Heap.

Record hashbucket := Hashbucket {
  hb_hash : Z; hb_hashLen : Z; hb_flags : Z; hb_data : Z; hb_chain : Z
}.
Definition read_bucket (m : gmap Z Z) (a : Z) : hashbucket :=
  Hashbucket (load 8 m a) (load 8 m (a + 8)) (load 1 m (a + 16)) (load 8 m (a + 24))
             (load 8 m (a + 32)).

Definition HASHTABLE_FLAG_COPY : Z := 1.
Definition has_copy (flags : Z) : bool := negb (Z.land flags HASHTABLE_FLAG_COPY =? 0).

(** [hashData]: the step is djb2's, the start is 0 where djb2 has 5381. *)
Fixpoint hash_loop (k : nat) (h n : Z) : M machine Z :=
  match k with
  | O => mret n
  | S k' => c ← ld 1 h; hash_loop k' (h + 1) (u64 (u64 (Z.shiftl n 5) + n + c))
  end.
Definition hashData (hash bytes buckets : Z) : M machine Z :=
  n ← hash_loop (Z.to_nat bytes) hash 0;
  if buckets =? 0 then fail DivideByZero else mret (n mod buckets).

(** [&table->buckets[i]] *)
Definition bucket_at (table i : Z) : M machine Z := b ← ld 8 table; mret (b + 40 * i).

Section hashtable.
Context `{HeapOps}.

Definition hashtableCreate (buckets : Z) : M machine Z :=
table ← kmalloc 16;
_ ← kassert (negb (table =? 0)) "NULL table";
b ← kmalloc (40 * buckets);
_ ← st 8 table b;
b' ← ld 8 table;
_ ← kassert (negb (b' =? 0)) "NULL keys";
_ ← st 2 (table + 8) buckets;
mret table.

Definition hashtableResize (newBuckets : Z) : M machine unit := mret tt.

Definition freeKey (fuel : nat) (bucket : Z) : M machine unit :=
flags ← ld 1 (bucket + 16);
_ ← (if has_copy flags then h ← ld 8 bucket; kfree h else mret tt);
chain ← ld 8 (bucket + 32);
if chain =? 0 then mret tt
else
  iter fuel (λ bucket,
    n ← ld 8 (bucket + 32);
    flags ← ld 1 (bucket + 16);
    _ ← (if has_copy flags then h ← ld 8 bucket; kfree h else mret tt);
    _ ← kfree bucket;
    mret (if n =? 0 then inr tt else inl n)) chain.

Definition hashtableDestroy (fuel : nat) (table : Z) : M machine unit :=
if table =? 0 then mret tt
else
  b ← ld 8 table;
  if b =? 0 then kfree table
  else
    count ← ld 2 (table + 8);
    _ ← for_range 0 count (λ i, a ← bucket_at table i; freeKey fuel a);
    b ← ld 8 table;
    _ ← kfree b;
    kfree table.

(** Writing the fields of a bucket. *)
Definition fill_bucket (bucket thsh data flags bytes : Z) : M machine unit :=
_ ← st 8 bucket thsh;
_ ← st 8 (bucket + 24) data;
_ ← st 8 (bucket + 32) 0;
_ ← st 1 (bucket + 16) flags;
st 8 (bucket + 8) bytes.

Definition hashtableInsert (fuel : nat) (table data hash bytes flags : Z) (dyn : bool)
  : M machine unit :=
count ← ld 2 (table + 8);
ent ← hashData hash bytes count;
count ← ld 2 (table + 8);
_ ← kassert (ent <? count) "Invalid hash";
thsh ← (if has_copy flags then t ← kmalloc bytes; _ ← memcpy t hash bytes; mret t
        else mret hash);
head ← bucket_at table ent;
h ← ld 8 head;
if h =? 0 then fill_bucket head thsh data flags bytes
else
  chain ← ld 8 (head + 32);
  bucket ← (if chain =? 0 then
      c ← kmalloc 40; _ ← st 8 (head + 32) c; ld 8 (head + 32)
    else
      r ← iter fuel (λ chainStart,
        c ← ld 8 (chainStart + 32);
        if c =? 0 then mret (inr (chainStart, false))
        else
          h ← ld 8 chainStart;
          mret (if h =? 0 then inr (chainStart, true) else inl c)) head;
      match r with
      | (chainStart, true) => mret chainStart
      | (chainStart, false) =>
          c ← kmalloc 40; _ ← st 8 (chainStart + 32) c; ld 8 (chainStart + 32)
      end);
  fill_bucket bucket thsh data flags bytes.

(** The comparison loop of [findKey]: [for(uint32_t i = 0; i < bytes; ++i)].  The
    index wraps, so that the loop does not end on equal keys of 4 GiB or more. *)
Definition same_round (a b bytes i : Z) : M machine (Z + bool) :=
if i <? bytes then
  x ← ld 1 (a + i);
  y ← ld 1 (b + i);
  mret (if negb (x =? y) then inr false else inl (u32 (i + 1)))
else mret (inr true).
Definition same_bytes (a b bytes : Z) : M machine bool :=
iter (S (Z.to_nat bytes)) (same_round a b bytes) 0.

(** [findKey]; the [prev] it reports is always NULL. *)
Definition findKey (fuel : nat) (table hash bytes : Z) : M machine Z :=
count ← ld 2 (table + 8);
ent ← hashData hash bytes count;
head ← bucket_at table ent;
h ← ld 8 head;
if h =? 0 then mret 0
else
  count ← ld 2 (table + 8);
  _ ← kassert (ent <? count) "Invalid hash";
  chain ← ld 8 (head + 32);
  if chain =? 0 then mret head
  else
    iter fuel (λ test,
      if test =? 0 then mret (inr 0)
      else
        len ← ld 8 (test + 8);
        eq ← (if negb (len =? bytes) then mret false
              else h ← ld 8 test; same_bytes hash h bytes);
        if (eq : bool) then mret (inr test)
        else c ← ld 8 (test + 32); mret (inl c)) chain.

Definition hashtableRemove (fuel : nat) (table hash bytes : Z) : M machine unit :=
key ← findKey fuel table hash bytes;
let prev := 0 in
if key =? 0 then mret tt
else
  flags ← ld 1 (key + 16);
  _ ← (if has_copy flags then h ← ld 8 key; kfree h else mret tt);
  _ ← st 8 key 0;
  _ ← st 8 (key + 24) 0;
  if negb (prev =? 0) then
    chain ← ld 8 (key + 32); _ ← st 8 (prev + 32) chain; kfree key
  else mret tt.

Definition hashtableFetch (fuel : nat) (table hash bytes data : Z) : M machine bool :=
key ← findKey fuel table hash bytes;
if key =? 0 then mret false
else d ← ld 8 (key + 24); _ ← st 8 data d; mret true.

Definition hashtableUpdate (fuel : nat) (table data hash bytes flags : Z) : M machine bool :=
key ← findKey fuel table hash bytes;
if key =? 0 then mret false
else
  kflags ← ld 1 (key + 16);
  _ ← (if has_copy kflags then
         if has_copy flags then
           h ← ld 8 key; p ← krealloc h bytes; st 8 key p
         else h ← ld 8 key; _ ← kfree h; st 8 key hash
       else if has_copy flags then
         p ← kmalloc bytes; _ ← st 8 key p; h ← ld 8 key; _ ← memcpy h hash bytes; mret tt
       else mret tt);
  _ ← st 8 (key + 8) bytes;
  _ ← st 8 (key + 24) data;
  _ ← st 1 (key + 16) flags;
  mret true.

(** ** The hash *)

(** The bytes of the key as the coefficients of a polynomial at 33, the last byte
    the constant. *)
Fixpoint polynomial (l : list Z) : Z :=
match l with [] => 0 | c :: l' => c * 33 ^ Z.of_nat (length l') + polynomial l' end.
Definition key_hash (l : list Z) : Z := polynomial l mod 2 ^ 64.

Lemma hash_loop_ok k h n s :
hash_loop k h (u64 n) s = Ok (u64 (n * 33 ^ Z.of_nat k + polynomial (bytes_at (memory s) h k))) s.
Proof.
revert h n. induction k as [|k IH]; intros h n.
{ cbn [hash_loop bytes_at polynomial]. change (33 ^ Z.of_nat 0) with 1. unfold mret, M_ret. do 2 f_equal. cbn. lia. }
cbn [hash_loop]. unfold mbind, M_bind, ld. rewrite load_1.
rewrite bytes_at_S. cbn [polynomial]. rewrite length_bytes_at.
replace (u64 (u64 (Z.shiftl (u64 n) 5) + u64 n + mbyte (memory s) h)) with (u64 (33 * n + mbyte (memory s) h)).
- rewrite IH. do 2 f_equal. rewrite Nat2Z.inj_succ, Z.pow_succ_r by lia. ring.
- rewrite Z.shiftl_mul_pow2 by lia. unfold u64. change (2 ^ 5) with 32. zlia.
Qed.

Lemma hashData_ok hash bytes buckets s :
0 < buckets →
hashData hash bytes buckets s =
  Ok (key_hash (bytes_at (memory s) hash (Z.to_nat bytes)) mod buckets) s ∧
0 <= key_hash (bytes_at (memory s) hash (Z.to_nat bytes)) mod buckets < buckets.
Proof.
intros Hb. split; [|by apply Z.mod_pos_bound]. unfold hashData.
rewrite (bind_ok _ _ _ _ _ (hash_loop_ok _ hash 0 s)).
by rewrite eqb_false by lia.
Qed.

(** C37: [hashData] evaluates the polynomial at 33 whose coefficients are the
  bytes of the key, the last one the constant, modulo 2^64, and reduces the value
  to the number of buckets, so that the bucket index is in range; zero bytes
  before a key do not change it. *)
Theorem hashData_polynomial hash bytes buckets s :
0 < buckets →
let key := bytes_at (memory s) hash (Z.to_nat bytes) in
hashData hash bytes buckets s = Ok (polynomial key mod 2 ^ 64 mod buckets) s ∧
0 <= polynomial key mod 2 ^ 64 mod buckets < buckets ∧
(∀ z hash' s', bytes_at (memory s') hash' (z + length key) = replicate z 0 ++ key →
   hashData hash' (Z.of_nat (z + length key)) buckets s' = Ok (polynomial key mod 2 ^ 64 mod buckets) s').
Proof.
intros Hb key. destruct (hashData_ok hash bytes buckets s Hb) as [E Hr]. split_and!; [exact E|apply Hr..|].
intros z hash' s' Hz. destruct (hashData_ok hash' (Z.of_nat (z + length key)) buckets s' Hb) as [-> _].
rewrite Nat2Z.id, Hz. do 2 f_equal. unfold key_hash. f_equal.
clear. induction z as [|z IH]; [done|]. cbn [replicate app polynomial]. rewrite IH. lia.
Qed.

(** ** Looking up *)

(** The bucket a key hashes to. *)
Definition home (m : gmap Z Z) (table hash bytes : Z) : Z :=
load 8 m table + 40 * (key_hash (bytes_at m hash (Z.to_nat bytes)) mod load 2 m (table + 8)).

Lemma findKey_head fuel table hash bytes s :
load 2 (memory s) (table + 8) ≠ 0 →
let head := home (memory s) table hash bytes in
findKey fuel table hash bytes s =
if load 8 (memory s) head =? 0 then Ok 0 s
else if load 8 (memory s) (head + 32) =? 0 then Ok head s
else iter fuel (λ test,
      if test =? 0 then mret (inr 0)
      else
        len ← ld 8 (test + 8);
        eq ← (if negb (len =? bytes) then mret false
              else h ← ld 8 test; same_bytes hash h bytes);
        if (eq : bool) then mret (inr test)
        else c ← ld 8 (test + 32); mret (inl c)) (load 8 (memory s) (head + 32)) s.
Proof.
intros Hc head. pose proof (load_2_range (memory s) (table + 8)) as Hr.
unfold findKey. mstep.
destruct (hashData_ok hash bytes (load 2 (memory s) (table + 8)) s ltac:(lia)) as [E Hb].
rewrite (bind_ok _ _ _ _ _ E). unfold bucket_at. do 2 mstep. fold (home (memory s) table hash bytes).
fold head. destruct (load 8 (memory s) head =? 0); [done|].
mstep. rewrite ltb_true by lia. do 2 mstep. by destruct (load 8 (memory s) (head + 32) =? 0).
Qed.

(** a bucket without a chain answers every key that hashes to it: the key is
  not compared, so [hashtableFetch] succeeds with the data of another key. *)
Theorem fetch_lone_bucket_ignores_key fuel table hash bytes data s :
let head := home (memory s) table hash bytes in
load 2 (memory s) (table + 8) ≠ 0 → head ≠ 0 →
load 8 (memory s) head ≠ 0 → load 8 (memory s) (head + 32) = 0 →
hashtableFetch fuel table hash bytes data s =
  Ok true (set_memory (store 8 (memory s) data (hb_data (read_bucket (memory s) head))) s).
Proof.
intros head Hc Hh Hn Hch. unfold hashtableFetch. unfold mbind, M_bind.
rewrite findKey_head by done. fold head. rewrite eqb_false by done. rewrite Hch. cbn [Z.eqb].
by rewrite eqb_false by done.
Qed.

(** The loop answers whether the keys are the same. *)
Lemma same_loop k a b bytes i s :
0 <= i → bytes = i + Z.of_nat k → bytes < 2 ^ 32 →
iter (S k) (same_round a b bytes) i s =
Ok (bool_decide (bytes_at (memory s) (a + i) k = bytes_at (memory s) (b + i) k)) s.
Proof.
revert i. induction k as [|k IH]; intros i Hi Hk Hb; cbn [iter].
- erewrite bind_ok; [|unfold same_round; by rewrite ltb_false by lia]. done.
- assert (same_round a b bytes i s = Ok (if mbyte (memory s) (a + i) =? mbyte (memory s) (b + i)
    then inl (u32 (i + 1)) else inr false) s) as E.
  { unfold same_round. rewrite ltb_true by lia. unfold mbind, M_bind, ld. rewrite !load_1.
    by destruct (_ =? _). }
  rewrite (bind_ok _ _ _ _ _ E). rewrite !bytes_at_S.
  destruct (Z.eqb_spec (mbyte (memory s) (a + i)) (mbyte (memory s) (b + i))) as [Eb|Eb].
  + rewrite u32_id by lia. cbn [iter] in IH. rewrite IH by lia. rewrite !Z.add_assoc. f_equal.
    apply bool_decide_ext. rewrite Eb. split; [congruence|by intros [= ->]].
  + unfold mret, M_ret. f_equal. symmetry. apply bool_decide_eq_false. by intros [= ? _].
Qed.

Lemma same_bytes_ok k a b s :
Z.of_nat k < 2 ^ 32 →
same_bytes a b (Z.of_nat k) s = Ok (bool_decide (bytes_at (memory s) a k = bytes_at (memory s) b k)) s.
Proof.
intros Hk. unfold same_bytes. rewrite Nat2Z.id, same_loop, !Z.add_0_r by lia. done.
Qed.

Lemma same_bytes_diff a b bytes s i :
0 <= bytes < 2 ^ 32 → 0 <= i < bytes → mbyte (memory s) (a + i) ≠ mbyte (memory s) (b + i) →
same_bytes a b bytes s = Ok false s.
Proof.
intros Hb Hi Hne. rewrite <- (Z2Nat.id bytes) by lia. rewrite same_bytes_ok by lia.
f_equal. apply bool_decide_eq_false. intros E. apply Hne.
pose proof (f_equal (λ l, l !! Z.to_nat i) E) as Ei. cbv beta in Ei.
rewrite !bytes_at_lookup in Ei by lia. rewrite !Z2Nat.id in Ei by lia. by injection Ei.
Qed.

(** once a second key was chained to a bucket, the key in the bucket itself is
  lost: a fetch looks only at the chain, so a key that differs from the chained
  one is not found even when it is the head's own key. *)
Theorem fetch_chained_bucket_skips_head fuel table hash bytes data s i :
let head := home (memory s) table hash bytes in
let c := load 8 (memory s) (head + 32) in
load 2 (memory s) (table + 8) ≠ 0 → load 8 (memory s) head ≠ 0 → c ≠ 0 →
load 8 (memory s) (c + 32) = 0 → 0 <= bytes < 2 ^ 32 → 0 <= i < bytes →
mbyte (memory s) (hash + i) ≠ mbyte (memory s) (load 8 (memory s) c + i) →
hashtableFetch (S (S fuel)) table hash bytes data s = Ok false s.
Proof.
intros head c Hc Hn Hch Hend Hb Hi Hne. unfold hashtableFetch.
assert (findKey (S (S fuel)) table hash bytes s = Ok 0 s) as E; [|by rewrite (bind_ok _ _ _ _ _ E)].
rewrite findKey_head by done. fold head. rewrite eqb_false by done. fold c.
rewrite eqb_false by done. cbn [iter]. rewrite eqb_false by done.
unfold mbind at 1, M_bind at 1. unfold mbind at 1, M_bind at 1, ld at 1.
unfold mbind at 1, M_bind at 1.
destruct (load 8 (memory s) (c + 8) =? bytes); cbn [negb].
- unfold mbind at 1, M_bind at 1, ld at 1. rewrite (same_bytes_diff _ _ _ _ i) by done.
  unfold mbind at 1, M_bind at 1, ld at 1. rewrite Hend. done.
- unfold mret at 1, M_ret at 1. unfold mbind at 1, M_bind at 1, ld at 1. rewrite Hend. done.
Qed.
End hashtable.
