(* ===== verification/HashtableProps.v ===== *)
(** * Chains of a hash table

    The chain of a bucket is described by its nodes: an address, the key and
    the data.  [hashtableFetch] is a lookup in that list that follows the code,
    its special treatment of the first node included, [hashtableInsert] appends
    a node, and a key that was just inserted is found with its data. *)

From S2P Require Import Prelude Kmonad Mem Libc Heap Hashtable.

(** ** The representation *)

(** A key and its data. *)
Notation entry := (list Z * Z)%type.

Definition first_node (ns : list (Z * entry)) (d : Z) : Z :=
  match ns with [] => d | (a, _) :: _ => a end.

(** The bucket at [a] holds [e] and is chained to [nxt]. *)
Record node_ok (m : gmap Z Z) (a : Z) (e : entry) (nxt : Z) : Prop := {
  node_addr : a ≠ 0;
  node_hash : load 8 m a ≠ 0;
  node_len : load 8 m (a + 8) = Z.of_nat (length e.1);
  node_key : bytes_at m (load 8 m a) (length e.1) = e.1;
  node_data : load 8 m (a + 24) = e.2;
  node_next : load 8 m (a + 32) = nxt
}.

Fixpoint chain_seg (m : gmap Z Z) (ns : list (Z * entry)) (nxt : Z) : Prop :=
  match ns with
  | [] => True
  | (a, e) :: ns' => node_ok m a e (first_node ns' nxt) ∧ chain_seg m ns' nxt
  end.

Definition bucket_rep (m : gmap Z Z) (head : Z) (ns : list (Z * entry)) : Prop :=
  match ns with
  | [] => load 8 m head = 0
  | (a, _) :: _ => a = head ∧ chain_seg m ns 0
  end.

(** What a fetch answers: a lone node whatever the key, otherwise the first node
    after the head that has the key. *)
Definition bucket_lookup (ns : list (Z * entry)) (key : list Z) : option Z :=
  match ns with
  | [] => None
  | [(_, e)] => Some e.2
  | _ :: r => snd ∘ snd <$> find (λ n : Z * entry, bool_decide (n.2.1 = key)) r
  end.

(** The bytes of a node and of its key. *)
Definition node_area (m : gmap Z Z) (n : Z * entry) (a : Z) : Prop :=
  n.1 <= a < n.1 + 40 ∨
  load 8 m n.1 <= a < load 8 m n.1 + Z.of_nat (length n.2.1).

Section chain.
Implicit Types (m : gmap Z Z) (ns : list (Z * entry)) (e : entry).

Lemma chain_seg_app m ns1 ns2 nxt :
  chain_seg m (ns1 ++ ns2) nxt ↔ chain_seg m ns1 (first_node ns2 nxt) ∧ chain_seg m ns2 nxt.
Proof.
  induction ns1 as [|[a e] ns1 IH]; simpl; [naive_solver|]. rewrite IH.
  replace (first_node (ns1 ++ ns2) nxt) with (first_node ns1 (first_node ns2 nxt)); [tauto|].
  by destruct ns1 as [|[??]].
Qed.

Lemma node_ok_ext m m' a e nxt :
  same_on (node_area m (a, e)) m m' → node_ok m a e nxt → node_ok m' a e nxt.
Proof.
  intros Hs [H1 H2 H3 H4 H5 H6]. unfold node_area in Hs. cbn [fst snd] in Hs.
  assert (∀ k, 0 <= k <= 32 → load 8 m' (a + k) = load 8 m (a + k)) as L.
  { intros k Hk. eapply same_on_load; [exact Hs|]. intros i Hi. left. lia. }
  pose proof (L 0 ltac:(lia)) as L0. rewrite Z.add_0_r in L0.
  split; rewrite ?L0, ?L by lia; try done.
  rewrite <- H4 at 2. apply bytes_at_ext. intros i Hi. apply Hs. by right.
Qed.

Lemma chain_seg_ext m m' ns nxt :
  same_on (λ a, ∃ n, n ∈ ns ∧ node_area m n a) m m' → chain_seg m ns nxt → chain_seg m' ns nxt.
Proof.
  induction ns as [|[a e] ns IH]; intros Hs; [done|]. intros [H1 H2]. split.
  - eapply node_ok_ext; [|exact H1]. intros i Hi. apply Hs. exists (a, e). split; [left|done].
  - apply IH; [|done]. intros i (n & Hn & Hi). apply Hs. exists n. split; [by right|done].
Qed.

Lemma chain_seg_in m ns nxt a e : chain_seg m ns nxt → (a, e) ∈ ns → ∃ nxt', node_ok m a e nxt'.
Proof.
  induction ns as [|[b f] ns IH]; [by intros _ ?%not_elem_of_nil|].
  intros [H1 H2] [[= -> ->]|Hi]%elem_of_cons; [by eexists|by apply IH].
Qed.

Lemma chain_first m ns nxt : chain_seg m ns nxt → ns ≠ [] → first_node ns nxt ≠ 0.
Proof. destruct ns as [|[a e] ns]; [done|]. by intros [[] _] _. Qed.

(** ** The comparison and the search *)

(** One round of the search of [findKey]. *)
Definition find_round (hash bytes test : Z) : M machine (Z + Z) :=
  if test =? 0 then mret (inr 0)
  else
    len ← ld 8 (test + 8);
    eq ← (if negb (len =? bytes) then mret false
          else h ← ld 8 test; same_bytes hash h bytes);
    if (eq : bool) then mret (inr test)
    else c ← ld 8 (test + 32); mret (inl c).

Lemma find_round_ok m hash n a e nxt s :
  memory s = m → Z.of_nat n < 2 ^ 32 → node_ok m a e nxt →
  find_round hash (Z.of_nat n) a s =
  Ok (if bool_decide (e.1 = bytes_at m hash n) then inr a else inl nxt) s.
Proof.
  intros Hm Hn [H1 H2 H3 H4 H5 H6]. subst m. unfold find_round. rewrite eqb_false by done.
  mstep. rewrite H3.
  destruct (Z.eqb_spec (Z.of_nat (length e.1)) (Z.of_nat n)) as [E|E]; cbn [negb].
  - apply Nat2Z.inj in E. subst n.
    assert ((h ← ld 8 a; same_bytes hash h (Z.of_nat (length e.1))) s =
      Ok (bool_decide (bytes_at (memory s) hash (length e.1) = e.1)) s) as ES.
    { mstep. by rewrite same_bytes_ok, H4 by done. }
    rewrite (bind_ok _ _ _ _ _ ES).
    destruct (decide (e.1 = bytes_at (memory s) hash (length e.1))) as [Ek|Ek].
    + by rewrite !bool_decide_eq_true_2 by done.
    + rewrite !bool_decide_eq_false_2 by done. unfold mbind, M_bind, ld. by rewrite H6.
  - rewrite bool_decide_eq_false_2.
    2:{ intros Ek. apply (f_equal length) in Ek. rewrite length_bytes_at in Ek. lia. }
    unfold mbind, M_bind, ld. cbn. by rewrite H6.
Qed.

Lemma find_chain hash n ns fuel s :
  Z.of_nat n < 2 ^ 32 → chain_seg (memory s) ns 0 → (length ns < fuel)%nat →
  iter fuel (find_round hash (Z.of_nat n)) (first_node ns 0) s =
  Ok (match find (λ x : Z * entry, bool_decide (x.2.1 = bytes_at (memory s) hash n)) ns with
      | Some x => x.1 | None => 0 end) s.
Proof.
  intros Hl. revert fuel. induction ns as [|[a e] ns IH]; intros [|fuel] Hc Hf; cbn [length] in Hf; try lia;
    [done|]. destruct Hc as [Hn Hc]. cbn [iter first_node find fst snd].
  rewrite (bind_ok _ _ _ _ _ (find_round_ok _ hash n a e _ s eq_refl Hl Hn)).
  destruct (bool_decide (e.1 = bytes_at (memory s) hash n)); [done|]. apply IH; [done|lia].
Qed.
End chain.

(** ** Fetching *)

Section fetch.
Context `{HeapOps}.

(** [findKey] on a represented bucket: the address of the node it finds. *)
Lemma findKey_rep fuel table hash n s ns :
  let head := home (memory s) table hash (Z.of_nat n) in
  Z.of_nat n < 2 ^ 32 → load 2 (memory s) (table + 8) ≠ 0 → bucket_rep (memory s) head ns → (length ns <= fuel)%nat →
  ∃ p, findKey fuel table hash (Z.of_nat n) s = Ok p s ∧
    match bucket_lookup ns (bytes_at (memory s) hash n) with
    | None => p = 0
    | Some d => p ≠ 0 ∧ load 8 (memory s) (p + 24) = d
    end.
Proof.
  intros head Hl Hc Hr Hf. rewrite findKey_head by done. fold head.
  destruct ns as [|[a e] ns]; [by rewrite Hr; exists 0|].
  destruct Hr as [-> [[H1 H2 H3 H4 H5 H6] Hn]]. rewrite eqb_false by done. rewrite H6.
  destruct ns as [|n1 ns]; [by exists head|].
  set (r := n1 :: ns) in *. pose proof (chain_first _ r 0 Hn ltac:(done)) as Hr0.
  rewrite eqb_false by done. change (bucket_lookup ((head, e) :: r) ?k)
    with (snd ∘ snd <$> find (λ x : Z * entry, bool_decide (x.2.1 = k)) r).
  eexists. split; [apply (find_chain hash n r fuel s Hl Hn); cbn [length] in *; lia|].
  destruct (find _ r) as [[b f]|] eqn:E; [|done].
  apply find_some in E as [Hi%list_elem_of_In _].
  apply (chain_seg_in _ _ _ _ _ Hn) in Hi as [nxt []]. done.
Qed.

(** [hashtableFetch] is the lookup of the list of nodes. *)
Lemma fetch_rep fuel table hash n data s ns :
  let head := home (memory s) table hash (Z.of_nat n) in
  Z.of_nat n < 2 ^ 32 → load 2 (memory s) (table + 8) ≠ 0 → bucket_rep (memory s) head ns → (length ns <= fuel)%nat →
  hashtableFetch fuel table hash (Z.of_nat n) data s =
  match bucket_lookup ns (bytes_at (memory s) hash n) with
  | None => Ok false s
  | Some d => Ok true (set_memory (store 8 (memory s) data d) s)
  end.
Proof.
  intros head Hl Hc Hr Hf. destruct (findKey_rep fuel table hash n s ns Hl Hc Hr Hf) as (p & E & Hp).
  unfold hashtableFetch. rewrite (bind_ok _ _ _ _ _ E).
  destruct (bucket_lookup ns _) as [d|]; [|by rewrite Hp].
  destruct Hp as [Hp1 Hp2]. rewrite eqb_false by done. unfold mbind, M_bind, ld. by rewrite Hp2.
Qed.
End fetch.

(** ** Inserting *)

Section insert.
Context `{HeapOps}.

Lemma fill_bucket_ok c hash d flags n key s :
  c ≠ 0 → 0 < hash < 2 ^ 64 → 0 <= d < 2 ^ 64 → Z.of_nat n < 2 ^ 64 →
  bytes_at (memory s) hash n = key →
  (∀ a, c <= a < c + 40 → ¬ (hash <= a < hash + Z.of_nat n)) →
  ∃ m', fill_bucket c hash d flags (Z.of_nat n) s = Ok tt (set_memory m' s) ∧
    node_ok m' c (key, d) 0 ∧ same_on (λ a, ¬ (c <= a < c + 40)) (memory s) m' ∧ load 8 m' c = hash.
Proof.
  intros Hc Hh Hd Hn Hk Ha.
  set (m' := store 8 (store 1 (store 8 (store 8 (store 8 (memory s) c hash) (c + 24) d)
               (c + 32) 0) (c + 16) flags) (c + 8) (Z.of_nat n)).
  assert (same_on (λ a, ¬ (c <= a < c + 40)) (memory s) m') as Hs.
  { intros a Hna. unfold m'. by rewrite !mbyte_store_ne by lia. }
  assert (length key = n) as Hl by by rewrite <- Hk, length_bytes_at.
  assert (load 8 m' c = hash) as L0 by (unfold m'; mem_wrap; done).
  exists m'. split; [done|]. split; [|done]. split; cbn [fst snd].
  - done.
  - lia.
  - rewrite Hl. unfold m'. mem_wrap. done.
  - rewrite L0, Hl, <- Hk. apply bytes_at_ext. intros i Hi. apply Hs.
    intros Hc'. by apply (Ha i).
  - unfold m'. mem_wrap. done.
  - unfold m'. mem_wrap. done.
Qed.

(** One round of the walk to the end of a chain. *)
Definition walk_round (chainStart : Z) : M machine (Z + Z * bool) :=
  c ← ld 8 (chainStart + 32);
  if c =? 0 then mret (inr (chainStart, false))
  else
    h ← ld 8 chainStart;
    mret (if h =? 0 then inr (chainStart, true) else inl c).

Lemma walk_round_ok s a e nxt :
  node_ok (memory s) a e nxt →
  walk_round a s = Ok (if nxt =? 0 then inr (a, false) else inl nxt) s.
Proof.
  intros [H1 H2 H3 H4 H5 H6]. unfold walk_round, mbind, M_bind, ld. rewrite H6.
  destruct (nxt =? 0); [done|]. by rewrite (eqb_false _ _ H2).
Qed.

Lemma walk_chain s ns l e fuel :
  chain_seg (memory s) (ns ++ [(l, e)]) 0 → (length ns < fuel)%nat →
  iter fuel walk_round (first_node (ns ++ [(l, e)]) 0) s = Ok (l, false) s.
Proof.
  revert fuel. induction ns as [|[a f] ns IH]; intros [|fuel] Hc Hf; cbn [length] in Hf; try lia;
    cbn [app first_node iter]; destruct Hc as [Hn Hc];
    rewrite (bind_ok _ _ _ _ _ (walk_round_ok s _ _ _ Hn)); [done|].
  rewrite eqb_false; [apply IH; [done|lia]|].
  apply (chain_first (memory s)); [done|by destruct ns].
Qed.

(** [hashtableInsert] without the copy flag, up to the choice of the bucket. *)
Lemma insert_enter fuel table d hash n flags dyn s ns :
  let head := home (memory s) table hash (Z.of_nat n) in
  load 2 (memory s) (table + 8) ≠ 0 → has_copy flags = false →
  bucket_rep (memory s) head ns → (length ns <= fuel)%nat →
  hashtableInsert fuel table d hash (Z.of_nat n) flags dyn s =
  match last ns with
  | None => fill_bucket head hash d flags (Z.of_nat n) s
  | Some (l, _) =>
      (bucket ← (c ← kmalloc 40; _ ← st 8 (l + 32) c; ld 8 (l + 32));
       fill_bucket bucket hash d flags (Z.of_nat n)) s
  end.
Proof.
  intros head Hc Hfl Hr Hf. pose proof (load_2_range (memory s) (table + 8)) as Hc2.
  unfold hashtableInsert. mstep.
  destruct (hashData_ok hash (Z.of_nat n) (load 2 (memory s) (table + 8)) s ltac:(lia)) as [E Hb].
  rewrite (bind_ok _ _ _ _ _ E). mstep. rewrite ltb_true by lia. mstep. rewrite Hfl. mstep.
  unfold bucket_at. mstep. fold (home (memory s) table hash (Z.of_nat n)). fold head. mstep.
  destruct ns as [|[a e] ns]; [by rewrite Hr|]. destruct Hr as [-> Hch].
  pose proof Hch as [[H1 H2 H3 H4 H5 H6] Hn]. rewrite eqb_false by done. mstep. rewrite H6.
  destruct ns as [|n1 ns _] using rev_ind; [done|].
  rewrite eqb_false by by apply (chain_first (memory s)); [|destruct ns].
  rewrite app_comm_cons, last_snoc. destruct n1 as [l f].
  pose proof (walk_chain s ((head, e) :: ns) l f fuel Hch) as W.
  rewrite length_cons, length_app in Hf. cbn [length] in *.
  specialize (W ltac:(lia)). cbn [app first_node] in W.
  unfold mbind at 1 2, M_bind at 1 2.
  change (iter fuel _ head s) with (iter fuel walk_round head s). by rewrite W.
Qed.

(** ** The round trip *)

Context `{!HeapLaws}.

(** What an insertion needs: a well-formed heap with room for a bucket, a
    represented bucket, and a table, a key and nodes that do not overlap and
    that the allocator leaves alone. *)
Record insertable (s : machine) (L : gmap Z Z) (table hash : Z) (n : nat)
  (ns : list (Z * entry)) : Prop := {
  ins_heap : heap_inv s L;
  ins_room : heap_room s 40;
  ins_count : load 2 (memory s) (table + 8) ≠ 0;
  ins_head : home (memory s) table hash (Z.of_nat n) ≠ 0;
  ins_rep : bucket_rep (memory s) (home (memory s) table hash (Z.of_nat n)) ns;
  ins_hash : 0 < hash ∧ hash + Z.of_nat n < 2 ^ 64;
  ins_stable a :
    table <= a < table + 16 ∨ hash <= a < hash + Z.of_nat n ∨
    (let h := home (memory s) table hash (Z.of_nat n) in h <= a < h + 40) ∨
    (∃ x, x ∈ ns ∧ node_area (memory s) x a) → owned L a ∨ ¬ arena a;
  ins_apart x a :
    x = home (memory s) table hash (Z.of_nat n) ∨ x ∈ ns.*1 → x <= a < x + 40 →
    ¬ (table <= a < table + 16) ∧ ¬ (hash <= a < hash + Z.of_nat n) ∧
    ∀ y, y ∈ ns → (y.1 ≠ x → ¬ node_area (memory s) y a) ∧
      ¬ (load 8 (memory s) y.1 <= a < load 8 (memory s) y.1 + Z.of_nat (length y.2.1));
  ins_nodup : NoDup ns.*1
}.

(** A fresh block lies apart from what the allocator leaves alone. *)
Lemma fresh_apart s L c z a :
  heap_inv s (<[c := z]> L) → L !! c = None → owned L a ∨ ¬ arena a → ¬ (c <= a < c + z).
Proof.
  intros HI HN Ha Hca.
  assert ((<[c := z]> L) !! c = Some z) as Hc by apply lookup_insert_eq.
  destruct Ha as [(p & w & Hp & Hpa)|Ha].
  - assert (c ≠ p) as Hne by (intros ->; congruence).
    assert ((<[c := z]> L) !! p = Some w) as Hp' by by rewrite lookup_insert_ne.
    destruct (heap_disjoint _ _ _ _ _ _ HI Hc Hp' Hne); lia.
  - apply Ha. destruct (heap_live _ _ _ _ HI Hc) as (_ & _ & _ & H1). by apply H1.
Qed.

Lemma home_ext m m' table hash n :
  same_on (λ a, table <= a < table + 16 ∨ hash <= a < hash + Z.of_nat n) m m' →
  home m' table hash (Z.of_nat n) = home m table hash (Z.of_nat n) ∧
  bytes_at m' hash n = bytes_at m hash n ∧ load 2 m' (table + 8) = load 2 m (table + 8).
Proof.
  intros Hs. unfold home. rewrite !Nat2Z.id.
  assert (bytes_at m' hash n = bytes_at m hash n) as ->.
  { apply bytes_at_ext. intros i Hi. apply Hs. by right. }
  rewrite !(same_on_load _ _ _ _ _ Hs) by (intros; left; lia). done.
Qed.

Lemma node_relink m m' a e nxt nxt' :
  node_ok m a e nxt →
  (∀ i, load 8 m a <= i < load 8 m a + Z.of_nat (length e.1) → ¬ (a + 32 <= i < a + 40)) →
  same_on (λ i, node_area m (a, e) i ∧ ¬ (a + 32 <= i < a + 40)) m m' →
  load 8 m' (a + 32) = nxt' → node_ok m' a e nxt'.
Proof.
  intros [H1 H2 H3 H4 H5 H6] Hk Hs Hx. unfold node_area in Hs. cbn [fst snd] in Hs.
  assert (∀ k, 0 <= k <= 24 → load 8 m' (a + k) = load 8 m (a + k)) as L0.
  { intros k Hr. eapply same_on_load; [exact Hs|]. intros i Hi. split; [left|]; lia. }
  pose proof (L0 0 ltac:(lia)) as L1. rewrite Z.add_0_r in L1.
  split; rewrite ?L1, ?L0 by lia; try done.
  rewrite <- H4 at 2. apply bytes_at_ext. intros i Hi. apply Hs. split; [by right|by apply Hk].
Qed.

(** Linking a node behind the last one. *)
Lemma chain_extend m m3 ns l e c f :
  chain_seg m (ns ++ [(l, e)]) 0 → node_ok m3 c f 0 → load 8 m3 (l + 32) = c →
  NoDup (ns ++ [(l, e)]).*1 →
  (∀ y a, y ∈ ns ++ [(l, e)] → l + 32 <= a < l + 40 → (y.1 ≠ l → ¬ node_area m y a) ∧
     ¬ (load 8 m y.1 <= a < load 8 m y.1 + Z.of_nat (length y.2.1))) →
  same_on (λ a, (∃ y, y ∈ ns ++ [(l, e)] ∧ node_area m y a) ∧ ¬ (l + 32 <= a < l + 40)) m m3 →
  chain_seg m3 ((ns ++ [(l, e)]) ++ [(c, f)]) 0.
Proof.
  intros Hc Hf Hl Hnd Hap Hs. apply chain_seg_app. split; [|by split].
  apply chain_seg_app in Hc as [Hns [Hl0 _]]. apply chain_seg_app. split; [|split; [|done]].
  - eapply chain_seg_ext; [|exact Hns]. intros a (y & Hy & Ha). apply Hs. split.
    + exists y. rewrite elem_of_app. tauto.
    + intros Hla. destruct (Hap y a ltac:(rewrite elem_of_app; tauto) Hla) as [H1 _].
      apply H1; [|done]. intros Ey. rewrite fmap_app in Hnd. apply NoDup_app in Hnd as (_ & Hd & _).
      apply (Hd y.1); [by apply list_elem_of_fmap_2|]. rewrite Ey. by left.
  - eapply node_relink; [exact Hl0| | |exact Hl].
    + intros i Hi Hin. destruct (Hap (l, e) i) as [_ H2]; [rewrite elem_of_app, elem_of_cons; tauto|done|].
      by apply H2.
    + intros a [Ha Hn]. apply Hs. split; [|done]. exists (l, e). rewrite elem_of_app, elem_of_cons. tauto.
Qed.

Lemma bucket_lookup_snoc ns x key d :
  Forall (λ y : Z * entry, y.2.1 ≠ key) (tail ns) →
  bucket_lookup (ns ++ [(x, (key, d))]) key = Some d.
Proof.
  destruct ns as [|[a e] ns]; [done|]. cbn [tail]. intros Hn.
  change (((a, e) :: ns) ++ [(x, (key, d))]) with ((a, e) :: (ns ++ [(x, (key, d))])).
  assert (find (λ n : Z * entry, bool_decide (n.2.1 = key)) (ns ++ [(x, (key, d))]) =
          Some (x, (key, d))) as E.
  { induction Hn as [|y ns Hy _ IH]; simpl; [by rewrite bool_decide_eq_true_2|].
    by rewrite bool_decide_eq_false_2. }
  unfold bucket_lookup. destruct (ns ++ [(x, (key, d))]) eqn:E2; [by destruct ns|].
  by rewrite E.
Qed.

(** The heap keeps its invariant under writes into [[p, p + k)] that the
    allocator allows. *)
Lemma heap_inv_write s m' L p k :
  heap_inv s L → (∀ a, p <= a < p + k → owned L a ∨ ¬ arena a) →
  same_on (λ a, ¬ (p <= a < p + k)) (memory s) m' → heap_inv (set_memory m' s) L.
Proof.
  intros HI Ho Hs. apply (heap_frame s (set_memory m' s) L HI); [done|].
  intros a [Ha Hn]. apply Hs. intros Hp. destruct (Ho a Hp); contradiction.
Qed.

Lemma owned_insert L c z a : L !! c = None → owned L a → owned (<[c := z]> L) a.
Proof.
  intros HN (p & w & Hp & Ha). exists p, w. split; [|done].
  rewrite lookup_insert_ne; [done|]. intros ->. congruence.
Qed.

Lemma bucket_rep_ne m head ns :
  ns ≠ [] → bucket_rep m head ns ↔ first_node ns 0 = head ∧ chain_seg m ns 0.
Proof. by destruct ns as [|[a e] ns]. Qed.

(** What [hashtableInsert] may write of the memory that existed: the bucket when it
    was unused, the link of the last node otherwise. *)
Definition insert_writes (head : Z) (ns : list (Z * entry)) (a : Z) : Prop :=
  match last ns with None => head <= a < head + 40 | Some (l, _) => l + 32 <= a < l + 40 end.

(** What [hashtableInsert] leaves: the node appended, in the bucket or in a new block,
    everything else as it was, and a well-formed heap. *)
Definition inserted (s : machine) (L : gmap Z Z) (table hash : Z) (n : nat) (ns : list (Z * entry)) (d : Z)
  (s' : machine) : Prop :=
  let head := home (memory s) table hash (Z.of_nat n) in
  ∃ x L', bucket_rep (memory s') head (ns ++ [(x, (bytes_at (memory s) hash n, d))]) ∧
    match ns with [] => x = head ∧ L' = L | _ => L !! x = None ∧ L' = <[x := 40]> L end ∧
    load 8 (memory s') x = hash ∧
    heap_inv s' L' ∧
    same_on (λ a, (owned L a ∨ ¬ arena a) ∧ ¬ insert_writes head ns a) (memory s) (memory s') ∧
    (∀ g, ¬ heap_global g → globals s' g = globals s g) ∧
    (∀ k, heap_room s (40 + heap_overhead + k) → heap_room s' k).

(** The table and the key are as they were. *)
Lemma inserted_same s L table hash n ns d s' :
  insertable s L table hash n ns → inserted s L table hash n ns d s' →
  same_on (λ a, table <= a < table + 16 ∨ hash <= a < hash + Z.of_nat n) (memory s) (memory s').
Proof.
  intros Hi (x & L' & _ & _ & _ & _ & Hs & _) a Ha. apply Hs. split; [apply (ins_stable _ _ _ _ _ _ Hi); tauto|].
  unfold insert_writes. destruct (last ns) as [[l e]|] eqn:El; intros Hw.
  - apply last_Some_elem_of in El. destruct (ins_apart _ _ _ _ _ _ Hi l a) as (? & ? & _); [right|lia|tauto].
    change l with (l, e).1. by apply list_elem_of_fmap_2.
  - destruct (ins_apart _ _ _ _ _ _ Hi _ a (or_introl eq_refl) Hw) as (? & ? & _). tauto.
Qed.

(** An unused bucket takes the key itself. *)
Lemma insert_empty fuel s L table hash n d flags dyn :
  insertable s L table hash n [] → has_copy flags = false → 0 <= d < 2 ^ 64 →
  wp (hashtableInsert fuel table d hash (Z.of_nat n) flags dyn)
    (λ _ s', inserted s L table hash n [] d s') s.
Proof.
  intros [HI _ Hc Hh Hr [Hn1 Hn2] Hst Hap _] Hfl Hd.
  set (head := home (memory s) table hash (Z.of_nat n)) in *.
  assert (∀ a, head <= a < head + 40 →
    ¬ (table <= a < table + 16) ∧ ¬ (hash <= a < hash + Z.of_nat n)) as Ha.
  { intros a Ha. destruct (Hap head a (or_introl eq_refl) Ha) as (? & ? & _). done. }
  destruct (fill_bucket_ok head hash d flags n _ s Hh ltac:(lia) Hd ltac:(lia) eq_refl) as (m' & E & Hn & Hs & Hk0).
  { intros a Hx. by apply Ha. }
  eapply wp_eq; [exact (eq_trans (insert_enter fuel table d hash n flags dyn s [] Hc Hfl Hr (le_0_n _)) E)|].
  exists head, L. split_and!; try done.
  - apply (heap_inv_write s m' L head 40 HI); [|exact Hs]. intros a Hx. apply Hst.
    right; right; left. exact Hx.
  - intros a [_ Hx]. by apply Hs.
  - intros k Hk. apply (heap_frame s (set_memory m' s) L HI).
    + done.
    + intros a [Ha1 Ha2]. apply Hs. intros Hx. destruct (Hst a) as [?|?]; [|done..]. right; right; left. exact Hx.
    + eapply heap_room_mono; [|exact Hk]. pose proof heap_overhead_pos. lia.
Qed.

(** The last node may be written; the link behind it is apart from the table and
    the key. *)
Lemma insertable_last s L table hash n ns l e :
  insertable s L table hash n (ns ++ [(l, e)]) →
  (∀ a, l <= a < l + 40 → owned L a ∨ ¬ arena a) ∧
  (∀ a, table <= a < table + 16 ∨ hash <= a < hash + Z.of_nat n →
     (owned L a ∨ ¬ arena a) ∧ ¬ (l + 32 <= a < l + 40)).
Proof.
  intros [_ _ _ _ _ _ Hst Hap _]. split; intros a Ha.
  - apply Hst. do 3 right. exists (l, e). rewrite elem_of_app, elem_of_cons. split; [tauto|by left].
  - split; [apply Hst; tauto|]. intros Hl.
    destruct (Hap l a) as (? & ? & _); [right; rewrite fmap_app, elem_of_app; right; by left|lia|tauto].
Qed.

(** The memory after a node at [c] was linked behind the last one and filled. *)
Lemma chain_inserted s s2 L table hash n ns l e d c m3 :
  insertable s L table hash n (ns ++ [(l, e)]) → L !! c = None → heap_inv s2 (<[c := 40]> L) →
  same_on (λ a, (owned L a ∨ ¬ arena a) ∧ ¬ (l + 32 <= a < l + 40)) (memory s) (memory s2) →
  (∀ g, ¬ heap_global g → globals s2 g = globals s g) →
  (∀ k, heap_room s (40 + heap_overhead + k) → heap_room s2 k) →
  load 8 (memory s2) (l + 32) = c →
  node_ok m3 c (bytes_at (memory s) hash n, d) 0 → load 8 m3 c = hash →
  same_on (λ a, ¬ (c <= a < c + 40)) (memory s2) m3 →
  inserted s L table hash n (ns ++ [(l, e)]) d (set_memory m3 s2).
Proof.
  intros Hins HN HI Hm2 Hg Hk L2 Hn3 Hh3 Hs3. destruct (insertable_last _ _ _ _ _ _ _ _ Hins) as [Hla Hkeep].
  destruct Hins as [_ _ _ _ Hr _ Hst Hap Hnd].
  assert (same_on (λ a, (owned L a ∨ ¬ arena a) ∧ ¬ (l + 32 <= a < l + 40)) (memory s) m3) as Hm3.
  { intros a Ha. rewrite Hs3; [by apply Hm2|]. apply (fresh_apart _ _ _ _ a HI HN), Ha. }
  assert (∀ a, c <= a < c + 40 → owned (<[c:=40]> L) a) as Hc.
  { intros a Ha. exists c, 40. split; [apply lookup_insert_eq|done]. }
  exists c, (<[c := 40]> L). split_and!; try done.
  - apply bucket_rep_ne in Hr as [Hr1 Hr2]; [|by destruct ns].
    apply bucket_rep_ne; [by destruct ns|]. split; [by destruct ns as [|[]]|].
    apply (chain_extend (memory s)); try done.
    + refine (eq_trans _ L2). eapply same_on_load; [exact Hs3|]. intros i Hi.
      apply (fresh_apart _ _ _ _ i HI HN). apply Hla. lia.
    + intros y a Hy Ha. destruct (Hap l a) as (_ & _ & Hy');
        [right; rewrite fmap_app, elem_of_app; right; by left|lia|]. by apply Hy'.
    + intros a [Ha Hna]. apply Hm3. split; [|done]. apply Hst. tauto.
  - by destruct ns.
  - apply (heap_inv_write s2 m3 _ c 40 HI); [|exact Hs3]. intros a Ha. left. by apply Hc.
  - intros a Ha. apply Hm3. unfold insert_writes in Ha. by rewrite last_snoc in Ha.
  - intros k Hr'. apply (heap_frame s2 (set_memory m3 s2) _ HI); [done| |by apply Hk].
    intros a [_ Ha]. apply Hs3. intros Hca. by apply Ha, Hc.
Qed.

(** A used bucket: the node is allocated and linked behind the last one. *)
Lemma insert_chain fuel s L table hash n ns l e d flags dyn :
  insertable s L table hash n (ns ++ [(l, e)]) → has_copy flags = false → 0 <= d < 2 ^ 64 →
  (length ns < fuel)%nat →
  wp (hashtableInsert fuel table d hash (Z.of_nat n) flags dyn)
    (λ _ s', inserted s L table hash n (ns ++ [(l, e)]) d s') s.
Proof.
  intros Hins Hfl Hd Hf. destruct (insertable_last _ _ _ _ _ _ _ _ Hins) as [Hla Hkeep].
  pose proof Hins as [HI Hroom Hc _ Hr [Hn1 Hn2] _ _ _].
  pose proof (insert_enter fuel table d hash n flags dyn s _ Hc Hfl Hr) as E.
  rewrite length_app, last_snoc in E. specialize (E ltac:(cbn [length]; lia)).
  eapply wp_ext; [exact E|]. wp_step. wp_step. eapply wp_mono; [by apply (kmalloc_spec s L 40)|].
  intros c s1 (HN & HI1 & Hm1 & Hg1 & _ & Hk1). wp_steps. cbn [memory set_memory].
  destruct (heap_live _ _ _ _ HI1 (lookup_insert_eq L c 40)) as (Hc0 & _ & Hc1 & _).
  set (m2 := store 8 (memory s1) (l + 32) c).
  assert (load 8 m2 (l + 32) = c) as L2 by (unfold m2; mem_wrap; done). rewrite L2.
  assert (same_on (λ a, (owned L a ∨ ¬ arena a) ∧ ¬ (l + 32 <= a < l + 40)) (memory s) m2) as Hm2.
  { intros a [Ha Hna]. unfold m2. rewrite mbyte_store_ne by lia. by apply Hm1. }
  destruct (home_ext (memory s) m2 table hash n) as (_ & Ek & _).
  { intros a Ha. by apply Hm2, Hkeep. }
  destruct (fill_bucket_ok c hash d flags n _ (set_memory m2 s1) ltac:(lia) ltac:(lia) Hd ltac:(lia) Ek)
    as (m3 & E3 & Hn3 & Hs3 & Hh3).
  { intros a Hca Hha. apply (fresh_apart _ _ _ _ a HI1 HN); [|done]. by apply Hkeep; right. }
  eapply wp_eq; [exact E3|].
  assert (same_on (λ a, ¬ (l + 32 <= a < l + 40)) (memory s1) m2) as Hm12.
  { intros a Ha. unfold m2. by rewrite mbyte_store_ne by blia. }
  assert (∀ a, l + 32 <= a < l + 40 → owned (<[c:=40]> L) a ∨ ¬ arena a) as Hlo.
  { intros a Ha. destruct (Hla a) as [Ho|Ho]; [lia| |by right]. left. by apply owned_insert. }
  apply (chain_inserted s (set_memory m2 s1) L table hash n ns l e d c m3); try done.
  - apply (heap_inv_write s1 m2 _ (l + 32) 8 HI1); intros a Ha; [apply Hlo|apply Hm12]; blia.
  - intros k Hk. apply (heap_frame s1 (set_memory m2 s1) _ HI1); [done| |by apply Hk1].
    intros a [Ha1 Ha2]. apply Hm12. intros Hx. destruct (Hlo a Hx); contradiction.
Qed.

(** a key that [hashtableInsert] has just stored (without the copy flag) is
  found by [hashtableFetch] with the data it was stored with, whether its
  bucket was unused or has a chain, unless the key already had a node behind
  the head; the bucket's nodes are the old ones followed by the new one, and the
  kernel heap stays well formed. *)
Theorem insert_fetch_roundtrip fuel s L table hash n ns d flags dyn out :
  insertable s L table hash n ns → has_copy flags = false → 0 <= d < 2 ^ 64 → Z.of_nat n < 2 ^ 32 →
  (length ns < fuel)%nat →
  Forall (λ y : Z * entry, y.2.1 ≠ bytes_at (memory s) hash n) (tail ns) →
  wp (hashtableInsert fuel table d hash (Z.of_nat n) flags dyn) (λ _ s1,
    inserted s L table hash n ns d s1 ∧
    hashtableFetch fuel table hash (Z.of_nat n) out s1 =
      Ok true (set_memory (store 8 (memory s1) out d) s1)) s.
Proof.
  intros Hi Hfl Hd Hl Hf Hnew. eapply wp_mono with (Q := λ _ s1, inserted s L table hash n ns d s1).
  - destruct ns as [|[l e] ns _] using rev_ind; [by eapply insert_empty|].
    rewrite length_app in Hf. cbn [length] in Hf. eapply insert_chain; [exact Hi|done..|lia].
  - intros [] s1 Hins. split; [exact Hins|]. pose proof (inserted_same _ _ _ _ _ _ _ _ Hi Hins) as Hk.
    destruct Hins as (x & L' & Hr & _).
    destruct (home_ext _ _ _ _ _ Hk) as (Eh & Ek & Ec). rewrite <- Eh in Hr.
    rewrite (fetch_rep fuel table hash n out s1 _ Hl ltac:(rewrite Ec; apply Hi) Hr).
    + by rewrite Ek, bucket_lookup_snoc.
    + rewrite length_app. cbn [length]. lia.
Qed.
End insert.
