(* ===== verification/HashtableRep.v ===== *)
(** * A hash table as the list of its entries

    The specification of hashtable.c as it is: the entries in the order they were
    inserted, and a lookup that answers within one bucket and, in a bucket with more
    than one entry, without its first one.  [table_rep] relates it to the table, its
    buckets and the chained nodes on the kernel heap; [hashtableInsert] appends an
    entry and [hashtableFetch] is the lookup. *)

From S2P Require Import Prelude Kmonad Mem Libc Heap Hashtable HashtableProps.

(** ** The specification *)

Definition bucket_index (count : Z) (key : list Z) : Z := key_hash key mod count.

Section spec.
Context {A : Type}.
Implicit Types (es : list (list Z * A)) (key : list Z).

(** The entries of bucket [i]. *)
Definition bucket_of (count i : Z) es : list (list Z * A) := filter (λ e, bucket_index count e.1 = i) es.

(** A lone entry answers every key, the first of several none. *)
Definition chain_lookup es key : option A :=
match es with
| [] => None
| [e] => Some e.2
| _ :: r => snd <$> find (λ e, bool_decide (e.1 = key)) r
end.

Definition table_lookup (count : Z) es key : option A :=
chain_lookup (bucket_of count (bucket_index count key) es) key.

Lemma bucket_of_app count i es es' : bucket_of count i (es ++ es') = bucket_of count i es ++ bucket_of count i es'.
Proof. apply filter_app. Qed.

Lemma bucket_of_snoc count i es e :
bucket_of count i (es ++ [e]) =
if decide (bucket_index count e.1 = i) then bucket_of count i es ++ [e] else bucket_of count i es.
Proof.
rewrite bucket_of_app. unfold bucket_of at 2. rewrite filter_cons. cbn. case_decide; by rewrite ?app_nil_r.
Qed.

Lemma bucket_of_length count i es : (length (bucket_of count i es) <= length es)%nat.
Proof. apply length_filter. Qed.

(** An entry that shares its bucket with no other is found under its key. *)
Lemma table_lookup_alone count es1 e es2 :
  Forall (λ e' : list Z * A, bucket_index count e'.1 ≠ bucket_index count e.1) (es1 ++ es2) →
  table_lookup count (es1 ++ e :: es2) e.1 = Some e.2.
Proof.
  intros [H1 H2]%Forall_app. unfold table_lookup, bucket_of.
  assert (∀ l : list (list Z * A), Forall (λ e' : list Z * A, bucket_index count e'.1 ≠ bucket_index count e.1) l →
    filter (λ e', bucket_index count e'.1 = bucket_index count e.1) l = []) as Hnil.
  { intros l Hl. induction Hl as [|x l Hx Hl IH]; [done|]. by rewrite filter_cons_False by done. }
  rewrite filter_app, filter_cons_True by done. by rewrite (Hnil es1), (Hnil es2).
Qed.
End spec.

Lemma find_fmap {A B} (f : A → B) (P : B → bool) (l : list A) :
  find P (f <$> l) = f <$> find (P ∘ f) l.
Proof. induction l as [|x l IH]; [done|]. cbn. by destruct (P (f x)). Qed.

Lemma filter_fmap {A B} (f : A → B) (P : B → Prop) `{∀ x, Decision (P x)} (l : list A) :
  filter P (f <$> l) = f <$> filter (λ x, P (f x)) l.
Proof. induction l as [|x l IH]; [done|]. rewrite fmap_cons, !filter_cons. case_decide; by rewrite ?fmap_cons, IH. Qed.

Lemma bucket_lookup_entries ns key : bucket_lookup ns key = chain_lookup (snd <$> ns) key.
Proof.
  destruct ns as [|[a e] [|[b e'] ns]]; [done..|]. unfold bucket_lookup, chain_lookup.
  rewrite 2!fmap_cons. cbn [snd]. change (e' :: (snd <$> ns)) with (snd <$> (b, e') :: ns).
  rewrite (find_fmap snd). apply option_fmap_compose.
Qed.

(** The lookup commutes with a change of the data. *)
Lemma table_lookup_fmap {A B} (g : A → B) count (es : list (list Z * A)) key :
  table_lookup count (prod_map id g <$> es) key = g <$> table_lookup count es key.
Proof.
  unfold table_lookup, bucket_of. rewrite filter_fmap. cbn [prod_map fst].
  change (λ x : list Z * A, bucket_index count (id x.1) = _) with (λ e : list Z * A, bucket_index count e.1 = bucket_index count key).
  destruct (filter _ es) as [|e [|e' r]]; [done..|]. unfold chain_lookup. rewrite 2!fmap_cons.
  rewrite <- fmap_cons, find_fmap, <- !option_fmap_compose. reflexivity.
Qed.

(** ** The representation *)

Section rep.
Context `{HeapLaws}.
(** Where the keys are: outside the heap. *)
Variable K : Z → Prop.
Hypothesis K_outside : ∀ a, K a → ¬ arena a.
Implicit Types (m L : gmap Z Z) (es : list entry) (f : Z → list (Z * entry)).

(** [f] gives the nodes of every bucket: the first is the bucket itself, at
  [B + 40 * i], the others are blocks of the heap. *)
Record table_rep m L (table B count : Z) f es : Prop := {
  tr_table : L !! table = Some 16;
  tr_buckets : L !! B = Some (40 * count);
  tr_count : 0 < count < 2 ^ 16;
  tr_base : load 8 m table = B;
  tr_counted : load 2 m (table + 8) = count;
  tr_chain i : 0 <= i < count → bucket_rep m (B + 40 * i) (f i);
  tr_entries i : 0 <= i < count → snd <$> f i = bucket_of count i es;
  tr_node i x : 0 <= i < count → x ∈ (tail (f i)).*1 → L !! x = Some 40 ∧ x ≠ B;
  tr_nodup i : 0 <= i < count → NoDup (tail (f i)).*1;
  tr_apart i j x : 0 <= i < count → 0 <= j < count → i ≠ j → x ∈ (tail (f i)).*1 → x ∉ (tail (f j)).*1;
  tr_keys i x a : 0 <= i < count → x ∈ f i →
    load 8 m x.1 <= a < load 8 m x.1 + Z.of_nat (length x.2.1) → K a
}.

(** The blocks of the heap a table consists of. *)
Definition table_block (table B count : Z) f (p : Z) : Prop :=
p = table ∨ p = B ∨ ∃ i, 0 <= i < count ∧ p ∈ (tail (f i)).*1.
(** The bytes of blocks that satisfy [P]. *)
Definition blocks_of L (P : Z → Prop) (a : Z) : Prop := ∃ p z, L !! p = Some z ∧ P p ∧ p <= a < p + z.

Lemma blocks_owned L P a : blocks_of L P a → owned L a.
Proof. intros (p & z & Hp & _ & Ha). by exists p, z. Qed.

Lemma owned_arena s L a : heap_inv s L → owned L a → arena a.
Proof. intros HI (p & z & Hp & Ha). by apply (heap_live _ _ _ _ HI Hp). Qed.

(** Two live blocks that are not the same have no byte in common. *)
Lemma live_disjoint s L p z q w a :
  heap_inv s L → L !! p = Some z → L !! q = Some w → p ≠ q → p <= a < p + z → ¬ (q <= a < q + w).
Proof. intros HI Hp Hq Hne Ha Hb. destruct (heap_disjoint _ _ _ _ _ _ HI Hp Hq Hne); lia. Qed.

Section facts.
Context {s : machine} {L table B count f es} (HI : heap_inv s L) (T : table_rep (memory s) L table B count f es).

(** The node of bucket [i] at [x]: the bucket or a block. *)
Lemma node_cases i x : 0 <= i < count → x ∈ (f i).*1 → x = B + 40 * i ∨ x ∈ (tail (f i)).*1.
Proof.
  intros Hi Hx. pose proof (tr_chain _ _ _ _ _ _ _ T i Hi) as Hc. destruct (f i) as [|[a e] ns].
  - by apply elem_of_nil in Hx.
  - destruct Hc as [-> _]. apply elem_of_cons in Hx as [->|Hx]; [by left|by right].
Qed.

(** The bytes of a bucket or node lie in its block. *)
Lemma node_bytes i x a : 0 <= i < count → x = B + 40 * i ∨ x ∈ (tail (f i)).*1 → x <= a < x + 40 →
  blocks_of L (λ p, p = (if decide (x = B + 40 * i) then B else x)) a.
Proof.
  intros Hi Hx Ha. case_decide as E.
  - exists B, (40 * count). split; [apply T|]. split; [done|]. lia.
  - destruct Hx as [|Hx]; [done|]. exists x, 40. split; [by apply (tr_node _ _ _ _ _ _ _ T i)|]. split; [done|lia].
Qed.

Lemma node_owned i x a : 0 <= i < count → x = B + 40 * i ∨ x ∈ (tail (f i)).*1 → x <= a < x + 40 → owned L a.
Proof. intros Hi Hx Ha. eapply blocks_owned, (node_bytes i x a Hi Hx Ha). Qed.

Lemma head_not_tail i j x : 0 <= i < count → 0 <= j < count → x ∈ (tail (f j)).*1 → x ≠ B + 40 * i.
Proof.
  intros Hi Hj Hx ->. destruct (tr_node _ _ _ _ _ _ _ T j _ Hj Hx) as [Hl Hne].
  apply (live_disjoint _ _ _ _ B (40 * count) (B + 40 * i) HI Hl (tr_buckets _ _ _ _ _ _ _ T) Hne); lia.
Qed.

(** Two different nodes of the table are apart. *)
Lemma nodes_apart i j x y a :
  0 <= i < count → 0 <= j < count → x = B + 40 * i ∨ x ∈ (tail (f i)).*1 → y = B + 40 * j ∨ y ∈ (tail (f j)).*1 →
  x ≠ y → x <= a < x + 40 → ¬ (y <= a < y + 40).
Proof.
  intros Hi Hj Hx Hy Hne Hxa Hya.
  destruct Hx as [->|Hx], Hy as [->|Hy].
  - lia.
  - destruct (tr_node _ _ _ _ _ _ _ T j _ Hj Hy) as [Hl HB].
    apply (live_disjoint _ _ _ _ _ _ a HI Hl (tr_buckets _ _ _ _ _ _ _ T) HB); lia.
  - destruct (tr_node _ _ _ _ _ _ _ T i _ Hi Hx) as [Hl HB].
    apply (live_disjoint _ _ _ _ _ _ a HI Hl (tr_buckets _ _ _ _ _ _ _ T) HB); lia.
  - destruct (tr_node _ _ _ _ _ _ _ T i _ Hi Hx) as [Hl _], (tr_node _ _ _ _ _ _ _ T j _ Hj Hy) as [Hl' _].
    by apply (live_disjoint _ _ _ _ _ _ a HI Hl Hl' Hne).
Qed.

Lemma nodes_distinct i j x y :
  0 <= i < count → 0 <= j < count → i ≠ j → x = B + 40 * i ∨ x ∈ (tail (f i)).*1 →
  y = B + 40 * j ∨ y ∈ (tail (f j)).*1 → x ≠ y.
Proof.
  intros Hi Hj Hne Hx Hy ->. destruct Hx as [->|Hx], Hy as [E|Hy].
  - lia.
  - by apply (head_not_tail i j (B + 40 * i) Hi Hj Hy).
  - subst y. by apply (head_not_tail j i (B + 40 * j) Hj Hi Hx).
  - by apply (tr_apart _ _ _ _ _ _ _ T i j y Hi Hj Hne Hx).
Qed.

Lemma table_not_buckets : table ≠ B.
Proof.
  intros E. pose proof (tr_table _ _ _ _ _ _ _ T) as H1. pose proof (tr_buckets _ _ _ _ _ _ _ T) as H2.
  rewrite E in H1. rewrite H1 in H2. injection H2. lia.
Qed.

(** A node is not in the 16 bytes of the table, and no node covers a key. *)
Lemma node_not_table i x a :
  0 <= i < count → x = B + 40 * i ∨ x ∈ (tail (f i)).*1 → x <= a < x + 40 → ¬ (table <= a < table + 16).
Proof.
  intros Hi Hx Hxa. pose proof (tr_table _ _ _ _ _ _ _ T) as Ht. destruct Hx as [->|Hx].
  - apply (live_disjoint _ _ _ _ _ _ a HI (tr_buckets _ _ _ _ _ _ _ T) Ht); [|lia].
    intros E. by apply table_not_buckets.
  - destruct (tr_node _ _ _ _ _ _ _ T i _ Hi Hx) as [Hl HB].
    apply (live_disjoint _ _ _ _ _ _ a HI Hl Ht); [|lia]. intros ->. rewrite Ht in Hl. discriminate.
Qed.

Lemma node_not_key i x a : 0 <= i < count → x = B + 40 * i ∨ x ∈ (tail (f i)).*1 → x <= a < x + 40 → ¬ K a.
Proof.
  intros Hi Hx Hxa HK. apply (K_outside a HK). eapply owned_arena; [exact HI|].
  by eapply node_owned.
Qed.
End facts.

(** ** Inserting *)

(** A key of [n] bytes at [hash]. *)
Definition key_at m (hash : Z) (n : nat) (key : list Z) : Prop :=
0 < hash ∧ hash + Z.of_nat n < 2 ^ 64 ∧ bytes_at m hash n = key ∧ ∀ a, hash <= a < hash + Z.of_nat n → K a.

Section insert.
Context {s : machine} {L table B count f es} (HI : heap_inv s L) (T : table_rep (memory s) L table B count f es).
Context {hash n key} (Hkey : key_at (memory s) hash n key).
Let i := bucket_index count key.

Lemma key_index_range : 0 <= i < count.
Proof. apply Z.mod_pos_bound, T. Qed.

Lemma key_home : home (memory s) table hash (Z.of_nat n) = B + 40 * i.
Proof.
  destruct Hkey as (_ & _ & Hk & _). unfold home. rewrite Nat2Z.id, Hk.
  by rewrite (tr_base _ _ _ _ _ _ _ T), (tr_counted _ _ _ _ _ _ _ T).
Qed.

Lemma head_first a e ns : f i = (a, e) :: ns → a = B + 40 * i.
Proof. intros E. pose proof (tr_chain _ _ _ _ _ _ _ T i key_index_range) as Hc. rewrite E in Hc. apply Hc. Qed.

Lemma table_nodup : NoDup (f i).*1.
Proof.
  pose proof (tr_nodup _ _ _ _ _ _ _ T i key_index_range) as Hd. destruct (f i) as [|[a e] ns] eqn:E; [constructor|].
  apply NoDup_cons. split; [|exact Hd]. rewrite (head_first a e ns E). intros Hin.
  apply (head_not_tail HI T i i (B + 40 * i) key_index_range key_index_range); [|done]. by rewrite E.
Qed.

Lemma table_insertable : heap_room s 40 → insertable s L table hash n (f i).
Proof.
  intros Hroom. pose proof Hkey as (Hh0 & Hh1 & Hk & HK). pose proof key_index_range as Hi.
  pose proof (heap_live _ _ _ _ HI (tr_buckets _ _ _ _ _ _ _ T)) as (HB0 & _ & _ & _).
  pose proof (tr_count _ _ _ _ _ _ _ T) as Hc.
  assert (∀ x, x ∈ (f i).*1 → x = B + 40 * i ∨ x ∈ (tail (f i)).*1) as Hcases by (intros; by eapply node_cases).
  split; rewrite ?key_home; try done.
  - rewrite (tr_counted _ _ _ _ _ _ _ T). lia.
  - lia.
  - by apply T.
  - cbv zeta. intros a [Ha|[Ha|[Ha|(y & Hy & [Ha|Ha])]]].
    + left. exists table, 16. split; [apply T|done].
    + right. by apply K_outside, HK.
    + left. by apply (node_owned T i (B + 40 * i)); [|left|].
    + left. apply (node_owned T i y.1); [done| |done]. apply Hcases. by apply list_elem_of_fmap_2.
    + right. apply K_outside. by apply (tr_keys _ _ _ _ _ _ _ T i y).
  - intros x a Hx Hxa. assert (x = B + 40 * i ∨ x ∈ (tail (f i)).*1) as Hx' by (destruct Hx; auto).
    split; [by eapply node_not_table|]. split; [intros Ha; by apply (node_not_key HI T i x a), HK|].
    intros y Hy. assert (¬ (load 8 (memory s) y.1 <= a < load 8 (memory s) y.1 + Z.of_nat (length y.2.1))) as Hyk.
    { intros Ha. apply (node_not_key HI T i x a Hi Hx' Hxa). by apply (tr_keys _ _ _ _ _ _ _ T i y). }
    split; [|done]. intros Hne [Ha|Ha]; [|done].
    apply (nodes_apart HI T i i y.1 x a Hi Hi); try done. apply Hcases. by apply list_elem_of_fmap_2.
  - apply table_nodup.
Qed.

(** What an insertion writes is a node of bucket [i]. *)
Lemma writes_node a : insert_writes (B + 40 * i) (f i) a →
  ∃ x, (x = B + 40 * i ∨ x ∈ (tail (f i)).*1) ∧ x <= a < x + 40 ∧ (f i = [] ∨ x + 32 <= a).
Proof.
  unfold insert_writes. destruct (last (f i)) as [[l e]|] eqn:El; intros Ha.
  - exists l. split; [|split; [|right]; lia]. eapply node_cases; [exact T|apply key_index_range|].
    change l with (l, e).1. apply list_elem_of_fmap_2. by apply last_Some_elem_of.
  - exists (B + 40 * i). split; [by left|]. split; [done|]. left. by apply last_None.
Qed.

(** The nodes with the new one. *)
Definition with_node (x : Z) (e : entry) (j : Z) : list (Z * entry) := if decide (j = i) then f i ++ [(x, e)] else f j.

Lemma tail_snoc {A} (l : list A) x : l ≠ [] → tail (l ++ [x]) = tail l ++ [x].
Proof. by destruct l. Qed.

(** Nothing of another bucket is written. *)
Lemma other_chain m' j :
  same_on (λ a, (owned L a ∨ ¬ arena a) ∧ ¬ insert_writes (B + 40 * i) (f i) a) (memory s) m' →
  0 <= j < count → j ≠ i → bucket_rep m' (B + 40 * j) (f j).
Proof.
  intros Hs Hj Hne. pose proof (tr_chain _ _ _ _ _ _ _ T j Hj) as Hc. pose proof key_index_range as Hi.
  assert (∀ x a, x = B + 40 * j ∨ x ∈ (tail (f j)).*1 → x <= a < x + 40 →
    (owned L a ∨ ¬ arena a) ∧ ¬ insert_writes (B + 40 * i) (f i) a) as Hnode.
  { intros x a Hx Ha. split; [left; by apply (node_owned T j x)|]. intros (y & Hy & Hya & _)%writes_node.
    apply (nodes_apart HI T j i x y a Hj Hi Hx Hy); [|done..]. by apply (nodes_distinct HI T j i). }
  destruct (f j) as [|[b e] ns] eqn:E.
  - cbn [bucket_rep] in *. rewrite <- Hc. apply (same_on_load _ _ _ _ _ Hs). intros a Ha.
    apply (Hnode (B + 40 * j)); [by left|lia].
  - rewrite <- E in *. assert (f j ≠ []) as Hn0 by (by rewrite E).
    apply bucket_rep_ne; [done|]. apply bucket_rep_ne in Hc as [Hc1 Hc2]; [|done]. split; [done|].
    eapply chain_seg_ext; [|exact Hc2]. intros a (y & Hy & [Ha|Ha]); apply Hs.
    + apply (Hnode y.1); [|done]. apply (node_cases T j); [done|]. by apply list_elem_of_fmap_2.
    + pose proof (tr_keys _ _ _ _ _ _ _ T j y a Hj Hy Ha) as HKa. split; [right; by apply K_outside|].
      intros (x & Hx & Hxa & _)%writes_node. by apply (node_not_key HI T i x a).
Qed.

(** The first word of a node is not written. *)
Lemma old_key m' j y :
  same_on (λ a, (owned L a ∨ ¬ arena a) ∧ ¬ insert_writes (B + 40 * i) (f i) a) (memory s) m' →
  0 <= j < count → y ∈ f j → load 8 m' y.1 = load 8 (memory s) y.1.
Proof.
  intros Hs Hj Hy. pose proof key_index_range as Hi.
  assert (y.1 = B + 40 * j ∨ y.1 ∈ (tail (f j)).*1) as Hy1
    by (apply (node_cases T j); [done|by apply list_elem_of_fmap_2]).
  apply (same_on_load _ _ _ _ _ Hs). intros a Ha.
  split; [left; apply (node_owned T j y.1); [done..|lia]|]. intros (x & Hx & Hxa & Hw)%writes_node.
  destruct (decide (x = y.1)) as [->|Hne].
  - destruct (decide (j = i)) as [->|Hji]; [|by apply (nodes_distinct HI T j i y.1 y.1)].
    destruct Hw as [E|Hw]; [|lia]. rewrite E in Hy. by apply elem_of_nil in Hy.
  - apply (nodes_apart HI T i j x y.1 a); [done..|lia].
Qed.

(** What the other blocks and the memory outside the heap keep. *)
Lemma insert_frame m' :
  same_on (λ a, (owned L a ∨ ¬ arena a) ∧ ¬ insert_writes (B + 40 * i) (f i) a) (memory s) m' →
  same_on (λ a, blocks_of L (λ p, ¬ table_block table B count f p) a ∨ ¬ arena a) (memory s) m'.
Proof.
  intros Hs a Ha. apply Hs. pose proof key_index_range as Hi. split.
  - destruct Ha as [Ha|Ha]; [left; by eapply blocks_owned|by right].
  - intros (x & Hx & Hxa & _)%writes_node. destruct Ha as [(p & z & Hp & Hn & Hpa)|Ha].
    + destruct (node_bytes T i x a Hi Hx Hxa) as (q & w & Hq & -> & Hqa).
      eapply (live_disjoint _ _ _ _ _ _ a HI Hp Hq); [|done..]. intros ->. apply Hn.
      case_decide; [right; by left|]. right; right. exists i. split; [done|]. by destruct Hx.
    + apply Ha. eapply owned_arena; [exact HI|]. by apply (node_owned T i x).
Qed.

Lemma tail_with_node x e j y :
  y ∈ (tail (with_node x e j)).*1 → y ∈ (tail (f j)).*1 ∨ (j = i ∧ y = x ∧ f i ≠ []).
Proof.
  unfold with_node. case_decide as E; [subst j|by left].
  destruct (decide (f i = [])) as [E0|Hne]; [rewrite E0; by intros Hy%elem_of_nil|].
  rewrite tail_snoc, fmap_app by done. intros [Hy|Hy%list_elem_of_singleton]%elem_of_app; [by left|by right].
Qed.

(** The blocks of the nodes with a new one. *)
Lemma with_node_blocks x e L' :
  L ⊆ L' → (f i ≠ [] → L !! x = None ∧ L' !! x = Some 40) →
  (∀ j y, 0 <= j < count → y ∈ (tail (with_node x e j)).*1 → L' !! y = Some 40 ∧ y ≠ B) ∧
  (∀ j, 0 <= j < count → NoDup (tail (with_node x e j)).*1) ∧
  (∀ j k y, 0 <= j < count → 0 <= k < count → j ≠ k →
    y ∈ (tail (with_node x e j)).*1 → y ∉ (tail (with_node x e k)).*1).
Proof.
  intros HL Hfresh.
  assert (∀ j y, 0 <= j < count → y ∈ (tail (f j)).*1 → f i ≠ [] → y ≠ x) as Hold.
  { intros j y Hj Hy Hne ->. destruct (Hfresh Hne) as [HN _].
    destruct (tr_node _ _ _ _ _ _ _ T j x Hj Hy) as [HS _]. congruence. }
  split_and!.
  - intros j y Hj [Hy|(_ & -> & Hne)]%tail_with_node.
    + destruct (tr_node _ _ _ _ _ _ _ T j y Hj Hy) as [Hl HB]. split; [by eapply lookup_weaken|done].
    + destruct (Hfresh Hne) as [HN HS]. split; [done|]. intros ->.
      pose proof (tr_buckets _ _ _ _ _ _ _ T). congruence.
  - intros j Hj. unfold with_node. case_decide as E; [|by apply T]. subst j.
    destruct (decide (f i = [])) as [E0|Hne]; [rewrite E0; constructor|].
    rewrite tail_snoc, fmap_app by done. apply NoDup_app. split; [by apply T|]. split; [|apply NoDup_singleton].
    intros y Hy ->%list_elem_of_singleton. by apply (Hold i x).
  - intros j k y Hj Hk' Hne [Hy|(Ej & Ey & Hn0)]%tail_with_node [Hy'|(Ek & Ey' & Hn0')]%tail_with_node.
    + by apply (tr_apart _ _ _ _ _ _ _ T j k y).
    + by apply (Hold j y).
    + by apply (Hold k y).
    + congruence.
Qed.

Lemma table_insert_rep s' d :
  heap_room s 40 → inserted s L table hash n (f i) d s' →
  ∃ L' f', L ⊆ L' ∧ heap_inv s' L' ∧ table_rep (memory s') L' table B count f' (es ++ [(key, d)]) ∧
    (∀ p, table_block table B count f' p → table_block table B count f p ∨ L !! p = None) ∧
    same_on (λ a, blocks_of L (λ p, ¬ table_block table B count f p) a ∨ ¬ arena a) (memory s) (memory s') ∧
    (∀ g, ¬ heap_global g → globals s' g = globals s g) ∧
    (∀ k, heap_room s (40 + heap_overhead + k) → heap_room s' k).
Proof.
  intros Hroom Hins. pose proof key_index_range as Hi. pose proof Hkey as (Hh0 & Hh1 & Hk & HK).
  pose proof (inserted_same _ _ _ _ _ _ _ _ (table_insertable Hroom) Hins) as Hts.
  destruct Hins as (x & L' & Hrep & Hx & Hxh & HI' & Hs & Hg & Hr). rewrite key_home in *. rewrite Hk in Hrep.
  assert (L ⊆ L') as HL by (destruct (f i); destruct Hx as [? ->]; [done|by apply insert_subseteq]).
  assert (f i ≠ [] → L !! x = None ∧ L' !! x = Some 40) as Hfresh.
  { intros Hne. destruct (f i); [done|]. destruct Hx as [Hx ->]. split; [done|apply lookup_insert_eq]. }
  destruct (with_node_blocks x (key, d) L' HL Hfresh) as (Hnode & Hnodup & Hapart).
  exists L', (with_node x (key, d)). split; [done|]. split; [done|]. split; [|split].
  2:{ intros p [->|[->|(j & Hj & [Hp|(_ & -> & Hne)]%tail_with_node)]];
        [left; by left|left; right; by left|left; right; right; by exists j|right; by apply Hfresh]. }
  2:{ split_and!; [by apply insert_frame|done|done]. }
  split.
  - by eapply lookup_weaken, HL; apply T.
  - by eapply lookup_weaken, HL; apply T.
  - apply T.
  - rewrite (same_on_load _ _ _ _ _ Hts); [apply T|]. intros a Ha. left. lia.
  - rewrite (same_on_load _ _ _ _ _ Hts); [apply T|]. intros a Ha. left. lia.
  - intros j Hj. unfold with_node. case_decide as E; [by rewrite E|]. by apply (other_chain (memory s') j).
  - intros j Hj. rewrite bucket_of_snoc. unfold with_node. cbn [fst].
    change (bucket_index count key) with i. destruct (decide (j = i)) as [->|Hne].
    + rewrite decide_True, fmap_app, (tr_entries _ _ _ _ _ _ _ T i Hj) by done. done.
    + rewrite decide_False by done. by apply T.
  - exact Hnode.
  - exact Hnodup.
  - exact Hapart.
  - intros j y a Hj Hy Ha. unfold with_node in Hy.
    assert (y ∈ f j ∨ y = (x, (key, d))) as [Hyo| ->].
    { case_decide as E; [subst j|by left]. apply elem_of_app in Hy as [Hy| ->%list_elem_of_singleton]; auto. }
    + pose proof (old_key (memory s') j y Hs Hj Hyo) as Ey. apply (tr_keys _ _ _ _ _ _ _ T j y); [done..|].
      exact (eq_ind _ (λ z, z <= a < z + Z.of_nat (length y.2.1)) Ha _ Ey).
    + cbn [fst snd] in Ha. rewrite Hxh in Ha. apply HK.
      rewrite <- Hk, length_bytes_at in Ha. exact Ha.
Qed.
End insert.

(** ** The operations *)

(** What a step of a client of the heap leaves: more blocks, none of them a block of
  the table [f] that was not one before, and everything else as it was. *)
Record table_grows s L table B count f s' L' f' : Prop := {
  tg_blocks : L ⊆ L';
  tg_heap : heap_inv s' L';
  tg_new p : table_block table B count f' p → table_block table B count f p ∨ L !! p = None;
  tg_same : same_on (λ a, blocks_of L (λ p, ¬ table_block table B count f p) a ∨ ¬ arena a)
              (memory s) (memory s');
  tg_globals g : ¬ heap_global g → globals s' g = globals s g
}.

(** [hashtableInsert] (without the copy flag) appends an entry. *)
Lemma table_insert fuel s L table B count f es hash n key d flags dyn :
heap_inv s L → table_rep (memory s) L table B count f es → key_at (memory s) hash n key →
heap_room s 40 → has_copy flags = false → 0 <= d < 2 ^ 64 → (length es < fuel)%nat →
wp (hashtableInsert fuel table d hash (Z.of_nat n) flags dyn) (λ _ s', ∃ L' f',
  table_rep (memory s') L' table B count f' (es ++ [(key, d)]) ∧
  table_grows s L table B count f s' L' f' ∧
  (∀ k, heap_room s (40 + heap_overhead + k) → heap_room s' k)) s.
Proof.
intros HI T Hkey Hroom Hfl Hd Hf. pose proof (table_insertable HI T Hkey Hroom) as Hins.
set (i := bucket_index count key) in *.
assert (length (f i) <= length es)%nat as Hlen.
{ rewrite <- (length_fmap snd), (tr_entries _ _ _ _ _ _ _ T i) by apply (key_index_range T).
  apply bucket_of_length. }
eapply wp_mono with (Q := λ _ s', inserted s L table hash n (f i) d s').
- destruct (f i) as [|[l e] ns _] using rev_ind; [by eapply insert_empty|].
  rewrite length_app in Hlen. cbn [length] in Hlen. eapply insert_chain; [exact Hins|done..|lia].
- intros [] s' Hs'. destruct (table_insert_rep HI T Hkey s' d Hroom Hs') as (L' & f' & ? & ? & ? & ? & ? & ? & ?).
  exists L', f'. split; [done|]. by split.
Qed.

(** [hashtableFetch] is the lookup, with the key anywhere in memory. *)
Lemma table_fetch fuel s L table B count f es hash n out :
table_rep (memory s) L table B count f es → Z.of_nat n < 2 ^ 32 → (length es <= fuel)%nat →
hashtableFetch fuel table hash (Z.of_nat n) out s =
match table_lookup count es (bytes_at (memory s) hash n) with
| None => Ok false s
| Some d => Ok true (set_memory (store 8 (memory s) out d) s)
end.
Proof.
intros T Hl Hf. set (key := bytes_at (memory s) hash n). set (i := bucket_index count key).
assert (0 <= i < count) as Hi by (apply Z.mod_pos_bound, T).
assert (home (memory s) table hash (Z.of_nat n) = B + 40 * i) as Eh.
{ unfold home. by rewrite Nat2Z.id, (tr_base _ _ _ _ _ _ _ T), (tr_counted _ _ _ _ _ _ _ T). }
pose proof (tr_entries _ _ _ _ _ _ _ T i Hi) as He.
rewrite (fetch_rep fuel table hash n out s (f i)).
- by rewrite bucket_lookup_entries, He.
- done.
- rewrite (tr_counted _ _ _ _ _ _ _ T). lia.
- rewrite Eh. by apply T.
- rewrite <- (length_fmap snd), He. etrans; [apply bucket_of_length|done].
Qed.

(** A table stays what it is when its blocks and the keys do. *)
Lemma table_rep_ext m m' L L' table B count f es :
table_rep m L table B count f es → L ⊆ L' →
same_on (λ a, blocks_of L (table_block table B count f) a ∨ K a) m m' →
table_rep m' L' table B count f es.
Proof.
intros T HL Hs. pose proof (tr_count _ _ _ _ _ _ _ T) as Hc.
assert (∀ o k, 0 <= o → o + Z.of_nat k <= 16 → load k m' (table + o) = load k m (table + o)) as Ht.
{ intros o k Ho Hk. apply (same_on_load _ _ _ _ _ Hs). intros a Ha. left. exists table, 16.
  split; [apply T|]. split; [by left|lia]. }
assert (∀ i x a, 0 <= i < count → x ∈ (f i).*1 ∨ x = B + 40 * i → x <= a < x + 40 → mbyte m' a = mbyte m a) as Hn.
{ intros i x a Hi Hx Ha. apply Hs. left.
  assert (x = B + 40 * i ∨ x ∈ (tail (f i)).*1) as Hx'
    by (destruct Hx; [by apply (node_cases (s := set_memory m machine0) T)|by left]).
  destruct (node_bytes (s := set_memory m machine0) T i x a Hi Hx' Ha) as (p & z & Hp & -> & Hpa).
  exists (if decide (x = B + 40 * i) then B else x), z. split; [done|]. split; [|done].
  case_decide; [right; by left|]. right; right. exists i. split; [done|]. by destruct Hx'. }
assert (∀ i y, 0 <= i < count → y ∈ f i → load 8 m' y.1 = load 8 m y.1) as Hk.
{ intros i y Hi Hy. apply load_ext. intros a Ha. apply (Hn i y.1); [done| |lia]. left. by apply list_elem_of_fmap_2. }
split; try apply T.
- eapply lookup_weaken, HL. apply T.
- eapply lookup_weaken, HL. apply T.
- pose proof (Ht 0 8%nat ltac:(lia) ltac:(lia)) as E. rewrite Z.add_0_r in E. rewrite E. apply T.
- rewrite Ht by lia. apply T.
- intros i Hi. pose proof (tr_chain _ _ _ _ _ _ _ T i Hi) as Hr. destruct (f i) as [|[b e] ns] eqn:E.
  + cbn [bucket_rep] in *. rewrite <- Hr. apply load_ext. intros a Ha.
    apply (Hn i (B + 40 * i)); [done|by right|lia].
  + rewrite <- E in *. assert (f i ≠ []) as Hne by (by rewrite E).
    apply bucket_rep_ne; [done|]. apply bucket_rep_ne in Hr as [Hr1 Hr2]; [|done]. split; [done|].
    eapply chain_seg_ext; [|exact Hr2]. intros a (y & Hy & [Ha|Ha]).
    * apply (Hn i y.1); [done| |done]. left. by apply list_elem_of_fmap_2.
    * apply Hs. right. by apply (tr_keys _ _ _ _ _ _ _ T i y).
- intros i x Hi Hx. destruct (tr_node _ _ _ _ _ _ _ T i x Hi Hx). split; [by eapply lookup_weaken|done].
- intros i y a Hi Hy Ha. pose proof (Hk i y Hi Hy) as Ey. apply (tr_keys _ _ _ _ _ _ _ T i y); [done..|].
  exact (eq_ind _ (λ z, z <= a < z + Z.of_nat (length y.2.1)) Ha _ Ey).
Qed.

(** ** Sequences of insertions *)

(** The keys are given by address and length. *)
Fixpoint insert_all (fuel : nat) (table : Z) (ks : list (Z * nat * Z)) : M machine unit :=
match ks with
| [] => mret tt
| (hash, n, d) :: ks' =>
    _ ← hashtableInsert fuel table d hash (Z.of_nat n) 0 false; insert_all fuel table ks'
end.

Definition entries_at m (ks : list (Z * nat * Z)) : list entry :=
(λ k : Z * nat * Z, (bytes_at m k.1.1 k.1.2, k.2)) <$> ks.

Definition key_ok m (k : Z * nat * Z) : Prop :=
key_at m k.1.1 k.1.2 (bytes_at m k.1.1 k.1.2) ∧ 0 <= k.2 < 2 ^ 64.

Lemma key_bytes_same m m' hash n key :
same_on (λ a, ¬ arena a) m m' → key_at m hash n key → bytes_at m' hash n = key.
Proof.
intros Hs (_ & _ & <- & HK). apply bytes_at_ext. intros a Ha. apply Hs, K_outside. by apply HK.
Qed.

Lemma insert_all_rep fuel table B count ks : ∀ s L f es,
heap_inv s L → table_rep (memory s) L table B count f es → Forall (key_ok (memory s)) ks →
heap_room s ((40 + heap_overhead) * Z.of_nat (length ks)) → (length es + length ks <= fuel)%nat →
wp (insert_all fuel table ks) (λ _ s', ∃ L' f',
  table_rep (memory s') L' table B count f' (es ++ entries_at (memory s) ks) ∧
  heap_inv s' L' ∧ same_on (λ a, ¬ arena a) (memory s) (memory s')) s.
Proof.
induction ks as [|[[hash n] d] ks IH]; intros s L f es HI T Hks Hroom Hf; cbn [insert_all].
- wp_step. exists L, f. cbn. rewrite app_nil_r. done.
- apply Forall_cons in Hks as [[Hkey Hd] Hks]. cbn [fst snd length] in *. pose proof heap_overhead_pos.
  wp_step. eapply wp_mono.
  { eapply (table_insert fuel s L table B count f es hash n); [done..| |done|done|lia].
    eapply heap_room_mono; [|exact Hroom]. nia. }
  intros [] s1 (L1 & f1 & T1 & [HL HI1 Hnew Hs1 Hg] & Hr1).
  assert (same_on (λ a, ¬ arena a) (memory s) (memory s1)) as Ha
    by (eapply same_on_weaken; [exact Hs1|by right]).
  assert (entries_at (memory s1) ks = entries_at (memory s) ks ∧ Forall (key_ok (memory s1)) ks) as [Ee Hks1].
  { clear -Hks Ha K_outside. induction Hks as [|k ks [Hk Hd] Hks [IH1 IH2]]; [done|].
    pose proof (key_bytes_same _ _ _ _ _ Ha Hk) as E. unfold entries_at in *. rewrite !fmap_cons, IH1, E.
    split; [done|]. constructor; [|done]. split; [|done]. destruct Hk as (? & ? & _ & ?). rewrite E. done. }
  eapply wp_mono.
  { apply (IH s1 L1 f1 (es ++ [(bytes_at (memory s) hash n, d)])); [done..| |rewrite length_app; cbn; lia].
    apply Hr1. eapply heap_room_mono; [|exact Hroom]. lia. }
  intros [] s2 (L2 & f2 & T2 & HI2 & Ha2). exists L2, f2. rewrite Ee in T2.
  rewrite <- app_assoc in T2. split; [exact T2|]. split; [done|]. by etrans.
Qed.

(** C15: Inserting keys that lie outside the kernel heap, without the copy flag, and
  fetching any key shorter than 4 GiB is the lookup in the list of entries: the
  fetch answers with the data of the only entry of the bucket the key hashes to,
  whatever the key of that entry, and in a bucket with more entries with that of
  the first one behind the head that has the key, or not at all. *)
Theorem hashtable_refines_entries fuel table B count ks s L f es :
heap_inv s L → table_rep (memory s) L table B count f es → Forall (key_ok (memory s)) ks →
heap_room s ((40 + heap_overhead) * Z.of_nat (length ks)) → (length es + length ks <= fuel)%nat →
wp (insert_all fuel table ks) (λ _ s', ∀ hash n out, Z.of_nat n < 2 ^ 32 →
  hashtableFetch fuel table hash (Z.of_nat n) out s' =
  match table_lookup count (es ++ entries_at (memory s) ks) (bytes_at (memory s') hash n) with
  | None => Ok false s'
  | Some d => Ok true (set_memory (store 8 (memory s') out d) s')
  end) s.
Proof.
intros HI T Hks Hroom Hf. eapply wp_mono; [by eapply insert_all_rep|].
intros [] s' (L' & f' & T' & _). intros hash n out Hn. eapply table_fetch; [exact T'|exact Hn|].
unfold entries_at. rewrite length_app, length_fmap. done.
Qed.
End rep.
