(* ===== verification/HeapClients.v ===== *)
(** * The heap's clients on the real heap

    The clients' theorems are proved against the interface of [Heap]; here they
    are instantiated with the heap of kmalloc.c and run on concrete memory. *)

From S2P Require Import Prelude Kmonad Mem Libc Heap Kmalloc KmallocFacts KmallocHeap KmallocProps Dstack Hashtable HashtableProps HashtableRep.

(** ** [memcpy] into a heap block *)

Section copy.
Context `{VmemOps} (lo hi : Z).

(** copying [z] bytes into a block of [z] bytes, as [hashtableInsert] and
  [krealloc] do, overwrites the block's redzone: freeing the block panics unless
  the byte after the source happens to be 0xFE. *)
Theorem memcpy_block_breaks_redzone s L p z src :
heap_inv lo hi s L → L !! p = Some z → src + z < p ∨ p + z < src →
mbyte (memory s) (src + z) ≠ 0xFE →
wp (memcpy p src z) (λ _ s', kfree_ p s' = Fault (Panic "Corrupted redzone")) s.
Proof.
intros HI HL Hd Hb. destruct (heap_inv_live lo hi s L p z HI HL) as (Hp & Hz & _).
destruct (mbyte_memcpy_loop (Z.to_nat z) p src s) as (m' & E & Hm); [lia|].
unfold memcpy. wp_step. eapply wp_eq; [exact E|]. wp_step.
destruct HI as [Hk HI]. assert (mbyte m' (p + z) = mbyte (memory s) (src + z)) as Eb.
{ rewrite Hm, decide_True by lia. f_equal. lia. }
(* [memcpy] also changes the block's own bytes: start from the memory after it. *)
set (s1 := set_memory (store 1 m' (p + z) 0xFE) s).
assert (same_on (λ a, ¬ (p + 1 <= a < p + z)) (memory s) (memory s1)) as Hs1.
{ intros a Ha. cbn [memory s1 set_memory]. rewrite mbyte_store_1. case_decide as Ea.
  - subst a. symmetry. destruct HI as (l & HLy & Hv). apply Hv in HL as (b & Hb' & -> & ->).
    apply elem_of_tail_split in Hb' as (l1 & c & l2 & ->).
    pose proof (layout_seg _ _ _ _ HLy) as Hs.
    apply seg_app in Hs as (mid & _ & _ & _ & _ & [_ Hrz] & _).
    change 8%nat with (1 + 7)%nat in Hrz. rewrite load_app, load_1 in Hrz.
    pose proof (mbyte_range (memory s) (ba b + 32 + bz b)). unfold KHEAP_REDZONE_MAGIC in Hrz.
    change (256 ^ Z.of_nat 1) with 256 in Hrz. change (u8 0xFE) with 0xFE. lia.
  - rewrite Hm. by rewrite decide_False by lia. }
assert (heap_inv lo hi s1 L) as HI1.
{ eapply (heap_inv_frame lo hi s s1 L); [by split|done|]. intros a [_ Ha]. apply Hs1.
  intros Hr. apply Ha. exists p, z. split; [done|lia]. }
apply (kfree_corrupted lo hi s1 _ L p z HI1 HL); [|done|].
- intros a Ha. cbn [memory s1 set_memory]. rewrite mbyte_store_1. by rewrite decide_False by lia.
- cbn [memory set_memory]. change 8%nat with (1 + 7)%nat. rewrite load_app, load_1, Eb.
  pose proof (mbyte_range (memory s) (src + z)). unfold KHEAP_REDZONE_MAGIC.
  change (256 ^ Z.of_nat 1) with 256. lia.
Qed.
End copy.

#[local] Existing Instance no_vmem.
#[local] Instance ops8k : HeapOps := @kheap_ops no_vmem 205.
#[local] Instance laws8k : HeapLaws :=
  @kheap_laws no_vmem 0x10000 0x12000 205 ltac:(lia).

(** A stack of ten items on the 8 KiB heap. *)
Definition heap_stack : machine :=
  match createDstack 80 heap8k with Ok _ s => s | Fault _ => machine0 end.
Definition live_stack : gmap Z Z := {[0x10090 := 80; 0x10048 := 32]}.

Lemma heap_stack_inv : Heap.heap_inv heap_stack live_stack.
Proof.
  split; [done|]. exists [HBlk 0x10000 0 0; HBlk 0x10028 32 0; HBlk 0x10070 80 7960].
  split.
  - split; [done|done|repeat split; by vm_compute|done..|by repeat constructor].
  - intros p z. unfold live_stack. rewrite lookup_insert_Some, lookup_singleton_Some. cbn [tail].
    split.
    + intros [[<- <-]|(Hne & <- & <-)].
      * exists (HBlk 0x10070 80 7960). split; [right; left|done].
      * exists (HBlk 0x10028 32 0). split; [left|done].
    + intros (b & Hb & -> & ->). apply elem_of_cons in Hb as [->|Hb%list_elem_of_singleton].
      * right. cbn. split_and!; [lia|done|done].
      * subst b. by left.
Qed.

Lemma heap_stack_rep : dstack_rep (memory heap_stack) 0x10048 0x10090 80 [].
Proof. split; [by vm_compute..|by intros i x|done|left; done|done]. Qed.

Lemma push_pop_lifo_witness :
  wp (pushStack 0x10048 7) (λ _ s1,
      dstack_rep (memory s1) 0x10048 0x10090 80 ([] ++ [7]) ∧ Heap.heap_inv s1 live_stack ∧
    wp (popStack 0x10048) (λ r s2, r = (7, true) ∧
      dstack_rep (memory s2) 0x10048 0x10090 80 [] ∧ Heap.heap_inv s2 live_stack) s1) heap_stack.
Proof.
  apply (push_pop_lifo heap_stack live_stack 0x10048 0x10090 80 [] 7);
    [apply heap_stack_inv|done|apply heap_stack_rep|done|done].
Defined.

(** Ten items pushed. *)
Definition heap_stack_full : machine :=
  match (for_range 0 10 (pushStack 0x10048)) heap_stack with Ok _ s => s | Fault _ => machine0 end.

Lemma pushStack_full_deadlocks_witness : pushStack 0x10048 10 heap_stack_full = Fault Spin.
Proof.
  apply (pushStack_full_deadlocks heap_stack_full 0x10048 0x10090 80 (seqZ 0 10)); [|done].
  split; [by vm_compute..| |done|left; done|done].
  intros i x. do 10 (destruct i as [|i]; [intros [= <-]; by vm_compute|]). done.
Defined.

Lemma heap8k_inv : Heap.heap_inv heap8k ∅.
Proof.
  split; [done|]. exists [HBlk 0x10000 0 0x1FD8]. split; [apply heap8k_layout|].
  intros p z. rewrite lookup_empty. split; [done|]. by intros (b & Hb%not_elem_of_nil & _).
Qed.

Lemma createDstack_empty_witness :
  wp (createDstack 80) (λ stk s', ∃ b, dstack_rep (memory s') stk b 80 [] ∧
    Heap.heap_inv s' (<[b := 80]> (<[stk := 32]> ∅)) ∧
    (∅ : gmap Z Z) !! stk = None ∧ (∅ : gmap Z Z) !! b = None) heap8k.
Proof.
  apply (createDstack_empty heap8k ∅ 80); [apply heap8k_inv| |done|].
  - exists [HBlk 0x10000 0 0x1FD8]. split; [apply heap8k_layout|by constructor].
  - intros p s' E. exists [HBlk 0x10000 0 0; HBlk 0x10028 32 8080].
    assert (s' = match kmalloc 32 heap8k with Ok _ s => s | Fault _ => machine0 end) as ->
      by by rewrite E.
    split; [|by right; left].
    split; [done|done|repeat split; by vm_compute|done..|by repeat constructor].
Defined.

Lemma memcpy_block_breaks_redzone_witness :
  wp (memcpy 0x10048 0x400 100) (λ _ s', kfree_ 0x10048 s' = Fault (Panic "Corrupted redzone"))
    heap8k_1.
Proof.
  apply (memcpy_block_breaks_redzone 0x10000 0x12000 heap8k_1 live1 0x10048 100 0x400);
    [apply heap8k_1_inv|done|left; lia|by vm_compute].
Defined.

(** ** Hash tables in memory *)

(** A table at 0x100 with one bucket at 0x200 that holds the key "a" (at 0x300)
    with data 5; 0x310 holds the key "b". *)
Definition table1 : machine :=
  set_memory (fold_left (λ m '(n, a, v), store n m a v)
    [(8%nat, 0x100, 0x200); (2%nat, 0x108, 1); (8%nat, 0x200, 0x300); (8%nat, 0x208, 1);
     (8%nat, 0x218, 5); (1%nat, 0x300, 97); (1%nat, 0x310, 98)] ∅) machine0.
(** The same table with a second bucket, for the key "b", chained to the first. *)
Definition table2 : machine :=
  set_memory (fold_left (λ m '(n, a, v), store n m a v)
    [(8%nat, 0x220, 0x400); (8%nat, 0x400, 0x310); (8%nat, 0x408, 1); (8%nat, 0x418, 6)]
    (memory table1)) machine0.

Lemma hashData_polynomial_witness :
  let key := bytes_at (memory table1) 0x300 (Z.to_nat 1) in
  hashData 0x300 1 7 table1 = Ok (polynomial key mod 2 ^ 64 mod 7) table1 ∧
  0 <= polynomial key mod 2 ^ 64 mod 7 < 7 ∧
  (∀ z hash' s', bytes_at (memory s') hash' (z + length key) = replicate z 0 ++ key →
     hashData hash' (Z.of_nat (z + length key)) 7 s' = Ok (polynomial key mod 2 ^ 64 mod 7) s').
Proof. apply (hashData_polynomial 0x300 1 7 table1). lia. Defined.

(** Fetching "b" finds the data of "a". *)
Lemma fetch_lone_bucket_ignores_key_witness :
  hashtableFetch 5 0x100 0x310 1 0x500 table1 =
    Ok true (set_memory (store 8 (memory table1) 0x500
      (hb_data (read_bucket (memory table1) (home (memory table1) 0x100 0x310 1)))) table1).
Proof. apply (fetch_lone_bucket_ignores_key 5 0x100 0x310 1 0x500 table1); by vm_compute. Defined.

(** After "b" was chained, "a" is not found. *)
Lemma fetch_chained_bucket_skips_head_witness :
  hashtableFetch 2 0x100 0x300 1 0x500 table2 = Ok false table2.
Proof.
  apply (fetch_chained_bucket_skips_head 0 0x100 0x300 1 0x500 table2 0);
    [by vm_compute|by vm_compute|by vm_compute|by vm_compute|lia|lia|by vm_compute].
Defined.

(** [table1] beside the 8 KiB heap. *)
Definition heap_table1 : machine :=
  set_memory (fold_left (λ m '(n, a, v), store n m a v)
    [(8%nat, 0x100, 0x200); (2%nat, 0x108, 1); (8%nat, 0x200, 0x300); (8%nat, 0x208, 1);
     (8%nat, 0x218, 5); (1%nat, 0x300, 97); (1%nat, 0x310, 98)] (memory heap8k)) heap8k.

Lemma heap_table1_layout : layout 0x10000 0x12000 heap_table1 [HBlk 0x10000 0 0x1FD8].
Proof. split; [done|done|repeat split; by vm_compute|done..|constructor]. Qed.

Lemma heap_table1_inv : Heap.heap_inv heap_table1 ∅.
Proof.
  split; [done|]. exists [HBlk 0x10000 0 0x1FD8]. split; [apply heap_table1_layout|].
  intros p z. rewrite lookup_empty. split; [done|]. by intros (b & Hb%not_elem_of_nil & _).
Qed.

Lemma heap_table1_apart x a :
  x = 0x200 ∨ x ∈ [(0x200, ([97], 5) : entry)].*1 → x <= a < x + 40 →
  ¬ (0x100 <= a < 0x100 + 16) ∧ ¬ (0x310 <= a < 0x310 + Z.of_nat 1) ∧
  ∀ y : Z * entry, y ∈ [(0x200, ([97], 5) : entry)] →
    (y.1 ≠ x → ¬ node_area (memory heap_table1) y a) ∧
    ¬ (load 8 (memory heap_table1) y.1 <= a <
         load 8 (memory heap_table1) y.1 + Z.of_nat (length y.2.1)).
Proof.
  intros Hx Ha. assert (x = 0x200) as -> by by destruct Hx as [|?%list_elem_of_singleton].
  split_and!; [lia..|]. intros y ->%list_elem_of_singleton. cbn [fst snd].
  replace (load 8 (memory heap_table1) 0x200) with 0x300 by (by vm_compute).
  split; [done|]. cbn [length]. lia.
Qed.

Lemma heap_table1_insertable :
  insertable heap_table1 ∅ 0x100 0x310 1 [(0x200, ([97], 5))].
Proof.
  assert (home (memory heap_table1) 0x100 0x310 (Z.of_nat 1) = 0x200) as Eh by by vm_compute.
  split; rewrite ?Eh.
  - exact heap_table1_inv.
  - exists [HBlk 0x10000 0 0x1FD8]. split; [exact heap_table1_layout|by constructor].
  - by vm_compute.
  - done.
  - split; [done|]. split; [|exact I]. split; by vm_compute.
  - split; lia.
  - intros a Ha. right. unfold arena, laws8k, kheap_laws.
    assert (load 8 (memory heap_table1) 0x200 = 0x300) as E3 by by vm_compute.
    destruct Ha as [?|[?|[?|(x & ->%list_elem_of_singleton & [Hk|Hk])]]]; cbn [fst snd length] in *;
      rewrite ?E3 in *; blia.
  - exact heap_table1_apart.
  - apply NoDup_singleton.
Qed.

(** "b" is stored behind "a" and found. *)
Lemma insert_fetch_roundtrip_witness :
  wp (hashtableInsert 5 0x100 6 0x310 (Z.of_nat 1) 0 false) (λ _ s1,
    inserted heap_table1 ∅ 0x100 0x310 1 [(0x200, ([97], 5))] 6 s1 ∧
    hashtableFetch 5 0x100 0x310 (Z.of_nat 1) 0x500 s1 =
      Ok true (set_memory (store 8 (memory s1) 0x500 6) s1)) heap_table1.
Proof.
  apply (insert_fetch_roundtrip 5 heap_table1 ∅ 0x100 0x310 1 [(0x200, ([97], 5))] 6 0 false 0x500);
    [apply heap_table1_insertable|done|done|done|simpl; lia|constructor].
Defined.

(** An empty table of one bucket on the heap, the keys "a" and "b" at 0x300 and 0x310. *)
Definition heap_table : machine :=
  match hashtableCreate 1 heap8k with
  | Ok _ s => set_memory (store 1 (store 1 (memory s) 0x300 97) 0x310 98) s
  | Fault _ => machine0
  end.
Definition live_table : gmap Z Z := {[0x10080 := 40; 0x10048 := 16]}.
Definition two_keys : list (Z * nat * Z) := [(0x300, 1%nat, 5); (0x310, 1%nat, 6)].
Definition key_bytes (a : Z) : Prop := 0x300 <= a < 0x320.

Lemma heap_table_layout :
  layout 0x10000 0x12000 heap_table [HBlk 0x10000 0 0; HBlk 0x10028 16 0; HBlk 0x10060 40 8016].
Proof. split; [done|done|repeat split; by vm_compute|done..|by repeat constructor]. Qed.

Lemma heap_table_inv : Heap.heap_inv heap_table live_table.
Proof.
  split; [done|]. eexists. split; [apply heap_table_layout|].
  intros p z. unfold live_table. rewrite lookup_insert_Some, lookup_singleton_Some. cbn [tail]. split.
  - intros [[<- <-]|(Hne & <- & <-)].
    + exists (HBlk 0x10060 40 8016). split; [right; left|done].
    + exists (HBlk 0x10028 16 0). split; [left|done].
  - intros (b & Hb & -> & ->). apply elem_of_cons in Hb as [->|Hb%list_elem_of_singleton].
    + right. cbn. split_and!; [lia|done|done].
    + subst b. by left.
Qed.

Lemma heap_table_rep :
  table_rep key_bytes (memory heap_table) live_table 0x10048 0x10080 1 (λ _, []) [].
Proof.
  split.
  1,2: done. 1: lia. 1,2: by vm_compute.
  - intros i Hi. assert (i = 0) as -> by lia. by vm_compute.
  - done.
  - intros i x _ Hx%elem_of_nil. done.
  - constructor.
  - intros i j x _ _ _ Hx%elem_of_nil. done.
  - intros i x a _ Hx%elem_of_nil. done.
Qed.

Lemma key_bytes_outside a : key_bytes a → ¬ arena a.
Proof. unfold key_bytes, arena, laws8k, kheap_laws. blia. Qed.

Lemma two_keys_ok : Forall (key_ok key_bytes (memory heap_table)) two_keys.
Proof.
  unfold two_keys, key_ok, key_at, key_bytes. repeat (constructor; [cbn [fst snd]; split_and!; done || lia|]).
  constructor.
Qed.

(** "b" is found behind "a", and "a" no longer. *)
Lemma hashtable_refines_entries_witness :
  wp (insert_all 5 0x10048 two_keys) (λ _ s', ∀ hash n out, Z.of_nat n < 2 ^ 32 →
    hashtableFetch 5 0x10048 hash (Z.of_nat n) out s' =
    match table_lookup 1 ([] ++ entries_at (memory heap_table) two_keys) (bytes_at (memory s') hash n) with
    | None => Ok false s'
    | Some d => Ok true (set_memory (store 8 (memory s') out d) s')
    end) heap_table ∧
  table_lookup 1 (entries_at (memory heap_table) two_keys) [98] = Some 6 ∧
  table_lookup 1 (entries_at (memory heap_table) two_keys) [97] = None.
Proof.
  split; [|by vm_compute].
  apply (hashtable_refines_entries key_bytes key_bytes_outside 5 0x10048 0x10080 1 two_keys heap_table live_table (λ _, []) []);
    [apply heap_table_inv|apply heap_table_rep|apply two_keys_ok| |simpl; lia].
  eexists. split; [apply heap_table_layout|]. right. right. left. cbn. lia.
Defined.
