(* ===== verification/Paging.v ===== *)
(** * paging.c: four-level page tables (x86_64)

    Page tables are in memory (identity mapped, as the source assumes), 512
    64-bit entries each.  Frames for new tables come from the data stack
    [pageFrames], which [growPageStack] fills from the page allocator. *)

From S2P Require Import Prelude Kmonad Mem Heap Dstack.

Definition PG_PRESENT : Z := 2 ^ 0.
Definition PG_WRITE : Z := 2 ^ 1.
Definition PG_USER : Z := 2 ^ 2.
Definition PG_PWT : Z := 2 ^ 3.
Definition PG_PCD : Z := 2 ^ 4.
Definition PG_PAT : Z := 2 ^ 12.
Definition PG_NX : Z := 2 ^ 63.
Definition PG_UC : Z := Z.lor (Z.lor PG_PWT PG_PAT) PG_PCD.
Definition PG_WC : Z := PG_PWT.
Definition PG_WB : Z := PG_PAT.
Definition PG_WP : Z := 0.
Definition PG_WT : Z := Z.lor PG_PAT PG_PWT.
Definition PG_IS_PRESENT (pg : Z) : Z := Z.land pg 1.

Definition SELECT_MASK : Z := 0x1FF.
Definition BASE_MASK : Z := 0x000FFFFFFFFFF000.
Definition PML_ENTRY (vaddr : Z) : Z := Z.land (Z.shiftr vaddr 39) SELECT_MASK.
Definition PDPE_ENTRY (vaddr : Z) : Z := Z.land (Z.shiftr vaddr 30) SELECT_MASK.
Definition PDE_ENTRY (vaddr : Z) : Z := Z.land (Z.shiftr vaddr 21) SELECT_MASK.
Definition PTE_ENTRY (vaddr : Z) : Z := Z.land (Z.shiftr vaddr 12) SELECT_MASK.
Definition TABLE_BASE (entry : Z) : Z := Z.land entry BASE_MASK.
Definition IS_UNALIGNED (addr : Z) : bool := negb (Z.land addr 0xFFF =? 0).

Definition PAGE_FLAG_UC : Z := 2 ^ 0.
Definition PAGE_FLAG_WC : Z := 2 ^ 1.
Definition PAGE_FLAG_WB : Z := 2 ^ 2.
Definition PAGE_FLAG_WP : Z := 2 ^ 3.
Definition PAGE_FLAG_WT : Z := 2 ^ 4.
Definition PAGE_FLAG_WRITE : Z := 2 ^ 5.
Definition PAGE_FLAG_USER : Z := 2 ^ 6.
Definition PAGE_FLAG_EXECUTE : Z := 2 ^ 7.
Definition PAGE_FLAG_MAKE : Z := 2 ^ 8.

(** [flags & F] as a condition. *)
Definition has (flags f : Z) : bool := negb (Z.land flags f =? 0).

(** [getPageInfo] (the prints left out). *)
Definition getPageInfo (cr3 virt : Z) : M machine Z :=
  e1 ← ld 8 (cr3 + 8 * PML_ENTRY virt);
  let pdpe := TABLE_BASE e1 in
  if pdpe =? 0 then mret 0 else
  e2 ← ld 8 (pdpe + 8 * PDPE_ENTRY virt);
  let pde := TABLE_BASE e2 in
  if pde =? 0 then mret 0 else
  e3 ← ld 8 (pde + 8 * PDE_ENTRY virt);
  let pte := TABLE_BASE e3 in
  if pte =? 0 then mret 0 else
  ld 8 (pte + 8 * PTE_ENTRY virt).

(** [virtToPhysInt] *)
Definition virtToPhysInt (space virt : Z) : M machine Z :=
  pml4e ← ld 8 space;
  e1 ← ld 8 (pml4e + 8 * PML_ENTRY virt);
  let pdpe := TABLE_BASE e1 in
  if pdpe =? 0 then mret 0 else
  e2 ← ld 8 (pdpe + 8 * PDPE_ENTRY virt);
  let pde := TABLE_BASE e2 in
  if pde =? 0 then mret 0 else
  e3 ← ld 8 (pde + 8 * PDE_ENTRY virt);
  let pt := TABLE_BASE e3 in
  if pt =? 0 then mret 0 else
  e4 ← ld 8 (pt + 8 * PTE_ENTRY virt);
  mret (TABLE_BASE e4).

(** The flags of the page table entry. *)
Definition pte_flags (flags : Z) : Z :=
  let pgflags := if has flags PAGE_FLAG_WRITE then Z.lor PG_PRESENT PG_WRITE else PG_PRESENT in
  let pgflags := if has flags PAGE_FLAG_USER then Z.lor pgflags PG_USER else pgflags in
  let pgflags := if has flags PAGE_FLAG_EXECUTE then pgflags else Z.lor pgflags PG_NX in
  if has flags PAGE_FLAG_UC then Z.lor pgflags PG_UC
  else if has flags PAGE_FLAG_WC then Z.lor pgflags PG_WC
  else if has flags PAGE_FLAG_WB then Z.lor pgflags PG_WB
  else if has flags PAGE_FLAG_WP then Z.lor pgflags PG_WP
  else if has flags PAGE_FLAG_WT then Z.lor pgflags PG_WT
  else pgflags.
Definition table_flags (flags : Z) : Z :=
  if has flags PAGE_FLAG_WRITE then Z.lor PG_PRESENT PG_WRITE else PG_PRESENT.

Section paging.
Context {HO : HeapOps} {PO : PhysOps} {VO : VmemPhysOps}.

(** [growPageStack]: [for(size_t i = 0; i <= sz; i+=PAGE_SZ)]. *)
Definition growPageStack : M machine unit :=
'(phys, sz) ← allocPhys 409600 0 0;
if phys =? 0xFFF then fail (Panic "Handle this error! (OOM?)") else
v ← vmallocPhys phys sz 3 17;
if v =? 0 then fail (Panic "Failed to allocated VMEM for page stack") else
for_range 0 (sz / 0x1000 + 1) (λ k,
  frames ← gread g_pageFrames; pushStack frames (u64 (phys + 0x1000 * k))).

Definition newPagetable (fuel : nat) : M machine Z :=
frames ← gread g_pageFrames;
n ← stackCount frames;
_ ← (if n <? 20 then growPageStack else mret tt);
iter fuel (λ _,
  frames ← gread g_pageFrames;
  '(frame, fetched) ← popStack frames;
  if fetched : bool then mret (inr frame) else _ ← growPageStack; mret (inl tt)) tt.

(** One level of [mapPage]: the base of the next table, [None] when it is absent
  and may not be made. *)
Definition next_table (fuel : nat) (slot : Z) (make : bool) : M machine (option Z) :=
e ← ld 8 slot;
if TABLE_BASE e =? 0 then
  if negb make then mret None
  else
    frame ← newPagetable fuel;
    e ← ld 8 slot;
    _ ← st 8 slot (Z.lor e frame);
    e ← ld 8 slot;
    mret (Some (TABLE_BASE e))
else mret (Some (TABLE_BASE e)).

Definition or_slot (slot v : Z) : M machine unit := e ← ld 8 slot; st 8 slot (Z.lor e v).

(** [mapPage] ([invlpg] has no effect on memory). *)
Definition mapPage (fuel : nat) (space phys virt flags : Z) : M machine bool :=
if IS_UNALIGNED phys || IS_UNALIGNED virt then mret false else
let make := has flags PAGE_FLAG_MAKE in
pml4e ← ld 8 space;
let s1 := pml4e + 8 * PML_ENTRY virt in
t1 ← next_table fuel s1 make;
match t1 with None => mret false | Some pdpe =>
let s2 := pdpe + 8 * PDPE_ENTRY virt in
t2 ← next_table fuel s2 make;
match t2 with None => mret false | Some pde =>
let s3 := pde + 8 * PDE_ENTRY virt in
t3 ← next_table fuel s3 make;
match t3 with None => mret false | Some pte =>
pml4e ← ld 8 space;
_ ← or_slot (pml4e + 8 * PML_ENTRY virt) (table_flags flags);
_ ← or_slot s2 (table_flags flags);
_ ← or_slot s3 (table_flags flags);
_ ← st 8 (pte + 8 * PTE_ENTRY virt) (Z.lor (pte_flags flags) phys);
mret true
end end end.

Definition mapPages (fuel : nat) (space phys virt flags pages : Z) : M machine unit :=
if IS_UNALIGNED phys || IS_UNALIGNED virt then mret tt
else
  for_range 0 pages (λ b,
    r ← mapPage fuel space (u64 (phys + u32 (b * 0x1000))) (u64 (virt + u32 (0x1000 * b))) flags;
    if has flags PAGE_FLAG_MAKE then kassert r "Failed to map page" else mret tt).

Definition unmapPage (space virt : Z) : M machine unit := mret tt.

(** [initPaging]: [cr3] is the register, [kspace] the address of the global. *)
Definition initPaging (cr3 kspace : Z) : M machine unit :=
_ ← st 8 kspace cr3;
d ← createDstack 800;
_ ← gwrite g_pageFrames d;
if d =? 0 then fail (Panic "Failed to create dstack for page frame") else mret tt.
End paging.
