(* ===== verification/PagingProps.v ===== *)
(** * Properties of the page tables

    [mapPage] followed by [virtToPhysInt]: the page that was mapped, the effect
    of the memory type bits, and the other translations. *)

From S2P Require Import Prelude Kmonad Mem Heap Dstack Paging.

(** ** The walk as a function *)

(** The base of the table the entry [idx] of the table at [b] points to. *)
Definition child (m : gmap Z Z) (b idx : Z) : Z := TABLE_BASE (load 8 m (b + 8 * idx)).
Definition table1 m space v := child m (load 8 m space) (PML_ENTRY v).
Definition table2 m space v := child m (table1 m space v) (PDPE_ENTRY v).
Definition table3 m space v := child m (table2 m space v) (PDE_ENTRY v).
(** The address of the page table entry of [v]. *)
Definition pte_slot m space v := table3 m space v + 8 * PTE_ENTRY v.

Definition translate (m : gmap Z Z) (space v : Z) : Z :=
  if table1 m space v =? 0 then 0
  else if table2 m space v =? 0 then 0
  else if table3 m space v =? 0 then 0
  else TABLE_BASE (load 8 m (pte_slot m space v)).

(** Every walk of [m] finds the same tables in [m']. *)
Definition same_tables (m m' : gmap Z Z) (space : Z) : Prop :=
  load 8 m' space = load 8 m space ∧
  ∀ v, table1 m' space v = table1 m space v ∧
    (table1 m space v ≠ 0 → table2 m' space v = table2 m space v ∧
     (table2 m space v ≠ 0 → table3 m' space v = table3 m space v)).

(** The slots a walk for [v] reads: it stops at a missing table. *)
Definition live_slots (m : gmap Z Z) (space v : Z) : list Z :=
  load 8 m space + 8 * PML_ENTRY v ::
  if table1 m space v =? 0 then [] else table1 m space v + 8 * PDPE_ENTRY v ::
  if table2 m space v =? 0 then [] else table2 m space v + 8 * PDE_ENTRY v ::
  if table3 m space v =? 0 then [] else [pte_slot m space v].

(** The address range of a slot holds neither the [pageSpace] object nor, unless it
    is a slot of a last-level table, the entry of another level. *)
Definition apart (a b : Z) : Prop := a + 8 <= b ∨ b + 8 <= a.
Record tree_ok (m : gmap Z Z) (space : Z) (leaf : Z → Prop) : Prop := {
  tree_root : load 8 m space mod 0x1000 = 0;
  tree_root_leaf : ¬ leaf (load 8 m space);
  tree_leaf v : table1 m space v ≠ 0 →
    ¬ leaf (table1 m space v) ∧
    (table2 m space v ≠ 0 → ¬ leaf (table2 m space v) ∧
     (table3 m space v ≠ 0 → leaf (table3 m space v)));
  tree_space v :
    apart space (load 8 m space + 8 * PML_ENTRY v) ∧
    (table1 m space v ≠ 0 → apart space (table1 m space v + 8 * PDPE_ENTRY v)) ∧
    (table1 m space v ≠ 0 → table2 m space v ≠ 0 →
       apart space (table2 m space v + 8 * PDE_ENTRY v)) ∧
    (table1 m space v ≠ 0 → table2 m space v ≠ 0 → table3 m space v ≠ 0 →
       apart space (pte_slot m space v))
}.

Definition uses_pat (flags : Z) : bool :=
  if has flags PAGE_FLAG_UC then true else if has flags PAGE_FLAG_WC then false
  else if has flags PAGE_FLAG_WB then true else if has flags PAGE_FLAG_WP then false
  else has flags PAGE_FLAG_WT.

(** The frame a page mapped with [flags] translates to: bit 12, the PAT bit of an
    entry, lies in the frame address of the walk. *)
Definition pat_frame (flags phys : Z) : Z := if uses_pat flags then Z.lor 0x1000 phys else phys.

Section bits.

Lemma entry_range v k : 0 <= Z.land (Z.shiftr v k) SELECT_MASK < 512.
Proof. apply (land_bound _ _ 9); unfold SELECT_MASK; lia. Qed.

Lemma PML_range v : 0 <= PML_ENTRY v < 512. Proof. apply entry_range. Qed.
Lemma PDPE_range v : 0 <= PDPE_ENTRY v < 512. Proof. apply entry_range. Qed.
Lemma PDE_range v : 0 <= PDE_ENTRY v < 512. Proof. apply entry_range. Qed.
Lemma PTE_range v : 0 <= PTE_ENTRY v < 512. Proof. apply entry_range. Qed.

Lemma TABLE_BASE_aligned e : TABLE_BASE e mod 0x1000 = 0.
Proof.
unfold TABLE_BASE, BASE_MASK. change 0x1000 with (2 ^ 12).
rewrite <- Z.land_ones, <- Z.land_assoc by lia. apply Z.land_0_r.
Qed.

Lemma TABLE_BASE_lor e f : TABLE_BASE (Z.lor e f) = Z.lor (TABLE_BASE e) (TABLE_BASE f).
Proof. apply Z.land_lor_distr_l. Qed.

Lemma TABLE_BASE_table_flags flags : TABLE_BASE (table_flags flags) = 0.
Proof. unfold table_flags. by destruct (has _ _). Qed.

Lemma TABLE_BASE_pte_flags flags :
TABLE_BASE (pte_flags flags) = if uses_pat flags then 0x1000 else 0.
Proof.
unfold pte_flags, uses_pat.
destruct (has flags PAGE_FLAG_WRITE), (has flags PAGE_FLAG_USER), (has flags PAGE_FLAG_EXECUTE),
  (has flags PAGE_FLAG_UC), (has flags PAGE_FLAG_WC), (has flags PAGE_FLAG_WB),
  (has flags PAGE_FLAG_WP), (has flags PAGE_FLAG_WT); reflexivity.
Qed.

Lemma pte_flags_range flags : 0 <= pte_flags flags < 2 ^ 64.
Proof.
unfold pte_flags.
destruct (has flags PAGE_FLAG_WRITE), (has flags PAGE_FLAG_USER), (has flags PAGE_FLAG_EXECUTE),
  (has flags PAGE_FLAG_UC), (has flags PAGE_FLAG_WC), (has flags PAGE_FLAG_WB),
  (has flags PAGE_FLAG_WP), (has flags PAGE_FLAG_WT); vm_compute; split; congruence.
Qed.

Lemma table_flags_range flags : 0 <= table_flags flags < 2 ^ 64.
Proof. unfold table_flags. destruct (has _ _); vm_compute; split; congruence. Qed.

(** A page frame below 2^52 is its own table base. *)
Lemma TABLE_BASE_frame phys :
IS_UNALIGNED phys = false → 0 <= phys < 2 ^ 52 → TABLE_BASE phys = phys.
Proof.
unfold IS_UNALIGNED. intros Hu%negb_false_iff%Z.eqb_eq Hr. unfold TABLE_BASE.
assert (Z.land phys (Z.ones 52) = phys) as H1
  by (rewrite Z.land_ones by lia; apply Z.mod_small; lia).
rewrite <- H1 at 2. replace (Z.ones 52) with (Z.lor BASE_MASK 0xFFF) by done.
rewrite Z.land_lor_distr_r, Hu. by rewrite Z.lor_0_r.
Qed.
End bits.

Lemma virtToPhysInt_translate space v s :
  virtToPhysInt space v s = Ok (translate (memory s) space v) s.
Proof.
  unfold virtToPhysInt, translate, pte_slot, table3, table2, table1, child.
  run. destruct (_ =? 0); [done|]. run. destruct (_ =? 0); [done|]. run.
  by destruct (_ =? 0).
Qed.

(** ** Memories with the same tables *)

Section same_tables.
Implicit Types (m : gmap Z Z) (space v : Z).

Lemma same_tables_refl m space : same_tables m m space.
Proof. done. Qed.

Lemma same_tables_all m m' space v :
  same_tables m m' space → table1 m space v ≠ 0 → table2 m space v ≠ 0 → table3 m space v ≠ 0 →
  table1 m' space v = table1 m space v ∧ table2 m' space v = table2 m space v ∧
  table3 m' space v = table3 m space v.
Proof.
  intros [_ H] N1 N2 N3. destruct (H v) as [E1 H1]. destruct (H1 N1) as [E2 H2]. split_and!; auto.
Qed.

Lemma same_tables_trans m1 m2 m3 space :
  same_tables m1 m2 space → same_tables m2 m3 space → same_tables m1 m3 space.
Proof.
  intros [R1 H1] [R2 H2]. split; [congruence|]. intros v.
  destruct (H1 v) as [A1 H1'], (H2 v) as [B1 H2']. split; [congruence|]. intros N1.
  destruct (H1' N1) as [A2 A3], (H2' ltac:(congruence)) as [B2 B3]. split; [congruence|]. intros N2.
  rewrite B3 by congruence. by apply A3.
Qed.

Lemma tree_ok_same m m' space leaf : same_tables m m' space → tree_ok m space leaf → tree_ok m' space leaf.
Proof.
  intros [E0 HE] [Hroot Hrl Hleaf Hspace].
  split; rewrite ?E0; [done|done| |]; intros v; destruct (HE v) as (E1 & HE1); rewrite E1.
  - intros N1. destruct (HE1 N1) as [E2 HE2]. rewrite E2. destruct (Hleaf v N1) as [K1 K2]. split; [done|].
    intros N2. rewrite (HE2 N2). by apply K2.
  - destruct (Hspace v) as (B1 & B2 & B3 & B4). split; [done|]. split; [done|].
    split; [intros N1 N2|intros N1 N2 N3]; destruct (HE1 N1) as [E2 HE2]; rewrite E2 in N2.
    + rewrite E2. by apply B3.
    + unfold pte_slot in *. rewrite (HE2 N2) in N3 |- *. by apply B4.
Qed.

Lemma live_slots_same m m' space v : same_tables m m' space → live_slots m' space v = live_slots m space v.
Proof.
  intros [E0 HE]. destruct (HE v) as [E1 HE1]. unfold live_slots. rewrite E0, E1.
  destruct (Z.eqb_spec (table1 m space v) 0) as [|N1]; [done|]. destruct (HE1 N1) as [E2 HE2]. rewrite E2.
  destruct (Z.eqb_spec (table2 m space v) 0) as [|N2]; [done|].
  unfold pte_slot. by rewrite (HE2 N2).
Qed.

Lemma live_slots_all m space v :
  table1 m space v ≠ 0 → table2 m space v ≠ 0 → table3 m space v ≠ 0 →
  live_slots m space v = [load 8 m space + 8 * PML_ENTRY v; table1 m space v + 8 * PDPE_ENTRY v;
    table2 m space v + 8 * PDE_ENTRY v; pte_slot m space v].
Proof. intros N1 N2 N3. unfold live_slots. by rewrite !eqb_false. Qed.
End same_tables.

(** ** The stores of [mapPage] *)

(** Entries at 8-aligned addresses: or-ing flags into them keeps their table. *)
Lemma base_or_slot m a v t :
  a mod 8 = 0 → t mod 8 = 0 → TABLE_BASE v = 0 → 0 <= v < 2 ^ 64 →
  TABLE_BASE (load 8 (store 8 m a (Z.lor (load 8 m a) v)) t) = TABLE_BASE (load 8 m t).
Proof.
  intros Ha Ht Hv Hr. destruct (decide (a = t)) as [<-|Hne].
  - rewrite load_store_8. pose proof (load_8_range m a).
    rewrite u64_id by (apply lor_bound; lia). by rewrite TABLE_BASE_lor, Hv, Z.lor_0_r.
  - f_equal. apply load_store_ne. zlia.
Qed.

Section map.
Context {HO : HeapOps} {PO : PhysOps} {VO : VmemPhysOps}.

Lemma next_table_present fuel slot make s :
TABLE_BASE (load 8 (memory s) slot) ≠ 0 →
next_table fuel slot make s = Ok (Some (TABLE_BASE (load 8 (memory s) slot))) s.
Proof. intros Hne. unfold next_table. run. by rewrite eqb_false. Qed.

(** The memory after mapping: flags or-ed into three entries, then the page entry. *)
Definition map_stores (m : gmap Z Z) (space virt flags e : Z) : gmap Z Z :=
let s1 := load 8 m space + 8 * PML_ENTRY virt in
let s2 := table1 m space virt + 8 * PDPE_ENTRY virt in
let s3 := table2 m space virt + 8 * PDE_ENTRY virt in
let or m a := store 8 m a (Z.lor (load 8 m a) (table_flags flags)) in
store 8 (or (or (or m s1) s2) s3) (pte_slot m space virt) e.

Lemma mapPage_run fuel space phys virt flags s :
IS_UNALIGNED phys = false → IS_UNALIGNED virt = false →
table1 (memory s) space virt ≠ 0 → table2 (memory s) space virt ≠ 0 →
table3 (memory s) space virt ≠ 0 →
mapPage fuel space phys virt flags s =
  Ok true (set_memory (map_stores (memory s) space virt flags (Z.lor (pte_flags flags) phys)) s).
Proof.
intros Hp Hv H1 H2 H3. unfold mapPage. rewrite Hp, Hv. cbn [orb]. mstep.
rewrite (bind_ok _ _ _ _ _ (next_table_present _ _ _ _ H1)).
rewrite (bind_ok _ _ _ _ _ (next_table_present _ _ _ _ H2)).
rewrite (bind_ok _ _ _ _ _ (next_table_present _ _ _ _ H3)).
mstep. unfold or_slot. by destruct s.
Qed.

(** The stores change the page table entry they are for and no table of any walk. *)
Lemma child_after leaf m space virt flags e b i :
tree_ok m space leaf →
table1 m space virt ≠ 0 → table2 m space virt ≠ 0 → table3 m space virt ≠ 0 →
b mod 0x1000 = 0 → b + 8 * i ≠ pte_slot m space virt →
child (map_stores m space virt flags e) b i = child m b i.
Proof.
intros Hok H1 H2 H3 Hb Hne. pose proof (tree_root _ _ _ Hok) as Hroot.
assert (∀ b i, b mod 0x1000 = 0 → (b + 8 * i) mod 8 = 0) as Hal by (intros; zlia).
assert (table1 m space virt mod 0x1000 = 0) as T1 by apply TABLE_BASE_aligned.
assert (table2 m space virt mod 0x1000 = 0) as T2 by apply TABLE_BASE_aligned.
assert (table3 m space virt mod 0x1000 = 0) as T3 by apply TABLE_BASE_aligned.
pose proof (table_flags_range flags) as Htf. pose proof (TABLE_BASE_table_flags flags) as Htb.
unfold child, map_stores. rewrite load_store_ne.
- rewrite !base_or_slot; auto.
- assert (pte_slot m space virt mod 8 = 0) by (apply Hal, T3). specialize (Hal b i Hb). zlia.
Qed.

(** A table that is not a last-level one does not hold the entry. *)
Lemma upper_slot leaf m space virt b i :
tree_ok m space leaf →
table1 m space virt ≠ 0 → table2 m space virt ≠ 0 → table3 m space virt ≠ 0 →
¬ leaf b → b mod 0x1000 = 0 → 0 <= i < 512 → b + 8 * i ≠ pte_slot m space virt.
Proof.
intros Hok H1 H2 H3 Hb Hbm Hi E. destruct (tree_leaf _ _ _ Hok virt H1) as [_ L2].
destruct (L2 H2) as [_ L3]. specialize (L3 H3). unfold pte_slot in E. pose proof (PTE_range virt).
assert (table3 m space virt mod 0x1000 = 0) by apply TABLE_BASE_aligned.
assert (b = table3 m space virt) as -> by zlia. by apply Hb.
Qed.

Lemma tables_after leaf m space virt flags e :
tree_ok m space leaf →
table1 m space virt ≠ 0 → table2 m space virt ≠ 0 → table3 m space virt ≠ 0 →
same_tables m (map_stores m space virt flags e) space.
Proof.
intros Hok H1 H2 H3. set (m' := map_stores m space virt flags e).
destruct (tree_space _ _ _ Hok virt) as (A1 & A2 & A3 & A4).
specialize (A2 H1). specialize (A3 H1 H2). specialize (A4 H1 H2 H3).
assert (load 8 m' space = load 8 m space) as E0.
{ unfold m', map_stores. rewrite !load_store_ne; [done|unfold apart in *; lia..]. }
split; [done|]. intros v.
pose proof (PML_range v). pose proof (PDPE_range v). pose proof (PDE_range v).
assert (∀ b i, ¬ leaf b → b mod 0x1000 = 0 → 0 <= i < 512 → child m' b i = child m b i) as Hchild.
{ intros b i Hb Hbm Hi. eapply child_after; [done..|]. by eapply upper_slot. }
assert (table1 m' space v = table1 m space v) as E1.
{ unfold table1. rewrite E0. apply Hchild; [apply Hok|apply Hok|done]. }
split; [done|]. intros N1. destruct (tree_leaf _ _ _ Hok v N1) as [K1 K2].
assert (table2 m' space v = table2 m space v) as E2.
{ unfold table2. rewrite E1. apply Hchild; [done|apply TABLE_BASE_aligned|done]. }
split; [done|]. intros N2. unfold table3. rewrite E2. apply Hchild; [by apply K2|apply TABLE_BASE_aligned|done].
Qed.

(** The translation of every page after [mapPage]. *)
Lemma translate_after leaf m space virt flags e v :
tree_ok m space leaf →
table1 m space virt ≠ 0 → table2 m space virt ≠ 0 → table3 m space virt ≠ 0 →
0 <= e < 2 ^ 64 →
translate (map_stores m space virt flags e) space v =
  if decide (table1 m space v ≠ 0 ∧ table2 m space v ≠ 0 ∧ table3 m space v ≠ 0 ∧
             pte_slot m space v = pte_slot m space virt)
  then TABLE_BASE e else translate m space v.
Proof.
intros Hok H1 H2 H3 He. destruct (tables_after leaf m space virt flags e Hok H1 H2 H3) as [E0 HE].
set (m' := map_stores m space virt flags e) in *. destruct (HE v) as (E1 & HE1). unfold translate. rewrite E1.
destruct (Z.eqb_spec (table1 m space v) 0) as [Z1|N1]; [by rewrite decide_False by tauto|].
destruct (HE1 N1) as [E2 HE2]. rewrite E2.
destruct (Z.eqb_spec (table2 m space v) 0) as [Z2|N2]; [by rewrite decide_False by tauto|].
rewrite (HE2 N2). destruct (Z.eqb_spec (table3 m space v) 0) as [Z3|N3]; [by rewrite decide_False by tauto|].
unfold pte_slot at 1. rewrite (HE2 N2). fold (pte_slot m space v). case_decide as Hd.
- destruct Hd as (_ & _ & _ & ->). unfold m', map_stores. rewrite load_store_8. by wrap.
- change (child m' (table3 m space v) (PTE_ENTRY v) = child m (table3 m space v) (PTE_ENTRY v)).
  eapply child_after; [done..|apply TABLE_BASE_aligned|]. change (pte_slot m space v ≠ pte_slot m space virt). tauto.
Qed.

(** C5: mapping a page whose tables exist returns true; the page then translates
  to the frame it was given, or to the frame with bit 12 set when the memory
  type uses the PAT bit (UC, WB, WT); every page with another page table entry
  translates as before. *)
Theorem mapPage_translates fuel space phys virt flags leaf s :
tree_ok (memory s) space leaf →
IS_UNALIGNED phys = false → IS_UNALIGNED virt = false → 0 <= phys < 2 ^ 52 →
table1 (memory s) space virt ≠ 0 → table2 (memory s) space virt ≠ 0 →
table3 (memory s) space virt ≠ 0 →
wp (mapPage fuel space phys virt flags) (λ r s', r = true ∧
  virtToPhysInt space virt s' = Ok (if uses_pat flags then Z.lor 0x1000 phys else phys) s' ∧
  ∀ v, pte_slot (memory s) space v ≠ pte_slot (memory s) space virt →
    virtToPhysInt space v s' = Ok (translate (memory s) space v) s') s.
Proof.
intros Hok Hp Hv Hr H1 H2 H3. eapply wp_eq; [by apply mapPage_run|].
assert (0 <= Z.lor (pte_flags flags) phys < 2 ^ 64) as He
  by (apply lor_bound; [apply pte_flags_range|lia..]).
split; [done|]. split; [|intros v Hne]; rewrite virtToPhysInt_translate; cbn [memory set_memory];
  rewrite (translate_after leaf) by done.
- rewrite decide_True by done. rewrite TABLE_BASE_lor, TABLE_BASE_pte_flags, TABLE_BASE_frame by done.
  by destruct (uses_pat flags).
- by rewrite decide_False by tauto.
Qed.

(** ** Ranges *)

Lemma unaligned_mod a : 0 <= a → IS_UNALIGNED a = negb (a mod 0x1000 =? 0).
Proof. intros Ha. unfold IS_UNALIGNED. change 0xFFF with (Z.ones 12). by rewrite Z.land_ones by lia. Qed.

(** After [k] pages: the tree and its tables are those of [m], the pages below [k]
  translate to their frames, every page that shares no entry with them
  translates as in [m], and nothing but slots of the range, and what [W] allows,
  was written. *)
Record mapped_to (m : gmap Z Z) (space : Z) (frame : Z → Z) (virt : Z) (leaf : Z → Prop) (W : Z → Prop)
  (k : Z) (s : machine) : Prop := {
mt_tree : tree_ok (memory s) space leaf;
mt_tables : same_tables m (memory s) space;
mt_frame : same_on (λ a, ¬ W a ∧ ∀ i x, 0 <= i < k → x ∈ live_slots m space (virt + 0x1000 * i) →
  ¬ (x <= a < x + 8)) m (memory s);
mt_pages i : 0 <= i < k → translate (memory s) space (virt + 0x1000 * i) = frame i;
mt_others v : table1 m space v ≠ 0 → table2 m space v ≠ 0 → table3 m space v ≠ 0 →
  (∀ i, 0 <= i < k → pte_slot m space v ≠ pte_slot m space (virt + 0x1000 * i)) →
  translate (memory s) space v = translate m space v
}.

Lemma map_stores_frame m space virt flags e a :
table1 m space virt ≠ 0 → table2 m space virt ≠ 0 → table3 m space virt ≠ 0 →
(∀ x, x ∈ live_slots m space virt → ¬ (x <= a < x + 8)) →
mbyte (map_stores m space virt flags e) a = mbyte m a.
Proof.
intros N1 N2 N3 Ha. rewrite live_slots_all in Ha by done. unfold map_stores.
pose proof (Ha _ ltac:(left)). pose proof (Ha _ ltac:(right; left)).
pose proof (Ha _ ltac:(right; right; left)). pose proof (Ha _ ltac:(right; right; right; left)).
by rewrite !mbyte_store_ne by lia.
Qed.

Section range.
Variables (m : gmap Z Z) (space : Z) (frame : Z → Z) (virt n flags : Z) (leaf W : Z → Prop).
Hypothesis frame_ok : ∀ i, 0 <= i < n → frame i mod 0x1000 = 0 ∧ 0 <= frame i < 2 ^ 52.
Hypothesis virt_ok : virt mod 0x1000 = 0 ∧ 0 <= virt ∧ virt + 0x1000 * n <= 2 ^ 64.
(** The tables of every page of the range exist and no two pages share an entry. *)
Hypothesis tables : ∀ i, 0 <= i < n → table1 m space (virt + 0x1000 * i) ≠ 0 ∧
  table2 m space (virt + 0x1000 * i) ≠ 0 ∧ table3 m space (virt + 0x1000 * i) ≠ 0.
Hypothesis slots : ∀ i j, 0 <= i < j → j < n →
  pte_slot m space (virt + 0x1000 * i) ≠ pte_slot m space (virt + 0x1000 * j).

Lemma mapPages_step fuel k s :
0 <= k < n → mapped_to m space (λ i, pat_frame flags (frame i)) virt leaf W k s →
wp (mapPage fuel space (frame k) (virt + 0x1000 * k) flags)
  (λ r s', r = true ∧ globals s' = globals s ∧ mapped_to m space (λ i, pat_frame flags (frame i)) virt leaf W (k + 1) s' ∧
    same_on (λ a, ∀ x, x ∈ live_slots m space (virt + 0x1000 * k) → ¬ (x <= a < x + 8))
      (memory s) (memory s')) s.
Proof.
intros Hk [Ht Htab Hfr Hpg Hot]. destruct (tables k Hk) as (T1 & T2 & T3).
destruct (same_tables_all _ _ _ _ Htab T1 T2 T3) as (E1 & E2 & E3). destruct (frame_ok k Hk) as [Fm Fr].
assert (table1 (memory s) space (virt + 0x1000 * k) ≠ 0) as N1 by congruence.
assert (table2 (memory s) space (virt + 0x1000 * k) ≠ 0) as N2 by congruence.
assert (table3 (memory s) space (virt + 0x1000 * k) ≠ 0) as N3 by congruence.
assert (IS_UNALIGNED (frame k) = false ∧ IS_UNALIGNED (virt + 0x1000 * k) = false) as [Up Uv].
{ rewrite !unaligned_mod by lia. split; apply negb_false_iff, Z.eqb_eq; zlia. }
eapply wp_eq; [by apply mapPage_run|]. split; [done|]. split; [done|].
set (e := Z.lor (pte_flags flags) (frame k)).
assert (0 <= e < 2 ^ 64) as He by (apply lor_bound; [apply pte_flags_range|lia..]).
assert (TABLE_BASE e = pat_frame flags (frame k)) as Eb.
{ unfold e, pat_frame. rewrite TABLE_BASE_lor, TABLE_BASE_pte_flags, TABLE_BASE_frame by done. by destruct (uses_pat flags). }
pose proof (tables_after leaf _ _ _ flags e Ht N1 N2 N3) as Haft. cbn [memory set_memory].
assert (∀ a, (∀ x, x ∈ live_slots m space (virt + 0x1000 * k) → ¬ (x <= a < x + 8)) →
  mbyte (map_stores (memory s) space (virt + 0x1000 * k) flags e) a = mbyte (memory s) a) as Hst.
{ intros a Ha. apply map_stores_frame; [done..|]. intros x Hx. apply Ha.
  by rewrite (live_slots_same _ _ _ _ Htab) in Hx. }
split; [|exact Hst]. split; cbn [memory set_memory].
- by eapply tree_ok_same.
- by eapply same_tables_trans.
- intros a [HW Ha]. rewrite <- (Hfr a) by (split; [done|]; intros i x Hi; apply Ha; lia).
  apply Hst. intros x Hx. apply (Ha k x); [lia|done].
- intros i Hi. rewrite (translate_after leaf) by done.
  destruct (decide (i = k)) as [->|Hne]; [by rewrite decide_True by done|].
  destruct (tables i ltac:(lia)) as (I1 & I2 & I3).
  destruct (same_tables_all _ _ _ _ Htab I1 I2 I3) as (_ & _ & Ei).
  rewrite decide_False; [apply Hpg; lia|]. unfold pte_slot. rewrite Ei, E3. intros (_ & _ & _ & E).
  apply (slots i k) in E; lia.
- intros v M1 M2 M3 Hv. rewrite (translate_after leaf) by done.
  destruct (same_tables_all _ _ _ _ Htab M1 M2 M3) as (_ & _ & Ev).
  rewrite decide_False; [apply Hot; [done..|]; intros i Hi; apply Hv; lia|].
  unfold pte_slot at 1 2. rewrite Ev, E3. intros (_ & _ & _ & E). apply (Hv k) in E; [done|lia].
Qed.

Lemma mapped_to_0 s : memory s = m → tree_ok m space leaf → mapped_to m space frame virt leaf W 0 s.
Proof. intros Hm Ht. split; rewrite ?Hm; [done|done|done|lia|done]. Qed.
End range.

(** The pages of a range that is mapped with [mapPages]. *)
Lemma mapPages_ok fuel m space phys virt n flags leaf s :
phys mod 0x1000 = 0 ∧ 0 <= phys ∧ phys + 0x1000 * n <= 2 ^ 52 →
virt mod 0x1000 = 0 ∧ 0 <= virt ∧ virt + 0x1000 * n <= 2 ^ 64 →
(∀ i, 0 <= i < n → table1 m space (virt + 0x1000 * i) ≠ 0 ∧
  table2 m space (virt + 0x1000 * i) ≠ 0 ∧ table3 m space (virt + 0x1000 * i) ≠ 0) →
(∀ i j, 0 <= i < j → j < n →
  pte_slot m space (virt + 0x1000 * i) ≠ pte_slot m space (virt + 0x1000 * j)) →
memory s = m → tree_ok m space leaf → 0 <= n < 2 ^ 20 →
wp (mapPages fuel space phys virt flags n)
  (λ _ s', mapped_to m space (λ i, pat_frame flags (phys + 0x1000 * i)) virt leaf (λ _, False) n s') s.
Proof.
intros (Pm & Pp & Pn) (Vm & Vp & Vn) Htab Hsl Hm Ht Hn. unfold mapPages. rewrite !unaligned_mod by lia.
rewrite Pm, Vm. cbn [Z.eqb negb orb].
apply (wp_for_range (mapped_to m space (λ i, pat_frame flags (phys + 0x1000 * i)) virt leaf (λ _, False)));
  [lia| |done|by apply mapped_to_0].
intros b s1 Hb HI. rewrite !(Z.mul_comm b). rewrite (u32_id (0x1000 * b)), !u64_id by lia.
wp_step. eapply wp_mono.
- apply (mapPages_step m space (λ i, phys + 0x1000 * i) virt n flags leaf (λ _, False)); try done.
  intros i Hi. split; zlia.
- intros r s2 (-> & _ & H2 & _). by destruct (has _ _).
Qed.

(** C6: [mapPages] maps a whole range whose tables exist: afterwards every page of
  the range translates to its own frame, the first page to the first, with bit 12 of
  the frame set when the memory type uses the PAT bit (UC, WB, WT), and a page
  that shares no page table entry with the range translates as before. *)
Theorem mapPages_translates fuel space phys virt n flags leaf s :
tree_ok (memory s) space leaf → 0 <= n < 2 ^ 20 →
phys mod 0x1000 = 0 ∧ 0 <= phys ∧ phys + 0x1000 * n <= 2 ^ 52 →
virt mod 0x1000 = 0 ∧ 0 <= virt ∧ virt + 0x1000 * n <= 2 ^ 64 →
(∀ i, 0 <= i < n → table1 (memory s) space (virt + 0x1000 * i) ≠ 0 ∧
  table2 (memory s) space (virt + 0x1000 * i) ≠ 0 ∧ table3 (memory s) space (virt + 0x1000 * i) ≠ 0) →
(∀ i j, 0 <= i < j → j < n →
  pte_slot (memory s) space (virt + 0x1000 * i) ≠ pte_slot (memory s) space (virt + 0x1000 * j)) →
wp (mapPages fuel space phys virt flags n) (λ _ s',
  (∀ i, 0 <= i < n → virtToPhysInt space (virt + 0x1000 * i) s' = Ok (pat_frame flags (phys + 0x1000 * i)) s') ∧
  ∀ v, table1 (memory s) space v ≠ 0 → table2 (memory s) space v ≠ 0 → table3 (memory s) space v ≠ 0 →
    (∀ i, 0 <= i < n → pte_slot (memory s) space v ≠ pte_slot (memory s) space (virt + 0x1000 * i)) →
    virtToPhysInt space v s' = Ok (translate (memory s) space v) s') s.
Proof.
intros Ht Hn Hp Hv Htab Hsl.
eapply wp_mono; [by apply (mapPages_ok fuel (memory s) space phys virt n flags leaf)|].
intros [] s' [_ _ _ Hpg Hot]. split.
- intros i Hi. by rewrite virtToPhysInt_translate, Hpg.
- intros v V1 V2 V3 Hne. by rewrite virtToPhysInt_translate, Hot.
Qed.

(** without [PAGE_FLAG_MAKE] a page whose tables are missing is not mapped and
  memory does not change. *)
Theorem mapPage_missing_table fuel space phys virt flags s :
IS_UNALIGNED phys = false → IS_UNALIGNED virt = false →
has flags PAGE_FLAG_MAKE = false →
table1 (memory s) space virt = 0 ∨ table2 (memory s) space virt = 0 ∨
table3 (memory s) space virt = 0 →
mapPage fuel space phys virt flags s = Ok false s.
Proof.
intros Hp Hv Hm Hmiss. unfold mapPage. rewrite Hp, Hv, Hm. cbn [orb]. mstep.
assert (∀ slot, TABLE_BASE (load 8 (memory s) slot) = 0 →
  next_table fuel slot false s = Ok None s) as Hnone.
{ intros slot E. unfold next_table. run. by rewrite E. }
destruct (decide (table1 (memory s) space virt = 0)) as [Z1|N1].
{ by rewrite (bind_ok _ _ _ _ _ (Hnone _ Z1)). }
rewrite (bind_ok _ _ _ _ _ (next_table_present _ _ _ _ N1)).
destruct (decide (table2 (memory s) space virt = 0)) as [Z2|N2].
{ by rewrite (bind_ok _ _ _ _ _ (Hnone _ Z2)). }
rewrite (bind_ok _ _ _ _ _ (next_table_present _ _ _ _ N2)).
assert (table3 (memory s) space virt = 0) as Z3 by tauto.
by rewrite (bind_ok _ _ _ _ _ (Hnone _ Z3)).
Qed.

(** ** The frames for page tables *)

(** [growPageStack] pushes one frame more than it allocated: the stack ends
  with the address just past the allocation. *)
Theorem growPageStack_pushes_past_end s s1 s2 phys sz v stk b cap items :
allocPhys 409600 0 0 s = Ok (phys, sz) s1 → phys ≠ 0xFFF → 0 <= sz → 0 <= phys →
phys + sz < 2 ^ 64 → vmallocPhys phys sz 3 17 s1 = Ok v s2 → v ≠ 0 →
globals s2 g_pageFrames = stk → dstack_rep (memory s2) stk b cap items →
8 * Z.of_nat (length items) + 8 * (sz / 0x1000 + 1) <= cap →
wp growPageStack (λ _ s', dstack_rep (memory s') stk b cap
  (items ++ ((λ k, phys + 0x1000 * k) <$> seqZ 0 (sz / 0x1000 + 1)))) s.
Proof.
intros Ha Hne Hsz Hph Hb Hv Hvn Hg Hrep Hcap. unfold growPageStack. wp_step.
eapply wp_eq; [exact Ha|]. cbv beta iota. rewrite eqb_false by done. wp_step. eapply wp_eq; [exact Hv|].
rewrite eqb_false by done.
apply (wp_for_range (λ i s', globals s' g_pageFrames = stk ∧
  dstack_rep (memory s') stk b cap (items ++ ((λ k, phys + 0x1000 * k) <$> seqZ 0 i)))).
- zlia.
- intros k s' Hk (Hg' & Hr'). wp_steps. rewrite Hg'.
  eapply wp_mono; [eapply pushStack_rep; [exact Hr'| |apply u64_range]|].
  + rewrite length_app, length_fmap, length_seqZ. zlia.
  + intros [] s'' (m' & -> & Hr'' & _). split; [done|]. cbn [memory set_memory].
    rewrite u64_id in Hr'' by zlia.
    rewrite seqZ_app, fmap_app, app_assoc by lia. exact Hr''.
- intros s' [_ Hr']. exact Hr'.
- split; [done|]. cbn. by rewrite app_nil_r.
Qed.
End map.

(** ** Witnesses: one mapped page, tables at 0x1000 to 0x4000 *)

Definition tables4 : gmap Z Z :=
  store 8 (store 8 (store 8 (store 8 ∅ 0x100 0x1000) 0x1000 0x2003) 0x2000 0x3003) 0x3000 0x4003.
Definition paged : machine := set_memory tables4 machine0.

Lemma load_empty n a : load n ∅ a = 0.
Proof.
  revert a. induction n as [|n IH]; intros a; [done|].
  change (load (S n) ∅ a) with (mbyte ∅ a + 256 * load n ∅ (a + 1)). by rewrite IH.
Qed.

Lemma child_tables4 b i :
  b = 0x1000 ∨ b = 0x2000 ∨ b = 0x3000 → 0 <= i < 512 →
  child tables4 b i = if i =? 0 then b + 0x1000 else 0.
Proof.
  intros Hb Hi. destruct (Z.eqb_spec i 0) as [->|Hne].
  - by destruct Hb as [->|[->| ->]]; vm_compute.
  - unfold child, tables4. rewrite !load_store_ne by lia. by rewrite load_empty.
Qed.

Lemma paged_tree_ok : tree_ok (memory paged) 0x100 (eq 0x4000).
Proof.
  cbn [memory paged set_memory].
  assert (load 8 tables4 0x100 = 0x1000) as E0 by by vm_compute.
  assert (∀ v, table1 tables4 0x100 v = 0x2000 ∨ table1 tables4 0x100 v = 0) as E1.
  { intros v. unfold table1. rewrite E0, child_tables4 by (auto || apply PML_range).
    case_match; auto. }
  assert (∀ v, table1 tables4 0x100 v ≠ 0 →
    table1 tables4 0x100 v = 0x2000 ∧
    (table2 tables4 0x100 v = 0x3000 ∨ table2 tables4 0x100 v = 0)) as E2.
  { intros v N1. destruct (E1 v) as [E|]; [|done]. unfold table2. rewrite E.
    rewrite child_tables4 by (auto || apply PDPE_range). case_match; auto. }
  assert (∀ v, table1 tables4 0x100 v ≠ 0 → table2 tables4 0x100 v ≠ 0 →
    table2 tables4 0x100 v = 0x3000 ∧
    (table3 tables4 0x100 v = 0x4000 ∨ table3 tables4 0x100 v = 0)) as E3.
  { intros v N1 N2. destruct (E2 v N1) as [_ [E|]]; [|done]. unfold table3. rewrite E.
    rewrite child_tables4 by (auto || apply PDE_range). case_match; auto. }
  split; rewrite ?E0; [done|done| |].
  - intros v N1. destruct (E2 v N1) as [-> _]. split; [done|]. intros N2.
    destruct (E3 v N1 N2) as [-> E]. split; [done|]. intros N3. by destruct E.
  - intros v. unfold apart, pte_slot. pose proof (PML_range v). pose proof (PDPE_range v).
    pose proof (PDE_range v). pose proof (PTE_range v). split_and!.
    + lia.
    + intros N1. destruct (E2 v N1) as [-> _]. lia.
    + intros N1 N2. destruct (E3 v N1 N2) as [-> _]. lia.
    + intros N1 N2 N3. destruct (E3 v N1 N2) as [_ [->|]]; [lia|done].
Qed.

Section map_witness.
#[local] Instance no_heap : HeapOps :=
{| kmalloc _ := mret 0; kmallocAligned _ := mret 0; kfree _ := mret tt; krealloc _ _ := mret 0 |}.
#[local] Instance phys_const : PhysOps :=
{| allocPhys _ _ _ := mret (0x100000, 0x2000); freeNPhys _ _ := mret tt |}.
#[local] Instance vmphys_const : VmemPhysOps := {| vmallocPhys _ _ _ _ := mret 0x40000000 |}.

(** Mapping page 5 of the table write-back: it translates to the frame above. *)
Lemma mapPage_translates_witness :
wp (mapPage 5 0x100 0xA0000 0x5000 PAGE_FLAG_WB) (λ r s', r = true ∧
  virtToPhysInt 0x100 0x5000 s' =
    Ok (if uses_pat PAGE_FLAG_WB then Z.lor 0x1000 0xA0000 else 0xA0000) s' ∧
  ∀ v, pte_slot (memory paged) 0x100 v ≠ pte_slot (memory paged) 0x100 0x5000 →
    virtToPhysInt 0x100 v s' = Ok (translate (memory paged) 0x100 v) s') paged.
Proof.
apply (mapPage_translates 5 0x100 0xA0000 0x5000 PAGE_FLAG_WB (eq 0x4000));
  [apply paged_tree_ok|done|done|done|by vm_compute..].
Defined.

(** Three pages of the same table, write-back. *)
Lemma mapPages_translates_witness :
  wp (mapPages 5 0x100 0xA0000 0x5000 PAGE_FLAG_WB 3) (λ _ s',
    (∀ i, 0 <= i < 3 → virtToPhysInt 0x100 (0x5000 + 0x1000 * i) s' = Ok (pat_frame PAGE_FLAG_WB (0xA0000 + 0x1000 * i)) s') ∧
    ∀ v, table1 (memory paged) 0x100 v ≠ 0 → table2 (memory paged) 0x100 v ≠ 0 → table3 (memory paged) 0x100 v ≠ 0 →
      (∀ i, 0 <= i < 3 → pte_slot (memory paged) 0x100 v ≠ pte_slot (memory paged) 0x100 (0x5000 + 0x1000 * i)) →
      virtToPhysInt 0x100 v s' = Ok (translate (memory paged) 0x100 v) s') paged.
Proof.
  apply (mapPages_translates 5 0x100 0xA0000 0x5000 3 PAGE_FLAG_WB (eq 0x4000));
    [apply paged_tree_ok|lia|split_and!; done|split_and!; done|..].
  - intros i Hi. assert (i = 0 ∨ i = 1 ∨ i = 2) as [-> | [-> | ->]] by lia; by split_and!; vm_compute.
  - intros i j Hi Hj. assert ((i = 0 ∧ j = 1) ∨ (i = 0 ∧ j = 2) ∨ (i = 1 ∧ j = 2)) as Hc by lia.
    destruct Hc as [[-> ->]|[[-> ->]|[-> ->]]]; by vm_compute.
Defined.

Lemma mapPage_missing_table_witness : mapPage 5 0x100 0xA0000 0x8000000000 0 paged = Ok false paged.
Proof. apply mapPage_missing_table; [done|done|done|left; by vm_compute]. Defined.

(** An empty stack of ten items at 0x8000. *)
Definition paged_stack : machine :=
set_global g_pageFrames 0x8000
  (set_memory (store 8 (store 8 (store 8 ∅ 0x8000 0x9000) 0x8008 0x9000) 0x8010 80) machine0).

Lemma growPageStack_pushes_past_end_witness :
wp growPageStack (λ _ s', dstack_rep (memory s') 0x8000 0x9000 80
  ([] ++ ((λ k, 0x100000 + 0x1000 * k) <$> seqZ 0 (0x2000 / 0x1000 + 1)))) paged_stack.
Proof.
apply (growPageStack_pushes_past_end paged_stack paged_stack paged_stack 0x100000 0x2000 0x40000000
         0x8000 0x9000 80 []); try done.
split; [by vm_compute..|by intros i x|done|left; done|done].
Defined.
End map_witness.
