(* ===== verification/Kcache.v ===== *)
(** * kcache.c: the slab allocator

    A [kcache] is 64 bytes ([flags] 0, [name] 8, [objSize] 16, [align] 24, [type]
    26, [slabs] 32, [constructor] 40, [destructor] 48, [lock] 56), a [kslab] 72
    bytes ([flags] 0, [references] 4, [size] 8, [bufferCount] 16, [phys] 24,
    [virt] 32, [prev] 40, [next] 48, [bitmap] 56, [lock] 64).  A slab's bitmap
    has one bit per buffer. *)

From S2P Require Import Prelude Kmonad Mem Libc Heap.

Record kslab := Kslab {
  ks_flags : Z; ks_references : Z; ks_size : Z; ks_bufferCount : Z; ks_phys : Z;
  ks_virt : Z; ks_prev : Z; ks_next : Z; ks_bitmap : Z; ks_lock : Z
}.
Definition read_slab (m : gmap Z Z) (a : Z) : kslab :=
  Kslab (load 4 m a) (load 2 m (a + 4)) (load 8 m (a + 8)) (load 4 m (a + 16)) (load 8 m (a + 24))
        (load 8 m (a + 32)) (load 8 m (a + 40)) (load 8 m (a + 48)) (load 8 m (a + 56)) (load 1 m (a + 64)).
Record kcache := Kcache {
  kc_flags : Z; kc_name : Z; kc_objSize : Z; kc_align : Z; kc_type : Z; kc_slabs : Z;
  kc_constructor : Z; kc_destructor : Z; kc_lock : Z
}.
Definition read_cache (m : gmap Z Z) (a : Z) : kcache :=
  Kcache (load 8 m a) (load 8 m (a + 8)) (load 8 m (a + 16)) (load 2 m (a + 24)) (load 1 m (a + 26))
         (load 8 m (a + 32)) (load 8 m (a + 40)) (load 8 m (a + 48)) (load 1 m (a + 56)).

Definition KCACHE_VALID_FLAGS : Z := 0x0F.
Definition KCACHE_FLAG_NO_WAIT : Z := 2 ^ 2.
Definition KCACHE_FLAG_NO_MAP : Z := 2 ^ 3.

Section kcache.
Context {HO : HeapOps} {PO : PhysOps} {VO : VmemPhysOps} {VM : VmemOps} {KS : KernelSyms}.

Definition carveSlab (cache virt phys slabsz : Z) : M machine Z :=
slab ← kmalloc 72;
if slab =? 0 then mret 0
else
  _ ← st 4 slab 0;
  _ ← st 2 (slab + 4) 0;
  _ ← st 8 (slab + 8) slabsz;
  _ ← st 8 (slab + 24) phys;
  _ ← st 8 (slab + 32) virt;
  _ ← st 8 (slab + 40) 0;
  _ ← st 8 (slab + 48) 0;
  size ← ld 8 (slab + 8);
  objSize ← ld 8 (cache + 16);
  if objSize =? 0 then fail DivideByZero
  else
    _ ← st 4 (slab + 16) (size / objSize);
    bufferCount ← ld 4 (slab + 16);
    let n := bufferCount / 64 in
    let n := if n =? 0 then 1 else n in
    bitmap ← kmalloc (8 * n);
    _ ← st 8 (slab + 56) bitmap;
    bitmap ← ld 8 (slab + 56);
    _ ← memset bitmap 0 (8 * n);
    _ ← free_lock_at (slab + 64);
    mret slab.

(** VFLAG_MAKE|VFLAG_WRITE is 17. *)
Definition newSlabPhys (cache phys physSz : Z) : M machine Z :=
flags ← ld 8 cache;
virt ← (if Z.land flags KCACHE_FLAG_NO_MAP =? 0 then vmallocPhys phys physSz 1 17 else mret 0);
if (Z.land flags KCACHE_FLAG_NO_MAP =? 0) && (virt =? 0) then mret 0
else
  slab ← carveSlab cache virt phys physSz;
  if slab =? 0 then _ ← vmFree virt; mret 0 else mret slab.

Definition newSlab (cache count : Z) : M machine Z :=
objSize ← ld 8 (cache + 16);
type ← ld 1 (cache + 26);
'(phys, sz) ← allocPhys (u64 (objSize * count)) type (if type =? 0 then 0 else 1);
if phys =? 0xFFF then mret 0
else
  nslb ← newSlabPhys cache phys sz;
  _ ← (if nslb =? 0 then freeNPhys phys sz else mret tt);
  mret nslb.

Definition fillCacheDetails (fuel : nat) (cache name objSize align type flags ctor dtor : Z)
  : M machine unit :=
_ ← st 8 cache (Z.land flags KCACHE_VALID_FLAGS);
len ← strlen fuel name;
p ← kmalloc (u64 (len + 1));
_ ← st 8 (cache + 8) p;
p ← ld 8 (cache + 8);
_ ← (if p =? 0 then st 8 (cache + 8) name else _ ← strcpy fuel p name; mret tt);
_ ← st 8 (cache + 32) 0;
_ ← st 8 (cache + 16) objSize;
_ ← st 8 (cache + 40) (if ctor =? 0 then sym_slabConstructor else ctor);
_ ← st 8 (cache + 48) (if dtor =? 0 then sym_slabDestructor else dtor);
_ ← st 1 (cache + 26) type;
free_lock_at (cache + 56).

(** The search of [allocateBuffer]: [checked] and [b] at the free buffer found. *)
Definition find_buffer (bitmap bufferCount : Z) : M machine (option (Z * Z)) :=
iter (S (Z.to_nat bufferCount)) (λ '(checked, b),
  if negb (checked <? bufferCount) then mret (inr None)
  else
    let i := checked / 64 in
    let b := if b =? 64 then 0 else b in
    w ← ld 8 (bitmap + 8 * i);
    bit ← int_bit b;
    mret (if negb (Z.land w (u64 bit) =? 0) then inl (u32 (checked + 1), b + 1)
          else inr (Some (i, b)))) (0, 0).

Definition allocateBuffer (cache slab : Z) : M machine Z :=
_ ← get_lock_at (slab + 64);
bufferCount ← ld 4 (slab + 16);
references ← ld 2 (slab + 4);
if bufferCount =? references then _ ← free_lock_at (slab + 64); mret 0
else
  bitmap ← ld 8 (slab + 56);
  r ← find_buffer bitmap bufferCount;
  match r with
  | None => _ ← free_lock_at (slab + 64); mret 0
  | Some (i, b) =>
      objSize ← ld 8 (cache + 16);
      virt ← ld 8 (slab + 32);
      let ptr := u64 (u64 (u32 (i * 64 + b) * objSize) + virt) in
      bit ← int_bit b;
      bitmap ← ld 8 (slab + 56);
      w ← ld 8 (bitmap + 8 * i);
      _ ← st 8 (bitmap + 8 * i) (Z.lor w (u64 bit));
      references ← ld 2 (slab + 4);
      _ ← st 2 (slab + 4) (references + 1);
      _ ← free_lock_at (slab + 64);
      mret ptr
  end.

(** The search of [kcacheAlloc]: the first slab with a buffer to spare, or 0. *)
Definition find_slab (fuel : nat) (slabs : Z) : M machine Z :=
iter fuel (λ chosen,
  if chosen =? 0 then mret (inr 0)
  else
    bufferCount ← ld 4 (chosen + 16);
    references ← ld 2 (chosen + 4);
    if bufferCount >? references then mret (inr chosen)
    else next ← ld 8 (chosen + 48); mret (inl next)) slabs.

Definition kcacheAlloc_ (fuel : nat) (cache flags : Z) : M machine Z :=
_ ← get_lock_at (cache + 56);
slabs ← ld 8 (cache + 32);
chosen ← find_slab fuel slabs;
chosen ← (if chosen =? 0 then
    chosen ← newSlab cache 10;
    if chosen =? 0 then mret 0
    else
      slabs ← ld 8 (cache + 32);
      _ ← st 8 (chosen + 48) slabs;
      _ ← st 8 (cache + 32) chosen;
      next ← ld 8 (chosen + 48);
      _ ← (if negb (next =? 0) then st 8 (next + 40) chosen else mret tt);
      mret chosen
  else mret chosen);
if chosen =? 0 then _ ← free_lock_at (cache + 56); mret 0
else
  ptr ← allocateBuffer cache chosen;
  _ ← free_lock_at (cache + 56);
  mret ptr.

Definition kcacheFree (cache ptr : Z) : M machine unit := mret tt.
Definition kcacheDestroy (cache : Z) : M machine unit := mret tt.
Definition kcacheReap (cache : Z) : M machine unit := mret tt.
Definition freeSlab (slab : Z) : M machine unit := mret tt.

Definition kcacheCreate_ (fuel : nat) (name objSize align type flags ctor dtor : Z) : M machine Z :=
cache ← kcacheAlloc_ fuel sym_internalkcacheCache 0;
if cache =? 0 then mret 0
else _ ← fillCacheDetails fuel cache name objSize align type flags ctor dtor; mret cache.

Definition kcacheGrow (cache : Z) : M machine unit :=
slab ← newSlab cache 10;
_ ← kassert (negb (slab =? 0)) "NULL slab";
slabs ← ld 8 (cache + 32);
_ ← st 8 (slab + 48) slabs;
st 8 (cache + 32) slab.

(** The name passed is the address of the pointer [kcName], not the string. *)
Definition initSLAB (fuel : nat) : M machine unit :=
fillCacheDetails fuel sym_internalkcacheCache sym_kcName 64 0 0 0 0 0.

Definition createVMarkerCache (fuel : nat) (name objSize align type flags ctor dtor : Z) : M machine Z :=
cache ← kmalloc 64;
if cache =? 0 then fail (Panic "Failed to allocate VMM cache")
else
  _ ← fillCacheDetails fuel cache name objSize align type flags ctor dtor;
  ptr ← kmallocAligned 0x1000;
  slab ← carveSlab cache ptr 0 0x1000;
  _ ← st 8 (cache + 32) slab;
  slab ← ld 8 (cache + 32);
  _ ← kassert (negb (slab =? 0)) "Failed to carve slab";
  mret cache.

(** ** Properties *)

(** The word [0x1<<b] is or'ed to the bitmap: an [int], so that for 31 it sets the
    bits 31 to 63. *)
Definition bit_word (b : Z) : Z := if b =? 31 then 0xFFFFFFFF80000000 else 2 ^ b.

Lemma bit_word_range b : 0 <= b <= 31 → 0 < bit_word b < 2 ^ 64.
Proof.
intros Hb. unfold bit_word. destruct (Z.eqb_spec b 31); [lia|].
split; [lia|apply Z.pow_lt_mono_r; lia].
Qed.

Lemma int_bit_word b (s : machine) : 0 <= b <= 31 → ∃ v, int_bit b s = Ok v s ∧ u64 v = bit_word b.
Proof.
intros Hb. unfold int_bit, bit_word. destruct (Z.eqb_spec b 31) as [->|Hne]; [by eexists|].
exists (2 ^ b). rewrite leb_true, ltb_true by lia. split; [done|].
apply u64_id. split; [lia|apply Z.pow_lt_mono_r; lia].
Qed.

(** A set bit below 31 is one of the words [0x1<<b] seen by the test. *)
Lemma bit_word_taken w b : 0 <= b <= 31 → Z.testbit w b = true → Z.land w (bit_word b) ≠ 0.
Proof.
intros Hb Hw E. assert (Z.testbit (Z.land w (bit_word b)) b = true) as Ht; [|by rewrite E, Z.bits_0 in Ht].
rewrite Z.land_spec, Hw. unfold bit_word. destruct (Z.eqb_spec b 31) as [->|]; [done|].
by rewrite Z.pow2_bits_true by lia.
Qed.

(** One round of the search. *)
Lemma buffer_round_ok s bitmap n k :
0 <= k <= 31 → k < n →
(let i := k / 64 in
 let b := if k =? 64 then 0 else k in
 w ← ld 8 (bitmap + 8 * i);
 bit ← int_bit b;
 mret (if negb (Z.land w (u64 bit) =? 0) then inl (u32 (k + 1), b + 1) else inr (Some (i, b)))) s =
Ok (if Z.land (load 8 (memory s) bitmap) (bit_word k) =? 0 then inr (Some (0, k)) else inl (k + 1, k + 1)) s.
Proof.
intros Hk Hn. rewrite (eqb_false k 64) by lia. cbv zeta.
replace (k / 64) with 0 by zlia. rewrite Z.mul_0_r, Z.add_0_r. mstep.
destruct (int_bit_word k s Hk) as (v & Ev & <-). rewrite (bind_ok _ _ _ _ _ Ev), u32_id by lia.
by destruct (_ =? 0).
Qed.

(** The search stops at the lowest clear bit. *)
Lemma find_buffer_ok s bitmap n w b :
load 8 (memory s) bitmap = w → 0 <= b <= 31 → b < n → n < 2 ^ 32 →
(∀ j, 0 <= j < b → Z.testbit w j = true) → Z.land w (bit_word b) = 0 →
find_buffer bitmap n s = Ok (Some (0, b)) s.
Proof.
intros Hw Hb Hn Hn2 Hset Hclr. unfold find_buffer.
match goal with |- iter _ ?f _ _ = _ => assert (∀ fuel k, 0 <= k <= b → (Z.to_nat (b - k) < fuel)%nat →
  iter fuel f (k, k) s = Ok (Some (0, b)) s) as Hloop end.
{ induction fuel as [|fuel IH]; intros k Hk Hf; [lia|]. cbn [iter].
  rewrite ltb_true by lia. cbn [negb].
  rewrite (bind_ok _ _ _ _ _ (buffer_round_ok s bitmap n k ltac:(lia) ltac:(lia))), Hw.
  destruct (decide (k = b)) as [->|Hne]; [by rewrite Hclr|].
  rewrite eqb_false by (apply bit_word_taken; [lia|apply Hset; lia]). apply IH; lia. }
apply Hloop; lia.
Qed.

(** [allocateBuffer] on a slab with a free buffer among its first 32 returns
  the lowest one: its address, its bits set, one reference more, the lock free,
  and no other memory changed. *)
Theorem allocateBuffer_lowest_free s cache slab w b :
let m := memory s in
let bitmap := ks_bitmap (read_slab m slab) in
let k := read_slab m slab in
ks_lock k = 0 → ks_references k < ks_bufferCount k → ks_references k < 2 ^ 16 - 1 →
load 8 m bitmap = w → 0 <= b <= 31 → b < ks_bufferCount k →
(∀ j, 0 <= j < b → Z.testbit w j = true) → Z.land w (bit_word b) = 0 →
slab + 72 <= bitmap ∨ bitmap + 8 <= slab →
cache + 64 <= slab ∨ slab + 72 <= cache → cache + 64 <= bitmap ∨ bitmap + 8 <= cache →
b * kc_objSize (read_cache m cache) + ks_virt k < 2 ^ 64 →
wp (allocateBuffer cache slab) (λ ptr s', ∃ m', s' = set_memory m' s ∧
  ptr = ks_virt k + b * kc_objSize (read_cache m cache) ∧
  load 8 m' bitmap = Z.lor w (bit_word b) ∧
  ks_references (read_slab m' slab) = ks_references k + 1 ∧ ks_lock (read_slab m' slab) = 0 ∧
  same_on (λ a, ¬ (slab + 4 <= a < slab + 6) ∧ a ≠ slab + 64 ∧ ¬ (bitmap <= a < bitmap + 8)) m m') s.
Proof.
intros m bitmap k Hl Href Href2 Hw Hb Hbn Hset Hclr Hd1 Hd2 Hd3 Hov.
cbn [k bitmap read_slab ks_lock ks_references ks_bufferCount ks_virt ks_bitmap read_cache kc_objSize] in *.
pose proof (load_4_range m (slab + 16)) as R1. pose proof (load_8_range m (cache + 16)) as R2.
pose proof (load_8_range m (slab + 32)) as R3. pose proof (load_8_range m bitmap) as R4.
pose proof (load_2_range m (slab + 4)) as R5.
fold m in Hl. unfold bitmap in *; cbn [read_slab ks_bitmap] in *.
set (bm := load 8 m (slab + 56)) in *.
unfold allocateBuffer. wp_step. apply wp_get_lock_at; [done|]. wp_steps.
cbn [memory set_memory]. fold m. mem. rewrite eqb_false by lia. fold bm. wp_steps.
cbn [memory set_memory]. mem. fold bm.
set (s1 := set_memory _ s).
assert (load 8 (memory s1) bm = w) as Hw1 by (cbn [memory s1 set_memory]; fold m; mem; done).
eapply wp_eq.
{ apply (find_buffer_ok s1 bm _ w b Hw1); [lia|lia|lia|done|done]. }
cbv beta iota. do 4 wp_step.
destruct (int_bit_word b s1 Hb) as (v & Ev & Hv). wp_step. eapply wp_eq; [exact Ev|]. wp_steps. rewrite Hv.
unfold s1. clear Hw1 Ev s1.
rewrite Z.mul_0_r, Z.add_0_r. cbn [memory set_memory]. fold m. mem. fold bm. mem. rewrite Hw.
pose proof (bit_word_range b Hb) as Hpow.
assert (0 <= Z.lor w (bit_word b) < 2 ^ 64) as Hlor by (apply lor_bound; lia).
eexists. split; [reflexivity|]. split_and!.
- rewrite (u32_id (0 * 64 + b)) by lia. rewrite (u64_id ((0 * 64 + b) * _)) by nia. wrap. lia.
- mem. by wrap.
- mem. unfold u16. rewrite Z.mod_small by lia. done.
- by mem.
- intros a (Ha1 & Ha2 & Ha3). by rewrite !mbyte_store_ne by lia.
Qed.

(** once the first 32 buffers of a slab with more than 32 are in use, the next
  allocation shifts the [int] 1 by 32, which C leaves undefined. *)
Theorem allocateBuffer_undefined_after_32 s cache slab :
let k := read_slab (memory s) slab in
ks_lock k = 0 → 32 < ks_bufferCount k → ks_references k < ks_bufferCount k →
slab + 72 <= ks_bitmap k ∨ ks_bitmap k + 8 <= slab →
(∀ j, 0 <= j < 32 → Z.testbit (load 8 (memory s) (ks_bitmap k)) j = true) →
allocateBuffer cache slab s = Fault UndefinedShift.
Proof.
intros k Hl Hn Href Hd Hset. set (m := memory s) in *.
cbn [k read_slab ks_lock ks_references ks_bufferCount ks_bitmap] in *.
set (bm := load 8 m (slab + 56)) in *. pose proof (load_4_range m (slab + 16)) as R1.
unfold allocateBuffer. unfold get_lock_at at 1. run. fold m. rewrite Hl.
change (Z.testbit 0 0) with false. run. cbn [memory set_memory]. fold m. mem.
rewrite eqb_false by lia. cbn [memory set_memory]. mem. fold bm.
unfold find_buffer.
set (s1 := set_memory _ s).
assert (load 8 (memory s1) bm = load 8 m bm) as Hw1
  by (cbn [memory s1 set_memory]; fold m; mem; done).
match goal with |- context [iter _ ?f _] => assert (∀ fuel k, 0 <= k <= 32 → (Z.to_nat (32 - k) < fuel)%nat →
  iter fuel f (k, k) s1 = Fault UndefinedShift) as Hloop end.
{ induction fuel as [|fuel IH]; intros j Hj Hf; [lia|]. cbn [iter].
  rewrite ltb_true by lia. cbn [negb]. destruct (decide (j = 32)) as [->|Hne].
  - apply bind_fault. change (32 / 64) with 0. rewrite Z.mul_0_r, Z.add_0_r. by mstep.
  - rewrite (bind_ok _ _ _ _ _ (buffer_round_ok s1 bm (load 4 m (slab + 16)) j ltac:(lia) ltac:(lia))), Hw1.
    rewrite eqb_false by (apply bit_word_taken; [lia|apply Hset; lia]). apply IH; lia. }
rewrite Hloop by lia. done.
Qed.
End kcache.

(** ** Witnesses: the slab of 128 buffers that [createVMarkerCache] carves *)

Definition slab_mem (used word : Z) : machine :=
  set_memory (fold_left (λ m '(n, a, v), store n m a v)
    [(8%nat, 0x110, 32); (2%nat, 0x204, used); (4%nat, 0x210, 128); (8%nat, 0x220, 0x8000);
     (8%nat, 0x238, 0x300); (8%nat, 0x300, word)] ∅) machine0.

Section witness.
#[local] Instance no_heap : HeapOps :=
{| kmalloc _ := mret 0; kmallocAligned _ := mret 0; kfree _ := mret tt; krealloc _ _ := mret 0 |}.

Lemma allocateBuffer_lowest_free_witness :
wp (allocateBuffer 0x100 0x200) (λ ptr s', ∃ m', s' = set_memory m' (slab_mem 3 7) ∧
  ptr = 0x8000 + 3 * 32 ∧
  load 8 m' 0x300 = Z.lor 7 (bit_word 3) ∧
  ks_references (read_slab m' 0x200) = 3 + 1 ∧ ks_lock (read_slab m' 0x200) = 0 ∧
  same_on (λ a, ¬ (0x200 + 4 <= a < 0x200 + 6) ∧ a ≠ 0x200 + 64 ∧ ¬ (0x300 <= a < 0x300 + 8))
    (memory (slab_mem 3 7)) m') (slab_mem 3 7).
Proof.
apply (allocateBuffer_lowest_free (slab_mem 3 7) 0x100 0x200 7 3); try by vm_compute.
- intros j Hj. assert (j = 0 ∨ j = 1 ∨ j = 2) as [->|[->| ->]] by lia; done.
- left. by vm_compute.
- left. by vm_compute.
- left. by vm_compute.
Defined.

Lemma allocateBuffer_undefined_after_32_witness :
allocateBuffer 0x100 0x200 (slab_mem 32 (2 ^ 32 - 1)) = Fault UndefinedShift.
Proof.
apply (allocateBuffer_undefined_after_32 (slab_mem 32 (2 ^ 32 - 1)) 0x100 0x200);
  [by vm_compute|by vm_compute|by vm_compute|left; by vm_compute|].
intros j Hj.
replace (load 8 (memory (slab_mem 32 (2 ^ 32 - 1)))
           (ks_bitmap (read_slab (memory (slab_mem 32 (2 ^ 32 - 1))) 0x200)))
  with (Z.ones 32) by by vm_compute.
apply Z.ones_spec_low. lia.
Defined.
End witness.
