(* ===== verification/KcacheProps.v ===== *)
(** * The slab allocator as a bump allocator

    [kcacheFree] is empty, so the buffers of a slab in use are its first ones: a
    cache is a list of slabs with a fill level each ([slab]), and [kcacheAlloc]
    is [alloc_bump] on that list.  [CacheLaws] (Heap.v) is proved of it. *)

From S2P Require Import Prelude Kmonad Mem Heap Kcache.

(** ** Areas of memory *)

(** An area is its first address and its size. *)
Definition separate (x y : Z * Z) : Prop := x.1 + x.2 <= y.1 ∨ y.1 + y.2 <= x.1.
Definition inside (x : Z * Z) (a : Z) : Prop := x.1 <= a < x.1 + x.2.

Fixpoint pairwise_apart (l : list (Z * Z)) : Prop :=
  match l with [] => True | x :: l' => Forall (separate x) l' ∧ pairwise_apart l' end.

Section areas.
Implicit Types (x y : Z * Z) (l : list (Z * Z)).

Lemma apart_sym x y : separate x y → separate y x.
Proof. unfold separate. tauto. Qed.

Lemma apart_inside x y a : separate x y → inside x a → ¬ inside y a.
Proof. unfold separate, inside. lia. Qed.

Lemma pairwise_apart_app l1 l2 :
  pairwise_apart (l1 ++ l2) ↔
  pairwise_apart l1 ∧ pairwise_apart l2 ∧ Forall (λ x, Forall (separate x) l2) l1.
Proof.
  induction l1 as [|x l1 IH]; cbn [app pairwise_apart].
  - split; [|tauto]. intros H. split_and!; [done|done|constructor].
  - rewrite IH, Forall_app, Forall_cons. tauto.
Qed.

(** The parts of a list of pairwise disjoint areas around one of them. *)
Lemma pairwise_apart_middle l1 x l2 :
  pairwise_apart (l1 ++ x :: l2) → Forall (separate x) l1 ∧ Forall (separate x) l2.
Proof.
  rewrite pairwise_apart_app. intros (_ & [H2 _] & H). split; [|done].
  eapply Forall_impl; [exact H|]. intros y Hy. apply apart_sym. by apply Forall_cons in Hy as [? _].
Qed.
End areas.

(** ** The abstract cache *)

Record slab := Slab { sl_addr : Z; sl_bitmap : Z; sl_virt : Z; sl_count : Z; sl_used : Z }.

Definition take_buffer (sl : slab) : slab :=
  Slab (sl_addr sl) (sl_bitmap sl) (sl_virt sl) (sl_count sl) (sl_used sl + 1).

(** The first slab that is not full gives its next buffer; past the 32nd buffer
    of a slab there is no next one ([allocateBuffer_undefined_after_32]). *)
Fixpoint alloc_bump (size : Z) (ls : list slab) : option (Z * list slab) :=
  match ls with
  | [] => None
  | sl :: ls' =>
      if sl_used sl <? sl_count sl then
        if sl_used sl <? 32 then Some (sl_virt sl + sl_used sl * size, take_buffer sl :: ls')
        else None
      else match alloc_bump size ls' with Some (p, l) => Some (p, sl :: l) | None => None end
  end.

(** The buffers in use, as areas. *)
Definition slab_buffers (size : Z) (sl : slab) : list (Z * Z) :=
  (λ k, (sl_virt sl + k * size, size)) <$> seqZ 0 (sl_used sl).
Definition buffers (size : Z) (ls : list slab) : list (Z * Z) := ls ≫= slab_buffers size.

Section bump.
Implicit Types (ls : list slab) (sl : slab).

Lemma alloc_bump_split size ls p ls' :
  alloc_bump size ls = Some (p, ls') →
  ∃ l1 sl l2, ls = l1 ++ sl :: l2 ∧ ls' = l1 ++ take_buffer sl :: l2 ∧
    Forall (λ c, sl_count c <= sl_used c) l1 ∧ sl_used sl < sl_count sl ∧ sl_used sl < 32 ∧
    p = sl_virt sl + sl_used sl * size.
Proof.
  revert p ls'. induction ls as [|sl ls IH]; intros p ls' H; cbn [alloc_bump] in H; [done|].
  destruct (Z.ltb_spec (sl_used sl) (sl_count sl)) as [Hc|Hc].
  - destruct (Z.ltb_spec (sl_used sl) 32) as [H31|]; [|done]. injection H as <- <-.
    exists [], sl, ls. split_and!; [done|done|constructor|lia..].
  - destruct (alloc_bump size ls) as [[q l]|]; [|done]. injection H as <- <-.
    destruct (IH _ _ eq_refl) as (l1 & c & l2 & -> & -> & Hf & Hu). exists (sl :: l1), c, l2.
    split_and!; [done|done|by constructor|apply Hu..].
Qed.

(** Without a next buffer every slab is full, or the first that is not has all of
    its 32 buffers that can be named in use. *)
Definition slab_full (sl : slab) : Prop := sl_count sl <= sl_used sl.
Lemma alloc_bump_none size ls :
  alloc_bump size ls = None →
  Forall slab_full ls ∨
  ∃ l1 sl l2, ls = l1 ++ sl :: l2 ∧ Forall slab_full l1 ∧ 32 <= sl_used sl < sl_count sl.
Proof.
  induction ls as [|sl ls IH]; cbn [alloc_bump]; [by left|].
  destruct (Z.ltb_spec (sl_used sl) (sl_count sl)) as [Hc|Hc].
  - destruct (Z.ltb_spec (sl_used sl) 32) as [H31|]; [done|]. intros _. right.
    exists [], sl, ls. split_and!; [done|constructor|lia..].
  - destruct (alloc_bump size ls) as [[q l]|]; [done|]. intros _.
    destruct (IH eq_refl) as [Hf|(l1 & c & l2 & -> & Hf & Hu)]; [left; by constructor|right].
    exists (sl :: l1), c, l2. split_and!; [done|by constructor|lia..].
Qed.

Lemma slab_buffers_take size sl :
  0 <= sl_used sl →
  slab_buffers size (take_buffer sl) = slab_buffers size sl ++ [(sl_virt sl + sl_used sl * size, size)].
Proof.
  intros H. unfold slab_buffers. cbn [take_buffer sl_virt sl_used].
  rewrite (seqZ_app 0 (sl_used sl) 1), fmap_app by lia. done.
Qed.

Lemma slab_buffers_apart size sl :
  0 <= size → 0 <= sl_used sl → pairwise_apart (slab_buffers size sl).
Proof.
  intros Hs Hu. unfold slab_buffers. generalize 0 at 1 as k. revert Hu.
  generalize (sl_used sl) as n. intros n Hn. revert Hn. apply (natlike_ind (λ n, ∀ k,
    pairwise_apart ((λ k, (sl_virt sl + k * size, size)) <$> seqZ k n))).
  - intros k. done.
  - intros m Hm IH k. rewrite seqZ_cons by lia. cbn [fmap list_fmap pairwise_apart].
    rewrite Z.pred_succ. split; [|apply IH].
    apply Forall_fmap, Forall_forall. intros j Hj%elem_of_seqZ. left. cbn. nia.
Qed.
End bump.

(** ** Caches in memory *)

(** The first word of a bitmap with [u] buffers in use: the 32nd sets the rest of it. *)
Definition used_word (u : Z) : Z := if u =? 32 then Z.ones 64 else Z.ones u.

Lemma used_word_next u : 0 <= u < 32 → Z.lor (used_word u) (bit_word u) = used_word (u + 1).
Proof.
  intros Hu. unfold used_word, bit_word. rewrite (eqb_false u 32) by lia.
  destruct (Z.eqb_spec u 31) as [->|Hne]; [done|]. rewrite eqb_false by lia.
  apply Z.bits_inj'. intros j Hj. rewrite Z.lor_spec, !Z.testbit_ones_nonneg, Z.pow2_bits_eqb by lia.
  apply eq_true_iff_eq. rewrite orb_true_iff, Z.eqb_eq, !Z.ltb_lt. lia.
Qed.

Lemma used_word_free u : 0 <= u < 32 → Z.land (used_word u) (bit_word u) = 0.
Proof.
  intros Hu. unfold used_word, bit_word. rewrite (eqb_false u 32) by lia.
  destruct (Z.eqb_spec u 31) as [->|Hne]; [done|].
  rewrite Z.land_comm, Z.land_ones by lia. apply Z.mod_same. lia.
Qed.

Lemma used_word_set u j : 0 <= u <= 32 → 0 <= j < u → Z.testbit (used_word u) j = true.
Proof. intros Hu Hj. unfold used_word. destruct (u =? 32); apply Z.ones_spec_low; lia. Qed.

(** A slab in memory: the bitmap says which buffers are used. *)
Record slab_rep (m : gmap Z Z) (nxt : Z) (sl : slab) : Prop := {
  sr_pos : 0 < sl_addr sl;
  sr_references : load 2 m (sl_addr sl + 4) = sl_used sl;
  sr_count : load 4 m (sl_addr sl + 16) = sl_count sl;
  sr_virt : load 8 m (sl_addr sl + 32) = sl_virt sl;
  sr_next : load 8 m (sl_addr sl + 48) = nxt;
  sr_bitmap : load 8 m (sl_addr sl + 56) = sl_bitmap sl;
  sr_lock : load 1 m (sl_addr sl + 64) = 0;
  sr_word : load 8 m (sl_bitmap sl) = used_word (sl_used sl);
  sr_used : 0 <= sl_used sl <= sl_count sl ∧ sl_used sl <= 32
}.

Definition snext (ls : list slab) : Z := match ls with [] => 0 | sl :: _ => sl_addr sl end.
Fixpoint schain (m : gmap Z Z) (ls : list slab) : Prop :=
  match ls with [] => True | sl :: ls' => slab_rep m (snext ls') sl ∧ schain m ls' end.

(** The bytes of a cache: the [kcache], and of every slab the [kslab], the first
    word of its bitmap and its buffers. *)
Definition slab_areas (size : Z) (sl : slab) : list (Z * Z) :=
  [(sl_addr sl, 72); (sl_bitmap sl, 8); (sl_virt sl, sl_count sl * size)].
Definition cache_areas (cache size : Z) (ls : list slab) : list (Z * Z) :=
  (cache, 64) :: (ls ≫= slab_areas size).

Record cache_rep (m : gmap Z Z) (cache size : Z) (ls : list slab) : Prop := {
  cr_lock : load 1 m (cache + 56) = 0;
  cr_size : load 8 m (cache + 16) = size;
  cr_slabs : load 8 m (cache + 32) = snext ls;
  cr_chain : schain m ls;
  cr_apart : pairwise_apart (cache_areas cache size ls);
  cr_bounds : Forall (λ sl, 0 < sl_virt sl ∧ sl_virt sl + sl_count sl * size < 2 ^ 64) ls
}.

(** The bookkeeping of a cache: everything but the buffers. *)
Definition bookkeeping (cache : Z) (ls : list slab) (a : Z) : Prop :=
  inside (cache, 64) a ∨ ∃ sl, sl ∈ ls ∧ (inside (sl_addr sl, 72) a ∨ inside (sl_bitmap sl, 8) a).

Section rep.
Implicit Types (m : gmap Z Z) (ls : list slab) (sl : slab).

Lemma slab_rep_ext m m' nxt sl :
  same_on (λ a, inside (sl_addr sl, 72) a ∨ inside (sl_bitmap sl, 8) a) m m' →
  slab_rep m nxt sl → slab_rep m' nxt sl.
Proof.
  intros Hs [H1 H2 H3 H4 H5 H6 H7 H8 H9]. unfold inside in Hs; cbn [fst snd] in Hs.
  split; [done|rewrite <- H2|rewrite <- H3|rewrite <- H4|rewrite <- H5|rewrite <- H6|rewrite <- H7|rewrite <- H8|done];
    (eapply same_on_load; [exact Hs|intros; blia]).
Qed.

Lemma schain_ext m m' ls :
  same_on (λ a, ∃ sl, sl ∈ ls ∧ (inside (sl_addr sl, 72) a ∨ inside (sl_bitmap sl, 8) a)) m m' →
  schain m ls → schain m' ls.
Proof.
  induction ls as [|sl ls IH]; intros Hs; [done|]. intros [H1 H2]. split.
  - eapply slab_rep_ext; [|exact H1]. intros a Ha. apply Hs. exists sl. split; [by left|done].
  - apply IH; [|done]. intros a (c & Hc & Ha). apply Hs. exists c. split; [by right|done].
Qed.

Lemma cache_rep_ext m m' cache size ls :
  same_on (bookkeeping cache ls) m m' → cache_rep m cache size ls → cache_rep m' cache size ls.
Proof.
  intros Hs [H1 H2 H3 H4 H5 H6].
  assert (same_on (λ a, cache <= a < cache + 64) m m') as Hc by (intros a Ha; apply Hs; by left).
  split; [rewrite <- H1|rewrite <- H2|rewrite <- H3| |done|done].
  1-3: eapply same_on_load; [exact Hc|intros; blia].
  eapply schain_ext; [|exact H4]. intros a Ha. apply Hs. by right.
Qed.

Lemma schain_middle m l1 sl l2 : schain m (l1 ++ sl :: l2) → slab_rep m (snext l2) sl.
Proof. induction l1 as [|c l1 IH]; cbn [app schain]; [tauto|]. intros [_ H]. auto. Qed.

(** Changing the fill level of one slab of a chain. *)
Lemma schain_update m m' l1 sl sl' l2 :
  schain m (l1 ++ sl :: l2) → sl_addr sl' = sl_addr sl → slab_rep m' (snext l2) sl' →
  same_on (λ a, ∃ c, c ∈ l1 ++ l2 ∧ (inside (sl_addr c, 72) a ∨ inside (sl_bitmap c, 8) a)) m m' →
  schain m' (l1 ++ sl' :: l2).
Proof.
  intros Hc Ha Hr Hs. induction l1 as [|c l1 IH]; cbn [app schain] in *.
  - split; [done|]. by eapply schain_ext; [|apply Hc].
  - destruct Hc as [H1 H2]. split.
    + replace (snext (l1 ++ sl' :: l2)) with (snext (l1 ++ sl :: l2)) by (destruct l1; done).
      eapply slab_rep_ext; [|exact H1]. intros a Hin. apply Hs. exists c. split; [by left|done].
    + apply IH; [done|]. intros a (d & Hd & Hin). apply Hs. exists d. split; [by right|done].
Qed.

Lemma cache_areas_app cache size l1 sl l2 :
  cache_areas cache size (l1 ++ sl :: l2) =
  (cache_areas cache size l1) ++ (slab_areas size sl) ++ (l2 ≫= slab_areas size).
Proof. unfold cache_areas. rewrite bind_app, bind_cons. done. Qed.

Lemma cache_areas_take cache size l1 sl l2 :
  cache_areas cache size (l1 ++ take_buffer sl :: l2) = cache_areas cache size (l1 ++ sl :: l2).
Proof. by rewrite !cache_areas_app. Qed.

Lemma elem_of_slabs_areas size ls sl x :
  sl ∈ ls → x ∈ slab_areas size sl → x ∈ ls ≫= slab_areas size.
Proof. intros Hs Hx. apply list_elem_of_bind. by exists sl. Qed.

(** The areas of a slab are separate from the cache and from the other slabs. *)
Lemma slab_apart cache size l1 sl l2 x y :
  pairwise_apart (cache_areas cache size (l1 ++ sl :: l2)) → x ∈ slab_areas size sl →
  y = (cache, 64) ∨ (∃ c, c ∈ l1 ++ l2 ∧ y ∈ slab_areas size c) → separate x y.
Proof.
  rewrite cache_areas_app, !pairwise_apart_app. intros (_ & (_ & _ & H2) & H1) Hx Hy.
  rewrite Forall_forall in H1, H2. setoid_rewrite Forall_forall in H1.
  specialize (H2 x Hx). rewrite Forall_forall in H2.
  assert (∀ z, z ∈ cache_areas cache size l1 → separate x z) as H1'.
  { intros z Hz. apply apart_sym, (H1 z Hz). apply elem_of_app. by left. }
  destruct Hy as [->|(c & [Hc|Hc]%elem_of_app & Hy)].
  - apply H1'. left.
  - apply H1'. right. by eapply elem_of_slabs_areas.
  - apply H2. by eapply elem_of_slabs_areas.
Qed.

Lemma slab_apart_self cache size l1 sl l2 :
  pairwise_apart (cache_areas cache size (l1 ++ sl :: l2)) → pairwise_apart (slab_areas size sl).
Proof. rewrite cache_areas_app, !pairwise_apart_app. tauto. Qed.

(** ** The buffers in use *)

Lemma slab_buffers_inside size sl x :
  0 <= size → sl_used sl <= sl_count sl → x ∈ slab_buffers size sl →
  sl_virt sl <= x.1 ∧ x.1 + x.2 <= sl_virt sl + sl_count sl * size ∧ x.2 = size.
Proof.
  intros Hs Hu (k & -> & Hk%elem_of_seqZ)%list_elem_of_fmap. cbn. split_and!; nia.
Qed.

Lemma buffer_inside size ls x :
  0 <= size → Forall (λ sl, sl_used sl <= sl_count sl) ls → x ∈ buffers size ls →
  ∃ sl, sl ∈ ls ∧ sl_virt sl <= x.1 ∧ x.1 + x.2 <= sl_virt sl + sl_count sl * size ∧ x.2 = size.
Proof.
  intros Hs Hu (sl & Hx & Hsl)%list_elem_of_bind. exists sl. split; [done|].
  rewrite Forall_forall in Hu. by apply slab_buffers_inside, Hx; [|apply Hu].
Qed.

(** An area that meets no buffer area of the slabs meets no buffer. *)
Lemma apart_buffers size ls x y :
  0 <= size → Forall (λ sl, sl_used sl <= sl_count sl) ls →
  Forall (λ sl, separate x (sl_virt sl, sl_count sl * size)) ls → y ∈ buffers size ls → separate x y.
Proof.
  intros Hs Hu Ha Hy. destruct (buffer_inside _ _ _ Hs Hu Hy) as (sl & Hsl & H1 & H2 & _).
  rewrite Forall_forall in Ha. specialize (Ha sl Hsl). unfold separate in *. cbn [fst snd] in Ha. lia.
Qed.

(** No two buffers in use overlap. *)
Lemma buffers_apart size ls :
  0 <= size → Forall (λ sl, 0 <= sl_used sl <= sl_count sl) ls →
  pairwise_apart (ls ≫= slab_areas size) → pairwise_apart (buffers size ls).
Proof.
  intros Hs. unfold buffers. induction ls as [|sl ls IH]; [done|]. rewrite !bind_cons.
  intros [Hu Hus]%Forall_cons (_ & H2 & H1)%pairwise_apart_app.
  apply pairwise_apart_app. split_and!; [apply slab_buffers_apart; lia|by apply IH|].
  apply Forall_forall. intros x Hx. apply Forall_forall. intros y Hy.
  destruct (slab_buffers_inside size sl x) as (B1 & B2 & _); [done|lia|done|].
  eapply (apart_buffers size ls); [done|by eapply Forall_impl; [exact Hus|intros ? []]| |done].
  apply Forall_forall. intros c Hc. rewrite Forall_forall in H1.
  assert (separate (sl_virt sl, sl_count sl * size) (sl_virt c, sl_count c * size)) as Hap.
  { specialize (H1 (sl_virt sl, sl_count sl * size)). rewrite Forall_forall in H1. apply H1.
    - do 2 right. by left.
    - eapply elem_of_slabs_areas; [done|]. do 2 right. by left. }
  unfold separate in *. cbn [fst snd] in *. lia.
Qed.

Lemma schain_used m ls : schain m ls → Forall (λ sl, 0 <= sl_used sl <= sl_count sl) ls.
Proof.
  induction ls as [|sl ls IH]; [constructor|]. intros [H1 H2]. constructor; [apply H1|by apply IH].
Qed.

(** The buffers of a slab are separate from the bookkeeping. *)
Lemma virt_apart cache size ls sl c :
  pairwise_apart (cache_areas cache size ls) → sl ∈ ls → c ∈ ls →
  let v := (sl_virt sl, sl_count sl * size) in
  separate v (cache, 64) ∧ separate v (sl_addr c, 72) ∧ separate v (sl_bitmap c, 8).
Proof.
  intros Hap (l1 & l2 & ->)%list_elem_of_split Hc v.
  assert (v ∈ slab_areas size sl) as Hv by (do 2 right; by left).
  pose proof (slab_apart _ _ _ _ _ v (cache, 64) Hap Hv (or_introl eq_refl)) as H0.
  split; [done|].
  assert (c = sl ∨ c ∈ l1 ++ l2) as [->|Hc'].
  { rewrite elem_of_app, elem_of_cons in Hc. rewrite elem_of_app. tauto. }
  - pose proof (slab_apart_self _ _ _ _ _ Hap) as (Hs1 & Hs2 & _).
    apply Forall_cons in Hs1 as [_ [Hs1 _]%Forall_cons]. apply Forall_cons in Hs2 as [Hs2 _].
    split; by apply apart_sym.
  - split; (eapply slab_apart; [exact Hap|exact Hv|]; right; exists c; split; [done|]).
    + left.
    + right. left.
Qed.

Lemma bookkeeping_apart_cache cache size ls c a :
  pairwise_apart (cache_areas cache size ls) → c ∈ ls →
  inside (sl_addr c, 72) a ∨ inside (sl_bitmap c, 8) a → ¬ inside (cache, 64) a.
Proof.
  intros Hap (l1 & l2 & ->)%list_elem_of_split Ha.
  destruct Ha as [Ha|Ha]; (eapply (apart_inside _ (cache, 64) a); [|exact Ha];
    eapply slab_apart; [exact Hap| |by left]); [left|right; left].
Qed.

(** The bookkeeping meets no buffer. *)
Lemma bookkeeping_buffers m cache size ls a x :
  cache_rep m cache size ls → 0 <= size → bookkeeping cache ls a → x ∈ buffers size ls → ¬ inside x a.
Proof.
  intros [_ _ _ Hch Hap _] Hs Ha Hx. pose proof (schain_used _ _ Hch) as Hu.
  destruct (buffer_inside size ls x) as (sl & Hsl & B1 & B2 & _);
    [done|by eapply Forall_impl; [exact Hu|intros ? []]|done|].
  assert (∀ y, separate (sl_virt sl, sl_count sl * size) y → inside y a → ¬ inside x a) as Hk.
  { intros y. unfold separate, inside. cbn [fst snd]. lia. }
  destruct Ha as [Ha|(c & Hc & [Ha|Ha])];
    (eapply Hk; [|exact Ha]); [eapply virt_apart|eapply virt_apart|eapply virt_apart]; done.
Qed.
End rep.

(** ** [kcacheAlloc] *)

Section alloc.
Context {HO : HeapOps} {PO : PhysOps} {VO : VmemPhysOps} {VM : VmemOps} {KS : KernelSyms}.

Lemma find_slab_ok fuel s l1 sl l2 :
schain (memory s) (l1 ++ sl :: l2) → Forall (λ c, sl_count c <= sl_used c) l1 →
sl_used sl < sl_count sl → (length l1 < fuel)%nat →
find_slab fuel (snext (l1 ++ sl :: l2)) s = Ok (sl_addr sl) s.
Proof.
unfold find_slab. revert fuel. induction l1 as [|c l1 IH]; intros [|fuel] Hc Hf Hu Hl; simpl in Hl; try lia;
  cbn [app snext schain] in *; destruct Hc as [[Hp Hr Hn _ Hx _ _ _ _] Hc]; cbn [iter];
  rewrite eqb_false by lia; run; rewrite Hr, Hn.
- destruct (Z.gtb_spec (sl_count sl) (sl_used sl)); [done|lia].
- apply Forall_cons in Hf as [Hf1 Hf2]. destruct (Z.gtb_spec (sl_count c) (sl_used c)); [lia|].
  rewrite Hx. apply IH; [done|done|done|lia].
Qed.

(** The slab after one of its buffers is handed out. *)
Lemma slab_rep_take m m' nxt sl :
slab_rep m nxt sl → sl_used sl < sl_count sl → sl_used sl < 32 →
separate (sl_addr sl, 72) (sl_bitmap sl, 8) →
same_on (λ a, inside (sl_addr sl, 72) a ∧ ¬ (sl_addr sl + 4 <= a < sl_addr sl + 6) ∧
  a ≠ sl_addr sl + 64) m m' →
load 2 m' (sl_addr sl + 4) = sl_used sl + 1 → load 1 m' (sl_addr sl + 64) = 0 →
load 8 m' (sl_bitmap sl) = used_word (sl_used sl + 1) →
slab_rep m' nxt (take_buffer sl).
Proof.
intros [H1 H2 H3 H4 H5 H6 H7 H8 H9] Hc H31 Hap Hs Hr Hl Hw. unfold inside in Hs; cbn [fst snd] in Hs.
split; cbn [take_buffer sl_addr sl_bitmap sl_virt sl_count sl_used]; [done|done| | | | |done|done|lia].
- rewrite <- H3. eapply same_on_load; [exact Hs|intros; blia].
- rewrite <- H4. eapply same_on_load; [exact Hs|intros; blia].
- rewrite <- H5. eapply same_on_load; [exact Hs|intros; blia].
- rewrite <- H6. eapply same_on_load; [exact Hs|intros; blia].
Qed.

(** [allocateBuffer] on a slab of the cache. *)
Lemma allocateBuffer_rep s cache nxt sl :
let size := load 8 (memory s) (cache + 16) in
slab_rep (memory s) nxt sl → sl_used sl < sl_count sl → sl_used sl < 32 →
separate (sl_addr sl, 72) (cache, 64) → separate (sl_bitmap sl, 8) (cache, 64) →
separate (sl_addr sl, 72) (sl_bitmap sl, 8) → sl_virt sl + sl_count sl * size < 2 ^ 64 →
wp (allocateBuffer cache (sl_addr sl)) (λ ptr s', ∃ m', s' = set_memory m' s ∧
  ptr = sl_virt sl + sl_used sl * size ∧ slab_rep m' nxt (take_buffer sl) ∧
  same_on (λ a, ¬ inside (sl_addr sl, 72) a ∧ ¬ inside (sl_bitmap sl, 8) a) (memory s) m') s.
Proof.
intros size Hr Hc H31 Ha1 Ha2 Ha3 Hv. pose proof Hr as [Hp Href Hcnt Hvirt Hnx Hbm Hlk Hwd Hu].
pose proof (load_8_range (memory s) (cache + 16)) as Rs. fold size in Rs.
assert (sl_used sl * size <= sl_count sl * size) as Hle by (apply Z.mul_le_mono_nonneg_r; lia).
unfold separate in Ha1, Ha2, Ha3; cbn [fst snd] in Ha1, Ha2, Ha3.
eapply wp_mono.
{ apply (allocateBuffer_lowest_free s cache (sl_addr sl) (used_word (sl_used sl)) (sl_used sl));
    cbn [read_slab ks_lock ks_references ks_bufferCount ks_bitmap ks_virt read_cache kc_objSize];
    rewrite ?Hbm, ?Hcnt, ?Href, ?Hvirt; try lia.
  - intros j Hj. apply used_word_set; lia.
  - apply used_word_free. lia. }
cbn [read_slab ks_lock ks_references ks_bufferCount ks_bitmap ks_virt read_cache kc_objSize].
intros ptr s' (m' & -> & -> & Hw & Hr' & Hl' & Hm). rewrite Href in Hr'. rewrite Hbm in Hw, Hm.
rewrite used_word_next in Hw by lia.
rewrite Hvirt. exists m'. split; [done|]. split; [done|]. unfold inside; cbn [fst snd]. split.
- eapply slab_rep_take; [exact Hr|done|done|unfold separate; cbn [fst snd]; lia| |done|done|exact Hw].
  intros a Ha. apply Hm. unfold inside in Ha; cbn [fst snd] in Ha. lia.
- intros a Ha. apply Hm. lia.
Qed.

(** The cache after [kcacheAlloc] has taken a buffer. *)
Lemma cache_rep_take m m' cache size l1 sl l2 :
cache_rep m cache size (l1 ++ sl :: l2) → slab_rep m' (snext l2) (take_buffer sl) →
load 1 m' (cache + 56) = 0 →
same_on (λ a, a ≠ cache + 56 ∧ ¬ inside (sl_addr sl, 72) a ∧ ¬ inside (sl_bitmap sl, 8) a) m m' →
cache_rep m' cache size (l1 ++ take_buffer sl :: l2).
Proof.
intros [H1 H2 H3 H4 H5 H6] Hr Hl Hs.
assert (∀ x y a, x ∈ slab_areas size sl →
  y = (cache, 64) ∨ (∃ c, c ∈ l1 ++ l2 ∧ y ∈ slab_areas size c) → inside y a → ¬ inside x a) as Hap.
{ intros x y a Hx Hy Ha Hxa. by apply (apart_inside x y a (slab_apart _ _ _ _ _ x y H5 Hx Hy)). }
assert (∀ y a, y = (cache, 64) ∨ (∃ c, c ∈ l1 ++ l2 ∧ y ∈ slab_areas size c) → inside y a →
  ¬ inside (sl_addr sl, 72) a ∧ ¬ inside (sl_bitmap sl, 8) a) as Hout.
{ intros y a Hy Ha. split; (eapply Hap; [|exact Hy|exact Ha]); [left|right; left]. }
assert (same_on (λ a, inside (cache, 64) a ∧ a ≠ cache + 56) m m') as Hc.
{ intros a [Ha Hne]. apply Hs. split; [done|]. eapply Hout; [by left|done]. }
unfold inside in Hc; cbn [fst snd] in Hc. split.
- done.
- rewrite <- H2. eapply same_on_load; [exact Hc|intros; blia].
- replace (snext (l1 ++ take_buffer sl :: l2)) with (snext (l1 ++ sl :: l2)) by by destruct l1.
  rewrite <- H3. eapply same_on_load; [exact Hc|intros; blia].
- eapply schain_update; [exact H4|done|done|]. intros a (c & Hc' & Ha).
  assert (∃ y, y ∈ slab_areas size c ∧ inside y a) as (y & Hy & Hya).
  { destruct Ha as [Ha|Ha]; (eexists; split; [|exact Ha]); [left|right; left]. }
  apply Hs. split; [|eapply Hout; [right; by exists c|done]]. intros ->.
  apply list_elem_of_split in Hc' as (k1 & k2 & E).
  assert (separate (cache, 64) y) as Hcy.
  { destruct H5 as [H5 _]. rewrite Forall_forall in H5. apply H5. apply list_elem_of_bind. exists c.
    split; [done|]. assert (c ∈ l1 ++ l2) as Hin by (rewrite E, elem_of_app, elem_of_cons; tauto).
    rewrite elem_of_app, elem_of_cons. apply elem_of_app in Hin. tauto. }
  eapply (apart_inside _ _ (cache + 56) Hcy); [unfold inside; cbn; lia|done].
- by rewrite cache_areas_take.
- rewrite Forall_app, Forall_cons in *. exact H6.
Qed.

(** What one allocation does to the abstract cache: one buffer more, which meets
  none of those in use. *)
Lemma alloc_bump_fresh m cache size ls p ls' :
cache_rep m cache size ls → 0 <= size → alloc_bump size ls = Some (p, ls') →
buffers size ls' ≡ₚ (p, size) :: buffers size ls ∧ Forall (separate (p, size)) (buffers size ls).
Proof.
intros [_ _ _ Hch Hap _] Hs (l1 & sl & l2 & -> & -> & _ & Hc & _ & ->)%alloc_bump_split.
pose proof (schain_used _ _ Hch) as Hu.
assert (0 <= sl_used sl) as H0.
{ rewrite Forall_app, Forall_cons in Hu. lia. }
assert (buffers size (l1 ++ take_buffer sl :: l2) =
  (buffers size l1 ++ slab_buffers size sl) ++ (sl_virt sl + sl_used sl * size, size) :: buffers size l2) as E.
{ unfold buffers. rewrite bind_app, bind_cons, slab_buffers_take by done. by rewrite <- !app_assoc. }
assert (pairwise_apart (buffers size (l1 ++ take_buffer sl :: l2))) as Hp.
{ apply buffers_apart; [done| |].
  - rewrite !Forall_app, !Forall_cons in *. cbn [take_buffer sl_used sl_count]. split_and!; [apply Hu|lia|lia|apply Hu].
  - rewrite bind_app, bind_cons. destruct Hap as [_ Hap]. by rewrite bind_app, bind_cons in Hap. }
assert (buffers size (l1 ++ sl :: l2) = (buffers size l1 ++ slab_buffers size sl) ++ buffers size l2) as E'.
{ unfold buffers. rewrite bind_app, bind_cons. by rewrite <- !app_assoc. }
rewrite E in *. rewrite E'. split.
- by rewrite Permutation_middle.
- apply Forall_app, pairwise_apart_middle, Hp.
Qed.

Lemma kcacheAlloc_ok fuel s cache size flags ls p ls' :
cache_rep (memory s) cache size ls → (length ls < fuel)%nat → alloc_bump size ls = Some (p, ls') →
wp (kcacheAlloc_ fuel cache flags) (λ r s', r = p ∧ ∃ m', s' = set_memory m' s ∧
  cache_rep m' cache size ls' ∧ same_on (λ a, ¬ bookkeeping cache ls a) (memory s) m') s.
Proof.
intros HR Hf (l1 & sl & l2 & -> & -> & Hfull & Hc & H31 & ->)%alloc_bump_split.
pose proof HR as [Hlk Hsz Hsl Hch Hap Hbd].
pose proof (schain_middle _ _ _ _ Hch) as Hr. pose proof (sr_pos _ _ _ Hr) as Hpos.
assert (∀ x, x ∈ slab_areas size sl → separate x (cache, 64)) as Hapc.
{ intros x Hx. eapply (slab_apart cache size l1 sl l2); [done..|by left]. }
assert (separate (sl_addr sl, 72) (cache, 64)) as Ha1 by (apply Hapc; left).
assert (separate (sl_bitmap sl, 8) (cache, 64)) as Ha2 by (apply Hapc; right; left).
pose proof (slab_apart_self _ _ _ _ _ Hap) as [[Ha3 _]%Forall_cons _].
apply Forall_app in Hbd as [_ [[_ Hv] _]%Forall_cons].
unfold kcacheAlloc_. wp_step. apply wp_get_lock_at; [done|]. wp_steps. cbn [memory set_memory]. mem.
rewrite Hsl. set (s1 := set_memory _ s).
assert (same_on (λ a, a ≠ cache + 56) (memory s) (memory s1)) as Hs1.
{ intros a Ha. cbn [memory s1 set_memory]. by rewrite mbyte_store_ne by lia. }
assert (∀ x a, x ∈ slab_areas size sl → inside x a → a ≠ cache + 56) as Hne.
{ intros x a Hx Ha ->. apply (apart_inside _ _ _ (Hapc x Hx) Ha). unfold inside. cbn. lia. }
eapply wp_eq.
{ apply (find_slab_ok fuel s1 l1 sl l2); [|done|done|rewrite length_app in Hf; simpl in Hf; lia].
  eapply schain_ext; [|exact Hch]. intros a (c & Hc' & Ha). apply Hs1. intros ->.
  apply (bookkeeping_apart_cache _ _ _ _ _ Hap Hc' Ha). unfold inside. cbn. lia. }
cbv beta. wp_step. rewrite eqb_false by lia. wp_step. rewrite eqb_false by lia. wp_step.
assert (load 8 (memory s1) (cache + 16) = size) as Hsz1 by (cbn [memory s1 set_memory]; by mem).
eapply wp_mono.
{ apply (allocateBuffer_rep s1 cache (snext l2) sl); rewrite ?Hsz1; try done.
  eapply slab_rep_ext; [|exact Hr]. intros a Ha. apply Hs1.
  destruct Ha as [Ha|Ha]; (eapply Hne; [|exact Ha]); [left|right; left]. }
intros ptr s' (m' & -> & -> & Hr' & Hm). rewrite Hsz1. wp_steps. split; [done|].
cbn [memory set_memory s1]. eexists. split; [reflexivity|]. split.
- eapply cache_rep_take; [exact HR| |by mem|].
  + eapply slab_rep_ext; [|exact Hr']. intros a Ha. cbn [take_buffer sl_addr sl_bitmap] in Ha.
    apply mbyte_store_ne. assert (a ≠ cache + 56); [|lia].
    destruct Ha as [Ha|Ha]; (eapply Hne; [|exact Ha]); [left|right; left].
  + intros a (H1 & H2 & H3). rewrite mbyte_store_ne by lia. rewrite Hm by done. by apply Hs1.
- intros a Ha. assert (a ≠ cache + 56 ∧ ¬ inside (sl_addr sl, 72) a ∧ ¬ inside (sl_bitmap sl, 8) a)
    as (H1 & H2 & H3).
  { split_and!; intros Hx; apply Ha; [left; unfold inside; cbn; lia|right; exists sl; split..];
      [|by left| |by right]; rewrite elem_of_app, elem_of_cons; tauto. }
  rewrite mbyte_store_ne by lia. rewrite Hm by done. by apply Hs1.
Qed.

(** The cache is as it was but for its lock. *)
Definition locked (s : machine) (cache : Z) : machine :=
set_memory (store 1 (memory s) (cache + 56) 1) s.

Lemma locked_chain s cache size ls :
cache_rep (memory s) cache size ls → schain (memory (locked s cache)) ls.
Proof.
intros [_ _ _ Hch Hap _]. eapply schain_ext; [|exact Hch]. intros a (c & Hc & Ha).
cbn [memory locked set_memory]. apply mbyte_store_ne.
pose proof (bookkeeping_apart_cache _ _ _ _ _ Hap Hc Ha) as H. unfold inside in H. cbn [fst snd] in H. lia.
Qed.

Lemma wp_move {A} (f g : M machine A) Q s s' : f s = g s' → wp g Q s' → wp f Q s.
Proof. unfold wp. by intros ->. Qed.

Lemma kcacheAlloc_enter fuel s cache size flags ls :
cache_rep (memory s) cache size ls →
kcacheAlloc_ fuel cache flags s =
(chosen ← find_slab fuel (snext ls);
 chosen ← (if chosen =? 0 then
     chosen ← newSlab cache 10;
     if chosen =? 0 then mret 0
     else
       slabs ← ld 8 (cache + 32);
       _ ← st 8 (chosen + 48) slabs;
       _ ← st 8 (cache + 32) chosen;
       next ← ld 8 (chosen + 48);
       _ ← (if negb (next =? 0) then st 8 (next + 40) chosen else mret tt);
       mret chosen
   else mret chosen);
 if chosen =? 0 then _ ← free_lock_at (cache + 56); mret 0
 else
   ptr ← allocateBuffer cache chosen;
   _ ← free_lock_at (cache + 56);
   mret ptr) (locked s cache).
Proof.
intros [Hlk _ Hsl _ _ _]. unfold kcacheAlloc_.
rewrite (bind_ok _ _ _ tt (locked s cache)).
2:{ unfold get_lock_at. mstep. rewrite Hlk. done. }
mstep. cbn [memory locked set_memory]. mem. by rewrite Hsl.
Qed.

(** Past the 32nd buffer of the first slab that is not full the shift is undefined. *)
Lemma kcacheAlloc_undefined fuel s cache size flags l1 sl l2 :
cache_rep (memory s) cache size (l1 ++ sl :: l2) → (length (l1 ++ sl :: l2) < fuel)%nat →
Forall slab_full l1 → 32 <= sl_used sl < sl_count sl →
kcacheAlloc_ fuel cache flags s = Fault UndefinedShift.
Proof.
intros HR Hf Hfull Hu. rewrite (kcacheAlloc_enter _ _ _ _ _ _ HR).
pose proof (locked_chain _ _ _ _ HR) as Hch. pose proof (schain_middle _ _ _ _ Hch) as Hr.
pose proof Hr as [Hp Href Hcnt _ _ Hbm Hlk Hwd [_ H32]].
pose proof (slab_apart_self _ _ _ _ _ (cr_apart _ _ _ _ HR)) as [[Ha _]%Forall_cons _].
unfold separate in Ha; cbn [fst snd] in Ha. assert (sl_used sl = 32) as E by lia.
rewrite (bind_ok _ _ _ (sl_addr sl) (locked s cache)).
2:{ apply find_slab_ok; [exact Hch|exact Hfull|lia|]. rewrite length_app in Hf. cbn [length] in Hf. lia. }
rewrite eqb_false by lia. mstep. rewrite eqb_false by lia. apply bind_fault.
apply allocateBuffer_undefined_after_32; cbn [read_slab ks_lock ks_bufferCount ks_references ks_bitmap];
  rewrite ?Hcnt, ?Href, ?Hbm, ?Hlk, ?Hwd; try (done || lia).
intros j Hj. apply used_word_set; lia.
Qed.

Lemma find_slab_full fuel s ls :
schain (memory s) ls → Forall slab_full ls → (length ls < fuel)%nat → find_slab fuel (snext ls) s = Ok 0 s.
Proof.
unfold find_slab. revert fuel. induction ls as [|c ls IH]; intros [|fuel] Hc Hf Hl; simpl in Hl; try lia;
  cbn [snext schain iter] in *; [done|].
destruct Hc as [[Hp Hr Hn _ Hx _ _ _ _] Hc]. rewrite eqb_false by lia. run. rewrite Hr, Hn.
apply Forall_cons in Hf as [Hf1 Hf2]. unfold slab_full in Hf1. destruct (Z.gtb_spec (sl_count c) (sl_used c)); [lia|].
rewrite Hx. apply IH; [done|done|lia].
Qed.

(** With every slab full and no memory for a new one the cache is as before. *)
Lemma kcacheAlloc_exhausted fuel s cache size flags ls s2 :
cache_rep (memory s) cache size ls → (length ls < fuel)%nat → Forall slab_full ls →
newSlab cache 10 (locked s cache) = Ok 0 s2 →
same_on (bookkeeping cache ls) (memory (locked s cache)) (memory s2) →
wp (kcacheAlloc_ fuel cache flags) (λ r s', r = 0 ∧ cache_rep (memory s') cache size ls) s.
Proof.
intros HR Hf Hfull En Hs. eapply wp_move; [apply (kcacheAlloc_enter _ _ _ _ _ _ HR)|].
wp_step. eapply wp_eq; [apply find_slab_full; [by eapply locked_chain|done|done]|].
cbn [Z.eqb]. do 2 wp_step. eapply wp_eq; [exact En|]. cbn [Z.eqb]. wp_step. cbn [Z.eqb]. wp_steps.
split; [done|]. cbn [memory set_memory].
pose proof HR as [Hlk _ _ _ Hap _]. eapply cache_rep_ext; [|exact HR]. intros a Ha.
destruct (decide (a = cache + 56)) as [->|Hne].
- pose proof (mbyte_store_1 (memory s2) (cache + 56) (cache + 56) 0) as E. rewrite decide_True in E by lia.
  rewrite E. rewrite load_1 in Hlk. by rewrite Hlk.
- rewrite mbyte_store_ne by lia. rewrite (Hs a Ha). cbn [memory locked set_memory]. by rewrite mbyte_store_ne by lia.
Qed.

(** C11: [kcacheAlloc] is the bump allocator [alloc_bump] on the list of a cache's
  slabs.  It returns the next buffer of the first slab that is not full, the
  cache is well formed afterwards with that buffer in use as well, the buffer
  overlaps none handed out before, and only the cache's bookkeeping changes; it
  shifts out of range when 32 buffers of that slab are in use; and with all slabs
  full it returns NULL with the cache as it was when no slab can be made. *)
Theorem kcacheAlloc_refines_bump fuel s cache size flags ls :
cache_rep (memory s) cache size ls → 0 < size → (length ls < fuel)%nat →
match alloc_bump size ls with
| Some (p, ls') =>
    wp (kcacheAlloc_ fuel cache flags) (λ r s', r = p ∧ cache_rep (memory s') cache size ls' ∧
      buffers size ls' ≡ₚ (p, size) :: buffers size ls ∧ Forall (separate (p, size)) (buffers size ls) ∧
      same_on (λ a, ¬ bookkeeping cache ls a) (memory s) (memory s')) s
| None =>
    (¬ Forall slab_full ls → kcacheAlloc_ fuel cache flags s = Fault UndefinedShift) ∧
    (∀ s2, Forall slab_full ls → newSlab cache 10 (locked s cache) = Ok 0 s2 →
       same_on (bookkeeping cache ls) (memory (locked s cache)) (memory s2) →
       wp (kcacheAlloc_ fuel cache flags) (λ r s', r = 0 ∧ cache_rep (memory s') cache size ls) s)
end.
Proof.
intros HR Hs Hf. destruct (alloc_bump size ls) as [[p ls']|] eqn:Ha.
- destruct (alloc_bump_fresh _ _ _ _ _ _ HR ltac:(lia) Ha) as [Hb Hfr].
  eapply wp_mono; [by eapply kcacheAlloc_ok|]. intros r s' (-> & m' & -> & HR' & Hm). done.
- split; [|intros s2 ? ? ?; by eapply kcacheAlloc_exhausted].
  intros Hnf. destruct (alloc_bump_none _ _ Ha) as [|(l1 & sl & l2 & -> & Hfull & Hu)]; [done|].
  by eapply kcacheAlloc_undefined.
Qed.
End alloc.

(** ** The contract *)

Section laws.
Context {HO : HeapOps} {PO : PhysOps} {VO : VmemPhysOps} {VM : VmemOps} {KS : KernelSyms}.
Context (fuel : nat) (cache size : Z) (slabs : list slab).
Context (size_pos : 0 < size) (fuel_enough : (length slabs < fuel)%nat).

Definition kcache_ops : CacheOps := {|
Heap.kcacheAlloc := kcacheAlloc_ fuel;
Heap.kcacheCreate name objSize align type flags := kcacheCreate_ fuel name objSize align type flags 0 0
|}.

(** [ls] is [slabs] with other fill levels. *)
Definition same_slabs (ls : list slab) : Prop :=
Forall2 (λ x y, sl_addr x = sl_addr y ∧ sl_bitmap x = sl_bitmap y ∧ sl_virt x = sl_virt y ∧
  sl_count x = sl_count y) slabs ls.

Definition kcache_arena (a : Z) : Prop := ∃ x, x ∈ cache_areas cache size slabs ∧ inside x a.
Definition kcache_inv (s : machine) (L : list Z) : Prop :=
∃ ls, same_slabs ls ∧ cache_rep (memory s) cache size ls ∧ (λ p, (p, size)) <$> L ≡ₚ buffers size ls.
Definition kcache_room (s : machine) : Prop :=
∀ ls, same_slabs ls → cache_rep (memory s) cache size ls → is_Some (alloc_bump size ls).

Lemma same_slabs_areas ls : same_slabs ls → cache_areas cache size ls = cache_areas cache size slabs.
Proof.
intros H. unfold cache_areas. assert (ls ≫= slab_areas size = slabs ≫= slab_areas size) as ->; [|done].
clear fuel_enough. induction H as [|x y l1 l2 (H1 & H2 & H3 & H4) _ IH]; [done|].
rewrite !bind_cons, IH. f_equal. unfold slab_areas. by rewrite H1, H2, H3, H4.
Qed.

Lemma same_slabs_bookkeeping ls a : same_slabs ls → bookkeeping cache ls a → bookkeeping cache slabs a.
Proof.
intros H [Ha|(c & Hc & Ha)]; [by left|right]. apply list_elem_of_lookup in Hc as [i Hc].
destruct (Forall2_lookup_r _ _ _ _ _ H Hc) as (x & Hx & E1 & E2 & _). exists x.
split; [by eapply list_elem_of_lookup_2|]. by rewrite E1, E2.
Qed.

Lemma bookkeeping_same_slabs ls a : same_slabs ls → bookkeeping cache slabs a → bookkeeping cache ls a.
Proof.
intros H [Ha|(c & Hc & Ha)]; [by left|right]. apply list_elem_of_lookup in Hc as [i Hc].
destruct (Forall2_lookup_l _ _ _ _ _ H Hc) as (x & Hx & E1 & E2 & _). exists x.
split; [by eapply list_elem_of_lookup_2|]. by rewrite <- E1, <- E2.
Qed.

Lemma same_slabs_bump ls p ls' : same_slabs ls → alloc_bump size ls = Some (p, ls') → same_slabs ls'.
Proof.
intros H (l1 & sl & l2 & -> & -> & _)%alloc_bump_split. unfold same_slabs in *.
apply Forall2_app_inv_r in H as (k1 & k2 & H1 & H2 & ->). apply Forall2_app; [done|].
apply Forall2_cons_inv_r in H2 as (x & k & Hx & Hk & ->). by constructor.
Qed.

Lemma bookkeeping_arena ls a : same_slabs ls → bookkeeping cache ls a → kcache_arena a.
Proof.
intros H Ha. unfold kcache_arena. rewrite <- (same_slabs_areas ls) by done.
destruct Ha as [Ha|(c & Hc & Ha)].
- eexists. split; [left|done].
- destruct Ha as [Ha|Ha]; (eexists; split; [right; eapply elem_of_slabs_areas; [exact Hc|]|exact Ha]);
    [left|right; left].
Qed.

Lemma buffers_in ls L p : (λ p, (p, size)) <$> L ≡ₚ buffers size ls → p ∈ L ↔ (p, size) ∈ buffers size ls.
Proof.
intros <-. rewrite list_elem_of_fmap. split; [by exists p|]. by intros (q & [= ->] & Hq).
Qed.

Lemma kcache_bookkeeping s L ls a :
same_slabs ls → cache_rep (memory s) cache size ls → (λ p, (p, size)) <$> L ≡ₚ buffers size ls →
bookkeeping cache ls a → kcache_arena a ∧ ¬ in_object size L a.
Proof.
intros Hs HR HL Ha. split; [by eapply bookkeeping_arena|]. intros (p & Hp & Hin).
apply (buffers_in _ _ _ HL) in Hp.
by apply (bookkeeping_buffers _ _ _ _ _ _ HR ltac:(lia) Ha Hp).
Qed.

Lemma kcache_live s L p :
kcache_inv s L → p ∈ L → 0 < p ∧ p + size < 2 ^ 64 ∧ ∀ a, p <= a < p + size → kcache_arena a.
Proof.
intros (ls & Hs & HR & HL) Hp. apply (buffers_in _ _ _ HL) in Hp.
destruct (buffer_inside size ls (p, size)) as (sl & Hsl & B1 & B2 & _);
  [lia| |done|]; cbn [fst snd] in *.
{ eapply Forall_impl; [exact (schain_used _ _ (cr_chain _ _ _ _ HR))|by intros ? []]. }
pose proof (cr_bounds _ _ _ _ HR) as Hb. rewrite Forall_forall in Hb. specialize (Hb sl Hsl).
split_and!; [lia..|]. intros a Ha. exists (sl_virt sl, sl_count sl * size).
split; [|unfold inside; cbn [fst snd]; lia]. rewrite <- (same_slabs_areas ls) by done. right.
eapply elem_of_slabs_areas; [done|]. do 2 right. left.
Qed.

Lemma kcache_frame s s' L :
kcache_inv s L → same_on (λ a, kcache_arena a ∧ ¬ in_object size L a) (memory s) (memory s') →
kcache_inv s' L ∧ (kcache_room s → kcache_room s').
Proof.
intros (ls & Hs & HR & HL) Hm.
assert (same_on (bookkeeping cache ls) (memory s) (memory s')) as Hb.
{ intros a Ha. apply Hm. by apply (kcache_bookkeeping s L ls). }
split.
- exists ls. split; [done|]. split; [by eapply cache_rep_ext|done].
- intros Hr ks Hks HRk. apply Hr; [done|]. eapply cache_rep_ext; [|exact HRk]. apply same_on_sym.
  intros a Ha. apply Hb. by apply bookkeeping_same_slabs, (same_slabs_bookkeeping ks).
Qed.

Lemma kcache_alloc s L flags :
kcache_inv s L → kcache_room s →
wp (kcacheAlloc_ fuel cache flags) (λ p s',
  kcache_inv s' (p :: L) ∧ Forall (λ q, q + size <= p ∨ p + size <= q) L ∧
  same_on (λ a, ¬ kcache_arena a ∨ in_object size L a) (memory s) (memory s') ∧
  globals s' = globals s ∧ serial s' = serial s) s.
Proof.
intros (ls & Hs & HR & HL) Hr. destruct (Hr ls Hs HR) as [[p ls'] Ha].
destruct (alloc_bump_fresh _ _ _ _ _ _ HR ltac:(lia) Ha) as [Hb Hfr].
eapply wp_mono.
{ eapply (kcacheAlloc_ok fuel); [exact HR| |exact Ha]. by rewrite <- (Forall2_length _ _ _ Hs). }
intros r s' (-> & m' & -> & HR' & Hm). cbn [memory set_memory globals serial]. split_and!; [| | |done|done].
- exists ls'. split; [by eapply same_slabs_bump|]. split; [done|]. by rewrite Hb, fmap_cons, HL.
- apply Forall_forall. intros q Hq%(buffers_in _ _ _ HL). rewrite Forall_forall in Hfr.
  specialize (Hfr _ Hq). unfold separate in Hfr. cbn [fst snd] in Hfr. lia.
- intros a Ha'. apply Hm. intros Hbk.
  destruct (kcache_bookkeeping s L ls a Hs HR HL Hbk) as [H1 H2]. tauto.
Qed.

(** kcache.c keeps the contract of [CacheLaws]. *)
Definition kcache_laws : @CacheLaws kcache_ops.
Proof.
refine (@Build_CacheLaws kcache_ops cache size kcache_arena kcache_inv kcache_room
  kcache_live kcache_frame kcache_alloc).
Defined.
End laws.


(** ** Witness: a cache of markers with a full slab in front *)

Section witness.
#[local] Instance no_heap : HeapOps :=
{| kmalloc _ := mret 0; kmallocAligned _ := mret 0; kfree _ := mret tt; krealloc _ _ := mret 0 |}.
#[local] Instance no_phys : PhysOps := {| allocPhys _ _ _ := mret (0xFFF, 0); freeNPhys _ _ := mret tt |}.
#[local] Instance no_vmphys : VmemPhysOps := {| vmallocPhys _ _ _ _ := mret 0 |}.
#[local] Instance no_vmem : VmemOps := {| vmalloc _ _ _ := mret 0; vmFree _ := mret tt |}.
#[local] Instance syms_zero : KernelSyms :=
{| sym_kspace := 0; sym_heapEnd := 0; sym_ftask := 0; sym_fschedule := 0;
   sym_internalkcacheCache := 0; sym_kcName := 0; sym_slabConstructor := 0;
   sym_slabDestructor := 0 |}.

Definition full_slab : slab := Slab 0x400 0x480 0x7000 2 2.
Definition open_slab : slab := Slab 0x200 0x300 0x8000 128 3.
Definition two_slabs : machine :=
  set_memory (fold_left (λ m '(n, a, v), store n m a v)
    [(8%nat, 0x110, 32); (8%nat, 0x120, 0x400);
     (2%nat, 0x404, 2); (4%nat, 0x410, 2); (8%nat, 0x420, 0x7000); (8%nat, 0x430, 0x200);
     (8%nat, 0x438, 0x480); (8%nat, 0x480, 3);
     (2%nat, 0x204, 3); (4%nat, 0x210, 128); (8%nat, 0x220, 0x8000); (8%nat, 0x238, 0x300);
     (8%nat, 0x300, 7)] ∅) machine0.

Lemma two_slabs_rep : cache_rep (memory two_slabs) 0x100 32 [full_slab; open_slab].
Proof.
split; [by vm_compute..| | |].
- split; [|split; [|done]]; (split; [done|by vm_compute..|cbn; lia]).
- cbn. repeat (split || constructor); unfold separate; cbn; lia.
- repeat constructor; cbn; lia.
Qed.

Lemma kcacheAlloc_refines_bump_witness :
wp (kcacheAlloc_ 3 0x100 0) (λ r s', r = 0x8060 ∧
  cache_rep (memory s') 0x100 32 [full_slab; take_buffer open_slab] ∧
  buffers 32 [full_slab; take_buffer open_slab] ≡ₚ (0x8060, 32) :: buffers 32 [full_slab; open_slab] ∧
  Forall (separate (0x8060, 32)) (buffers 32 [full_slab; open_slab]) ∧
  same_on (λ a, ¬ bookkeeping 0x100 [full_slab; open_slab] a) (memory two_slabs) (memory s')) two_slabs.
Proof.
apply (kcacheAlloc_refines_bump 3 two_slabs 0x100 32 0 [full_slab; open_slab]);
  [apply two_slabs_rep|lia|simpl; lia].
Defined.
End witness.
