(* ===== verification/Task.v ===== *)
(** * task.c and sleep.c: process tickets

    A [processTicket] is 72 bytes ([name] 0, [priority] 8, [flags] 10, [processID]
    16, [blocker] 24, [gs] 32, [fs] 36, [ec] 40, [vmem] 48, [tss] 56, [space] 64),
    a [cpuScheduler] 40 bytes ([currentTask] at 24).  The GS selector, which the
    source uses as the index of the CPU, is the global [g_gs]. *)

From S2P Require Import Prelude Kmonad Mem Libc Heap.

Record processTicket := ProcessTicket {
  pt_name : Z; pt_priority : Z; pt_flags : Z; pt_processID : Z; pt_blocker : Z; pt_gs : Z;
  pt_fs : Z; pt_ec : Z; pt_vmem : Z; pt_tss : Z; pt_space : Z
}.
Definition read_ticket (m : gmap Z Z) (a : Z) : processTicket :=
  ProcessTicket (load 8 m a) (load 1 m (a + 8)) (load 2 m (a + 10)) (load 8 m (a + 16))
    (load 8 m (a + 24)) (load 4 m (a + 32)) (load 4 m (a + 36)) (s32 (load 4 m (a + 40)))
    (load 8 m (a + 48)) (load 8 m (a + 56)) (load 8 m (a + 64)).
Record cpuScheduler := CpuScheduler { cs_currentTask : Z; cs_taskCursor : Z }.
Definition read_scheduler (m : gmap Z Z) (a : Z) : cpuScheduler :=
  CpuScheduler (load 8 m (a + 24)) (load 4 m (a + 32)).

Definition TASK_MAX_PRIORITY : Z := 3.
Definition TASK_TIMESLICE (p : Z) : Z := (p + 1) * 500.
Definition TASK_FLAG_BLOCKED : Z := 0x1.

Definition getPerCPUInfo : M machine Z := gread g_gs.
Definition setPerCPUInfo (r : Z) : M machine unit := gwrite g_gs r.

(** [&scheduler[i]] *)
Definition scheduler_at (i : Z) : M machine Z := s ← gread g_scheduler; mret (s + 40 * i).

Definition getCurrentTask : M machine Z :=
  i ← getPerCPUInfo; s ← scheduler_at i; ld 8 (s + 24).

Definition getCurrentTaskID : M machine Z :=
  i ← getPerCPUInfo; s ← scheduler_at i; t ← ld 8 (s + 24); ld 8 (t + 16).

Definition nextTask : M machine unit := mret tt.

Definition suspendProcess (id : Z) : M machine unit :=
  cpu ← getPerCPUInfo; s ← scheduler_at cpu; t ← ld 8 (s + 24);
  flags ← ld 2 (t + 10);
  st 2 (t + 10) (Z.lor flags TASK_FLAG_BLOCKED).

(** [unsuspendProcess]: the first suspended ticket with that blocker. *)
Definition unsuspendProcess (id : Z) : M machine unit :=
  n ← gread g_suspendedQueueSize;
  tickets ← gread g_suspendedTickets;
  iter (S (Z.to_nat n)) (λ i,
    if negb (i <? n) then mret (inr tt)
    else
      t ← ld 8 (tickets + 8 * i);
      blocker ← ld 8 (t + 24);
      if negb (blocker =? id) then mret (inl (u32 (i + 1)))
      else
        flags ← ld 2 (t + 10);
        _ ← st 2 (t + 10) (Z.land flags (u16 (Z.lnot TASK_FLAG_BLOCKED)));
        mret (inr tt)) 0.

(** [switchTask]: with no other task in the queue, [hlt] while the task is
    blocked; the state does not change, so a blocked task halts for ever. *)
Definition switchTask (cpu : Z) : M machine unit :=
  inQueue ← gread g_inQueue;
  if inQueue <=? 1 then
    s ← scheduler_at cpu;
    t ← ld 8 (s + 24);
    flags ← ld 2 (t + 10);
    if negb (Z.land flags TASK_FLAG_BLOCKED =? 0) then fail Halt else mret tt
  else mret tt.

Definition setErrorCode (err : Z) : M machine unit := t ← getCurrentTask; st 4 (t + 40) err.
Definition getErrorCode : M machine Z := t ← getCurrentTask; e ← ld 4 (t + 40); mret (s32 e).

Definition currentProcessVMarker : M machine Z :=
  t ← getCurrentTask; if t =? 0 then mret 0 else ld 8 (t + 48).

Section task.
Context {HO : HeapOps} {CO : CacheOps} {KS : KernelSyms}.

Definition createTicket (name priority vmem stack : Z) : M machine Z :=
_ ← get_lock g_queueLock;
cache ← gread g_ticketCache;
ticket ← kcacheAlloc cache 0;
_ ← memset ticket 0 72;
_ ← st 8 ticket name;
_ ← st 1 (ticket + 8) priority;
_ ← st 8 (ticket + 48) vmem;
_ ← st 8 (ticket + 16) 0;
mret ticket.

Definition initTasking (name rbp cacheName : Z) : M machine unit :=
c ← kcacheCreate cacheName 72 0 0 0;
_ ← gwrite g_ticketCache c;
_ ← kassert (negb (c =? 0)) "Creating kcache failed";
s ← kmalloc 40;
_ ← gwrite g_scheduler s;
s ← gread g_scheduler;
_ ← st 8 (s + 24) sym_ftask;
vmem ← ld 8 (sym_ftask + 48);
kt ← createTicket name TASK_MAX_PRIORITY vmem rbp;
_ ← st 8 (kt + 64) sym_kspace;
s ← gread g_scheduler;
st 8 (s + 24) kt.

Definition createFakeTask : M machine unit :=
_ ← setPerCPUInfo 0;
_ ← setPerCPUInfo 0;
v ← kmalloc 32;
_ ← st 8 (sym_ftask + 48) v;
vmem ← ld 8 (sym_ftask + 48);
_ ← st 8 vmem 0;
_ ← st 4 (vmem + 8) 1;
_ ← st 4 (vmem + 12) 0;
_ ← st 8 (vmem + 24) 0;
_ ← st 8 (sym_ftask + 64) sym_kspace;
_ ← st 8 (sym_fschedule + 24) sym_ftask;
gwrite g_scheduler sym_fschedule.

(** ** sleep.c *)

(** [addTimerEvent] of timer.c: ns and id; the callback is [sleepEnd]. *)
Context (addTimerEvent : Z → Z → M machine unit).

Definition sleepEnd (id : Z) : M machine unit := unsuspendProcess id.

Definition sysSleepns (ns : Z) : M machine unit :=
if ns =? 0 then mret tt
else
  id ← getCurrentTaskID;
  _ ← suspendProcess id;
  addTimerEvent ns id.

Definition sysSleep (ms : Z) : M machine unit := sysSleepns (u64 (ms * 1000000)).

(** ** Properties *)

(** The current task's ticket. *)
Definition current (s : machine) : Z :=
load 8 (memory s) (globals s g_scheduler + 40 * globals s g_gs + 24).


(** [createTicket] returns with [queueLock] held, so a second ticket can never
  be created. *)
Theorem createTicket_keeps_lock s s' name priority vmem stack t :
(∀ c f s0 p s1, kcacheAlloc c f s0 = Ok p s1 → globals s1 = globals s0) →
createTicket name priority vmem stack s = Ok t s' →
∀ n p v k, createTicket n p v k s' = Fault Spin.
Proof.
intros Hc Hrun n p v k.
enough (Z.testbit (globals s' g_queueLock) 0 = true) as Hl
  by (unfold createTicket; apply bind_fault; by apply get_lock_held).
unfold createTicket in Hrun. unfold mbind in Hrun at 1. unfold M_bind in Hrun at 1.
destruct (get_lock g_queueLock s) as [u s1|] eqn:El; [|done].
assert (Z.testbit (globals s1 g_queueLock) 0 = true) as Hl1.
{ unfold get_lock in El. unfold mbind, M_bind, gread, gwrite in El.
  destruct (Z.testbit (globals s g_queueLock) 0); [done|]. injection El as _ <-.
  rewrite globals_set_global_eq, Z.lor_spec. by rewrite orb_true_r. }
revert Hrun. unfold mbind at 1, M_bind at 1, gread. unfold mbind at 1, M_bind at 1.
destruct (kcacheAlloc _ _ s1) as [t1 s2|] eqn:Ek; [|done].
apply Hc in Ek. unfold mbind at 1, M_bind at 1.
pose proof (memset_loop (Z.to_nat (72 / 4 - 0)) s2 t1 0 0 ltac:(lia)) as W.
unfold memset, for_range. unfold mbind at 1, M_bind at 1. unfold wp in W.
destruct (for_from _ _ _ s2) as [u2 s3|]; [|done]. destruct W as (Hg & _ & _).
run. intros [= <- <-]. cbn [globals set_memory]. by rewrite Hg, Ek.
Qed.
End task.

(** ** Witnesses: one CPU, its task at 0x2000 *)

Section witness.
#[local] Instance no_heap : HeapOps :=
{| kmalloc _ := mret 0; kmallocAligned _ := mret 0; kfree _ := mret tt; krealloc _ _ := mret 0 |}.
#[local] Instance const_cache : CacheOps :=
{| kcacheAlloc _ _ := mret 0x3000; kcacheCreate _ _ _ _ _ := mret 0x4000 |}.

Definition one_task : machine :=
set_global g_inQueue 1 (set_global g_scheduler 0x1000
  (set_memory (store 8 ∅ 0x1018 0x2000) machine0)).
Definition nop_timer (ns id : Z) : M machine unit := mret tt.
Definition asleep : machine :=
match sysSleep nop_timer 5 one_task with Ok _ s => s | Fault _ => machine0 end.


Definition with_ticket : machine :=
match createTicket 0 3 0 0 one_task with Ok _ s => s | Fault _ => machine0 end.

Lemma createTicket_keeps_lock_witness : createTicket 0 3 0 0 with_ticket = Fault Spin.
Proof.
apply (createTicket_keeps_lock one_task with_ticket 0 3 0 0 0x3000); [|by vm_compute].
by intros c f s0 p s1 [= _ <-].
Defined.
End witness.
