(* ===== verification/Vmm.v ===== *)
(** * vmm.c: virtual memory of a process

    The regions of a process are a list of markers: 32 bytes each ([base] 0,
    [pages] 8, [flags] 12, [type] 16, [next] 24).  [allocMarker] finds room and
    links a marker, [vmalloc] backs it with frames from [physStack] and maps it. *)

From S2P Require Import Prelude Kmonad Mem Heap Dstack Paging Task.

Record vMarker := VMarker {
  vm_base : Z; vm_pages : Z; vm_flags : Z; vm_type : Z; vm_next : Z
}.
Definition read_marker (m : gmap Z Z) (a : Z) : vMarker :=
  VMarker (load 8 m a) (load 4 m (a + 8)) (load 4 m (a + 12)) (load 1 m (a + 16)) (load 8 m (a + 24)).

Inductive vType :=
  | VTYPE_FREE | VTYPE_HEAP | VTYPE_CODE | VTYPE_DATA | VTYPE_STACK | VTYPE_OTHER | VTYPE_USER
  | VTYPE_LCODE | VTYPE_LDATA | VTYPE_VIMEM | VTYPE_MMIO | VTYPE_DEV | VTYPE_FILE
  | VTYPE_MAX_TYPE | VTYPE_BLAME_NONE.
(** The value of an enumerator. *)
Definition vType_value (t : vType) : Z :=
  match t with
  | VTYPE_FREE => 0 | VTYPE_HEAP => 1 | VTYPE_CODE => 2 | VTYPE_DATA => 3 | VTYPE_STACK => 4
  | VTYPE_OTHER => 5 | VTYPE_USER => 6 | VTYPE_LCODE => 7 | VTYPE_LDATA => 8 | VTYPE_VIMEM => 9
  | VTYPE_MMIO => 10 | VTYPE_DEV => 11 | VTYPE_FILE => 12 | VTYPE_MAX_TYPE => 13
  | VTYPE_BLAME_NONE => 14
  end.

Definition VFLAG_WRITE : Z := 2 ^ 0.
Definition VFLAG_EXEC : Z := 2 ^ 1.
Definition VFLAG_USER : Z := 2 ^ 2.
Definition VFLAG_UC : Z := 2 ^ 3.
Definition VFLAG_MAKE : Z := 2 ^ 4.
Definition VFLAG_WT : Z := 2 ^ 5.
Definition VFLAG_KERNEL : Z := 2 ^ 6.
Definition VFLAG_WC : Z := 2 ^ 7.

(** [VMARKER_END]: [pages*PAGE_SZ] is computed in 32 bits. *)
Definition VMARKER_END (base pages : Z) : Z := u64 (base + u32 (pages * 0x1000)).
Definition marker_end (vm : Z) : M machine Z :=
  base ← ld 8 vm; pages ← ld 4 (vm + 8); mret (VMARKER_END base pages).

Definition formFlags (flags : Z) : Z :=
  let add f p pf := if has flags f then Z.lor pf p else pf in
  add VFLAG_WC PAGE_FLAG_WC (add VFLAG_WT PAGE_FLAG_WT (add VFLAG_MAKE PAGE_FLAG_MAKE
    (add VFLAG_UC PAGE_FLAG_UC (add VFLAG_USER PAGE_FLAG_USER (add VFLAG_EXEC PAGE_FLAG_EXECUTE
      (add VFLAG_WRITE PAGE_FLAG_WRITE 0)))))).

(** The number of pages of a request. *)
Definition request_pages (bytes : Z) : Z :=
  let pages := u32 (bytes / 0x1000) in if pages =? 0 then 1 else pages.

Section vmm.
Context {HO : HeapOps} {PO : PhysOps} {VO : VmemPhysOps} {CO : CacheOps} {KS : KernelSyms}.

Definition prefferedMinAddress (mtype flags : Z) : Z :=
if has flags VFLAG_KERNEL && (mtype =? 1) then sym_heapEnd else 0x100000.

Definition extendStack : M machine unit :=
'(ptr, sz) ← allocPhys 40960 0 0;
_ ← kassert (negb (ptr =? 0xFFF)) "OOM";
for_range 0 ((sz + 0xFFF) / 0x1000) (λ k,
  stack ← gread g_physStack; pushStack stack (u64 (ptr + 0x1000 * k))).

Definition getPhysmem (fuel : nat) : M machine Z :=
iter fuel (λ _,
  stack ← gread g_physStack;
  '(addr, f) ← popStack stack;
  if negb f then _ ← extendStack; mret (inl tt) else mret (inr addr)) tt.

(** [createVMarkerCache] of kcache.c is a parameter here. *)
Definition initVmalloc (createVMarkerCache : M machine Z) : M machine unit :=
c ← createVMarkerCache;
_ ← gwrite g_markerCache c;
_ ← kassert (negb (c =? 0)) "Failed to create vMarker kcache";
d ← createDstack 800;
_ ← gwrite g_physStack d;
_ ← kassert (negb (d =? 0)) "Failed to create data stack";
extendStack.

(** The search loop of [allocMarker]: the marker to insert after, 0 when there is
  no room between two markers, and the last marker. *)
Definition find_room (fuel : nat) (head sz minAddr : Z) : M machine (Z * Z) :=
iter fuel (λ '(head, end_),
  if head =? 0 then mret (inr (head, end_))
  else
    n ← ld 8 (head + 24);
    if n =? 0 then mret (inr (0, end_))
    else
      nbase ← ld 8 n;
      if nbase >? minAddr then mret (inl (n, n))
      else
        hbase ← ld 8 head;
        if hbase <=? minAddr then mret (inl (n, n))
        else
          e ← marker_end head;
          if u64 (nbase - e) >=? sz then mret (inr (head, end_)) else mret (inl (n, n)))
  (head, head).

Definition allocMarker (fuel : nat) (head bytes type flags : Z) : M machine Z :=
let pages := request_pages bytes in
let sz := u32 (pages * 0x1000) in
let minAddr := prefferedMinAddress type flags in
'(head, end_) ← find_room fuel head sz minAddr;
cache ← gread g_markerCache;
marker ← kcacheAlloc cache 0;
_ ← st 4 (marker + 8) pages;
_ ← st 4 (marker + 12) flags;
_ ← st 1 (marker + 16) type;
_ ← (if head =? 0 then
       e ← marker_end end_;
       _ ← st 8 marker e;
       _ ← st 8 (marker + 24) 0;
       st 8 (end_ + 24) marker
     else
       e ← marker_end head;
       _ ← st 8 marker (e + 0x1000);
       next ← ld 8 (head + 24);
       _ ← st 8 (marker + 24) next;
       st 8 (head + 24) marker);
mret marker.

(** The body of [vmalloc]'s loop: a frame for page [i]. *)
Definition back_page (fuel : nat) (proc virt flags i : Z) : M machine unit :=
phys ← getPhysmem fuel;
if phys =? 0xFFF then fail (Panic "Incomplete backing")
else
  space ← ld 8 (proc + 64);
  _ ← mapPage fuel space phys (u64 (virt + u32 (i * 0x1000))) flags;
  mret tt.

(** [vmalloc]: the loop runs for [i <= pages]. *)
Definition vmalloc_ (fuel : nat) (bytes type flags : Z) : M machine Z :=
proc ← getCurrentTask;
if proc =? 0 then mret 0 else
head ← ld 8 (proc + 48);
if head =? 0 then mret 0 else
marker ← allocMarker fuel head bytes type flags;
if marker =? 0 then mret 0 else
virt ← ld 8 marker;
_ ← for_range 0 (request_pages bytes + 1) (back_page fuel proc virt (formFlags flags));
mret virt.

Definition vmallocPhys_ (fuel : nat) (phys bytes type flags : Z) : M machine Z :=
proc ← getCurrentTask;
if proc =? 0 then mret 0 else
head ← ld 8 (proc + 48);
if head =? 0 then mret 0 else
marker ← allocMarker fuel head bytes type flags;
if marker =? 0 then mret 0 else
virt ← ld 8 marker;
space ← ld 8 (proc + 64);
_ ← mapPages fuel space phys virt (formFlags flags) (request_pages bytes);
mret virt.

Definition vmFree_ (virt : Z) : M machine unit := mret tt.

Definition createPagespace (fuel : nat) : M machine Z :=
space ← kmalloc 8;
_ ← kassert (negb (space =? 0)) "kmalloc() failed";
t ← newPagetable fuel;
_ ← st 8 space t;
t ← ld 8 space;
_ ← kassert (negb (t =? 0)) "kmalloc() failed";
mret space.

Definition virtToPhys (virt : Z) : M machine Z :=
tk ← getCurrentTask;
_ ← kassert (negb (tk =? 0)) "NULL ticket";
space ← ld 8 (tk + 64);
_ ← kassert (negb (space =? 0)) "NULL pageSpace";
virtToPhysInt space virt.

(** What vmm.c provides to the kernel heap and to the other components. *)
Definition vmm_ops (fuel : nat) : VmemOps := {|
Heap.vmalloc := vmalloc_ fuel;
Heap.vmFree := vmFree_
|}.
Definition vmm_phys_ops (fuel : nat) : VmemPhysOps := {|
Heap.vmallocPhys := vmallocPhys_ fuel
|}.
End vmm.

(** ** The marker list *)

(** The list of markers from [head] on (address, base, pages), with ascending
    bases and disjoint nodes; [area] are the nodes' bytes. *)
Record mnode := MNode { mn_addr : Z; mn_base : Z; mn_pages : Z }.

Definition mnode_ok (m : gmap Z Z) (nxt : Z) (n : mnode) : Prop :=
  0 < mn_addr n ∧ load 8 m (mn_addr n) = mn_base n ∧ load 4 m (mn_addr n + 8) = mn_pages n ∧
  load 8 m (mn_addr n + 24) = nxt.

Definition mnext (l : list mnode) : Z := match l with [] => 0 | n :: _ => mn_addr n end.
Definition mbase_ge (l : list mnode) (b : Z) : Prop :=
  match l with [] => True | n :: _ => b <= mn_base n end.

Fixpoint mchain (m : gmap Z Z) (l : list mnode) : Prop :=
  match l with
  | [] => True
  | n :: l' => mnode_ok m (mnext l') n ∧ mbase_ge l' (mn_base n) ∧ mchain m l'
  end.

Definition node_apart (a b : Z) : Prop := a + 32 <= b ∨ b + 32 <= a.

Section chain.

Lemma mchain_app_inv m l1 n l2 :
mchain m (l1 ++ n :: l2) → mnode_ok m (mnext l2) n.
Proof. induction l1 as [|c l1 IH]; simpl; [tauto|]. intros (_ & _ & H). auto. Qed.

(** On an ascending list the search never finds a gap: it stops at the last
  marker. *)
Lemma find_room_ascending fuel l n sz minAddr s :
mchain (memory s) (l ++ [n]) → (S (length l) < fuel)%nat →
find_room fuel (mnext (l ++ [n])) sz minAddr s = Ok (0, mn_addr n) s.
Proof.
unfold find_room. revert fuel. induction l as [|c l IH]; intros [|fuel] Hc Hf; simpl in Hf; try lia.
- destruct Hc as ((Hpos & _ & _ & Hn) & _). cbn [iter app mnext].
  rewrite eqb_false by lia. run. by rewrite Hn.
- cbn [app] in Hc. destruct Hc as ((Hpos & Hb & Hp & Hn) & Hge & Hc).
  cbn [iter app mnext]. rewrite eqb_false by lia.
  assert (∃ n1, mnext (l ++ [n]) = mn_addr n1 ∧ mbase_ge (l ++ [n]) (mn_base c) ∧
    mn_base c <= mn_base n1 ∧ 0 < mn_addr n1 ∧ load 8 (memory s) (mn_addr n1) = mn_base n1)
    as (n1 & E1 & _ & Hle & Hpos1 & Hb1).
  { destruct l as [|d l]; simpl in *; [exists n|exists d];
      destruct Hc as ((? & ? & ?) & ?); tauto. }
  unfold mbind at 1, M_bind at 1. unfold mbind at 1, M_bind at 1, ld at 1.
  rewrite Hn, E1, eqb_false by lia. unfold mbind at 1, M_bind at 1, ld at 1. rewrite Hb1.
  destruct (mn_base n1 >? minAddr) eqn:Eg.
  + unfold mret at 1, M_ret at 1. rewrite <- E1. apply IH; [done|lia].
  + unfold mbind at 1, M_bind at 1, ld at 1. rewrite Hb.
    rewrite Z.gtb_ltb in Eg. apply Z.ltb_ge in Eg. rewrite leb_true by lia.
    unfold mret at 1, M_ret at 1. rewrite <- E1. apply IH; [done|lia].
Qed.

Lemma mnode_ok_ext m m' nxt n :
same_on (λ a, mn_addr n <= a < mn_addr n + 12 ∨ mn_addr n + 24 <= a < mn_addr n + 32) m m' →
mnode_ok m nxt n → mnode_ok m' nxt n.
Proof.
intros Hs (H1 & H2 & H3 & H4). split_and!; [done|..].
- rewrite <- H2. eapply same_on_load; [exact Hs|]. intros; blia.
- rewrite <- H3. eapply same_on_load; [exact Hs|]. intros; blia.
- rewrite <- H4. eapply same_on_load; [exact Hs|]. intros; blia.
Qed.

Lemma mchain_ext m m' l :
same_on (λ a, ∃ n, n ∈ l ∧ mn_addr n <= a < mn_addr n + 32) m m' → mchain m l → mchain m' l.
Proof.
induction l as [|n l IH]; intros Hs; [done|]. intros (H1 & H2 & H3). split_and!; [|done|].
- eapply mnode_ok_ext; [|exact H1]. intros a Ha. apply Hs. exists n. split; [by left|lia].
- apply IH; [|done]. intros a (d & Hd & Ha). apply Hs. exists d. split; [by right|done].
Qed.

(** Linking a new node behind the last one. *)
Lemma mchain_snoc m m' l n k :
mchain m (l ++ [n]) → Forall (λ c, node_apart (mn_addr c) (mn_addr n)) l →
mnode_ok m' (mn_addr k) n → mn_base n <= mn_base k → mnode_ok m' 0 k →
same_on (λ a, ∃ c, c ∈ l ∧ mn_addr c <= a < mn_addr c + 32) m m' →
mchain m' (l ++ [n; k]).
Proof.
intros Hc Ha Hn Hle Hk Hs. revert Hc Ha Hs. induction l as [|c l IH]; intros Hc Ha Hs.
- cbn. tauto.
- cbn [app] in *. destruct Hc as (H1 & H2 & H3). apply Forall_cons in Ha as [Ha1 Ha2].
  split_and!.
  + replace (mnext (l ++ [n; k])) with (mnext (l ++ [n])) by by destruct l.
    eapply mnode_ok_ext; [|exact H1]. intros a Hr. apply Hs. exists c. split; [by left|lia].
  + destruct l; simpl in *; done.
  + apply IH; [done|done|]. intros a (d & Hd & Hr). apply Hs. exists d. split; [by right|done].
Qed.
End chain.

Section markers.
Context {CO : CacheOps} {KS : KernelSyms}.

(** The marker cache hands out a node that overlaps none of the list and changes
  no node of the list. *)
Definition fresh_marker (s s' : machine) (l : list mnode) (mk : Z) : Prop :=
kcacheAlloc (globals s g_markerCache) 0 s = Ok mk s' ∧ 0 < mk < 2 ^ 64 ∧
Forall (λ c, node_apart (mn_addr c) mk) l ∧
same_on (λ a, ∃ n, n ∈ l ∧ mn_addr n <= a < mn_addr n + 32) (memory s) (memory s').

Definition marker_for (bytes : Z) (n : mnode) (mk : Z) : mnode :=
MNode mk (VMARKER_END (mn_base n) (mn_pages n)) (request_pages bytes).

Lemma request_pages_range bytes : 0 <= request_pages bytes < 2 ^ 32.
Proof.
unfold request_pages. pose proof (u32_range (bytes / 0x1000)).
destruct (u32 (bytes / 0x1000) =? 0); lia.
Qed.

Lemma allocMarker_ok fuel s s1 l n bytes type flags mk :
mchain (memory s) (l ++ [n]) → (S (length l) < fuel)%nat →
Forall (λ c, node_apart (mn_addr c) (mn_addr n)) l →
fresh_marker s s1 (l ++ [n]) mk →
mn_base n <= VMARKER_END (mn_base n) (mn_pages n) →
wp (allocMarker fuel (mnext (l ++ [n])) bytes type flags) (λ r s', ∃ m',
  r = mk ∧ s' = set_memory m' s1 ∧ mchain m' (l ++ [n; marker_for bytes n mk]) ∧
  same_on (λ a, ¬ (mk <= a < mk + 32) ∧ ¬ (mn_addr n + 24 <= a < mn_addr n + 32)) (memory s1) m') s.
Proof.
intros Hc Hf Hap (Hk & Hmk & Hfr & Hs1) Hge.
assert (mchain (memory s1) (l ++ [n])) as Hc1 by by eapply mchain_ext.
pose proof (mchain_app_inv _ l n [] Hc1) as Hn. destruct Hn as (Hpos & Hb & Hp & _).
apply Forall_app in Hfr as [Hfr1 [Hfr2 _]%Forall_cons]. unfold node_apart in Hfr2.
pose proof (request_pages_range bytes) as Hrp.
unfold allocMarker. wp_step. eapply wp_eq; [by apply find_room_ascending|]. cbv beta iota. wp_step. wp_step.
wp_step. eapply wp_eq; [exact Hk|]. change (0 =? 0) with true. cbv iota. unfold marker_end.
wp_steps. cbn [memory set_memory]. mem. rewrite Hb, Hp. wp_steps. cbn [memory set_memory].
eexists. split; [done|]. split; [reflexivity|].
pose proof (u64_range (mn_base n + u32 (mn_pages n * 0x1000))) as Hr.
split; [|intros a Ha; by rewrite !mbyte_store_ne by lia].
eapply (mchain_snoc (memory s1) _ l n (marker_for bytes n mk) Hc1 Hap); [|done| |].
- split_and!; [done|..]; cbn [marker_for mn_addr]; mem; [done|done|by wrap].
- unfold VMARKER_END in *. split_and!; [cbn; lia|..]; cbn [marker_for mn_addr mn_base mn_pages]; mem;
    [by wrap|by wrap|by wrap].
- intros a (c & Hc' & Ha). rewrite Forall_forall in Hap, Hfr1.
  specialize (Hap c Hc'). specialize (Hfr1 c Hc'). unfold node_apart in *.
  by rewrite !mbyte_store_ne by lia.
Qed.

(** on a process whose markers ascend, [allocMarker] never uses a gap: it
  appends a marker that starts where the last one ends, and the list stays well
  formed. *)
Theorem allocMarker_appends fuel s s1 l n bytes type flags mk :
mchain (memory s) (l ++ [n]) → (S (length l) < fuel)%nat →
Forall (λ c, node_apart (mn_addr c) (mn_addr n)) l →
fresh_marker s s1 (l ++ [n]) mk →
mn_base n <= VMARKER_END (mn_base n) (mn_pages n) →
wp (allocMarker fuel (mnext (l ++ [n])) bytes type flags) (λ r s',
  r = mk ∧ mchain (memory s') (l ++ [n; marker_for bytes n mk])) s.
Proof.
intros. eapply wp_mono; [by eapply allocMarker_ok|]. by intros r s' (m' & -> & -> & ? & _).
Qed.

(** two successive allocations overlap when the first is at least a page and
  not a multiple of the page size: the second region starts before the first
  one ends. *)
Theorem allocMarker_regions_overlap fuel s s1 l n bytes bytes2 type flags mk mk2 :
mchain (memory s) (l ++ [n]) → (S (S (length l)) < fuel)%nat →
Forall (λ c, node_apart (mn_addr c) (mn_addr n)) l →
fresh_marker s s1 (l ++ [n]) mk →
mn_base n <= VMARKER_END (mn_base n) (mn_pages n) →
0x1000 <= bytes < 2 ^ 31 → bytes mod 0x1000 ≠ 0 →
VMARKER_END (mn_base n) (mn_pages n) + bytes < 2 ^ 64 →
(∀ r s', allocMarker fuel (mnext (l ++ [n])) bytes type flags s = Ok r s' →
   ∃ s2, fresh_marker s' s2 (l ++ [n; marker_for bytes n mk]) mk2) →
wp (allocMarker fuel (mnext (l ++ [n])) bytes type flags) (λ r1 s2,
  wp (allocMarker fuel (mnext (l ++ [n])) bytes2 type flags) (λ r2 s3,
    vm_base (read_marker (memory s3) r1) < vm_base (read_marker (memory s3) r2) <
    vm_base (read_marker (memory s3) r1) + bytes) s2) s.
Proof.
intros Hc Hf Hap Hfr Hge Hby Hm Hov Hfr2.
assert (wp (allocMarker fuel (mnext (l ++ [n])) bytes type flags) (λ r s', ∃ m',
    r = mk ∧ s' = set_memory m' s1 ∧ mchain m' (l ++ [n; marker_for bytes n mk])) s) as W.
{ eapply wp_mono; [eapply allocMarker_ok; (exact Hc || exact Hap || exact Hfr || lia)|].
  intros r s' (m' & ? & ? & ? & _). by exists m'. }
apply wp_ok in W as (r1 & s2 & E & m' & -> & -> & Hc2). eapply wp_eq; [exact E|].
destruct (Hfr2 _ _ E) as [s3 Hfr3].
set (k := marker_for bytes n mk) in *.
replace (l ++ [n; k]) with ((l ++ [n]) ++ [k]) in * by by rewrite <- app_assoc.
assert (request_pages bytes = bytes / 0x1000) as Hrp.
{ unfold request_pages. rewrite u32_id by zlia. by rewrite eqb_false by zlia. }
assert (VMARKER_END (mn_base k) (mn_pages k) = mn_base k + bytes / 0x1000 * 0x1000) as Ek.
{ unfold k, VMARKER_END at 1; cbn [marker_for mn_base mn_pages]. rewrite Hrp.
  unfold VMARKER_END in *. pose proof (u64_range (mn_base n + u32 (mn_pages n * 0x1000))).
  rewrite (u32_id (bytes / 4096 * 4096)) by zlia. rewrite (u64_id (_ + bytes / 4096 * 4096)) by zlia. done. }
assert (Forall (λ c, node_apart (mn_addr c) mk) (l ++ [n])) as Hap2 by apply Hfr.
replace (mnext (l ++ [n])) with (mnext ((l ++ [n]) ++ [k])) by by destruct l.
eapply wp_mono.
{ eapply allocMarker_ok; [exact Hc2|rewrite length_app; simpl; lia|exact Hap2|exact Hfr3|].
  rewrite Ek. zlia. }
intros r2 s4 (m2 & -> & -> & Hc4 & _). cbn [memory set_memory read_marker vm_base].
assert (mnode_ok m2 mk2 k) as (_ & B1 & _) by by apply (mchain_app_inv m2 (l ++ [n]) k [marker_for bytes2 k mk2]).
replace ((l ++ [n]) ++ [k; marker_for bytes2 k mk2])
  with (((l ++ [n]) ++ [k]) ++ [marker_for bytes2 k mk2]) in Hc4 by by rewrite <- app_assoc.
pose proof (mchain_app_inv m2 _ _ [] Hc4) as (_ & B2 & _).
cbn [marker_for mn_addr mn_base k] in B1, B2. unfold k in B1. cbn [mn_addr marker_for] in B1.
rewrite B1. change (mn_addr (marker_for bytes2 k mk2)) with mk2 in B2. rewrite B2.
change (mn_base k) with (VMARKER_END (mn_base n) (mn_pages n)) in Ek. rewrite Ek. zlia.
Qed.
End markers.

(** ** Witnesses: the marker of [createFakeTask] *)

Section witness.
#[local] Instance syms0 : KernelSyms :=
{| sym_kspace := 0; sym_heapEnd := 0; sym_ftask := 0; sym_fschedule := 0;
   sym_internalkcacheCache := 0; sym_kcName := 0; sym_slabConstructor := 0;
   sym_slabDestructor := 0 |}.

Definition one_marker : machine := set_memory (store 4 ∅ 0x108 1) machine0.
Definition fake_node : mnode := MNode 0x100 0 1.

Lemma one_marker_chain : mchain (memory one_marker) ([] ++ [fake_node]).
Proof. cbn. unfold mnode_ok. by split_and!. Qed.

Section appends.
#[local] Instance cache200 : CacheOps :=
  {| kcacheAlloc _ _ := mret 0x200; kcacheCreate _ _ _ _ _ := mret 0 |}.

Lemma allocMarker_appends_witness :
  wp (allocMarker 5 (mnext ([] ++ [fake_node])) 0x5000 1 81) (λ r s',
r = 0x200 ∧ mchain (memory s') ([] ++ [fake_node; marker_for 0x5000 fake_node 0x200])) one_marker.
Proof.
  apply (allocMarker_appends 5 one_marker one_marker); [apply one_marker_chain|simpl; lia|constructor| |done].
  split; [done|]. split; [lia|]. split; [|done].
  constructor; [left; done|constructor].
Defined.
End appends.

Section overlap.
(** A cache that hands out the object at 0x200 first, and the one at 0x300 once a
marker is linked behind the first. *)
#[local] Instance cache_two : CacheOps :=
  {| kcacheAlloc _ _ := λ s, Ok (if load 8 (memory s) 0x118 =? 0 then 0x200 else 0x300) s;
 kcacheCreate _ _ _ _ _ := mret 0 |}.

Definition marker_two : machine :=
  match allocMarker 5 (mnext ([] ++ [fake_node])) 0x1800 1 81 one_marker with
  | Ok _ s => s | Fault _ => machine0 end.

Lemma allocMarker_regions_overlap_witness :
  wp (allocMarker 5 (mnext ([] ++ [fake_node])) 0x1800 1 81) (λ r1 s2,
wp (allocMarker 5 (mnext ([] ++ [fake_node])) 0x1000 1 81) (λ r2 s3,
  vm_base (read_marker (memory s3) r1) < vm_base (read_marker (memory s3) r2) <
  vm_base (read_marker (memory s3) r1) + 0x1800) s2) one_marker.
Proof.
  apply (allocMarker_regions_overlap 5 one_marker one_marker [] fake_node 0x1800 0x1000 1 81 0x200 0x300);
[apply one_marker_chain|simpl; lia|constructor| |done|done|done|done|].
  - split; [by vm_compute|]. split; [lia|]. split; [|done].
constructor; [left; done|constructor].
  - intros r s' E. assert (s' = marker_two) as -> by (unfold marker_two; by rewrite E).
exists marker_two. split; [by vm_compute|]. split; [lia|]. split; [|done].
constructor; [left; by vm_compute|constructor; [left; by vm_compute|constructor]].
Defined.
End overlap.
End witness.
