(* ===== verification/VmmProps.v ===== *)
(** * Mapped regions

    [vmallocPhys] as a whole: it appends a marker to the process's list and maps
    the region the marker describes onto the frames it was given.  The proof
    composes [allocMarker] (Vmm.v) with [mapPages] (PagingProps.v). *)

From S2P Require Import Prelude Kmonad Mem Heap Dstack Paging PagingProps Task Vmm.

(** ** Page walks in two memories *)

Section walk.
Implicit Types (m : gmap Z Z) (space : Z).

(** The objects page walks read: the page space and the slots of every walk. *)
Definition walk_object m space (x : Z) : Prop := x = space ∨ ∃ v, x ∈ live_slots m space v.
Definition walk_byte m space (a : Z) : Prop := ∃ x, walk_object m space x ∧ x <= a < x + 8.

Lemma walk_object_load m m' space x :
  same_on (walk_byte m space) m m' → walk_object m space x → load 8 m' x = load 8 m x.
Proof. intros Hs Hx. eapply same_on_load; [exact Hs|]. intros i Hi. exists x. split; [done|lia]. Qed.

(** A memory that agrees on those objects has the same tables and translations. *)
Lemma walk_ext m m' space :
  same_on (walk_byte m space) m m' →
  same_tables m m' space ∧ ∀ v, translate m' space v = translate m space v.
Proof.
  intros Hs. pose proof (λ x, walk_object_load m m' space x Hs) as L.
  assert (load 8 m' space = load 8 m space) as E0 by (apply L; by left).
  assert (∀ v x, x ∈ live_slots m space v → load 8 m' x = load 8 m x) as Lv.
  { intros v x Hx. apply L. right. by exists v. }
  unfold live_slots in Lv.
  assert (∀ v, table1 m' space v = table1 m space v) as E1.
  { intros v. unfold table1, child. rewrite E0. f_equal. apply (Lv v). left. }
  assert (∀ v, table1 m space v ≠ 0 → table2 m' space v = table2 m space v) as E2.
  { intros v N1. unfold table2, child. rewrite E1. f_equal. apply (Lv v).
    rewrite (eqb_false _ _ N1). right. left. }
  assert (∀ v, table1 m space v ≠ 0 → table2 m space v ≠ 0 → table3 m' space v = table3 m space v) as E3.
  { intros v N1 N2. unfold table3, child. rewrite (E2 v N1). f_equal. apply (Lv v).
    rewrite (eqb_false _ _ N1), (eqb_false _ _ N2). right. right. left. }
  split; [split; [done|]; intros v; split; [done|]; auto|]. intros v. unfold translate. rewrite E1.
  destruct (Z.eqb_spec (table1 m space v) 0) as [|N1]; [done|]. rewrite (E2 v N1).
  destruct (Z.eqb_spec (table2 m space v) 0) as [|N2]; [done|]. rewrite (E3 v N1 N2).
  destruct (Z.eqb_spec (table3 m space v) 0) as [|N3]; [done|].
  unfold pte_slot at 1. rewrite (E3 v N1 N2). fold (pte_slot m space v). f_equal. apply (Lv v).
  rewrite (eqb_false _ _ N1), (eqb_false _ _ N2), (eqb_false _ _ N3). do 3 right. left.
Qed.

Lemma walk_object_same m m' space x : same_tables m m' space → walk_object m' space x ↔ walk_object m space x.
Proof. intros H. unfold walk_object. by setoid_rewrite (live_slots_same _ _ _ _ H). Qed.

(** Writes outside the page tables leave the pages mapped. *)
Lemma mapped_to_ext m space frame virt leaf (W : Z → Prop) k s s' :
  mapped_to m space frame virt leaf W k s →
  same_on (λ a, ¬ W a) (memory s) (memory s') → (∀ a, W a → ¬ walk_byte m space a) →
  mapped_to m space frame virt leaf W k s'.
Proof.
  intros [Ht Htab Hfr Hpg Hot] Hs HW.
  destruct (walk_ext (memory s) (memory s') space) as [Htab' Htr].
  { intros a (x & Hx & Ha). apply Hs. intros Hw. apply (HW a Hw). exists x.
    split; [by apply (walk_object_same _ _ _ _ Htab)|done]. }
  split.
  - by eapply tree_ok_same.
  - by eapply same_tables_trans.
  - intros a Ha. rewrite Hs by apply Ha. by apply Hfr.
  - intros i Hi. rewrite Htr. by apply Hpg.
  - intros v N1 N2 N3 Hv. rewrite Htr. by apply Hot.
Qed.
End walk.

(** ** [vmallocPhys] *)

Section region.
Context {HO : HeapOps} {PO : PhysOps} {VO : VmemPhysOps} {CO : CacheOps} {KS : KernelSyms}.

(** A process whose markers are the list [l ++ [n]] and whose page tables cover the
  range that follows the last marker: the tables of its pages exist, no two
  pages share an entry, and no object of a page walk overlaps a marker.  The
  marker cache hands out [mk] in the state [s1]. *)
Record region_ready (s s1 : machine) (l : list mnode) (n : mnode) (mk pages : Z)
  (leaf : Z → Prop) : Prop := {
rr_task : current s ≠ 0;
rr_head : load 8 (memory s) (current s + 48) = mnext (l ++ [n]);
rr_chain : mchain (memory s) (l ++ [n]);
rr_nodes : Forall (λ c, node_apart (mn_addr c) (mn_addr n)) l;
rr_end : mn_base n <= VMARKER_END (mn_base n) (mn_pages n);
rr_cache : fresh_marker s s1 (l ++ [n]) mk;
rr_keep : same_on (λ a, current s + 64 <= a < current s + 72 ∨
  walk_byte (memory s) (load 8 (memory s) (current s + 64)) a) (memory s) (memory s1);
rr_apart x a : x = current s + 64 ∨ walk_object (memory s) (load 8 (memory s) (current s + 64)) x →
  a = mk ∨ (∃ c, c ∈ l ++ [n] ∧ a = mn_addr c) → x + 8 <= a ∨ a + 32 <= x;
rr_tree : tree_ok (memory s) (load 8 (memory s) (current s + 64)) leaf;
rr_tables i : 0 <= i < pages →
  let v := VMARKER_END (mn_base n) (mn_pages n) + 0x1000 * i in
  let space := load 8 (memory s) (current s + 64) in
  table1 (memory s) space v ≠ 0 ∧ table2 (memory s) space v ≠ 0 ∧ table3 (memory s) space v ≠ 0;
rr_slots i j : 0 <= i < j → j < pages →
  let v := VMARKER_END (mn_base n) (mn_pages n) in
  let space := load 8 (memory s) (current s + 64) in
  pte_slot (memory s) space (v + 0x1000 * i) ≠ pte_slot (memory s) space (v + 0x1000 * j)
}.

(** Markers keep their place while the range is mapped. *)
Lemma mchain_mapped m s' l space frame virt pages leaf (W : Z → Prop) :
mchain m l → mapped_to m space frame virt leaf W pages s' →
(∀ x c, walk_object m space x → c ∈ l → x + 8 <= mn_addr c ∨ mn_addr c + 32 <= x) →
(∀ a c, W a → c ∈ l → ¬ (mn_addr c <= a < mn_addr c + 32)) →
mchain (memory s') l.
Proof.
intros Hc Hm Hap HW. eapply mchain_ext; [|exact Hc]. intros a (c & Hcl & Ha).
apply (mt_frame _ _ _ _ _ _ _ _ Hm). split; [intros Hw; by apply (HW a c)|].
intros i x _ Hx Hxa. destruct (Hap x c); [right; by eexists|done|lia|lia].
Qed.

(** The state [allocMarker] leaves, seen from the page tables. *)
Lemma marker_keeps s s1 l n mk pages leaf m' :
region_ready s s1 l n mk pages leaf →
same_on (λ a, ¬ (mk <= a < mk + 32) ∧ ¬ (mn_addr n + 24 <= a < mn_addr n + 32)) (memory s1) m' →
same_on (λ a, current s + 64 <= a < current s + 72 ∨
  walk_byte (memory s) (load 8 (memory s) (current s + 64)) a) (memory s) m'.
Proof.
intros R Hm a Ha. rewrite Hm; [by apply (rr_keep _ _ _ _ _ _ _ R)|].
assert (∃ x, (x = current s + 64 ∨ walk_object (memory s) (load 8 (memory s) (current s + 64)) x) ∧
  x <= a < x + 8) as (x & Hx & Hxa).
{ destruct Ha as [Ha|(x & Hx & Hxa)]; [exists (current s + 64)|exists x]; (split; [tauto|lia]). }
pose proof (rr_apart _ _ _ _ _ _ _ R x mk Hx ltac:(tauto)).
pose proof (rr_apart _ _ _ _ _ _ _ R x (mn_addr n) Hx
  ltac:(right; exists n; rewrite elem_of_app, elem_of_cons; tauto)). lia.
Qed.

(** C7: [vmallocPhys] on a process whose page tables cover the range returns the
  end of the process's last region; afterwards every page of the new region
  translates to its frame, with bit 12 set when the memory type uses the PAT bit
  (UC, WB, WT), and the region is the last marker of a well-formed list. *)
Theorem vmallocPhys_maps fuel phys bytes type flags s s1 l n mk leaf :
region_ready s s1 l n mk (request_pages bytes) leaf →
(S (length l) < fuel)%nat → request_pages bytes < 2 ^ 20 →
let virt := VMARKER_END (mn_base n) (mn_pages n) in
let space := load 8 (memory s) (current s + 64) in
phys mod 0x1000 = 0 ∧ 0 <= phys ∧ phys + 0x1000 * request_pages bytes <= 2 ^ 52 →
virt mod 0x1000 = 0 ∧ virt + 0x1000 * request_pages bytes <= 2 ^ 64 →
wp (vmallocPhys_ fuel phys bytes type flags) (λ r s', r = virt ∧
  (∀ i, 0 <= i < request_pages bytes →
     virtToPhysInt space (virt + 0x1000 * i) s' = Ok (pat_frame (formFlags flags) (phys + 0x1000 * i)) s') ∧
  mchain (memory s') (l ++ [n; marker_for bytes n mk])) s.
Proof.
intros R Hf Hpg virt space Hp Hv. pose proof (request_pages_range bytes) as Hr0.
pose proof R as [Ht Hh Hc Hn He Hfm _ Hap Htree Htab Hsl]. fold space virt in Htab, Hsl, Htree, Hap.
assert (mnext (l ++ [n]) ≠ 0) as Hh0.
{ destruct l as [|c l]; simpl in *; destruct Hc as ((? & _) & _); lia. }
unfold vmallocPhys_, getCurrentTask, getPerCPUInfo, scheduler_at. wp_steps.
change (load 8 (memory s) (globals s g_scheduler + 40 * globals s g_gs + 24)) with (current s).
rewrite (eqb_false _ _ Ht). wp_steps. rewrite Hh, (eqb_false _ _ Hh0). wp_step.
eapply wp_mono; [by eapply allocMarker_ok|]. intros r s2 (m2 & -> & -> & Hc2 & Hm2).
pose proof (marker_keeps _ _ _ _ _ _ _ _ R Hm2) as Hk. fold space in Hk.
assert (same_on (walk_byte (memory s) space) (memory s) m2) as Hw.
{ intros a Ha. apply Hk. by right. }
destruct (walk_ext _ _ _ Hw) as [Hwalk _].
assert (load 8 m2 (current s + 64) = space) as Espace.
{ eapply same_on_load; [exact Hk|]. intros i Hi. left. lia. }
pose proof (mchain_app_inv m2 (l ++ [n]) (marker_for bytes n mk) []) as Hmk.
rewrite <- app_assoc in Hmk. destruct (Hmk Hc2) as (Hmk0 & Hbase & _). clear Hmk.
cbn [marker_for mn_addr mn_base] in Hmk0, Hbase. fold virt in Hbase.
rewrite eqb_false by lia. wp_steps. cbn [memory set_memory]. rewrite Hbase, Espace.
assert (0 <= virt) as Hv0 by apply u64_range.
eapply wp_mono.
{ apply (mapPages_ok fuel m2 space phys virt (request_pages bytes) (formFlags flags) leaf); try done.
  - split_and!; [apply Hv|done|apply Hv].
  - intros i Hi. destruct (Htab i Hi) as (N1 & N2 & N3).
    by destruct (same_tables_all _ _ _ _ Hwalk N1 N2 N3) as (-> & -> & ->).
  - intros i j Hi Hj. destruct (Htab i ltac:(lia)) as (N1 & N2 & N3), (Htab j ltac:(lia)) as (M1 & M2 & M3).
    unfold pte_slot. destruct (same_tables_all _ _ _ _ Hwalk N1 N2 N3) as (_ & _ & ->).
    destruct (same_tables_all _ _ _ _ Hwalk M1 M2 M3) as (_ & _ & ->). by apply Hsl.
  - by eapply tree_ok_same.
  - lia. }
intros [] s3 Hmap. wp_step. split; [done|]. split.
- intros i Hi. by rewrite virtToPhysInt_translate, (mt_pages _ _ _ _ _ _ _ _ Hmap).
- eapply mchain_mapped; [exact Hc2|exact Hmap| |by intros]. intros x c Hx Hcl.
  rewrite (walk_object_same _ _ _ _ Hwalk) in Hx. apply Hap; [by right|].
  rewrite elem_of_app, !elem_of_cons in Hcl. destruct Hcl as [Hcl|[->|[->|Hcl]]].
  + right. exists c. rewrite elem_of_app. tauto.
  + right. exists n. rewrite elem_of_app, elem_of_cons. tauto.
  + by left.
  + by apply not_elem_of_nil in Hcl.
Qed.
End region.

(** ** Witness: three pages behind the first marker *)

Section witness.
#[local] Instance no_heap : HeapOps :=
  {| kmalloc _ := mret 0; kmallocAligned _ := mret 0; kfree _ := mret tt; krealloc _ _ := mret 0 |}.
#[local] Instance phys_const : PhysOps :=
  {| allocPhys _ _ _ := mret (0x100000, 0x2000); freeNPhys _ _ := mret tt |}.
#[local] Instance vmphys_const : VmemPhysOps := {| vmallocPhys _ _ _ _ := mret 0x40000000 |}.
#[local] Instance cache_const : CacheOps :=
  {| kcacheAlloc _ _ := mret 0x8100; kcacheCreate _ _ _ _ _ := mret 0 |}.
#[local] Instance syms_zero : KernelSyms :=
  {| sym_kspace := 0; sym_heapEnd := 0; sym_ftask := 0; sym_fschedule := 0;
     sym_internalkcacheCache := 0; sym_kcName := 0; sym_slabConstructor := 0;
     sym_slabDestructor := 0 |}.

(** The scheduler at 0xA000, the ticket at 0x9000, a marker of one page at 0x8000
    and the page tables of [paged]. *)
Definition process_mem : gmap Z Z :=
  store 8 (store 8 (store 8 (store 4 (store 8 tables4 0x8000 0x4000) 0x8008 1) 0xA018 0x9000) 0x9030 0x8000)
    0x9040 0x100.
Definition process : machine := set_global g_scheduler 0xA000 (set_memory process_mem machine0).
Definition first_marker : mnode := MNode 0x8000 0x4000 1.

Lemma tables4_base a : a mod 8 = 0 → 0 <= TABLE_BASE (load 8 tables4 a) <= 0x4000.
Proof.
  intros Ha. destruct (decide (a ∈ [0x100; 0x1000; 0x2000; 0x3000])) as [Hin|Hn].
  - repeat (apply elem_of_cons in Hin as [->|Hin]; [by vm_compute|]). by apply not_elem_of_nil in Hin.
  - rewrite !not_elem_of_cons in Hn. unfold tables4. rewrite !load_store_ne by zlia. by rewrite load_empty.
Qed.

Lemma tables4_objects x : walk_object tables4 0x100 x → 0 <= x < 0x5000 - 7.
Proof.
  assert (load 8 tables4 0x100 = 0x1000) as E0 by by vm_compute.
  assert (∀ b i, b mod 0x1000 = 0 → 0 <= child tables4 b i <= 0x4000) as Hc.
  { intros b i Hb. apply tables4_base. zlia. }
  intros [->|[v Hx]]; [lia|]. unfold live_slots, pte_slot in Hx. rewrite E0 in Hx.
  pose proof (PML_range v). pose proof (PDPE_range v). pose proof (PDE_range v). pose proof (PTE_range v).
  assert (0 <= table1 tables4 0x100 v <= 0x4000) as T1 by (apply Hc; by rewrite E0).
  assert (0 <= table2 tables4 0x100 v <= 0x4000) as T2 by apply Hc, TABLE_BASE_aligned.
  assert (0 <= table3 tables4 0x100 v <= 0x4000) as T3 by apply Hc, TABLE_BASE_aligned.
  repeat (case_match; rewrite ?elem_of_cons, ?elem_of_nil in Hx); lia.
Qed.

Lemma process_walk : same_on (walk_byte tables4 0x100) tables4 process_mem.
Proof.
  intros a (x & Hx & Ha). apply tables4_objects in Hx. unfold process_mem.
  by rewrite !mbyte_store_ne by lia.
Qed.

Lemma process_objects x : walk_object process_mem 0x100 x → 0 <= x < 0x5000 - 7.
Proof.
  rewrite (walk_object_same _ _ _ _ (proj1 (walk_ext _ _ _ process_walk))). apply tables4_objects.
Qed.

Lemma process_ready : region_ready process process [] first_marker 0x8100 3 (eq 0x4000).
Proof.
  assert (current process = 0x9000) as Et by by vm_compute.
  assert (load 8 (memory process) (current process + 64) = 0x100) as Es by by vm_compute.
  split; rewrite ?Es, ?Et.
  - done.
  - by vm_compute.
  - cbn. unfold mnode_ok. split_and!; [done|by vm_compute..|done|done].
  - constructor.
  - by vm_compute.
  - split; [done|]. split; [lia|]. split; [|done]. constructor; [left; done|constructor].
  - done.
  - intros x a Hx Ha. assert (a = 0x8100 ∨ a = 0x8000) as Ha'.
    { destruct Ha as [->|(c & ->%list_elem_of_singleton & ->)]; [by left|by right]. }
    destruct Hx as [->|Hx%process_objects]; [right; destruct Ha' as [-> | ->]; lia|left; lia].
  - eapply tree_ok_same; [exact (proj1 (walk_ext _ _ _ process_walk))|exact paged_tree_ok].
  - intros i Hi. assert (i = 0 ∨ i = 1 ∨ i = 2) as [-> | [-> | ->]] by lia; by split_and!; vm_compute.
  - intros i j Hi Hj. assert ((i = 0 ∧ j = 1) ∨ (i = 0 ∧ j = 2) ∨ (i = 1 ∧ j = 2)) as Hc by lia.
    destruct Hc as [[-> ->]|[[-> ->]|[-> ->]]]; by vm_compute.
Qed.

Lemma vmallocPhys_maps_witness :
  wp (vmallocPhys_ 5 0xA0000 0x3000 1 17) (λ r s', r = 0x5000 ∧
    (∀ i, 0 <= i < 3 → virtToPhysInt 0x100 (0x5000 + 0x1000 * i) s' = Ok (pat_frame (formFlags 17) (0xA0000 + 0x1000 * i)) s') ∧
    mchain (memory s') ([] ++ [first_marker; marker_for 0x3000 first_marker 0x8100])) process.
Proof.
  apply (vmallocPhys_maps 5 0xA0000 0x3000 1 17 process process [] first_marker 0x8100 (eq 0x4000));
    [exact process_ready|simpl; lia|done|split_and!; done|split_and!; done].
Defined.
End witness.
