(* ===== verification/Vmalloc.v ===== *)
(** * [vmalloc] from end to end

    [vmalloc] takes a marker from the marker cache, links it behind the process's
    last region, pops a frame from the frame stack for every page and maps it.
    The proof puts the contract of the cache ([CacheLaws]), the stack
    ([dstack_rep]), the marker list and the page tables together. *)

From S2P Require Import Prelude Kmonad Mem Heap Dstack Paging PagingProps Task Vmm VmmProps Kcache KcacheProps.

Section vmalloc.
Context {HO : HeapOps} {PO : PhysOps} {VO : VmemPhysOps} {CO : CacheOps} {CL : CacheLaws} {KS : KernelSyms}.

Definition marker_byte (l : list mnode) (a : Z) : Prop := ∃ c, c ∈ l ∧ mn_addr c <= a < mn_addr c + 32.

(** A marker is an object of the cache, or lies outside it (the first marker of the
  kernel task is a static object). *)
Definition marker_home (L : list Z) (c : mnode) : Prop :=
mn_addr c ∈ L ∨ ∀ a, mn_addr c <= a < mn_addr c + 32 → ¬ co_arena a.

(** What [vmalloc] reads that is not its own: the ticket's page space pointer and
  the page tables. *)
Definition fixed_byte (s : machine) (a : Z) : Prop :=
current s + 64 <= a < current s + 72 ∨ walk_byte (memory s) (load 8 (memory s) (current s + 64)) a.

(** The state of a process with the markers [l ++ [n]], the objects [L] of the
  marker cache in use and the frame stack [items]: every component is well formed
  and they occupy different memory. *)
Record vmalloc_ready (s : machine) (l : list mnode) (n : mnode) (L : list Z) (stk b cap : Z)
  (items : list Z) (leaf : Z → Prop) : Prop := {
vr_task : current s ≠ 0;
vr_head : load 8 (memory s) (current s + 48) = mnext (l ++ [n]);
vr_chain : mchain (memory s) (l ++ [n]);
vr_nodes : Forall (λ c, node_apart (mn_addr c) (mn_addr n)) l;
vr_end : mn_base n <= VMARKER_END (mn_base n) (mn_pages n);
vr_cache : globals s g_markerCache = co_cache ∧ co_size = 32 ∧ cache_inv s L ∧ cache_room s;
vr_home : Forall (marker_home L) (l ++ [n]);
vr_stack : globals s g_physStack = stk ∧ dstack_rep (memory s) stk b cap items;
vr_tree : tree_ok (memory s) (load 8 (memory s) (current s + 64)) leaf;
vr_apart a : dstack_area stk b cap a ∨ fixed_byte s a → ¬ co_arena a ∧ ¬ marker_byte (l ++ [n]) a;
vr_stack_apart a : dstack_area stk b cap a → ¬ fixed_byte s a;
vr_slot_apart a : current s + 64 <= a < current s + 72 →
  ¬ walk_byte (memory s) (load 8 (memory s) (current s + 64)) a
}.

(** The contract of the cache gives [allocMarker] its marker. *)
Lemma cache_fresh_marker s L l :
globals s g_markerCache = co_cache → co_size = 32 → cache_inv s L → cache_room s →
Forall (marker_home L) l →
∃ mk s1, fresh_marker s s1 l mk ∧ cache_inv s1 (mk :: L) ∧ globals s1 = globals s ∧
  (∀ a, mk <= a < mk + 32 → co_arena a) ∧ same_on (λ a, ¬ co_arena a) (memory s) (memory s1).
Proof.
intros Hg Hsz HI Hr Hl. pose proof (kcacheAlloc_spec s L 0 HI Hr) as W.
apply wp_ok in W as (mk & s1 & E & HI1 & Hfr & Hs & Hgl & _). exists mk, s1.
destruct (cache_live s1 (mk :: L) mk HI1 ltac:(left)) as (Hp & Hlt & Har). rewrite Hsz in *.
split; [|split; [done|]; split; [done|]; split; [done|]; intros a Ha; apply Hs; by left].
split; [by rewrite Hg|]. split; [lia|]. split.
- eapply Forall_impl; [exact Hl|]. intros c [Hc|Hc].
  + rewrite Forall_forall in Hfr. specialize (Hfr _ Hc). unfold node_apart. lia.
  + unfold node_apart. destruct (decide (mn_addr c + 32 <= mk ∨ mk + 32 <= mn_addr c)) as [|Hov]; [done|].
    exfalso. destruct (decide (mn_addr c <= mk)); [apply (Hc mk); [lia|]; apply Har; lia|].
    apply (Hc (mn_addr c)); [lia|]. apply Har. lia.
- intros a (c & Hc & Ha). apply Hs. rewrite Forall_forall in Hl. destruct (Hl c Hc) as [Hin|Hout].
  + right. by exists (mn_addr c).
  + left. by apply Hout.
Qed.

(** A frame from a stack that is not empty. *)
Lemma getPhysmem_pops fuel s stk b cap items x :
globals s g_physStack = stk → dstack_rep (memory s) stk b cap (items ++ [x]) →
wp (getPhysmem (S fuel)) (λ r s', r = x ∧ ∃ m', s' = set_memory m' s ∧
  dstack_rep m' stk b cap items ∧ same_on (λ a, ¬ dstack_area stk b cap a) (memory s) m') s.
Proof.
intros Hg Hr. unfold getPhysmem. cbn [iter]. wp_steps. rewrite Hg.
eapply wp_mono; [by apply popStack_rep|]. intros r s' (-> & Hs'). by cbn [negb].
Qed.

(** The frame of page [i]: the [i]-th one popped. *)
Definition frame_of (fs : list Z) (i : Z) : Z := default 0 (fs !! Z.to_nat i).

Lemma dstack_rep_ext stk b cap m1 m2 items :
same_on (dstack_area stk b cap) m1 m2 → dstack_rep m1 stk b cap items → dstack_rep m2 stk b cap items.
Proof.
intros Hs [H1 H2 H3 H4 H5 H6 H7 H8]. unfold dstack_area in Hs.
assert (∀ n a, stk <= a → a + Z.of_nat n <= stk + 32 ∨ False → load n m2 a = load n m1 a) as L.
{ intros k a Ha Hk. eapply same_on_load; [exact Hs|intros; blia]. }
split; [rewrite <- H1|rewrite <- H2|rewrite <- H3|rewrite <- H4| |done..]; [apply L; lia..|].
intros i x Hi. rewrite <- (H5 i x Hi). pose proof (lookup_lt_Some _ _ _ Hi).
eapply same_on_load; [exact Hs|intros; blia].
Qed.

Section backing.
Variables (m : gmap Z Z) (g : gvar → Z) (proc space stk b cap virt flags : Z) (rest fs : list Z) (leaf : Z → Prop).
Hypothesis stack_global : g g_physStack = stk.
Hypothesis frames_ok : Forall (λ f, f mod 0x1000 = 0 ∧ 0 <= f < 2 ^ 52) fs.
Hypothesis virt_ok : virt mod 0x1000 = 0 ∧ 0 <= virt ∧ virt + 0x1000 * Z.of_nat (length fs) <= 2 ^ 64.
Hypothesis few : Z.of_nat (length fs) <= 2 ^ 20.
Hypothesis tables : ∀ i, 0 <= i < Z.of_nat (length fs) → table1 m space (virt + 0x1000 * i) ≠ 0 ∧
  table2 m space (virt + 0x1000 * i) ≠ 0 ∧ table3 m space (virt + 0x1000 * i) ≠ 0.
Hypothesis slots : ∀ i j, 0 <= i < j → j < Z.of_nat (length fs) →
  pte_slot m space (virt + 0x1000 * i) ≠ pte_slot m space (virt + 0x1000 * j).
Hypothesis space_at : load 8 m (proc + 64) = space.
Hypothesis slot_apart : ∀ a, proc + 64 <= a < proc + 72 → ¬ dstack_area stk b cap a ∧ ¬ walk_byte m space a.
Hypothesis stack_apart : ∀ a, dstack_area stk b cap a → ¬ walk_byte m space a.

(** After [k] pages: [k] frames are gone from the stack and [k] pages map them. *)
Record backed (k : Z) (s : machine) : Prop := {
bk_globals : globals s = g;
bk_mapped : mapped_to m space (λ i, pat_frame flags (frame_of fs i)) virt leaf (dstack_area stk b cap) k s;
bk_stack : dstack_rep (memory s) stk b cap (rest ++ reverse (drop (Z.to_nat k) fs))
}.

Lemma frame_of_ok i : 0 <= i < Z.of_nat (length fs) →
  frame_of fs i mod 0x1000 = 0 ∧ 0 <= frame_of fs i < 2 ^ 52.
Proof.
intros Hi. destruct (lookup_lt_is_Some_2 fs (Z.to_nat i) ltac:(lia)) as [f Hf].
unfold frame_of. rewrite Hf. cbn [default]. rewrite Forall_forall in frames_ok.
by apply frames_ok, list_elem_of_lookup_2 with (Z.to_nat i).
Qed.

Lemma back_page_ok fuel k s :
0 <= k < Z.of_nat (length fs) → backed k s →
wp (back_page (S fuel) proc virt flags k) (λ _, backed (k + 1)) s.
Proof.
intros Hk [Hg Hm Hst]. destruct (lookup_lt_is_Some_2 fs (Z.to_nat k) ltac:(lia)) as [f Hf].
rewrite (drop_S _ _ _ Hf), reverse_cons, app_assoc in Hst.
assert (frame_of fs k = f) as Ef by (unfold frame_of; by rewrite Hf).
pose proof (frame_of_ok k Hk) as Hfr. rewrite Ef in Hfr.
unfold back_page. wp_step. eapply wp_mono; [eapply getPhysmem_pops; [by rewrite Hg|exact Hst]|].
intros r s' (-> & m' & -> & Hst' & Hs'). rewrite eqb_false by zlia. wp_steps. cbn [memory set_memory].
assert (mapped_to m space (λ i, pat_frame flags (frame_of fs i)) virt leaf (dstack_area stk b cap) k (set_memory m' s)) as Hm'.
{ eapply mapped_to_ext; [exact Hm|exact Hs'|exact stack_apart]. }
assert (load 8 m' (proc + 64) = space) as ->.
{ rewrite <- space_at. eapply same_on_load; [exact (mt_frame _ _ _ _ _ _ _ _ Hm')|]. intros a Ha. cbv beta.
  destruct (slot_apart a) as [S1 S2]; [lia|]. split; [done|]. intros i x Hi Hx Hxa. apply S2.
  exists x. split; [right; by eexists|done]. }
rewrite (Z.mul_comm k). rewrite (u32_id (0x1000 * k)), u64_id by lia. rewrite <- Ef.
eapply wp_mono.
{ eapply (mapPages_step m space (frame_of fs) virt (Z.of_nat (length fs)) flags leaf); try done.
  exact frame_of_ok. }
intros r s2 (_ & Hg2 & Hm2 & Hs2). apply wp_ret. split; [by rewrite Hg2|done|].
replace (Z.to_nat (k + 1)) with (S (Z.to_nat k)) by lia.
eapply dstack_rep_ext; [|exact Hst']. intros a Ha. apply Hs2. intros x Hx Hxa.
apply (stack_apart a Ha). exists x. split; [right; by eexists|done].
Qed.

Lemma back_pages_ok fuel s :
globals s = g → memory s = m → tree_ok m space leaf → dstack_rep m stk b cap (rest ++ reverse fs) →
wp (for_range 0 (Z.of_nat (length fs)) (back_page (S fuel) proc virt flags))
  (λ _, backed (Z.of_nat (length fs))) s.
Proof.
intros Hg Hm Ht Hst. apply (wp_for_range backed); [lia| |done|].
- intros j s' Hj Hb. by apply back_page_ok.
- split; [done|by apply mapped_to_0|by rewrite Hm].
Qed.
End backing.

(** The tables of a range of pages exist and no two pages share an entry. *)
Definition range_tables (m : gmap Z Z) (space virt n : Z) : Prop :=
(∀ i, 0 <= i < n → table1 m space (virt + 0x1000 * i) ≠ 0 ∧ table2 m space (virt + 0x1000 * i) ≠ 0 ∧
   table3 m space (virt + 0x1000 * i) ≠ 0) ∧
∀ i j, 0 <= i < j → j < n →
  pte_slot m space (virt + 0x1000 * i) ≠ pte_slot m space (virt + 0x1000 * j).

Lemma range_tables_same m m' space virt n :
same_tables m m' space → range_tables m space virt n → range_tables m' space virt n.
Proof.
intros Hs [H1 H2].
assert (∀ i, 0 <= i < n → table1 m' space (virt + 0x1000 * i) = table1 m space (virt + 0x1000 * i) ∧
  table2 m' space (virt + 0x1000 * i) = table2 m space (virt + 0x1000 * i) ∧
  table3 m' space (virt + 0x1000 * i) = table3 m space (virt + 0x1000 * i)) as E.
{ intros i Hi. destruct (H1 i Hi) as (N1 & N2 & N3). by apply same_tables_all. }
split.
- intros i Hi. destruct (E i Hi) as (-> & -> & ->). by apply H1.
- intros i j Hi Hj. unfold pte_slot. destruct (E i ltac:(lia)) as (_ & _ & ->), (E j ltac:(lia)) as (_ & _ & ->).
  by apply H2.
Qed.

(** [allocMarker] on a ready process: the new marker is an object of the cache, and
  the frame stack, the ticket and the page tables are as before. *)
Lemma allocMarker_ready fuel s l n L stk b cap items leaf bytes type flags :
vmalloc_ready s l n L stk b cap items leaf → (S (length l) < fuel)%nat →
wp (allocMarker fuel (mnext (l ++ [n])) bytes type flags) (λ mk s', globals s' = globals s ∧ 0 < mk ∧
  mchain (memory s') (l ++ [n; marker_for bytes n mk]) ∧ cache_inv s' (mk :: L) ∧
  (∀ a, mk <= a < mk + 32 → co_arena a) ∧
  same_on (λ a, dstack_area stk b cap a ∨ fixed_byte s a) (memory s) (memory s')) s.
Proof.
intros [_ _ Hch Hnd Hend (Hg & Hsz & HI & Hr) Hhm _ _ Hap _ _] Hf.
destruct (cache_fresh_marker s L (l ++ [n]) Hg Hsz HI Hr Hhm) as (mk & s1 & Hfr & HI1 & Hg1 & Har & Hs1).
eapply wp_mono; [by eapply allocMarker_ok|]. intros r s2 (m2 & -> & -> & Hc2 & Hm2).
cbn [memory set_memory globals]. destruct Hfr as (_ & Hmk & _).
split; [done|]. split; [lia|]. split; [done|]. split_and!; [|done|].
- apply (cache_frame s1); [done|]. intros a [Ha Hna]. cbn [memory set_memory]. apply Hm2. rewrite Hsz in Hna. split.
  + intros Hx. apply Hna. exists mk. split; [by left|done].
  + intros Hx. apply Forall_app in Hhm as [_ [[Hin|Hout] _]%Forall_cons].
    * apply Hna. exists (mn_addr n). split; [by right|lia].
    * apply (Hout a); [lia|done].
- intros a Ha. destruct (Hap a Ha) as [H1 H2]. rewrite Hm2; [by apply Hs1|]. split.
  + intros Hx. by apply H1, Har.
  + intros Hx. apply H2. exists n. split; [|lia]. rewrite elem_of_app, elem_of_cons. tauto.
Qed.

(** C8: [vmalloc] on a process whose page tables cover the range and whose frame
  stack holds enough frames returns the end of the process's last region; the
  frames are popped in order and page [i] of the region translates to the [i]-th,
  with bit 12 set when the memory type uses the PAT bit;
  it maps one page more than the marker it records; the marker list, the cache
  and the frame stack stay well formed. *)
Theorem vmalloc_maps fuel bytes type flags s l n L stk b cap rest fs leaf :
vmalloc_ready s l n L stk b cap (rest ++ reverse fs) leaf →
(S (length l) < fuel)%nat → Z.of_nat (length fs) = request_pages bytes + 1 →
Z.of_nat (length fs) <= 2 ^ 20 →
Forall (λ f, f mod 0x1000 = 0 ∧ 0 <= f < 2 ^ 52) fs →
let virt := VMARKER_END (mn_base n) (mn_pages n) in
let space := load 8 (memory s) (current s + 64) in
virt mod 0x1000 = 0 ∧ virt + 0x1000 * Z.of_nat (length fs) <= 2 ^ 64 →
range_tables (memory s) space virt (Z.of_nat (length fs)) →
wp (vmalloc_ fuel bytes type flags) (λ r s', r = virt ∧
  (∀ i f, fs !! i = Some f → virtToPhysInt space (virt + 0x1000 * Z.of_nat i) s' = Ok (pat_frame (formFlags flags) f) s') ∧
  dstack_rep (memory s') stk b cap rest ∧
  ∃ mk, mchain (memory s') (l ++ [n; marker_for bytes n mk]) ∧ cache_inv s' (mk :: L)) s.
Proof.
intros R Hf Hlen H20 Hfs virt space [Vm Vb] Hrt.
pose proof R as [Ht Hh Hc _ _ (_ & Hsz & _) Hhm [Hg Hst] Htree Hap Hsap Hslot]. fold space in Htree, Hslot.
assert (0 <= virt) as Hv0 by apply u64_range.
assert (mnext (l ++ [n]) ≠ 0) as Hh0.
{ destruct l as [|c l]; simpl in *; destruct Hc as ((? & _) & _); lia. }
unfold vmalloc_, getCurrentTask, getPerCPUInfo, scheduler_at. wp_steps.
change (load 8 (memory s) (globals s g_scheduler + 40 * globals s g_gs + 24)) with (current s).
rewrite (eqb_false _ _ Ht). wp_steps. rewrite Hh, (eqb_false _ _ Hh0). wp_step.
eapply wp_mono; [by eapply allocMarker_ready|]. intros mk s2 (Hg2 & Hmk & Hc2 & HI2 & Har & Hk).
pose proof (mchain_app_inv (memory s2) (l ++ [n]) (marker_for bytes n mk) []) as Hb.
rewrite <- app_assoc in Hb. destruct (Hb Hc2) as (_ & Hbase & _). clear Hb.
cbn [marker_for mn_addr mn_base] in Hbase. fold virt in Hbase.
rewrite eqb_false by lia. wp_step. wp_step. rewrite Hbase. wp_step.
assert (same_on (walk_byte (memory s) space) (memory s) (memory s2)) as Hw.
{ intros a Ha. apply Hk. right. by right. }
destruct (walk_ext _ _ _ Hw) as [Hsame _].
assert (load 8 (memory s2) (current s + 64) = space) as Espace.
{ eapply same_on_load; [exact Hk|]. intros i Hi. right. left. lia. }
assert (∀ a, walk_byte (memory s2) space a → walk_byte (memory s) space a) as Hwb.
{ intros a (x & Hx & Hxa). exists x. split; [by apply (walk_object_same _ _ _ _ Hsame)|done]. }
destruct fuel as [|fuel]; [lia|]. rewrite <- Hlen. apply (range_tables_same _ _ _ _ _ Hsame) in Hrt as [Hrt1 Hrt2].
eapply wp_mono.
{ apply (back_pages_ok (memory s2) (globals s2) (current s) space stk b cap virt (formFlags flags) rest fs leaf); try done.
  - by rewrite Hg2.
  - intros a Ha. split; [intros Hd; by apply (Hsap a Hd); left|]. intros Hx. by apply (Hslot a Ha), Hwb.
  - intros a Ha Hx. apply (Hsap a Ha). right. by apply Hwb.
  - by eapply tree_ok_same.
  - eapply dstack_rep_ext; [|exact Hst]. intros a Ha. apply Hk. by left. }
intros [] s3 [_ Hmap Hrep]. apply wp_ret. split; [done|].
assert (∀ a, co_arena a ∨ marker_byte (l ++ [n]) a → mbyte (memory s3) a = mbyte (memory s2) a) as Hkeep.
{ intros a Ha. apply (mt_frame _ _ _ _ _ _ _ _ Hmap). split.
  - intros Hd. destruct (Hap a ltac:(by left)). tauto.
  - intros i x _ Hx Hxa. destruct (Hap a); [|tauto]. right. right. apply Hwb. exists x. split; [right; by eexists|done]. }
split_and!.
- intros i f Hi. rewrite virtToPhysInt_translate, (mt_pages _ _ _ _ _ _ _ _ Hmap).
  + unfold frame_of. by rewrite Nat2Z.id, Hi.
  + apply lookup_lt_Some in Hi. lia.
- rewrite Nat2Z.id, drop_all in Hrep. cbn in Hrep. by rewrite app_nil_r in Hrep.
- exists mk. split.
  + eapply mchain_ext; [|exact Hc2]. intros a (c & Hcl & Ha). apply Hkeep.
    rewrite elem_of_app, !elem_of_cons in Hcl. destruct Hcl as [Hcl|[->|[->|Hcl]]].
    * right. exists c. rewrite elem_of_app. tauto.
    * right. exists n. rewrite elem_of_app, elem_of_cons. tauto.
    * left. by apply Har.
    * by apply not_elem_of_nil in Hcl.
  + apply (cache_frame s2); [done|]. intros a [Ha _]. apply Hkeep. by left.
Qed.
End vmalloc.

(** ** Witness: three pages, with the slab allocator of kcache.c *)

Section witness.
#[local] Instance no_heap : HeapOps :=
  {| kmalloc _ := mret 0; kmallocAligned _ := mret 0; kfree _ := mret tt; krealloc _ _ := mret 0 |}.
#[local] Instance no_phys : PhysOps := {| allocPhys _ _ _ := mret (0xFFF, 0); freeNPhys _ _ := mret tt |}.
#[local] Instance no_vmphys : VmemPhysOps := {| vmallocPhys _ _ _ _ := mret 0 |}.
#[local] Instance no_vmem : VmemOps := {| vmalloc _ _ _ := mret 0; vmFree _ := mret tt |}.
#[local] Instance syms_zero : KernelSyms :=
  {| sym_kspace := 0; sym_heapEnd := 0; sym_ftask := 0; sym_fschedule := 0;
     sym_internalkcacheCache := 0; sym_kcName := 0; sym_slabConstructor := 0;
     sym_slabDestructor := 0 |}.

(** The slab [createVMarkerCache] carves: 128 markers in a page. *)
Definition marker_slab : slab := Slab 0x10100 0x10200 0x20000 128 0.
#[local] Instance real_cache : CacheOps := kcache_ops 5.
#[local] Instance real_laws : CacheLaws :=
  kcache_laws 5 0x10000 32 [marker_slab] ltac:(lia) ltac:(simpl; lia).

(** The process of [process] (VmmProps.v), a marker cache at 0x10000 and a frame
    stack at 0x30000 with five frames. *)
Definition frames : list Z := [0xD0000; 0xC0000; 0xB0000; 0xA0000].
Definition vmalloc_writes : list (nat * Z * Z) :=
  [(8%nat, 0x10010, 32); (8%nat, 0x10020, 0x10100);
   (4%nat, 0x10110, 128); (8%nat, 0x10120, 0x20000); (8%nat, 0x10138, 0x10200);
   (8%nat, 0x30000, 0x30100); (8%nat, 0x30008, 0x30128); (8%nat, 0x30010, 800);
   (8%nat, 0x30100, 0xE0000); (8%nat, 0x30108, 0xA0000); (8%nat, 0x30110, 0xB0000);
   (8%nat, 0x30118, 0xC0000); (8%nat, 0x30120, 0xD0000)].
Definition backed_process : machine :=
  set_global g_markerCache 0x10000 (set_global g_physStack 0x30000
    (set_memory (fold_left (λ m '(n, a, v), store n m a v) vmalloc_writes process_mem) process)).

Lemma backed_process_walk : same_on (walk_byte process_mem 0x100) process_mem (memory backed_process).
Proof.
  intros a (x & Hx & Ha). apply process_objects in Hx. cbn [memory backed_process set_global set_memory].
  cbv [vmalloc_writes fold_left]. by rewrite !mbyte_store_ne by lia.
Qed.

Lemma backed_process_objects a : walk_byte (memory backed_process) 0x100 a → 0 <= a < 0x5000.
Proof.
  intros (x & Hx & Ha). rewrite (walk_object_same _ _ _ _ (proj1 (walk_ext _ _ _ backed_process_walk))) in Hx.
  apply process_objects in Hx. lia.
Qed.

Lemma backed_process_cache : cache_inv backed_process [].
Proof.
  exists [marker_slab]. split; [by repeat constructor|]. split; [|done].
  split; [by vm_compute..| | |].
  - split; [|done]. split; [done|by vm_compute..|cbn; lia].
  - cbn. repeat (split || constructor); unfold separate; cbn; lia.
  - repeat constructor; cbn; lia.
Qed.

Lemma backed_process_room : cache_room backed_process.
Proof.
  intros ls Hs HR. apply Forall2_cons_inv_l in Hs as (sl & l & (E1 & _ & _ & E) & ->%Forall2_nil_inv_l & ->).
  destruct (cr_chain _ _ _ _ HR) as [Hr _]. pose proof (sr_references _ _ _ Hr) as Eu.
  rewrite <- E1 in Eu. change (0 = sl_used sl) in Eu. cbn [alloc_bump].
  rewrite <- Eu, <- E. by eexists.
Qed.

Lemma backed_process_arena a : co_arena a → 0x10000 <= a < 0x30000.
Proof.
  intros (x & Hx & Ha).
  change (x ∈ [(0x10000, 64); (0x10100, 72); (0x10200, 8); (0x20000, 128 * 32)]) in Hx.
  rewrite !elem_of_cons in Hx. unfold inside in Ha.
  destruct Hx as [->|[->|[->|[->|Hx%not_elem_of_nil]]]]; cbn in Ha; lia || done.
Qed.

Lemma backed_process_ready :
  vmalloc_ready backed_process [] first_marker [] 0x30000 0x30100 800 ([0xE0000] ++ reverse frames) (eq 0x4000).
Proof.
  assert (current backed_process = 0x9000) as Et by by vm_compute.
  assert (load 8 (memory backed_process) (current backed_process + 64) = 0x100) as Es by by vm_compute.
  assert (∀ a, marker_byte ([] ++ [first_marker]) a → 0x8000 <= a < 0x8020) as Hmb.
  { intros a (c & ->%list_elem_of_singleton & Ha). cbn in Ha. lia. }
  assert (∀ a, fixed_byte backed_process a → 0 <= a < 0x5000 ∨ 0x9040 <= a < 0x9048) as Hfix.
  { intros a. unfold fixed_byte. rewrite Es, Et. intros [Ha|Ha%backed_process_objects]; lia. }
  split; rewrite ?Es, ?Et.
  - done.
  - by vm_compute.
  - cbn. unfold mnode_ok. split_and!; [done|by vm_compute..|done|done].
  - constructor.
  - by vm_compute.
  - split_and!; [done|done|exact backed_process_cache|exact backed_process_room].
  - constructor; [|constructor]. right. intros a Ha Har%backed_process_arena. cbn in Ha. lia.
  - split; [reflexivity|]. split; [vm_compute; reflexivity..| |vm_compute; congruence|left; lia|lia].
    intros i x. do 5 (destruct i as [|i]; [intros [= <-]; by vm_compute|]). done.
  - eapply tree_ok_same; [exact (proj1 (walk_ext _ _ _ backed_process_walk))|].
    eapply tree_ok_same; [exact (proj1 (walk_ext _ _ _ process_walk))|exact paged_tree_ok].
  - intros a Ha. split; [intros Har%backed_process_arena|intros Hm%Hmb];
      (destruct Ha as [Ha|Ha%Hfix]; [unfold dstack_area in Ha|]; lia).
  - intros a Ha Hx%Hfix. unfold dstack_area in Ha. lia.
  - intros a Ha Hx%backed_process_objects. lia.
Qed.

Lemma vmalloc_maps_witness :
  wp (vmalloc_ 5 0x3000 1 17) (λ r s', r = 0x5000 ∧
    (∀ i f, frames !! i = Some f → virtToPhysInt 0x100 (0x5000 + 0x1000 * Z.of_nat i) s' = Ok (pat_frame (formFlags 17) f) s') ∧
    dstack_rep (memory s') 0x30000 0x30100 800 [0xE0000] ∧
    ∃ mk, mchain (memory s') ([] ++ [first_marker; marker_for 0x3000 first_marker mk]) ∧
      cache_inv s' [mk]) backed_process.
Proof.
  apply (vmalloc_maps 5 0x3000 1 17 backed_process [] first_marker [] 0x30000 0x30100 800 [0xE0000] frames
    (eq 0x4000)); [exact backed_process_ready|simpl; lia|done|done| |done|].
  - repeat constructor; lia.
  - split.
    + intros i Hi. assert (i = 0 ∨ i = 1 ∨ i = 2 ∨ i = 3) as [-> | [-> | [-> | ->]]] by (cbn in Hi; lia);
        by split_and!; vm_compute.
    + intros i j Hi Hj. cbn in Hj.
      assert (i = 0 ∨ i = 1 ∨ i = 2) as Hi' by lia. assert (j = 1 ∨ j = 2 ∨ j = 3) as Hj' by lia.
      destruct Hi' as [-> | [-> | ->]], Hj' as [-> | [-> | ->]]; lia || by vm_compute.
Defined.
End witness.

