(* ===== verification/Kprintf.v ===== *)
(** * com.c and kprintf.c: the debug port and formatted output

    The port instructions are a parameter ([Ports]); [Uart16550] states what a
    ready 16550 does with them.  [kprintf] interprets a format string in memory;
    its variable arguments are the list of 64-bit values [va_arg] hands out. *)

From S2P Require Import Prelude Kmonad Mem Libc Heap.

(** [in] and [out] of port.h: port and value. *)
Class Ports := {
  inb : Z → M machine Z;
  outb : Z → Z → M machine unit;
  ind : Z → M machine Z;
  outd : Z → Z → M machine unit
}.

(** A 16550 at COM1 whose transmitter is empty sends the byte written to it. *)
Class Uart16550 `{Ports} := {
  uart_ready s : ∃ r, inb (0x3F8 + 5) s = Ok r s ∧ Z.testbit r 5 = true;
  uart_out s b : outb 0x3F8 b s = Ok tt (add_serial b s)
}.

(** ** com.c *)

Definition COM1 : Z := 0x3F8.
Definition COM2 : Z := 0x2F8.
Definition COM3 : Z := 0x3E8.
Definition COM4 : Z := 0x2E8.
Definition KDEBUG_PORT : Z := COM1.
Definition DLV_DIVISOR : Z := 115200.
Definition OFFSET_DLV_HIGH : Z := 0.
Definition OFFSET_DLV_LOW : Z := 1.
Definition OFFSET_FIFO : Z := 2.
Definition OFFSET_LCR : Z := 3.
Definition OFFSET_MCR : Z := 4.
Definition OFFSET_LSR : Z := 5.

Definition DLEVEL_INFO : Z := 1.
Definition DLEVEL_WARN : Z := 2.
Definition DLEVEL_ERROR : Z := 3.
Definition DLEVEL_FATAL : Z := 4.
Definition DLEVEL_NONE : Z := 5.

Definition CAP_MASK : Z := 0xDF.

(** The string bytes the formatter tests for. *)
Definition ch_percent : Z := 37.
Definition ch_0 : Z := 48.

Section output.
Context `{Ports}.
(** The iterations a busy wait gets. *)
Variable spin : nat.
(** The address of [char revbuff[20]]. *)
Variable revbuff : Z.

Definition checkEmpty (port : Z) : M machine bool :=
r ← inb (u16 (port + OFFSET_LSR));
mret (negb (Z.land r (Z.shiftl 1 5) =? 0)).

Definition initCOMPort (port : Z) : M machine bool :=
_ ← outb (u16 (port + OFFSET_LCR)) 0x80;
let baud := u16 (DLV_DIVISOR / 12) in
_ ← outb (u16 (port + OFFSET_DLV_HIGH)) (u8 (Z.land baud 0x00FF));
_ ← outb (u16 (port + OFFSET_DLV_LOW)) (u8 (Z.land baud 0xFF00));
_ ← outb (u16 (port + OFFSET_LCR)) 0x83;
_ ← outb (u16 (port + OFFSET_FIFO)) 0x27;
mret true.

(** [while(checkEmpty(port) == false){}], then the byte. *)
Definition writeByte (port byte : Z) : M machine unit :=
_ ← iter spin (λ _ : unit, e ← checkEmpty port; mret (if e : bool then inr tt else inl tt)) tt;
outb port byte.

Definition writeString (fuel : nat) (port str : Z) : M machine unit :=
iter fuel (λ i,
  c ← ld 1 (str + i);
  if c =? 0 then mret (inr tt)
  else _ ← writeByte port c; mret (inl (s32 (i + 1)))) 0.

(** ** kprintf.c *)

(** The character of a nibble. *)
Definition hex_char (nibble : Z) (caps : bool) : Z :=
if 0xA <=? nibble then
  let ch := u8 (nibble + 87) in if caps then Z.land ch CAP_MASK else ch
else Z.lor nibble 0x30.

(** The nibble loop of [writeHex]: [n] rounds from bit [i]; returns [leading]. *)
Fixpoint hex_loop (n : nat) (num bits i mask : Z) (leading caps : bool) : M machine bool :=
match n with
| O => mret leading
| S n' =>
    let nibble := u8 (Z.shiftr (Z.land num mask) (bits - (i + 4))) in
    let mask' := Z.shiftr mask 4 in
    if leading && (nibble =? 0) then hex_loop n' num bits (i + 4) mask' leading caps
    else
      _ ← writeByte KDEBUG_PORT (hex_char nibble caps);
      hex_loop n' num bits (i + 4) mask' false caps
end.

Definition writeHex (num bytes : Z) (caps : bool) : M machine unit :=
let bits := u16 (bytes * 8) in
if (0 <? bits) && (bits <=? 64) then
  let mask := Z.shiftr 0xF000000000000000 (64 - bits) in
  leading ← hex_loop (Z.to_nat ((bits + 3) / 4)) num bits 0 mask true caps;
  when leading (writeByte KDEBUG_PORT ch_0)
else fail UndefinedShift.

Definition kprintChar (ch : Z) : M machine unit := writeByte KDEBUG_PORT (u8 ch).

Definition kprintString (fuel : nat) (str : Z) : M machine unit :=
iter fuel (λ i,
  c ← ld 1 (str + i);
  if c =? 0 then mret (inr tt)
  else _ ← kprintChar c; mret (inl (s32 (i + 1)))) 0.

(** [revbuff[idx]] is one byte; 20 of them. *)
Definition revbuff_at (idx : Z) : M machine Z :=
if idx <? 20 then mret (revbuff + idx) else fail OutOfBounds.

Definition writeUint (fuel : nat) (val : Z) : M machine unit :=
if val =? 0 then kprintChar ch_0
else if 9 <? val then kprintChar (Z.lor (u8 val) ch_0)
else
  idx ← iter fuel (λ '(val, idx),
    if val =? 0 then mret (inr idx)
    else
      let rem := val mod 10 in
      a ← revbuff_at idx;
      _ ← st 1 a (Z.lor rem 0x30);
      mret (inl (u64 (val - rem), u8 (idx + 1)))) (val, 0);
  iter fuel (λ idx,
    if idx =? 0 then mret (inr tt)
    else
      a ← revbuff_at idx;
      c ← ld 1 a;
      _ ← kprintChar c;
      mret (inl (u8 (idx - 1)))) idx.

Definition writeInt (fuel : nat) (val : Z) : M machine unit :=
if val <? 0 then _ ← kprintChar 45; writeUint fuel (u64 (s64 (val * -1)))
else writeUint fuel (u64 val).

(** [va_arg]: an argument that was not passed is undefined behaviour. *)
Definition va_arg (args : list Z) : M machine (Z * list Z) :=
match args with
| a :: rest => mret (a, rest)
| [] => fail OutOfBounds
end.

(** One conversion: the switch on the character after the ['%'].  [inl] is
    [goto loop] with the new modifier, [inr] leaves with the arguments left. *)
Definition conversion (fuel : nat) (c sz : Z) (args : list Z) : M machine (Z + list Z) :=
if c =? 105 (* i *) then
  '(a, args) ← va_arg args;
  _ ← writeInt fuel (if sz =? 8 then s64 a else u32 a); mret (inr args)
else if c =? 88 (* X *) then
  '(a, args) ← va_arg args; _ ← writeHex a sz true; mret (inr args)
else if c =? 120 (* x *) then
  '(a, args) ← va_arg args; _ ← writeHex a sz false; mret (inr args)
else if c =? 99 (* c *) then
  '(a, args) ← va_arg args; _ ← kprintChar a; mret (inr args)
else if c =? 104 (* h *) then mret (inl 1)
else if c =? 108 (* l *) then mret (inl 8)
else if c =? 115 (* s *) then
  '(a, args) ← va_arg args; _ ← kprintString fuel a; mret (inr args)
else if c =? 117 (* u *) then
  '(a, args) ← va_arg args;
  _ ← writeUint fuel (if sz =? 8 then a else u32 a); mret (inr args)
else mret (inr args).

(** The format loop; [mode] is [None] between conversions and [Some sz] after a
    ['%'] with the size modifier [sz]. *)
Definition format_step (fuel : nat) (str : Z) (st : Z * option Z * list Z)
  : M machine (Z * option Z * list Z + unit) :=
let '(i, mode, args) := st in
c ← ld 1 (str + i);
match mode with
| None =>
    if c =? 0 then mret (inr tt)
    else if negb (c =? ch_percent) then
      _ ← kprintChar c; mret (inl (s32 (i + 1), None, args))
    else mret (inl (s32 (i + 1), Some 4, args))
| Some sz =>
    r ← conversion fuel c sz args;
    mret (match r with
          | inl sz' => inl (s32 (i + 1), Some sz', args)
          | inr args' => inl (s32 (i + 1), None, args')
          end)
end.

Definition level_char (level : Z) : Z :=
if level =? DLEVEL_INFO then 105
else if level =? DLEVEL_WARN then 119
else if level =? DLEVEL_ERROR then 101
else if level =? DLEVEL_FATAL then 102
else 103.

Definition kprintf (fuel : nat) (func level str : Z) (args : list Z) : M machine unit :=
_ ← (if level =? DLEVEL_NONE then mret tt
     else
       _ ← kprintString fuel func;
       _ ← kprintChar 91;
       _ ← kprintChar (level_char level);
       _ ← kprintChar 93;
       kprintChar 58);
iter fuel (format_step fuel str) (0, None, args).
End output.

(** ** What is printed *)

Definition emit (text : list Z) (s : machine) : machine := foldl (λ s b, add_serial b s) s text.

Definition digit_char (caps : bool) (d : Z) : Z :=
  if d <? 10 then 48 + d else (if caps then 65 else 97) + (d - 10).

(** The last [n] digits of [num] in [base], from the highest, without leading
    zeros when [leading]. *)
Fixpoint digits_text (base : Z) (caps : bool) (n : nat) (num : Z) (leading : bool) : list Z :=
  match n with
  | O => []
  | S n' =>
      let d := (num / base ^ Z.of_nat n') mod base in
      if leading && (d =? 0) then digits_text base caps n' num leading
      else digit_char caps d :: digits_text base caps n' num false
  end.

Definition number_text (base : Z) (caps : bool) (n : nat) (num : Z) : list Z :=
  match digits_text base caps n num true with [] => [ch_0] | l => l end.

Definition hex_text (num bytes : Z) (caps : bool) : list Z := number_text 16 caps (Z.to_nat (2 * bytes)) num.

(** A 64-bit number has at most 20 decimal digits. *)
Definition dec_text (num : Z) : list Z := number_text 10 false 20 num.

Arguments number_text : simpl never.
Arguments dec_text : simpl never.
Arguments hex_text : simpl never.

(** Reading digits back. *)
Definition digit_value (base c : Z) : option Z :=
  let d := if (48 <=? c) && (c <=? 57) then c - 48
           else if (97 <=? c) && (c <=? 102) then c - 87
           else if (65 <=? c) && (c <=? 70) then c - 55 else base in
  if d <? base then Some d else None.
Fixpoint digits_value (base acc : Z) (l : list Z) : option Z :=
  match l with
  | [] => Some acc
  | c :: l' => match digit_value base c with Some d => digits_value base (base * acc + d) l' | None => None end
  end.

Lemma emit_app l1 l2 s : emit (l1 ++ l2) s = emit l2 (emit l1 s).
Proof. apply foldl_app. Qed.

Lemma emit_memory l s : memory (emit l s) = memory s.
Proof. revert s. induction l as [|c l IH]; intros s; [done|]. by change (memory (emit l (add_serial c s)) = memory s); rewrite IH. Qed.

Lemma digit_value_char base caps d :
  0 <= d < base → base <= 16 → digit_value base (digit_char caps d) = Some d.
Proof.
  intros Hd Hb. unfold digit_char, digit_value. destruct (Z.ltb_spec d 10).
  - rewrite !leb_true by lia. cbn [andb]. rewrite ltb_true by lia. f_equal. lia.
  - destruct caps.
    + rewrite (leb_false (65 + (d - 10)) 57), (leb_false 97 (65 + (d - 10))), !leb_true by lia. cbn [andb].
      rewrite ltb_true by lia. f_equal. lia.
    + rewrite (leb_false (97 + (d - 10)) 57), !leb_true by lia. cbn [andb]. rewrite ltb_true by lia. f_equal. lia.
Qed.

Lemma hex_char_digit d caps : 0 <= d < 16 → hex_char d caps = digit_char caps d.
Proof.
  intros Hd. rewrite <- (Z2Nat.id d) by lia.
  assert (Z.to_nat d < 16)%nat as Hn by lia. revert Hn. generalize (Z.to_nat d). clear.
  intros n Hn. do 16 (destruct n as [|n]; [by destruct caps|]). lia.
Qed.

Section digits.
Variables (base : Z) (caps : bool).
Hypothesis base_range : 2 <= base <= 16.

Lemma digits_value_text n num leading acc :
0 <= num → (leading = true → acc = 0) →
digits_value base acc (digits_text base caps n num leading) =
Some (acc * base ^ Z.of_nat n + num mod base ^ Z.of_nat n).
Proof.
intros Hnum. revert leading acc. induction n as [|n IH]; intros leading acc Ha.
- cbn [digits_text digits_value]. f_equal. change (base ^ Z.of_nat 0) with 1. rewrite Z.mod_1_r. lia.
- cbn [digits_text]. set (d := (num / base ^ Z.of_nat n) mod base).
  assert (0 <= d < base) as Hd by (apply Z.mod_pos_bound; lia).
  pose proof (Z.pow_pos_nonneg base (Z.of_nat n)) as Hp.
  assert (num mod base ^ Z.of_nat (S n) = num mod base ^ Z.of_nat n + base ^ Z.of_nat n * d) as ->.
  { rewrite Nat2Z.inj_succ, Z.pow_succ_r, (Z.mul_comm base) by lia.
    by rewrite Z.rem_mul_r by lia. }
  rewrite Nat2Z.inj_succ, Z.pow_succ_r by lia.
  destruct leading; cbn [andb].
  + rewrite (Ha eq_refl). destruct (Z.eqb_spec d 0) as [E|E].
    * rewrite IH by done. f_equal. rewrite E. ring.
    * cbn [digits_value]. rewrite digit_value_char by lia. rewrite IH by done. f_equal. ring.
  + cbn [digits_value]. rewrite digit_value_char by lia. rewrite IH by done. f_equal. ring.
Qed.

Lemma digits_text_head n num : 0 <= num → head (digits_text base caps n num true) ≠ Some ch_0.
Proof.
intros Hnum. induction n as [|n IH]; [done|]. cbn [digits_text andb].
set (d := (num / base ^ Z.of_nat n) mod base).
assert (0 <= d < base) by (apply Z.mod_pos_bound; lia).
destruct (Z.eqb_spec d 0) as [E|E]; [done|]. intros [= Hc].
pose proof (digit_value_char base caps d ltac:(lia) ltac:(lia)) as Hv. rewrite Hc in Hv.
unfold digit_value in Hv. change (if (48 <=? ch_0) && (ch_0 <=? 57) then ch_0 - 48 else _) with 0 in Hv.
rewrite ltb_true in Hv by lia. congruence.
Qed.

Lemma number_text_value n num :
0 <= num → digits_value base 0 (number_text base caps n num) = Some (num mod base ^ Z.of_nat n).
Proof.
intros Hnum. pose proof (digits_value_text n num true 0 Hnum ltac:(done)) as Hv.
rewrite Z.mul_0_l, Z.add_0_l in Hv. unfold number_text.
destruct (digits_text base caps n num true); [|exact Hv]. rewrite <- Hv.
cbn [digits_value]. unfold digit_value. change (if (48 <=? ch_0) && (ch_0 <=? 57) then ch_0 - 48 else _) with 0.
rewrite ltb_true by lia. f_equal. lia.
Qed.

Lemma number_text_head n num :
0 <= num → head (number_text base caps n num) = Some ch_0 → number_text base caps n num = [ch_0].
Proof.
intros Hnum. pose proof (digits_text_head n num Hnum) as Hh. unfold number_text.
destruct (digits_text base caps n num true); [done|]. intros Hc. by destruct Hh.
Qed.
End digits.

Lemma nibble_of_mask num k :
  0 <= k → u8 (Z.shiftr (Z.land num (15 * 2 ^ k)) k) = (num / 2 ^ k) mod 16.
Proof.
  intros Hk. rewrite Z.shiftr_land, !Z.shiftr_div_pow2 by lia.
  rewrite Z.div_mul by lia. change 15 with (Z.ones 4). rewrite Z.land_ones by lia.
  change (2 ^ 4) with 16. apply u8_id. pose proof (Z.mod_pos_bound (num / 2 ^ k) 16). lia.
Qed.

(** The value of a [bytes]-byte integer argument. *)
Definition unsigned_arg (bytes a : Z) : Z := a mod 2 ^ (8 * bytes).
Definition signed_arg (bytes a : Z) : Z :=
  let v := unsigned_arg bytes a in if v <? 2 ^ (8 * bytes - 1) then v else v - 2 ^ (8 * bytes).
Definition int_text (val : Z) : list Z := if val <? 0 then 45 :: dec_text (- val) else dec_text val.

(** An argument of a format: a number or a pointer to a string. *)
Inductive fmt_arg := Num (n : Z) | Str (p : Z) (text : list Z).
Definition arg_value (a : fmt_arg) : Z := match a with Num n => n | Str p _ => p end.

(** What a conversion character stands for: [inl] for a size modifier. *)
Definition conv_text (c sz : Z) (args : list fmt_arg) : option (list Z * (Z + list fmt_arg)) :=
  if c =? 104 then Some ([], inl 1)
  else if c =? 108 then Some ([], inl 8)
  else
    match args with
    | Num a :: rest =>
        if c =? 105 then Some (int_text (signed_arg sz a), inr rest)
        else if c =? 88 then Some (hex_text a sz true, inr rest)
        else if c =? 120 then Some (hex_text a sz false, inr rest)
        else if c =? 99 then Some ([u8 a], inr rest)
        else if c =? 115 then None
        else if c =? 117 then Some (dec_text (unsigned_arg sz a), inr rest)
        else Some ([], inr args)
    | Str _ text :: rest =>
        if c =? 115 then Some (text, inr rest)
        else if bool_decide (c ∈ [105; 88; 120; 99; 117]) then None
        else Some ([], inr args)
    | [] => if bool_decide (c ∈ [105; 88; 120; 99; 117; 115]) then None else Some ([], inr args)
    end.

(** The text a format stands for; [None] when it ends in a conversion or an
    argument is missing or of the wrong kind. *)
Fixpoint render (fmt : list Z) (mode : option Z) (args : list fmt_arg) : option (list Z) :=
  match fmt, mode with
  | [], None => Some []
  | [], Some _ => None
  | c :: fmt', None =>
      if c =? ch_percent then render fmt' (Some 4) args
      else option_map (cons c) (render fmt' None args)
  | c :: fmt', Some sz =>
      match conv_text c sz args with
      | Some (text, inl sz') => option_map (app text) (render fmt' (Some sz') args)
      | Some (text, inr args') => option_map (app text) (render fmt' None args')
      | None => None
      end
  end.

(** The values the format hands to the integer conversions. *)
Definition int_value (c sz : Z) (args : list fmt_arg) : list Z :=
  match args with
  | Num a :: _ => if (c =? 105) || (c =? 117) then [if sz =? 8 then a else u32 a] else []
  | _ => []
  end.
Fixpoint int_values (fmt : list Z) (mode : option Z) (args : list fmt_arg) : list Z :=
  match fmt, mode with
  | [], _ => []
  | c :: fmt', None => int_values fmt' (if c =? ch_percent then Some 4 else None) args
  | c :: fmt', Some sz =>
      match conv_text c sz args with
      | Some (_, inl sz') => int_values fmt' (Some sz') args
      | Some (_, inr args') => int_value c sz args ++ int_values fmt' None args'
      | None => []
      end
  end.

(** ** The port and the loops *)

Section printing.
Context {HP : Ports} {HU : Uart16550}.
Variable spin : nat.
Hypothesis spin_pos : (0 < spin)%nat.
Variable revbuff : Z.

Lemma writeByte_ok b s : writeByte spin KDEBUG_PORT b s = Ok tt (add_serial b s).
Proof.
destruct (uart_ready s) as (r & Er & Hr). unfold writeByte.
assert (checkEmpty KDEBUG_PORT s = Ok true s) as Ec.
{ unfold checkEmpty. change (u16 (KDEBUG_PORT + OFFSET_LSR)) with (0x3F8 + 5).
  rewrite (bind_ok _ _ _ _ _ Er). change (Z.shiftl 1 5) with (2 ^ 5).
  by rewrite land_pow2_zero, Hr by lia. }
destruct spin as [|n]; [lia|]. cbn [iter].
erewrite bind_ok; [apply uart_out|].
erewrite bind_ok; [|by rewrite (bind_ok _ _ _ _ _ Ec)]. done.
Qed.

Lemma hex_loop_ok n num bits i mask leading caps s :
0 <= num → bits = i + 4 * Z.of_nat n →
(mask = 15 * 2 ^ (4 * (Z.of_nat n - 1)) ∨ n = O) →
hex_loop spin n num bits i mask leading caps s =
Ok (leading && bool_decide (digits_text 16 caps n num leading = []))
   (emit (digits_text 16 caps n num leading) s).
Proof.
intros Hnum. revert i mask leading s. induction n as [|n IH]; intros i mask leading s Hb Hm.
{ cbn. by destruct leading. }
destruct Hm as [->|]; [|done]. cbn [hex_loop digits_text].
replace (bits - (i + 4)) with (4 * (Z.of_nat (S n) - 1)) by lia.
rewrite nibble_of_mask by lia.
replace (2 ^ (4 * (Z.of_nat (S n) - 1))) with (16 ^ Z.of_nat n)
  by (rewrite Z.pow_mul_r by lia; f_equal; lia).
set (d := (num / 16 ^ Z.of_nat n) mod 16).
assert (Z.shiftr (15 * 16 ^ Z.of_nat n) 4 = 15 * 2 ^ (4 * (Z.of_nat n - 1)) ∨ n = O) as Hs.
{ destruct n as [|n']; [by right|left].
  rewrite Z.shiftr_div_pow2 by lia. rewrite Nat2Z.inj_succ, Z.pow_succ_r by lia.
  replace (15 * (16 * 16 ^ Z.of_nat n')) with (15 * 16 ^ Z.of_nat n' * 2 ^ 4) by lia.
  rewrite Z.div_mul by lia. f_equal. change 16 with (2 ^ 4).
  rewrite <- Z.pow_mul_r by lia. f_equal. lia. }
destruct (leading && (d =? 0)) eqn:E.
- apply andb_true_iff in E as [-> _]. by rewrite IH by (done || lia).
- rewrite (bind_ok _ _ _ _ _ (writeByte_ok _ _)). rewrite hex_char_digit by (subst d; apply Z.mod_pos_bound; lia). rewrite IH by (done || lia).
  rewrite (bool_decide_eq_false_2 (_ :: _ = [])) by done. by rewrite andb_false_r.
Qed.

Lemma writeHex_ok num bytes caps s :
0 <= num → 0 < bytes <= 8 →
writeHex spin num bytes caps s = Ok tt (emit (hex_text num bytes caps) s).
Proof.
intros Hnum Hb. unfold writeHex, hex_text, number_text. rewrite u16_id by lia.
rewrite ltb_true, leb_true by lia. cbn [andb].
replace ((bytes * 8 + 3) / 4) with (2 * bytes) by zlia.
erewrite bind_ok; [|apply hex_loop_ok; [done|lia|left]].
- cbv beta. cbn [andb]. destruct (digits_text 16 caps _ num true) eqn:E; [|done].
  cbn. apply writeByte_ok.
- rewrite Z2Nat.id by lia.
  replace (2 ^ (4 * (2 * bytes - 1))) with (2 ^ (60 - (64 - bytes * 8))) by (f_equal; lia).
  rewrite Z.shiftr_div_pow2 by lia. change 0xF000000000000000 with (15 * 2 ^ 60).
  set (k := 64 - bytes * 8). replace (2 ^ 60) with (2 ^ (60 - k) * 2 ^ k)
    by (rewrite <- Z.pow_add_r by lia; f_equal; lia).
  rewrite Z.mul_assoc, Z.div_mul by lia. done.
Qed.

(** [writeHex] prints hexadecimal digits that read back as the number
    reduced to the size asked for, without a leading zero. *)
Theorem writeHex_roundtrip num bytes caps s :
0 <= num → 0 < bytes <= 8 →
∃ out, writeHex spin num bytes caps s = Ok tt (emit out s) ∧
  digits_value 16 0 out = Some (num mod 2 ^ (8 * bytes)) ∧
  (head out = Some ch_0 → out = [ch_0]).
Proof.
intros Hnum Hb. exists (hex_text num bytes caps). split_and!; [by apply writeHex_ok|..].
- unfold hex_text. rewrite number_text_value by lia. rewrite Z2Nat.id by lia.
  change 16 with (2 ^ 4). rewrite <- Z.pow_mul_r by lia. do 3 f_equal. lia.
- apply number_text_head; lia.
Qed.

(** A string that the formatter can read. *)
Definition text_at (fuel : nat) (m : gmap Z Z) (p : Z) (l : list Z) : Prop :=
cstr m p l ∧ Z.of_nat (length l) < 2 ^ 31 - 1 ∧ (length l < fuel)%nat.

Lemma kprintChar_ok c s : kprintChar spin c s = Ok tt (emit [u8 c] s).
Proof. apply writeByte_ok. Qed.

Lemma kprintString_loop fuel s p k l :
cstr (memory s) (p + k) l → 0 <= k → k + Z.of_nat (length l) < 2 ^ 31 - 1 →
(length l < fuel)%nat →
iter fuel (λ i,
  c ← ld 1 (p + i);
  if c =? 0 then mret (inr tt)
  else _ ← kprintChar spin c; mret (inl (s32 (i + 1)))) k s = Ok tt (emit l s).
Proof.
revert fuel s k. induction l as [|x l IH]; intros [|fuel] s k Hc Hk Hb Hf; cbn [length] in *;
  try lia; cbn [iter].
- apply cstr_nil_inv in Hc. erewrite bind_ok; [|by mstep; rewrite load_1, Hc]. done.
- apply cstr_cons_inv in Hc as (E & Hx & Hc).
  erewrite bind_ok; [|mstep; rewrite load_1, E, eqb_false by lia;
    by rewrite (bind_ok _ _ _ _ _ (kprintChar_ok _ _))].
  cbv beta iota. replace (s32 (k + 1)) with (k + 1) by (unfold s32; zlia).
  rewrite (u8_id x) by lia.
  rewrite IH; [done| |lia..]. by replace (p + (k + 1)) with (p + k + 1) by lia.
Qed.

Lemma kprintString_ok fuel s p l :
text_at fuel (memory s) p l → kprintString spin fuel p s = Ok tt (emit l s).
Proof.
intros (Hc & Hl & Hf). apply kprintString_loop; rewrite ?Z.add_0_r; (done || lia).
Qed.

(** C33: [writeUint] prints one character for a positive number: the last byte of the
    number with the bits of a digit above nine, and up to nine the byte of
    [revbuff] behind the digit it stored, which nothing sets. *)
Theorem writeUint_one_character fuel val s :
0 < val < 2 ^ 64 → (1 < fuel)%nat → mbyte (memory s) (revbuff + 1) = 0 →
∃ m', writeUint spin revbuff fuel val s =
    Ok tt (add_serial (if 9 <? val then u8 (Z.lor (u8 val) ch_0) else 0) (set_memory m' s)) ∧
  (9 < val → m' = memory s) ∧
  digits_value 10 0 (dec_text val) = Some val ∧
  dec_text val ≠ [if 9 <? val then u8 (Z.lor (u8 val) ch_0) else 0].
Proof.
intros Hv Hf Hr.
assert (digits_value 10 0 (dec_text val) = Some val) as Hd.
{ unfold dec_text. rewrite number_text_value by lia. f_equal. apply Z.mod_small.
  change (10 ^ Z.of_nat 20) with 100000000000000000000. lia. }
assert (∀ c, dec_text val = [c] → val < 10 ∧ c ≠ 0) as H1.
{ intros c Hc. rewrite Hc in Hd. split; [|by intros ->]. cbn [digits_value] in Hd. unfold digit_value in Hd.
  set (d := if _ && _ then _ else _) in Hd. destruct (Z.ltb_spec d 10); [|done].
  assert (val = 10 * 0 + d) as -> by congruence. lia. }
destruct (Z.ltb_spec 9 val) as [Hs|Hs].
- exists (memory s). split_and!; [|done|exact Hd|intros Hc; apply H1 in Hc; lia].
  unfold writeUint. rewrite eqb_false, ltb_true by lia. rewrite kprintChar_ok.
  by destruct s.
- exists (store 1 (memory s) (revbuff + 0) (Z.lor val 0x30)).
  split_and!; [|lia|exact Hd|intros Hc; by apply H1 in Hc as [_ ?]].
  unfold writeUint. rewrite eqb_false, ltb_false by lia.
  destruct fuel as [|[|fuel]]; [lia..|].
  assert (val mod 10 = val) as Em by (apply Z.mod_small; lia).
  set (s1 := set_memory (store 1 (memory s) (revbuff + 0) (Z.lor val 0x30)) s).
  rewrite (bind_ok _ _ _ 1 s1).
  2:{ cbn [iter]. erewrite bind_ok; [|cbv beta iota; rewrite eqb_false by lia; by repeat mstep].
      cbv beta iota. rewrite Em, Z.sub_diag. reflexivity. }
  cbn [iter]. erewrite bind_ok.
  2:{ change (1 =? 0) with false. cbv iota. mstep. mstep.
      rewrite load_1. cbn [memory s1 set_memory].
      rewrite mbyte_store_1, decide_False by lia. rewrite Hr.
      by rewrite (bind_ok _ _ _ _ _ (kprintChar_ok _ _)). }
  reflexivity.
Qed.

Lemma writeUint_zero fuel s : writeUint spin revbuff fuel 0 s = Ok tt (emit (dec_text 0) s).
Proof. apply kprintChar_ok. Qed.

Lemma writeInt_zero fuel s : writeInt spin revbuff fuel 0 s = Ok tt (emit (dec_text 0) s).
Proof. apply kprintChar_ok. Qed.

(** An argument that is zero at four or eight bytes is zero at every size. *)
Lemma unsigned_arg_zero sz a :
0 <= a < 2 ^ 64 → sz ∈ [1; 4; 8] → (if sz =? 8 then a else u32 a) = 0 → unsigned_arg sz a = 0.
Proof.
unfold unsigned_arg, u32. intros Ha Hsz.
repeat (apply elem_of_cons in Hsz as [->|Hsz]; [cbn [Z.eqb Pos.eqb]; simpl (2 ^ _); zlia|]).
by apply elem_of_nil in Hsz.
Qed.

Lemma signed_arg_zero sz a :
0 <= a < 2 ^ 64 → sz ∈ [1; 4; 8] → (if sz =? 8 then a else u32 a) = 0 → signed_arg sz a = 0.
Proof.
intros Ha Hsz Hz. unfold signed_arg. rewrite (unsigned_arg_zero sz a Ha Hsz Hz).
repeat (apply elem_of_cons in Hsz as [->|Hsz]; [done|]). by apply elem_of_nil in Hsz.
Qed.

Definition arg_ok (fuel : nat) (m : gmap Z Z) (a : fmt_arg) : Prop :=
match a with Num n => 0 <= n < 2 ^ 64 | Str p text => text_at fuel m p text end.

(** What [conversion] leaves: the modifier or the arguments left over. *)
Definition next_values (r : Z + list fmt_arg) : Z + list Z :=
match r with inl sz => inl sz | inr args => inr (arg_value <$> args) end.

Lemma Some_pair_inv {A B} (a a' : A) (b b' : B) : Some (a, b) = Some (a', b') → a = a' ∧ b = b'.
Proof. by intros [= -> ->]. Qed.

Lemma int_value_modifier c sz sz' args text : conv_text c sz args = Some (text, inl sz') → int_value c sz args = [].
Proof.
unfold conv_text.
destruct (Z.eqb_spec c 104) as [->|]; [by destruct args as [|[]]|].
destruct (Z.eqb_spec c 108) as [->|]; [by destruct args as [|[]]|].
destruct args as [|[a|p l] rest];
  repeat match goal with |- context [if ?b then _ else _] => destruct b end; intros H; try done;
  by apply Some_pair_inv in H as [_ ?].
Qed.

Lemma conversion_ok fuel c sz args text next s :
Forall (arg_ok fuel (memory s)) args → sz ∈ [1; 4; 8] →
conv_text c sz args = Some (text, next) → Forall (λ v, v = 0) (int_value c sz args) →
conversion spin revbuff fuel c sz (arg_value <$> args) s = Ok (next_values next) (emit text s) ∧
match next with inl sz' => sz' ∈ [1; 4; 8] | inr args' => Forall (arg_ok fuel (memory s)) args' end.
Proof.
intros Ha Hsz. unfold conv_text, conversion.
destruct (Z.eqb_spec c 104) as [->|H1]; [intros [= <- <-] _; split; [done|set_solver]|].
destruct (Z.eqb_spec c 108) as [->|H2]; [intros [= <- <-] _; split; [done|set_solver]|].
destruct args as [|[a|p l] rest]; cbn [fmap list_fmap arg_value va_arg].
- case_bool_decide as Hc; [done|]. intros [= <- <-] _.
  repeat (rewrite eqb_false by (intros ->; apply Hc; set_solver)). done.
- apply Forall_cons in Ha as [Ha Hrest]. cbn in Ha.
  assert (0 < sz <= 8) as Hsz' by (revert Hsz; rewrite !elem_of_cons, elem_of_nil; lia).
  unfold int_value.
  destruct (Z.eqb_spec c 105) as [->|]; cbn [orb].
  { cbn [Z.eqb Pos.eqb]. intros [<- <-]%Some_pair_inv [Hz _]%Forall_cons. split; [|done].
    replace (signed_arg sz a) with 0 by (symmetry; by apply signed_arg_zero).
    cbn [Z.eqb Pos.eqb]. erewrite bind_ok by reflexivity. cbv beta iota.
    replace (if sz =? 8 then s64 a else u32 a) with 0 by (destruct (sz =? 8); [by rewrite Hz|done]).
    by rewrite (bind_ok _ _ _ _ _ (writeInt_zero fuel s)). }
  destruct (Z.eqb_spec c 117) as [->|].
  { cbn [Z.eqb Pos.eqb]. intros [<- <-]%Some_pair_inv [Hz _]%Forall_cons. split; [|done].
    replace (unsigned_arg sz a) with 0 by (symmetry; by apply unsigned_arg_zero).
    cbn [Z.eqb Pos.eqb]. erewrite bind_ok by reflexivity. cbv beta iota.
    by rewrite Hz, (bind_ok _ _ _ _ _ (writeUint_zero fuel s)). }
  repeat match goal with |- context [if ?b then _ else _] => destruct b end; try done;
    intros [<- <-]%Some_pair_inv _; (split; [|done || by constructor]).
  + erewrite bind_ok by reflexivity; cbv beta iota; by rewrite (bind_ok _ _ _ _ _ (writeHex_ok a sz true s ltac:(lia) Hsz')).
  + erewrite bind_ok by reflexivity; cbv beta iota; by rewrite (bind_ok _ _ _ _ _ (writeHex_ok a sz false s ltac:(lia) Hsz')).
  + erewrite bind_ok by reflexivity; cbv beta iota; by rewrite (bind_ok _ _ _ _ _ (kprintChar_ok a s)).
  + done.
- apply Forall_cons in Ha as [Ha Hrest]. cbn in Ha.
  destruct (Z.eqb_spec c 115) as [->|Hs].
  + intros [= <- <-] _. split; [|done].
    cbn [Z.eqb Pos.eqb]. erewrite bind_ok by reflexivity. cbv beta iota.
    by rewrite (bind_ok _ _ _ _ _ (kprintString_ok fuel s p l Ha)).
  + case_bool_decide as Hc; [done|]. intros [= <- <-] _. split; [|by constructor].
    repeat (rewrite eqb_false by (intros ->; apply Hc; set_solver)). done.
Qed.

Lemma format_loop_ok fuel str fmt fuel' mode args out s k :
cstr (memory s) (str + k) fmt →
0 <= k → k + Z.of_nat (length fmt) < 2 ^ 31 - 1 → (length fmt < fuel')%nat →
match mode with Some sz => sz ∈ [1; 4; 8] | None => True end →
Forall (arg_ok fuel (memory s)) args → render fmt mode args = Some out →
Forall (λ v, v = 0) (int_values fmt mode args) →
iter fuel' (format_step spin revbuff fuel str) (k, mode, arg_value <$> args) s = Ok tt (emit out s).
Proof.
revert fuel' mode args out s k.
induction fmt as [|c fmt IH]; intros [|fuel'] mode args out s k Hc Hk Hb Hf' Hm HI;
  cbn [length render int_values] in *; try lia; cbn [iter].
- destruct mode; [done|]. intros [= <-] _. apply cstr_nil_inv in Hc.
  erewrite bind_ok; [|unfold format_step; mstep; by rewrite load_1, Hc]. done.
- apply cstr_cons_inv in Hc as (E & Hx & Hc).
  assert (s32 (k + 1) = k + 1) as Hk1 by (unfold s32; zlia).
  replace (str + k + 1) with (str + (k + 1)) in Hc by lia.
  destruct mode as [sz|].
  + destruct (conv_text c sz args) as [[text next]|] eqn:Ec; [|done].
    intros Hren Hz.
    destruct (conversion_ok fuel c sz args text next s HI Hm Ec) as [Econv Hn].
    { destruct next; [by rewrite (int_value_modifier _ _ _ _ _ Ec)|by apply Forall_app in Hz as [? _]]. }
    erewrite bind_ok; [|unfold format_step; cbv beta iota; mstep; rewrite load_1, E;
      rewrite (bind_ok _ _ _ _ _ Econv); reflexivity].
    destruct next as [sz'|args']; cbn [next_values] in *; rewrite Hk1;
      destruct (render fmt _ _) as [out'|] eqn:Er; try done; injection Hren as <-; rewrite emit_app.
    * apply (IH fuel' (Some sz') args out' (emit text s)); rewrite ?emit_memory; try done; lia.
    * apply Forall_app in Hz as [_ Hz].
      apply (IH fuel' None args' out' (emit text s)); rewrite ?emit_memory; try done; lia.
  + destruct (Z.eqb_spec c ch_percent) as [Ep|Ep]; intros Hren Hz.
    * erewrite bind_ok; [|unfold format_step; mstep; rewrite load_1, E, eqb_false by lia;
        rewrite Ep; reflexivity].
      cbv beta iota. rewrite Hk1. apply IH; try done; [lia..|set_solver].
    * destruct (render fmt None args) as [out'|] eqn:Er; [|done]. injection Hren as <-.
      erewrite bind_ok; [|unfold format_step; mstep; rewrite load_1, E, eqb_false by lia;
        rewrite (eqb_false c ch_percent) by done; cbn [negb];
        rewrite (bind_ok _ _ _ _ _ (kprintChar_ok c s)); reflexivity].
      cbv beta iota. rewrite Hk1, (u8_id c) by lia. change (c :: out') with ([c] ++ out'). rewrite emit_app.
      apply (IH fuel' None args out' (emit [c] s)); rewrite ?emit_memory; try done; lia.
Qed.

(** C12: [kprintf] prints the caller's name, the level and the text the format
    and its arguments stand for, and nothing else changes, for every format whose
    [%i] and [%u] conversions get the value zero: of the integers [writeUint]
    prints only that one rightly. *)
Theorem kprintf_renders fuel func level str fname fmt args out s :
text_at fuel (memory s) str fmt → text_at fuel (memory s) func fname →
Forall (arg_ok fuel (memory s)) args →
render fmt None args = Some out → Forall (λ v, v = 0) (int_values fmt None args) →
kprintf spin revbuff fuel func level str (arg_value <$> args) s =
Ok tt (emit ((if level =? DLEVEL_NONE then []
              else fname ++ [91; level_char level; 93; 58]) ++ out) s).
Proof.
intros (Hc & Hl & Hf) Hn HI Hr Hz. unfold kprintf.
set (prefix := if level =? DLEVEL_NONE then [] else _).
rewrite (bind_ok _ _ _ tt (emit prefix s)).
- rewrite emit_app.
  apply (format_loop_ok fuel str fmt fuel None args out (emit prefix s) 0); rewrite ?emit_memory, ?Z.add_0_r; done.
- subst prefix. destruct (level =? DLEVEL_NONE); [done|].
  rewrite emit_app, (bind_ok _ _ _ _ _ (kprintString_ok fuel s func fname Hn)).
  do 3 rewrite (bind_ok _ _ _ _ _ (kprintChar_ok _ _)). rewrite kprintChar_ok.
  unfold level_char. by repeat case_match.
Qed.
End printing.

(** ** Witnesses *)

(** A port space that is one ready 16550. *)
Definition uart_ports : Ports := {|
  inb := λ _, mret 0x20;
  outb := λ p b, if p =? 0x3F8 then λ s, Ok tt (add_serial b s) else mret tt;
  ind := λ _, mret 0;
  outd := λ _ _, mret tt
|}.
Definition uart_ready_ports : @Uart16550 uart_ports.
Proof. split; [intros s; by exists 0x20|done]. Defined.

Lemma writeHex_roundtrip_witness :
  ∃ out, @writeHex uart_ports 1 0x1A2F 4 true machine0 = Ok tt (emit out machine0) ∧
    digits_value 16 0 out = Some (0x1A2F mod 2 ^ (8 * 4)) ∧ (head out = Some ch_0 → out = [ch_0]).
Proof.
  apply (@writeHex_roundtrip uart_ports uart_ready_ports 1 ltac:(lia) 0x1A2F 4 true machine0); lia.
Defined.

Lemma writeUint_one_character_witness :
  ∃ m', @writeUint uart_ports 1 0x2000 10 42 machine0 =
      Ok tt (add_serial (if 9 <? 42 then u8 (Z.lor (u8 42) ch_0) else 0) (set_memory m' machine0)) ∧
    (9 < 42 → m' = memory machine0) ∧ digits_value 10 0 (dec_text 42) = Some 42 ∧
    dec_text 42 ≠ [if 9 <? 42 then u8 (Z.lor (u8 42) ch_0) else 0].
Proof.
  apply (@writeUint_one_character uart_ports uart_ready_ports 1 ltac:(lia) 0x2000 10 42 machine0); [lia|lia|done].
Defined.

(** The format "%s=%hx,%u!" at 0x1000, the name "f" at 0x1100, "ab" at 0x1200. *)
Definition fmt_example : list Z := [37; 115; 61; 37; 104; 120; 44; 37; 117; 33].
Definition fmt_machine : machine :=
  set_memory (write_bytes (write_bytes (write_bytes ∅ 0x1000 (fmt_example ++ [0])) 0x1100 [102; 0])
    0x1200 [97; 98; 0]) machine0.

Ltac text_eval :=
  split_and!;
    [split; [intros i x Hi; repeat (destruct i as [|i]; [injection Hi as <-; by vm_compute|]); done
            |by vm_compute]
    |cbn; lia|cbn; lia].

(** It prints "f[i]:ab=fe,0!". *)
Lemma kprintf_renders_witness :
  @kprintf uart_ports 1 0x2000 20 0x1100 DLEVEL_INFO 0x1000
    (arg_value <$> [Str 0x1200 [97; 98]; Num 0xFFFE; Num 0]) fmt_machine =
  Ok tt (emit ((if DLEVEL_INFO =? DLEVEL_NONE then []
                else [102] ++ [91; level_char DLEVEL_INFO; 93; 58]) ++ [97; 98; 61; 102; 101; 44; 48; 33]) fmt_machine).
Proof.
  apply (@kprintf_renders uart_ports uart_ready_ports 1 ltac:(lia) 0x2000 20 0x1100 DLEVEL_INFO
    0x1000 [102] fmt_example [Str 0x1200 [97; 98]; Num 0xFFFE; Num 0]);
    [text_eval..| |done|by repeat constructor].
  apply Forall_cons; split; [cbn; text_eval|].
  apply Forall_cons; split; [cbn; lia|]. apply Forall_cons; split; [cbn; lia|done].
Defined.
