(* ===== verification/Cpu.v ===== *)
(** * cpu.c: descriptor tables and interrupt dispatch

    The GDT, the IDT, the TSS and the table of handlers are objects in memory,
    laid out as the packed structs and bit fields of cpu.h; [lgdt], [lidt] and
    [ltr] copy their operand to a register of the machine. *)

From Stdlib Require Import Btauto.
From S2P Require Import Prelude Kmonad Mem Libc Heap Paging.

(** ** cpu.h *)

Definition GDT_RW : Z := Z.shiftl 1 43.
Definition GDT_CONFORMING : Z := Z.shiftl 1 44.
Definition GDT_EXECUTE : Z := Z.shiftl 1 43.
Definition GDT_SYSTEM : Z := Z.shiftl 1 44.
Definition GDT_DPL (dpl : Z) : Z := u64 (Z.shiftl dpl 45).
Definition GDT_PRESENT : Z := Z.shiftl 1 47.
Definition GDT_LM : Z := Z.shiftl 1 53.
Definition GDT_TYPE_TSS : Z := Z.shiftl 0x9 40.
Definition GDT_TSS_BASE0 (addr : Z) : Z := u64 (Z.shiftl (Z.land addr 0xFFFFF) 16).
Definition GDT_TSS_BASE1 (addr : Z) : Z := u64 (Z.shiftl (Z.land (Z.shiftr addr 24) 0xFF) 48).
Definition GDT_TSS_BASE2 (addr : Z) : Z := Z.land (Z.shiftr addr 32) 0xFFF.
Definition IDT_BASE_LOWER (addr : Z) : Z := Z.land addr 0xFFFF.
Definition IDT_BASE_UPPER (addr : Z) : Z := Z.shiftr addr 16.

(** [sizeof] of the packed structs and the offsets of the fields used. *)
Definition sizeof_TSS : Z := 116.
Definition TSS_RSP0 : Z := 4.
Definition TSS_iopb : Z := 112.
Definition sizeof_gdtPointer : Z := 10.
Definition sizeof_idtEntry : Z := 16.

(** The registers of an interrupted task: [registers]. *)
Record registers := Registers {
  r15 : Z; r14 : Z; r13 : Z; r12 : Z; r11 : Z; r10 : Z; r9 : Z; r8 : Z; rbp : Z; rdi : Z;
  rsi : Z; rdx : Z; rcx : Z; rbx : Z; rax : Z; reg_ec : Z; rip : Z; cs : Z; rflags : Z; rsp : Z; ss : Z
}.

(** ** Descriptor tables *)

(** [entries[entryn] = flags]. *)
Definition writeGDTSegment (entries entryn dpl : Z) (code : bool) : M machine unit :=
  let flags := Z.lor (Z.lor (Z.lor GDT_PRESENT GDT_LM) GDT_SYSTEM) (GDT_DPL dpl) in
  st 8 (entries + 8 * entryn) (if code then Z.lor flags GDT_EXECUTE else flags).

Definition tss_lower (base dpl : Z) : Z :=
  Z.lor (Z.lor (Z.lor (Z.lor (Z.lor GDT_TYPE_TSS GDT_PRESENT) (GDT_DPL dpl)) sizeof_TSS)
    (GDT_TSS_BASE0 base)) (GDT_TSS_BASE1 base).
Definition writeGDTTSS (entries entryn base dpl : Z) : M machine unit :=
  _ ← st 8 (entries + 8 * entryn) (tss_lower base dpl);
  st 8 (entries + 8 * (entryn + 1)) (GDT_TSS_BASE2 base).

(** [lgdt [rdi]], [lidt [rdi]] and [ltr di]. *)
Definition loadGDT (ptr : Z) : M machine unit :=
  l ← ld 2 ptr; b ← ld 8 (ptr + 2); _ ← gwrite g_gdtLimit l; gwrite g_gdtr b.
Definition loadIDT (ptr : Z) : M machine unit :=
  l ← ld 2 ptr; b ← ld 8 (ptr + 2); _ ← gwrite g_idtLimit l; gwrite g_idtr b.
Definition loadTSS (segment : Z) : M machine unit := gwrite g_tr (u8 segment).

(** The four flat segments both GDT routines write. *)
Definition write_segments (base : Z) : M machine unit :=
  _ ← writeGDTSegment base 1 0 true;
  _ ← writeGDTSegment base 2 0 false;
  _ ← writeGDTSegment base 3 3 true;
  writeGDTSegment base 4 3 false.

(** Writing the fields of an [idtEntry], bit fields included. *)
Definition writeIDT (entries n selector isr : Z) : M machine unit :=
  let a := entries + sizeof_idtEntry * n in
  b ← ld 1 (a + 5);
  _ ← st 1 (a + 5) (Z.lor (Z.land b 0xF0) 0xE);
  _ ← st 2 (a + 2) selector;
  _ ← st 2 a (IDT_BASE_LOWER isr);
  _ ← st 6 (a + 6) (IDT_BASE_UPPER isr);
  b ← ld 1 (a + 5);
  st 1 (a + 5) (Z.lor (Z.land b 0x7F) 0x80).

(** The handlers of the exceptions [isr] knows; each takes the address of the
    saved registers.  FaultHandlers.v has the ones of the kernel. *)
Class ExceptionHandlers := {
  divByZero : Z → M machine unit;
  debugException : Z → M machine unit;
  invalidOpcode : Z → M machine unit;
  generalProtectionFault : Z → M machine unit;
  pageFault : Z → M machine unit
}.

Section cpu.
Context `{HeapOps} {EH : ExceptionHandlers}.
(** The static objects of cpu.c and the entry points of cpu.asm. *)
Variables (bspgptr gdtEntries idtp idtEntries handlers : Z).
Variables (isr_entry irq_entry : Z → Z).
(** Calling a handler through its pointer with the address of the registers. *)
Variable call : Z → Z → M machine unit.

Definition initGDT (stack : Z) : M machine unit :=
ptr ← kmalloc sizeof_gdtPointer;
base ← kmallocAligned (8 * 8);
_ ← st 2 ptr (8 * 8 - 1);
_ ← st 8 (ptr + 2) base;
_ ← memset base 0 (8 * 8);
_ ← write_segments base;
loadGDT ptr.

Definition initBSPGDT : M machine unit :=
_ ← st 2 bspgptr (8 * 8 - 1);
_ ← st 8 (bspgptr + 2) gdtEntries;
_ ← memset gdtEntries 0 (8 * 8);
_ ← write_segments gdtEntries;
loadGDT bspgptr.

Definition switchUserTSS (gdt tss : Z) : M machine unit := writeGDTTSS gdt 6 tss 3.

(** task.asm: [initSyscall] pushes its argument, sets EFER and executes [ret], so
    it jumps to the argument, syscallEntryPrologue, a [cli; hlt] loop. *)
Definition initSyscall : M machine unit := fail Halt.

Definition initTSS (stack gdt : Z) : M machine Z :=
tss ← kmalloc sizeof_TSS;
_ ← memset tss 0 sizeof_TSS;
_ ← st 8 (tss + TSS_RSP0) stack;
_ ← st 4 (tss + TSS_iopb) sizeof_TSS;
_ ← writeGDTTSS gdt 5 tss 0;
_ ← initSyscall;
_ ← loadTSS 0x28;
mret tss.

Definition overrideIDTEntry (vector handle : Z) : M machine unit :=
writeIDT idtEntries vector 0x8 handle.

(** The 48 calls of [writeIDT] in the order of the source. *)
Definition initIDT : M machine unit :=
_ ← st 2 idtp (sizeof_idtEntry * 256 - 1);
_ ← st 8 (idtp + 2) idtEntries;
_ ← memset idtEntries 0 (sizeof_idtEntry * 256);
_ ← for_range 0 32 (λ n, writeIDT idtEntries n 0x8 (isr_entry n));
_ ← for_range 32 48 (λ n, writeIDT idtEntries n 0x8 (irq_entry (n - 32)));
loadIDT idtp.

Definition bootstrapCPU : M machine unit := _ ← initBSPGDT; initIDT.

(** ** Dispatch *)

(** [&handlers[v]]: the array has 30 elements. *)
Definition handler_at (v : Z) : M machine Z :=
if v <? 30 then mret (handlers + 8 * v) else fail OutOfBounds.

Definition isr (reg ec : Z) : M machine unit :=
_ ← (if ec =? 0x0 then divByZero reg
     else if ec =? 0x1 then debugException reg
     else if ec =? 0x6 then invalidOpcode reg
     else if ec =? 0x8 then fail (Panic "Double fault")
     else if ec =? 0xD then generalProtectionFault reg
     else if ec =? 0xE then pageFault reg
     else mret tt);
a ← handler_at ec;
fnc ← ld 8 a;
if negb (fnc =? 0) then call fnc reg else fail Halt.

Definition irq (reg irqn : Z) : M machine unit :=
if irqn <? 32 then mret tt
else
  a ← handler_at irqn;
  fnc ← ld 8 a;
  if fnc =? 0 then mret tt else call fnc reg.

Definition addInterruptHandler (vector handler : Z) : M machine unit :=
a ← handler_at vector; st 8 a handler.

Definition removeInterruptHandler (vector : Z) : M machine unit :=
a ← handler_at vector; st 8 a 0.

Definition allocateInterrupt (handler : Z) : M machine Z :=
iter 237 (λ i,
  if i <? 255 then
    a ← handler_at i;
    h ← ld 8 a;
    if negb (h =? 0) then mret (inl (i + 1))
    else _ ← st 8 a handler; mret (inr (u16 i))
  else mret (inr 0)) 19.
End cpu.

(** ** The descriptors as the processor reads them *)

(** A 64-bit interrupt gate. *)
Record gate := Gate {
  gate_offset : Z; gate_selector : Z; gate_type : Z; gate_present : bool
}.
Definition gate_of (m : gmap Z Z) (a : Z) : gate :=
  Gate (load 2 m a + 2 ^ 16 * load 6 m (a + 6)) (load 2 m (a + 2))
       (Z.land (load 1 m (a + 5)) 0xF) (Z.testbit (load 1 m (a + 5)) 7).

(** The base of a system descriptor: bits 16-39 and 56-63 of the first word and
    the low half of the second. *)
Definition descriptor_base (lower upper : Z) : Z :=
  Z.land (Z.shiftr lower 16) 0xFFFFFF
  + 2 ^ 24 * Z.land (Z.shiftr lower 56) 0xFF
  + 2 ^ 32 * Z.land upper 0xFFFFFFFF.

(** Both passes over the attribute byte of a gate. *)
Definition gate_attr (b : Z) : Z :=
  u8 (Z.lor (Z.land (u8 (Z.lor (Z.land b 0xF0) 0xE)) 0x7F) 0x80).

Lemma gate_attr_ok b : 0 <= b < 256 →
  Z.land (gate_attr b) 0xF = 0xE ∧ Z.testbit (gate_attr b) 7 = true.
Proof.
  intros Hb. assert (forallb (λ n, let b := Z.of_nat n in
    (Z.land (gate_attr b) 0xF =? 0xE) && Z.testbit (gate_attr b) 7) (seq 0 256) = true) as H
    by by vm_compute.
  rewrite forallb_forall in H. specialize (H (Z.to_nat b)).
  rewrite Z2Nat.id in H by lia. cbv zeta in H.
  apply andb_true_iff in H as [H1 H2]; [by apply Z.eqb_eq in H1|].
  apply in_seq. lia.
Qed.

Lemma writeIDT_gate entries n selector isr s :
  0 <= isr < 2 ^ 64 → 0 <= selector < 2 ^ 16 →
  wp (writeIDT entries n selector isr) (λ _ s',
    gate_of (memory s') (entries + 16 * n) = Gate isr selector 0xE true ∧
    same_on (λ b, b < entries + 16 * n ∨ entries + 16 * n + 16 <= b) (memory s) (memory s') ∧
    globals s' = globals s) s.
Proof.
  intros Hi Hsel. unfold writeIDT, sizeof_idtEntry. set (a := entries + 16 * n).
  wp_steps. cbn [memory set_memory].
  set (m0 := memory s). split_and!; [| |done].
  - unfold gate_of. rewrite (load_store_ne 1 6) by lia. rewrite load_store_eq. mem_wrap.
    change (256 ^ Z.of_nat 6) with (2 ^ 48).
    change (u8 (Z.lor _ 0x80)) with (gate_attr (load 1 m0 (a + 5))).
    destruct (gate_attr_ok (load 1 m0 (a + 5)) (load_1_range _ _)) as [-> ->].
    unfold IDT_BASE_LOWER, IDT_BASE_UPPER. f_equal.
    change 0xFFFF with (Z.ones 16). rewrite Z.land_ones, Z.shiftr_div_pow2 by lia.
    rewrite u16_id by (apply Z.mod_pos_bound; lia).
    rewrite (Z.mod_small (isr / 2 ^ 16)) by (split; [apply Z.div_pos; lia|
      apply Z.div_lt_upper_bound; lia]).
    pose proof (Z.div_mod isr (2 ^ 16)). lia.
  - intros b Hb. rewrite !mbyte_store_ne by lia. done.
Qed.

Lemma memset_zero ptr n s :
  0 <= n →
  wp (memset ptr 0 (4 * n)) (λ _ s', globals s' = globals s ∧
    ∀ a, mbyte (memory s') a =
         if decide (ptr <= a < ptr + 4 * n) then 0 else mbyte (memory s) a) s.
Proof.
  intros Hn. unfold memset, for_range. rewrite Z.mul_comm, Z.div_mul by lia.
  wp_step. eapply wp_mono; [by apply memset_loop|]. intros [] s' (Hg & _ & Hm).
  wp_step. split; [done|]. intros a. rewrite Hm.
  rewrite Z.sub_0_r, Z2Nat.id by lia. rewrite Z.add_0_l, Z.mul_0_r, Z.add_0_r, (Z.mul_comm n).
  case_decide; [|done]. rewrite Z.div_0_l; [done|].
  apply Z.pow_nonzero; [lia|]. apply Z.mod_pos_bound. lia.
Qed.

Section tables.
Context {HO : HeapOps}.
Variables (idtp idtEntries : Z) (isr_entry irq_entry : Z → Z).
Hypothesis isr_addr : ∀ n, 0 <= isr_entry n < 2 ^ 64.
Hypothesis irq_addr : ∀ n, 0 <= irq_entry n < 2 ^ 64.

Definition vector_entry (n : Z) : Z := if n <? 32 then isr_entry n else irq_entry (n - 32).

(** The first [n] gates lead to their entry points, the others are zero. *)
Definition idt_filled (n : Z) (m : gmap Z Z) : Prop :=
(∀ j, 0 <= j < n → gate_of m (idtEntries + 16 * j) = Gate (vector_entry j) 8 0xE true) ∧
(∀ b, idtEntries + 16 * n <= b < idtEntries + 4096 → mbyte m b = 0).

Lemma gate_of_same m m' a :
same_on (λ b, a <= b < a + 16) m m' → gate_of m' a = gate_of m a.
Proof.
intros H. unfold gate_of.
by rewrite !(same_on_load _ _ _ _ _ H) by (intros; lia).
Qed.

Definition idt_inv (s0 : machine) (n : Z) (s : machine) : Prop :=
idt_filled n (memory s) ∧ globals s = globals s0 ∧
same_on (λ b, b < idtEntries ∨ idtEntries + 4096 <= b) (memory s0) (memory s).

Lemma writeIDT_fills s0 n isr s :
0 <= n < 256 → isr = vector_entry n → idt_inv s0 n s →
wp (writeIDT idtEntries n 8 isr) (λ _, idt_inv s0 (n + 1)) s.
Proof.
intros Hn -> ([Hf Hz] & Hg & Hs).
eapply wp_mono; [apply writeIDT_gate; [unfold vector_entry; case_match; done|lia]|].
intros [] s' (Hgate & Hsame & Hgl). split_and!; [split| |].
- intros j Hj. destruct (Z.eq_dec j n) as [->|]; [done|].
  rewrite (gate_of_same (memory s)); [by apply Hf; lia|].
  eapply same_on_weaken; [exact Hsame|]. intros b Hb. cbv beta in Hb |- *. lia.
- intros b Hb. rewrite Hsame by lia. apply Hz. lia.
- congruence.
- etransitivity; [exact Hs|]. eapply same_on_weaken; [exact Hsame|]. intros b Hb. blia.
Qed.

(** [initIDT] with what it leaves alone. *)
Lemma initIDT_ok s :
0 <= idtEntries < 2 ^ 64 → idtp + 10 <= idtEntries ∨ idtEntries + 4096 <= idtp →
wp (initIDT idtp idtEntries isr_entry irq_entry) (λ _ s',
  idt_filled 48 (memory s') ∧
  (globals s' g_idtr = idtEntries ∧ globals s' g_idtLimit = 16 * 256 - 1) ∧
  same_on (λ b, (b < idtp ∨ idtp + 10 <= b) ∧ (b < idtEntries ∨ idtEntries + 4096 <= b)) (memory s) (memory s') ∧
  ∀ g, g ≠ g_idtr → g ≠ g_idtLimit → globals s' g = globals s g) s.
Proof.
intros Ha Hd. unfold initIDT. do 5 wp_step.
set (s0 := set_memory _ _). change (sizeof_idtEntry * 256) with (4 * 1024).
eapply wp_mono; [apply memset_zero; lia|].
intros ? s1 (Hg1 & Hm1). wp_step.
assert (idt_inv s1 0 s1) as H0.
{ split_and!; [split; [lia|]|done|done]. intros b Hb. by rewrite Hm1, decide_True by lia. }
apply (wp_for_range (idt_inv s1)); [lia| | |exact H0].
{ intros n s2 Hn. apply writeIDT_fills; [lia|].
  unfold vector_entry. by rewrite ltb_true by lia. }
intros s2 H2. wp_step. apply (wp_for_range (idt_inv s1)); [lia| | |exact H2].
{ intros n s3 Hn. apply writeIDT_fills; [lia|].
  unfold vector_entry. by rewrite ltb_false by lia. }
intros s3 (Hf & Hg & Hs). unfold loadIDT. wp_steps.
assert (same_on (λ b, b < idtEntries ∨ idtEntries + 4096 <= b) (memory s0) (memory s3)) as Hs0.
{ etransitivity; [|exact Hs]. intros b Hb. by rewrite Hm1, decide_False by lia. }
split; [done|]. split; [split; mem|split].
- rewrite (same_on_load _ _ _ _ _ Hs0) by (intros; lia). cbn [memory s0 set_memory].
  by mem_wrap.
- rewrite (same_on_load _ _ _ _ _ Hs0) by (intros; lia). cbn [memory s0 set_memory].
  rewrite load_store_ne by lia. by mem_wrap.
- intros b [Hb1 Hb2]. cbn [memory set_global]. rewrite Hs0 by done. cbn [memory s0 set_memory].
  by rewrite !mbyte_store_ne by lia.
- intros g H1 H2'. cbn [globals set_global]. rewrite !decide_False by done. by rewrite Hg, Hg1.
Qed.
(** C30: After [initIDT] the first 48 vectors are present 64-bit interrupt gates
    to isr0..isr31 and irq0..irq15 in kernel code, the others are zero, and
    the IDT register covers the table. *)
Theorem initIDT_gates s :
0 <= idtEntries < 2 ^ 64 → idtp + 10 <= idtEntries ∨ idtEntries + 4096 <= idtp →
wp (initIDT idtp idtEntries isr_entry irq_entry) (λ _ s',
  idt_filled 48 (memory s') ∧
  globals s' g_idtr = idtEntries ∧ globals s' g_idtLimit = 16 * 256 - 1) s.
Proof.
intros Ha Hd. eapply wp_mono; [by apply initIDT_ok|]. intros [] s' (Hf & [Hr Hl] & _). by split_and!.
Qed.
End tables.

Lemma lor_shiftl_add a b n : 0 <= n → 0 <= a < 2 ^ n → Z.lor a (Z.shiftl b n) = a + 2 ^ n * b.
Proof.
  intros Hn Ha. rewrite <- Z.add_nocarry_lor; [rewrite Z.shiftl_mul_pow2 by lia; lia|].
  apply Z.bits_inj'. intros i Hi. rewrite Z.land_spec, Z.bits_0.
  destruct (Z.lt_ge_cases i n).
  - rewrite Z.shiftl_spec_low by lia. apply andb_false_r.
  - rewrite <- (Z.mod_small a (2 ^ n)) by lia. by rewrite Z.mod_pow2_bits_high by lia.
Qed.

Lemma tss_lower_sum base dpl :
  0 <= base < 2 ^ 64 → 0 <= dpl < 4 →
  tss_lower base dpl =
  116 + 2 ^ 16 * (base mod 2 ^ 20) + 2 ^ 40 * 9 + 2 ^ 45 * dpl + 2 ^ 47 * 1
  + 2 ^ 48 * ((base / 2 ^ 24) mod 2 ^ 8).
Proof.
  intros Hb Hd. unfold tss_lower, GDT_TYPE_TSS, GDT_PRESENT, GDT_DPL, GDT_TSS_BASE0, GDT_TSS_BASE1,
    sizeof_TSS.
  change 0xFFFFF with (Z.ones 20). change 0xFF with (Z.ones 8).
  rewrite !Z.land_ones, (Z.shiftr_div_pow2 base 24) by lia.
  set (x := base mod 2 ^ 20). set (y := (base / 2 ^ 24) mod 2 ^ 8).
  assert (0 <= x < 2 ^ 20) by (apply Z.mod_pos_bound; lia).
  assert (0 <= y < 2 ^ 8) by (apply Z.mod_pos_bound; lia).
  rewrite !u64_id by (rewrite Z.shiftl_mul_pow2 by lia; lia).
  transitivity (Z.lor (Z.lor (Z.lor (Z.lor (Z.lor 116 (Z.shiftl x 16)) (Z.shiftl 9 40))
    (Z.shiftl dpl 45)) (Z.shiftl 1 47)) (Z.shiftl y 48)).
  { apply Z.bits_inj'. intros i Hi. rewrite !Z.lor_spec. btauto. }
  rewrite (lor_shiftl_add 116), (lor_shiftl_add _ 9), (lor_shiftl_add _ dpl), (lor_shiftl_add _ 1),
    (lor_shiftl_add _ y) by lia. done.
Qed.

(** What [writeGDTTSS] tells the processor: the base it reads back keeps bits
    0-19 and 32-43 of the TSS address only, so it is right exactly when the
    others are zero. *)
Theorem writeGDTTSS_base entries n base dpl s :
  0 <= base < 2 ^ 64 → 0 <= dpl < 4 →
  wp (writeGDTTSS entries n base dpl) (λ _ s',
    let b := descriptor_base (load 8 (memory s') (entries + 8 * n))
                             (load 8 (memory s') (entries + 8 * n + 8)) in
    b = base mod 2 ^ 20 + 2 ^ 32 * ((base / 2 ^ 32) mod 2 ^ 12) ∧
    (b = base ↔ base mod 2 ^ 32 < 2 ^ 20 ∧ base < 2 ^ 44)) s.
Proof.
  intros Hb Hd. unfold writeGDTTSS. wp_steps. cbn [memory set_memory].
  replace (entries + 8 * (n + 1)) with (entries + 8 * n + 8) by lia.
  rewrite load_store_ne by lia. mem. rewrite tss_lower_sum by done.
  unfold descriptor_base, GDT_TSS_BASE2.
  change 0xFFFFFF with (Z.ones 24). change 0xFFFFFFFF with (Z.ones 32).
  change 0xFFF with (Z.ones 12). change 0xFF with (Z.ones 8).
  rewrite !Z.land_ones, !Z.shiftr_div_pow2 by lia. cbv zeta.
  assert (∀ x y : Z, x = y → x = y ∧ (x = base ↔ base mod 2 ^ 32 < 2 ^ 20 ∧ base < 2 ^ 44)
    ↔ (y = base ↔ base mod 2 ^ 32 < 2 ^ 20 ∧ base < 2 ^ 44)) as Hsplit by naive_solver.
  rewrite Hsplit; clear Hsplit; unfold u64; zlia.
Qed.

(** ** Handlers *)

Section handlers.
Context {EH : ExceptionHandlers}.
Variable handlers : Z.
Variable call : Z → Z → M machine unit.

(** The handler of vector [v] in memory. *)
Definition handler (m : gmap Z Z) (v : Z) : Z := load 8 m (handlers + 8 * v).

Lemma handler_at_in v s : v < 30 → handler_at handlers v s = Ok (handlers + 8 * v) s.
Proof. intros Hv. unfold handler_at. by rewrite ltb_true by lia. Qed.
Lemma handler_at_out v s : 30 <= v → handler_at handlers v s = Fault OutOfBounds.
Proof. intros Hv. unfold handler_at. by rewrite ltb_false by lia. Qed.

Lemma allocate_loop h s k n fuel i :
19 <= i → k = i + Z.of_nat n → k <= 30 → (n < fuel)%nat →
(∀ v, i <= v < k → handler (memory s) v ≠ 0) →
(k < 30 → handler (memory s) k = 0) →
iter fuel (λ i,
  if i <? 255 then
    a ← handler_at handlers i;
    x ← ld 8 a;
    if negb (x =? 0) then mret (inl (i + 1))
    else _ ← st 8 a h; mret (inr (u16 i))
  else mret (inr 0)) i s =
if k <? 30 then Ok k (set_memory (store 8 (memory s) (handlers + 8 * k) h) s)
else Fault OutOfBounds.
Proof.
unfold handler. revert fuel i. induction n as [|n IH]; intros [|fuel] i Hi Hk Hk30 Hf Hne H0; try lia;
  cbn [iter]; rewrite (ltb_true i 255) by lia.
- replace i with k by lia. destruct (Z.ltb_spec k 30) as [Hlt|].
  + erewrite bind_ok; [|rewrite (bind_ok _ _ _ _ _ (handler_at_in _ _ Hlt)); mstep;
      rewrite (H0 Hlt); reflexivity].
    cbv beta iota. by rewrite u16_id by lia.
  + by rewrite (bind_fault _ _ _ _ (bind_fault _ _ _ _ (handler_at_out _ _ H))).
- erewrite bind_ok.
  2:{ rewrite (bind_ok _ _ _ _ _ (handler_at_in i s ltac:(lia))). mstep.
      by rewrite eqb_false by (apply Hne; lia). }
  cbv beta iota. apply IH; try lia; try done. intros v Hv. apply Hne. lia.
Qed.

(** C39: [allocateInterrupt] takes the first free vector from 19 on, and an [isr]
    of that vector calls exactly the new handler with the registers; with
    19 to 29 in use it does not return 0 but leaves the handler table. *)
Theorem allocateInterrupt_dispatch h k s :
19 <= k <= 30 → 0 < h < 2 ^ 64 →
(∀ v, 19 <= v < k → handler (memory s) v ≠ 0) →
(k < 30 → handler (memory s) k = 0) →
(k < 30 → ∃ s', allocateInterrupt handlers h s = Ok k s' ∧
  (∀ reg, isr handlers call reg k s' = call h reg s') ∧
  same_on (λ a, a < handlers + 8 * k ∨ handlers + 8 * k + 8 <= a) (memory s) (memory s')) ∧
(k = 30 → allocateInterrupt handlers h s = Fault OutOfBounds).
Proof.
intros Hk Hh Hne H0.
pose proof (allocate_loop h s k (Z.to_nat (k - 19)) 237 19 ltac:(lia) ltac:(lia) ltac:(lia)
  ltac:(lia) Hne H0) as E. split; intros Hk30.
- rewrite ltb_true in E by lia. eexists. split; [exact E|]. split.
  + intros reg. unfold isr. rewrite !eqb_false by lia. mstep.
    rewrite (bind_ok _ _ _ _ _ (handler_at_in k _ Hk30)). mstep.
    cbn [memory set_memory]. rewrite load_store_8. wrap. by rewrite eqb_false by lia.
  + apply same_on_store. intros a Ha. blia.
- by rewrite ltb_false in E by lia.
Qed.

(** An interrupt request of a vector that [irq] accepts, and a handler
    registered for one, are outside the 30 elements of the table. *)
Theorem irq_outside_table reg irqn h s :
32 <= irqn →
irq handlers call reg irqn s = Fault OutOfBounds ∧
addInterruptHandler handlers irqn h s = Fault OutOfBounds.
Proof.
intros Hn. unfold irq, addInterruptHandler. rewrite (ltb_false irqn 32) by lia.
by rewrite !(bind_fault _ _ _ _ (handler_at_out irqn s ltac:(lia))).
Qed.
End handlers.

(** ** Witnesses *)

Lemma initIDT_gates_witness :
  wp (initIDT 0x5000 0x6000 (λ n, 0xFFFF800000000000 + n mod 32) (λ n, 0xFFFF800000010000 + n mod 16))
    (λ _ s', idt_filled 0x6000 (λ n, 0xFFFF800000000000 + n mod 32) (λ n, 0xFFFF800000010000 + n mod 16)
               48 (memory s') ∧
     globals s' g_idtr = 0x6000 ∧ globals s' g_idtLimit = 16 * 256 - 1) machine0.
Proof.
  apply initIDT_gates; intros; zlia.
Defined.

Lemma writeGDTTSS_base_witness :
  wp (writeGDTTSS 0x1000 5 0xFFFF800000123000 0) (λ _ s',
    let b := descriptor_base (load 8 (memory s') (0x1000 + 8 * 5))
                             (load 8 (memory s') (0x1000 + 8 * 5 + 8)) in
    b = 0xFFFF800000123000 mod 2 ^ 20 + 2 ^ 32 * ((0xFFFF800000123000 / 2 ^ 32) mod 2 ^ 12) ∧
    (b = 0xFFFF800000123000 ↔
     0xFFFF800000123000 mod 2 ^ 32 < 2 ^ 20 ∧ 0xFFFF800000123000 < 2 ^ 44)) machine0.
Proof. apply (writeGDTTSS_base 0x1000 5 0xFFFF800000123000 0 machine0); lia. Defined.

(** Vector 19 in use, 20 free. *)
Definition one_handler : machine := set_memory (store 8 ∅ (0x3000 + 8 * 19) 7) machine0.
#[local] Instance halting_handlers : ExceptionHandlers := {
  divByZero _ := fail Halt; debugException _ := fail Halt; invalidOpcode _ := fail Halt;
  generalProtectionFault _ := fail Halt; pageFault _ := fail Halt }.
Definition ignore_call (f reg : Z) : M machine unit := mret tt.

Lemma allocateInterrupt_dispatch_witness :
  (20 < 30 → ∃ s', allocateInterrupt 0x3000 9 one_handler = Ok 20 s' ∧
    (∀ reg, isr 0x3000 ignore_call reg 20 s' = ignore_call 9 reg s') ∧
    same_on (λ a, a < 0x3000 + 8 * 20 ∨ 0x3000 + 8 * 20 + 8 <= a) (memory one_handler) (memory s')) ∧
  (20 = 30 → allocateInterrupt 0x3000 9 one_handler = Fault OutOfBounds).
Proof.
  apply (allocateInterrupt_dispatch 0x3000 ignore_call 9 20 one_handler); [lia|lia| |done].
  intros v Hv. replace v with 19 by lia. by vm_compute.
Defined.

Lemma irq_outside_table_witness :
  irq 0x3000 ignore_call 0 0x20 machine0 = Fault OutOfBounds ∧
  addInterruptHandler 0x3000 0x20 9 machine0 = Fault OutOfBounds.
Proof. apply (irq_outside_table 0x3000 ignore_call 0 0x20 9 machine0). lia. Defined.
