(* ===== verification/Ksym.v ===== *)
(** * ksym.c, elf.h and fdebug.c: kernel symbols and stack traces

    The symbol file stays in memory as the boot loader left it; its structures
    are read with the layouts of elf.h.  A stack trace walks the frame pointers
    and looks every return address up in the symbol table. *)

From S2P Require Import Prelude Kmonad Mem Libc.

(** ** elf.h *)

Record ELF64Header := EHdr {
  eh_fmagic : Z; eh_class : Z; eh_entry : Z; eh_phoff : Z; eh_shoff : Z; eh_phnum : Z;
  eh_shnum : Z; eh_shstrndx : Z
}.
Definition sizeof_ELF64Header : Z := 64.
Definition read_ehdr (m : gmap Z Z) (a : Z) : ELF64Header :=
  EHdr (load 4 m a) (load 1 m (a + 4)) (load 8 m (a + 24)) (load 8 m (a + 32)) (load 8 m (a + 40))
       (load 2 m (a + 56)) (load 2 m (a + 60)) (load 2 m (a + 62)).

Record ELF64Section := SHdr {
  sh_name : Z; sh_type : Z; sh_flags : Z; sh_addr : Z; sh_offset : Z; sh_size : Z;
  sh_link : Z; sh_info : Z; sh_align : Z; sh_entsize : Z
}.
Definition sizeof_ELF64Section : Z := 64.
Definition read_shdr (m : gmap Z Z) (a : Z) : ELF64Section :=
  SHdr (load 4 m a) (load 4 m (a + 4)) (load 8 m (a + 8)) (load 8 m (a + 16)) (load 8 m (a + 24))
       (load 8 m (a + 32)) (load 4 m (a + 40)) (load 4 m (a + 44)) (load 8 m (a + 48))
       (load 8 m (a + 56)).

Record ELF64ProgramHeader := PHdr {
  ph_type : Z; ph_flags : Z; ph_offset : Z; ph_vaddr : Z; ph_paddr : Z; ph_filesz : Z;
  ph_memsz : Z; ph_align : Z
}.
Definition sizeof_ELF64ProgramHeader : Z := 56.
Definition read_phdr (m : gmap Z Z) (a : Z) : ELF64ProgramHeader :=
  PHdr (load 4 m a) (load 4 m (a + 4)) (load 8 m (a + 8)) (load 8 m (a + 16)) (load 8 m (a + 24))
       (load 8 m (a + 32)) (load 8 m (a + 40)) (load 8 m (a + 48)).

Record ELF64Sym := Sym {
  st_name : Z; st_info : Z; st_other : Z; st_shndx : Z; st_value : Z; st_size : Z
}.
Definition sizeof_ELF64Sym : Z := 24.
Definition read_sym (m : gmap Z Z) (a : Z) : ELF64Sym :=
  Sym (load 4 m a) (load 1 m (a + 4)) (load 1 m (a + 5)) (load 2 m (a + 6)) (load 8 m (a + 8))
      (load 8 m (a + 16)).

Definition ELF_CLASS32 : Z := 1.
Definition ELF_CLASS64 : Z := 2.
Definition SHT_PROGBITS : Z := 1.
Definition SHT_SYMTAB : Z := 2.
Definition SHT_STRTAB : Z := 3.
Definition PT_LOAD : Z := 1.
Definition PF_X : Z := 1.
Definition PF_W : Z := 2.
Definition PF_R : Z := 4.
Definition STT_NOTYPE : Z := 0.
Definition STT_SECTION : Z := 3.

(** ** ksym.c *)

Section ksym.
(** The iterations [strcmp] gets and the addresses of the section names. *)
Variables (fuel : nat) (debug_info debug_line debug_str : Z).

Definition checkSection (secName sec : Z) : M machine bool :=
base ← gread g_secstrBase;
nm ← ld 4 sec;
r ← strcmp fuel secName (base + nm);
mret (r =? 0).

(** One section of the first loop of [initKsym]; the loop variables are the
    pointers [sym] and [str], 0 for NULL. *)
Definition ksym_section (ksym sec : Z) (st : Z * Z) : M machine (Z * Z) :=
let '(sym, str) := st in
type ← ld 4 (sec + 4);
sym ← (if type =? SHT_SYMTAB then
         size ← ld 8 (sec + 32); _ ← gwrite g_symn size; mret sec
       else mret sym);
type ← ld 4 (sec + 4);
if type =? SHT_STRTAB then
  if str =? 0 then mret (sym, sec)
  else
    size ← ld 8 (sec + 32);
    strsize ← ld 8 (str + 32);
    if size <? strsize then
      o ← ld 8 (sec + 24);
      _ ← gwrite g_secstrBase (u64 (ksym + o));
      mret (sym, str)
    else
      o ← ld 8 (str + 24);
      _ ← gwrite g_secstrBase (u64 (ksym + o));
      mret (sym, sec)
else mret (sym, str).

Fixpoint ksym_sections (n : nat) (ksym sec : Z) (st : Z * Z) : M machine (Z * Z) :=
match n with
| O => mret st
| S n' => st' ← ksym_section ksym sec st; ksym_sections n' ksym (sec + sizeof_ELF64Section) st'
end.

(** The second loop: one section. *)
Definition debug_section (sec : Z) : M machine unit :=
type ← ld 4 (sec + 4);
if negb (type =? SHT_PROGBITS) then mret tt
else
  b ← checkSection debug_info sec;
  if b : bool then gwrite g_dbgInfo sec
  else
    b ← checkSection debug_line sec;
    if b : bool then gwrite g_dbgLine sec
    else
      b ← checkSection debug_str sec;
      if b : bool then gwrite g_dbgStr sec else mret tt.

Definition initKsym (ksym : Z) : M machine unit :=
shoff ← ld 8 (ksym + 40);
let section := u64 (ksym + shoff) in
shnum ← ld 2 (ksym + 60);
'(sym, str) ← ksym_sections (Z.to_nat shnum) ksym section (0, 0);
_ ← kassert (negb (sym =? 0)) "No sym section";
_ ← kassert (negb (str =? 0)) "No str section";
n ← gread g_symn;
_ ← gwrite g_symn (n / sizeof_ELF64Sym);
o ← ld 8 (sym + 24);
_ ← gwrite g_symStart (u64 (ksym + o));
o ← ld 8 (str + 24);
_ ← gwrite g_strBase (u64 (ksym + o));
shnum ← ld 2 (ksym + 60);
for_range 0 shnum (λ i, debug_section (section + sizeof_ELF64Section * i)).

(** The loop of [getSymbol]. *)
Fixpoint symbol_search (n : nat) (sym ptr : Z) : M machine Z :=
match n with
| O => mret 0
| S n' =>
    info ← ld 1 (sym + 4);
    if (Z.land info 0x0F =? STT_NOTYPE) || (Z.land info 0x0F =? STT_SECTION)
    then symbol_search n' (sym + sizeof_ELF64Sym) ptr
    else
      value ← ld 8 (sym + 8);
      size ← ld 8 (sym + 16);
      if (value <=? ptr) && (ptr <=? u64 (value + size)) then mret sym
      else symbol_search n' (sym + sizeof_ELF64Sym) ptr
end.

Definition getSymbol (ptr : Z) : M machine Z :=
if ptr =? 0 then mret 0
else
  sym ← gread g_symStart;
  n ← gread g_symn;
  symbol_search (Z.to_nat n) sym ptr.

Definition symbolToName (sym : Z) : M machine Z :=
nm ← ld 4 sym; base ← gread g_strBase; mret (u64 (nm + base)).

(** ** fdebug.c *)

(** What one line of a trace shows: the return address, the name of the symbol
    (0 for "unknown()") and the number of items in the frame. *)
Record trace_line := TraceLine { tl_ret : Z; tl_name : Z; tl_items : Z }.

Definition frame_items (frame fp : Z) : Z :=
if fp =? 0 then 0 else u64 (u64 (fp - frame) / 8 - 2).

(** One frame: the line it prints and its saved frame pointer. *)
Definition trace_frame (frame : Z) : M machine (trace_line * Z) :=
ret ← ld 8 (frame + 8);
sym ← getSymbol ret;
nm ← (if sym =? 0 then mret 0 else symbolToName sym);
fp ← ld 8 frame;
mret (TraceLine ret nm (frame_items frame fp), fp).

Definition trace_step (st : Z * list trace_line)
  : M machine (Z * list trace_line + list trace_line) :=
let '(frame, lines) := st in
if frame =? 0 then mret (inr lines)
else
  '(line, fp) ← trace_frame frame;
  mret (if fp =? 0 then inr (lines ++ [line]) else inl (fp, lines ++ [line])).

Definition stackTrace (steps : nat) (rbp : Z) : M machine (list trace_line) :=
iter steps trace_step (rbp, []).
End ksym.

(** ** The symbol that covers an address *)

Definition covers (sy : ELF64Sym) (ptr : Z) : Prop :=
  Z.land (st_info sy) 0x0F ≠ STT_NOTYPE ∧ Z.land (st_info sy) 0x0F ≠ STT_SECTION ∧
  st_value sy <= ptr <= u64 (st_value sy + st_size sy).

#[export] Instance covers_dec sy ptr : Decision (covers sy ptr).
Proof. apply _. Defined.

(** The [n] entries of a symbol table. *)
Definition symbols (m : gmap Z Z) (base : Z) (n : nat) : list ELF64Sym :=
  (λ i, read_sym m (base + 24 * Z.of_nat i)) <$> seq 0 n.

(** The address of the first entry that covers [ptr], 0 if there is none. *)
Definition symbol_for (m : gmap Z Z) (base : Z) (n : nat) (ptr : Z) : Z :=
  match list_find (λ sy, covers sy ptr) (symbols m base n) with
  | Some (i, _) => base + 24 * Z.of_nat i
  | None => 0
  end.

Lemma symbols_S m base n : symbols m base (S n) = read_sym m base :: symbols m (base + 24) n.
Proof.
  unfold symbols. cbn [seq]. rewrite fmap_cons. f_equal; [f_equal; lia|].
  rewrite <- seq_shift, <- list_fmap_compose. apply list_fmap_ext. intros i x _. cbn. f_equal. lia.
Qed.

Lemma symbol_for_S m base n ptr :
  symbol_for m base (S n) ptr =
  if decide (covers (read_sym m base) ptr) then base else symbol_for m (base + 24) n ptr.
Proof.
  unfold symbol_for. rewrite symbols_S. cbn [list_find]. case_decide; [lia|].
  destruct (list_find _ _) as [[i sy]|]; cbn; [lia|done].
Qed.

Lemma symbol_search_ok n base ptr s :
  symbol_search n base ptr s = Ok (symbol_for (memory s) base n ptr) s.
Proof.
  revert base. induction n as [|n IH]; intros base; [done|].
  rewrite symbol_for_S. cbn [symbol_search]. mstep.
  unfold covers, read_sym. cbn [st_info st_value st_size].
  destruct (Z.eqb_spec (Z.land (load 1 (memory s) (base + 4)) 0x0F) STT_NOTYPE) as [E1|E1];
    [cbn [orb]; rewrite decide_False by tauto; apply IH|].
  destruct (Z.eqb_spec (Z.land (load 1 (memory s) (base + 4)) 0x0F) STT_SECTION) as [E2|E2];
    [cbn [orb]; rewrite decide_False by tauto; apply IH|].
  cbn [orb]. mstep. mstep.
  destruct (Z.leb_spec (load 8 (memory s) (base + 8)) ptr) as [H1|H1]; cbn [andb];
    [|rewrite decide_False by lia; apply IH].
  destruct (Z.leb_spec ptr (u64 (load 8 (memory s) (base + 8) + load 8 (memory s) (base + 16))))
    as [H2|H2]; [by rewrite decide_True by done|rewrite decide_False by lia; apply IH].
Qed.

Lemma getSymbol_ok ptr s :
  getSymbol ptr s =
  Ok (if ptr =? 0 then 0
      else symbol_for (memory s) (globals s g_symStart) (Z.to_nat (globals s g_symn)) ptr) s.
Proof.
  unfold getSymbol. destruct (ptr =? 0); [done|]. do 2 mstep. apply symbol_search_ok.
Qed.

(** C18: [getSymbol] returns the first symbol of the table that covers the address,
    of any type but NOTYPE and SECTION and with its end included; it returns NULL
    when no symbol does, and at address 0 even when one does. *)
Theorem getSymbol_first ptr s :
  let base := globals s g_symStart in
  let sym i := read_sym (memory s) (base + 24 * i) in
  ∃ r, getSymbol ptr s = Ok r s ∧
    ((ptr ≠ 0 ∧ ∃ i, 0 <= i < globals s g_symn ∧ r = base + 24 * i ∧ covers (sym i) ptr ∧
           ∀ j, 0 <= j < i → ¬ covers (sym j) ptr) ∨
     (r = 0 ∧ (ptr = 0 ∨ ∀ j, 0 <= j < globals s g_symn → ¬ covers (sym j) ptr))).
Proof.
  intros base sym. eexists. split; [by rewrite getSymbol_ok|].
  destruct (Z.eqb_spec ptr 0) as [->|Hp]; [right; split; [done|by left]|].
  fold base. set (n := Z.to_nat (globals s g_symn)).
  assert (∀ i, (i < n)%nat → symbols (memory s) base n !! i = Some (sym (Z.of_nat i))) as Hl.
  { intros i Hi. unfold symbols. by rewrite list_lookup_fmap, lookup_seq_lt by done. }
  unfold symbol_for. destruct (list_find _ _) as [[i sy]|] eqn:E; [left; split; [done|]|right; split; [done|right]].
  - apply list_find_Some in E as (Hi & Hc & Hj).
    assert (i < n)%nat as Hin.
    { apply lookup_lt_Some in Hi. unfold symbols in Hi. by rewrite length_fmap, length_seq in Hi. }
    rewrite Hl in Hi by done. injection Hi as <-. exists (Z.of_nat i).
    split_and!; [lia|lia|done|done|]. intros j Hji.
    specialize (Hj (Z.to_nat j) (sym j)). rewrite Hl, Z2Nat.id in Hj by lia. apply Hj; [done|lia].
  - intros j Hj Hc. apply list_find_None in E.
    rewrite Forall_lookup in E. apply (E (Z.to_nat j) (sym j)); [|done].
    by rewrite Hl, Z2Nat.id by lia.
Qed.

(** ** Stack traces *)

(** The frames [l] linked by their saved frame pointers, the last one 0. *)
Fixpoint frame_chain (m : gmap Z Z) (l : list Z) : Prop :=
  match l with
  | [] => False
  | f :: l' =>
      f ≠ 0 ∧ match l' with
              | [] => load 8 m f = 0
              | g :: _ => load 8 m f = g ∧ frame_chain m l'
              end
  end.

(** The line a frame gets: its return address, named by the first symbol that
    covers it. *)
Definition line_of (s : machine) (f : Z) : trace_line :=
  let ret := load 8 (memory s) (f + 8) in
  let sym := if ret =? 0 then 0 else
    symbol_for (memory s) (globals s g_symStart) (Z.to_nat (globals s g_symn)) ret in
  TraceLine ret (if sym =? 0 then 0 else u64 (load 4 (memory s) sym + globals s g_strBase))
    (frame_items f (load 8 (memory s) f)).

Lemma trace_frame_ok f s : trace_frame f s = Ok (line_of s f, load 8 (memory s) f) s.
Proof.
  unfold trace_frame, line_of. mstep. rewrite (bind_ok _ _ _ _ _ (getSymbol_ok _ _)).
  set (sym := if _ =? 0 then 0 else _). by destruct (sym =? 0).
Qed.

Lemma trace_step_ok f lines s : f ≠ 0 →
  trace_step (f, lines) s =
  Ok (if load 8 (memory s) f =? 0 then inr (lines ++ [line_of s f])
      else inl (load 8 (memory s) f, lines ++ [line_of s f])) s.
Proof.
  intros Hf. unfold trace_step. rewrite eqb_false by done.
  by rewrite (bind_ok _ _ _ _ _ (trace_frame_ok _ _)).
Qed.

Lemma trace_loop f l s : ∀ steps acc,
  frame_chain (memory s) (f :: l) → (length l < steps)%nat →
  iter steps trace_step (f, acc) s = Ok (acc ++ (line_of s <$> f :: l)) s.
Proof.
  revert f. induction l as [|g l IH]; intros f [|steps] acc [Hf Hc] Hn;
    cbn [length] in Hn; try lia; cbn [iter];
    rewrite (bind_ok _ _ _ _ _ (trace_step_ok _ _ _ Hf)); cbv beta iota.
  - by rewrite Hc.
  - destruct Hc as [Hg Hc]. rewrite Hg. pose proof (proj1 Hc) as Hg0. rewrite eqb_false by done.
    rewrite IH by (done || lia). by rewrite <- app_assoc.
Qed.

(** C19: On a chain of frames [stackTrace] ends after one round per frame and prints
    them innermost first, each return address under its symbol. *)
Theorem stackTrace_chain steps f l s :
  frame_chain (memory s) (f :: l) → (length l < steps)%nat →
  stackTrace steps f s = Ok (line_of s <$> (f :: l)) s.
Proof. unfold stackTrace. intros Hc Hn. exact (trace_loop f l s steps [] Hc Hn). Qed.

(** ** Witnesses *)

(** Two symbols at 0x1000: [value] 0x400, size 0x20, and 0x500, size 0x10; frames
    at 0x2000 and 0x2040 that return to 0x410 and 0x505. *)
Definition sym_bytes (name value size : Z) (m : gmap Z Z) (a : Z) : gmap Z Z :=
  store 8 (store 8 (store 1 (store 4 m a name) (a + 4) 2) (a + 8) value) (a + 16) size.
Definition trace_machine : machine :=
  set_global g_symStart 0x1000 (set_global g_symn 2 (set_global g_strBase 0x3000 (set_memory
    (store 8 (store 8 (store 8 (store 8
      (sym_bytes 5 0x500 0x10 (sym_bytes 1 0x400 0x20 ∅ 0x1000) 0x1018)
      0x2000 0x2040) 0x2008 0x410) 0x2040 0) 0x2048 0x505) machine0))).

Lemma getSymbol_first_witness :
  let base := globals trace_machine g_symStart in
  let sym i := read_sym (memory trace_machine) (base + 24 * i) in
  ∃ r, getSymbol 0x505 trace_machine = Ok r trace_machine ∧
    ((0x505 ≠ 0 ∧ ∃ i, 0 <= i < globals trace_machine g_symn ∧ r = base + 24 * i ∧ covers (sym i) 0x505 ∧
           ∀ j, 0 <= j < i → ¬ covers (sym j) 0x505) ∨
     (r = 0 ∧ (0x505 = 0 ∨ ∀ j, 0 <= j < globals trace_machine g_symn → ¬ covers (sym j) 0x505))).
Proof. exact (getSymbol_first 0x505 trace_machine). Defined.

Lemma stackTrace_chain_witness :
  stackTrace 2 0x2000 trace_machine =
    Ok (line_of trace_machine <$> [0x2000; 0x2040]) trace_machine.
Proof.
  apply (stackTrace_chain 2 0x2000 [0x2040] trace_machine); [|simpl; lia].
  split; [done|]. split; [by vm_compute|]. split; [done|by vm_compute].
Defined.
