(* ===== verification/Faults.v ===== *)
(** * gp.c and pf.c: what the fault handlers report

    The two handlers decode the error code and the page table entry into lines
    of text; FaultHandlers.v has the rest of them.  A report is the list of the
    strings they print in order, with the values of their conversions.  [page] is
    what [getPageInfo] returned for the faulting address. *)

From S2P Require Import Prelude Kmonad Mem Paging.

Definition report := list (string * list Z).
Definition line (t : string) : report := [(t, [])].
Definition line1 (t : string) (v : Z) : report := [(t, [v])].

(** The flag bits of a page table entry that only pf.c tests. *)
Definition PG_ACCESSED : Z := 2 ^ 5.
Definition PG_DIRTY : Z := 2 ^ 6.
Definition PG_GLOBAL : Z := 2 ^ 8.

(** ** generalProtectionFault *)

(** The part of the report that the error code decides. *)
Definition gp_report (ec : Z) : report :=
  line1 "Error Code: 0x%llx" ec ++
  if ec =? 0 then line "Fault cause by non-segment related issue"
  else
    line "Fault occured " ++
    (if has ec 1 then line "externally in " else line "locally in ") ++
    (let table := Z.land (Z.shiftr ec 1) 3 in
     if table =? 0 then line "GDT"
     else if (table =? 3) || (table =? 1) then line "IDT"
     else line "LDT") ++
    line1 " entry #0x%x" (Z.land (u32 (Z.shiftr ec 3)) 0x1FFF).

(** ** pageFault *)

(** The error code bits, as the [uint8_t] variables hold them. *)
Record pf_code := PfCode { present : Z; write : Z; user : Z; resv : Z; fetch : Z }.
Definition pf_decode (ec : Z) : pf_code :=
  PfCode (Z.land ec 1) (Z.land ec 2) (Z.land ec 4) (Z.land ec 8) (Z.land ec 16).

Definition pf_flags (page : Z) : report :=
  line (if has page PG_PRESENT then "P" else "-") ++
  line (if has page PG_WRITE then "W" else "R") ++
  line (if has page PG_USER then "U" else "S") ++
  line (if has page PG_PWT then "T" else "-") ++
  line (if has page PG_PCD then "C" else "-") ++
  line (if has page PG_ACCESSED then "A" else "-") ++
  line (if has page PG_DIRTY then "D" else "-") ++
  line (if has page PG_GLOBAL then "G" else "-") ++
  line (if has page PG_PAT then "O" else "-") ++
  line (if has page PG_NX then "-" else "X").

(** The lines after [cause:]. *)
Definition pf_cause (c : pf_code) (page : Z) : report :=
  line "Cause: " ++
  if negb (resv c =? 0) then line "Wrote 1 to reserved bit(s)"
  else if page =? 0 then line "Non-existent page"
  else if present c =? 0 then
    line (if negb (write c =? 0) then "Wrote to " else "Read from ") ++ line "unmapped page"
  else if negb (write c =? 0) && negb (has page PG_WRITE) then line "Wrote to read-only page"
  else if negb (fetch c =? 0) then line "Instruction fetch"
  else [].

Definition pf_report (ec cr3 faultAddr rip page : Z) : report :=
  let c := pf_decode ec in
  line1 "ADDR=0x%lx" faultAddr ++ line1 "CR3=0x%lx" cr3 ++ line "CPL=" ++
  line (if user c =? 0 then "Supervisor" else "User") ++
  (if page =? 0 then line "Page not found in cr3"
   else line1 "RAW=0x%lx" page ++ line1 "PHYS=0x%lx" (TABLE_BASE page) ++
        line1 "RIP=0x%lx" rip ++ line "FLAGS=" ++ pf_flags page ++ line "") ++
  pf_cause c page.

(** ** What the reports say *)

Lemma has_pow2 w n : 0 <= n → has w (2 ^ n) = Z.testbit w n.
Proof. intros Hn. unfold has. rewrite land_pow2_zero by done. apply negb_involutive. Qed.

(** A fault gets no cause in exactly one case: a data read, or a write to a
    writable page, that a present entry did not allow. *)
Theorem pf_no_cause ec page :
  pf_cause (pf_decode ec) page = line "Cause: " ↔
  Z.testbit ec 3 = false ∧ page ≠ 0 ∧ Z.testbit ec 0 = true ∧ Z.testbit ec 4 = false ∧
  (Z.testbit ec 1 = false ∨ Z.testbit page 1 = true).
Proof.
  unfold pf_cause, pf_decode. cbn [resv present write fetch].
  change (negb (Z.land ec 8 =? 0)) with (has ec (2 ^ 3)).
  change (negb (Z.land ec 2 =? 0)) with (has ec (2 ^ 1)).
  change (negb (Z.land ec 16 =? 0)) with (has ec (2 ^ 4)).
  change (Z.land ec 1) with (Z.land ec (2 ^ 0)).
  unfold PG_WRITE. rewrite !has_pow2, land_pow2_zero by lia.
  destruct (Z.eqb_spec page 0), (Z.testbit ec 3), (Z.testbit ec 0), (Z.testbit ec 1),
    (Z.testbit ec 4), (Z.testbit page 1); cbn; naive_solver.
Qed.
