(* ===== verification/Timer.v ===== *)
(** * timer.c: the queue of timer events

    The queue is an array of [timerEvent] kept as a heap-shaped tree; indices
    are [uint32_t].  Callbacks are called through a parameter; the calls of
    [timer.set] are recorded in the state, last one first. *)

From S2P Require Import Prelude Kmonad Mem.

Record timerEvent := Event { ev_ns : Z; ev_id : Z; ev_callback : Z }.
Definition no_event : timerEvent := Event 0 0 0.

Record timers := Timers {
  tm_type : Z; tm_set : Z;            (* struct timerInfo timer *)
  tm_next : Z; tm_qsize : Z;
  tm_queue : list timerEvent;
  tm_armed : list Z                   (* arguments of the calls of timer.set *)
}.
Definition with_queue (q : list timerEvent) (s : timers) : timers :=
  Timers (tm_type s) (tm_set s) (tm_next s) (tm_qsize s) q (tm_armed s).
Definition with_next (n : Z) (s : timers) : timers :=
  Timers (tm_type s) (tm_set s) n (tm_qsize s) (tm_queue s) (tm_armed s).
Definition with_info (type set : Z) (s : timers) : timers :=
  Timers type set (tm_next s) (tm_qsize s) (tm_queue s) (tm_armed s).

Definition TIMER_TYPE_DEADLINE : Z := 0.
Definition TIMER_TYPE_LAPIC : Z := 1.
Definition TIMER_TYPE_HPET : Z := 2.
Definition TIMER_TYPE_PIT : Z := 0xFF.

(** The macros; [TIMER_PARENT] is only used with a conditional expression, whose
    branches it does not parenthesise: the shift binds to the second branch. *)
Definition TIMER_PARENT_cond (b : bool) (x y : Z) : Z :=
  u32 ((if b then x else Z.shiftr y 1) - 1).
Definition TIMER_RIGHT_ENTRY (e : Z) : Z := u32 (u32 (Z.shiftl e 1) + 2).
Definition TIMER_LEFT_ENTRY (e : Z) : Z := u32 (u32 (Z.shiftl e 1) + 1).

Section timer.
(** Calling a callback with its argument. *)
Variable call : Z → Z → M timers unit.
(** The address of [queue[i]]. *)
Variable queue_addr : Z → Z.

Definition queue_get (i : Z) : M timers timerEvent := q ← gets tm_queue; array_get q i.
Definition queue_set (i : Z) (e : timerEvent) : M timers unit :=
q ← gets tm_queue; q' ← array_set q i e; modify (with_queue q').

(** [timer.set(ns)] *)
Definition timer_set (ns : Z) : M timers unit :=
s ← get;
if tm_set s =? 0 then fail WildCall
else put (Timers (tm_type s) (tm_set s) (tm_next s) (tm_qsize s) (tm_queue s) (ns :: tm_armed s)).

(** One round of the loop at [lp]; its [goto lp] is unconditional. *)
Definition resort_step (st : Z * Z) : M timers (Z * Z + Z) :=
let '(idx, l) := st in
left_ ← queue_get (TIMER_LEFT_ENTRY idx);
right_ ← queue_get (TIMER_RIGHT_ENTRY idx);
let p := if ev_ns right_ <=? ev_ns left_ then TIMER_LEFT_ENTRY idx else TIMER_RIGHT_ENTRY idx in
let l := if p <? l then p else l in
e ← queue_get idx;
c ← queue_get p;
_ ← queue_set idx (Event (ev_ns c) (ev_id e) (ev_callback c));
mret (inl (p, l)).

Definition resortTree (fuel : nat) : M timers unit :=
next ← gets tm_next;
e ← queue_get 0;
l ← (if ev_ns e =? 0 then iter fuel resort_step (0, next) else mret next);
modify (with_next l).

(** One round of the loop of [timerEnd]; it leaves with [true] at the end of the tree. *)
Definition decrement_step (dec i : Z) : M timers (Z + bool) :=
next ← gets tm_next;
if i <? next then
  e ← queue_get i;
  if ev_ns e =? 0 then mret (inr true)
  else
    let ns := u64 (ev_ns e - dec) in
    _ ← queue_set i (Event ns (ev_id e) (ev_callback e));
    _ ← (if ns =? 0 then
           _ ← call (ev_callback e) (ev_id e);
           e ← queue_get i;
           queue_set i (Event (ev_ns e) (ev_id e) 0)
         else mret tt);
    mret (inl (u32 (i + 1)))
else mret (inr false).

Definition timerEnd (fuel : nat) : M timers unit :=
e ← queue_get 0;
let dec := ev_ns e in
_ ← call (ev_callback e) (queue_addr 0);
e ← queue_get 0;
_ ← queue_set 0 (Event 0 (ev_id e) (ev_callback e));
stop ← iter fuel (decrement_step dec) 1;
if stop : bool then mret tt
else
  _ ← resortTree fuel;
  e ← queue_get 0;
  timer_set (ev_ns e).

Definition registerTimer (type set : Z) : M timers unit :=
s ← get; if tm_type s <? type then mret tt else modify (with_info type set).

(** The swaps of [addTimerEvent]; [next] does not change in the loop. *)
Definition sift_step (st : Z * Z) : M timers (Z * Z + unit) :=
let '(v, p) := st in
ev ← queue_get v;
ep ← queue_get p;
if ev_ns ev <? ev_ns ep then
  _ ← queue_set p (Event (ev_ns ev) (ev_id ep) (ev_callback ev));
  e ← queue_get v;
  _ ← queue_set v (Event (ev_ns ep) (ev_id e) (ev_callback ep));
  next ← gets tm_next;
  mret (inl (p, TIMER_PARENT_cond (next mod 2 =? 0) p (u32 (p - 1))))
else mret (inr tt).

Definition addTimerEvent (fuel : nat) (ns id callback : Z) : M timers unit :=
if ns =? 0 then call callback id
else
  next ← gets tm_next;
  _ ← queue_set next (Event ns id callback);
  let p := TIMER_PARENT_cond (next mod 2 =? 0) next (u32 (next - 1)) in
  e ← queue_get next;
  ep ← queue_get p;
  _ ← (if ev_ns ep <=? ev_ns e then mret tt else iter fuel sift_step (next, p));
  iter fuel (λ n, e ← queue_get n; mret (if ev_ns e =? 0 then inr n else inl (u32 (n + 1))))
    (u32 (next + 1)) ≫= λ n, modify (with_next n).

(** The queue is 100 zeroed events. *)
Definition initTimers : M timers unit :=
s ← get; put (Timers (tm_type s) (tm_set s) 0 100 (replicate 100 no_event) (tm_armed s)).
End timer.

(** ** Properties *)

Section props.
Variable call : Z → Z → M timers unit.
Variable queue_addr : Z → Z.

Lemma queue_get_in i x s : nthZ (tm_queue s) i = Some x → queue_get i s = Ok x s.
Proof. intros H. unfold queue_get. mstep. unfold array_get. by rewrite H. Qed.
Lemma queue_get_out i s : nthZ (tm_queue s) i = None → queue_get i s = Fault OutOfBounds.
Proof. intros H. unfold queue_get. mstep. unfold array_get. by rewrite H. Qed.
Lemma queue_set_in i x e s :
nthZ (tm_queue s) i = Some x → queue_set i e s = Ok tt (with_queue (updZ (tm_queue s) i e) s).
Proof. intros H. unfold queue_set. mstep. unfold array_set. by rewrite H. Qed.

(** The first event that is queued has the parent index 2^32 - 1: no event can
    ever be added to the queue that [initTimers] made. *)
Theorem addTimerEvent_first_faults fuel ns id cb s :
tm_next s = 0 → Z.of_nat (length (tm_queue s)) < 2 ^ 32 → ns ≠ 0 →
addTimerEvent call fuel ns id cb s = Fault OutOfBounds.
Proof.
intros Hn Hl Hns. unfold addTimerEvent. rewrite eqb_false by done. mstep. rewrite Hn.
destruct (nthZ (tm_queue s) 0) as [x|] eqn:E.
- rewrite (bind_ok _ _ _ _ _ (queue_set_in _ _ _ _ E)). cbv zeta.
  set (s1 := with_queue _ s). pose proof (nthZ_Some _ _ _ E).
  assert (nthZ (tm_queue s1) 0 = Some (Event ns id cb)) as E1 by (apply nthZ_updZ_eq; lia).
  rewrite (bind_ok _ _ _ _ _ (queue_get_in _ _ _ E1)).
  apply bind_fault, queue_get_out, nthZ_None. cbn [tm_queue s1 with_queue].
  rewrite length_updZ. change (TIMER_PARENT_cond _ _ _) with (2 ^ 32 - 1). lia.
- apply bind_fault. unfold queue_set. mstep. unfold array_set. by rewrite E.
Qed.

(** A step of the resort goes at least one index down or leaves the array. *)
Lemma resort_step_down idx l s :
0 <= idx < Z.of_nat (length (tm_queue s)) → Z.of_nat (length (tm_queue s)) < 2 ^ 30 →
resort_step (idx, l) s = Fault OutOfBounds ∨
∃ p l' s', resort_step (idx, l) s = Ok (inl (p, l')) s' ∧ idx < p < Z.of_nat (length (tm_queue s'))
  ∧ length (tm_queue s') = length (tm_queue s).
Proof.
intros Hi Hl.
assert (TIMER_LEFT_ENTRY idx = 2 * idx + 1) as EL.
{ unfold TIMER_LEFT_ENTRY. rewrite Z.shiftl_mul_pow2 by lia. rewrite (u32_id (_ * _)) by lia. rewrite u32_id by lia. lia. }
assert (TIMER_RIGHT_ENTRY idx = 2 * idx + 2) as ER.
{ unfold TIMER_RIGHT_ENTRY. rewrite Z.shiftl_mul_pow2 by lia. rewrite (u32_id (_ * _)) by lia. rewrite u32_id by lia. lia. }
unfold resort_step. rewrite EL, ER.
destruct (nthZ (tm_queue s) (2 * idx + 1)) as [x|] eqn:E1;
  [rewrite (bind_ok _ _ _ _ _ (queue_get_in _ _ _ E1))|left; by apply bind_fault, queue_get_out].
destruct (nthZ (tm_queue s) (2 * idx + 2)) as [y|] eqn:E2;
  [rewrite (bind_ok _ _ _ _ _ (queue_get_in _ _ _ E2))|left; by apply bind_fault, queue_get_out].
right. cbv zeta. set (p := if ev_ns y <=? ev_ns x then _ else _).
pose proof (nthZ_Some _ _ _ E1). pose proof (nthZ_Some _ _ _ E2).
assert (idx < p < Z.of_nat (length (tm_queue s))) as Hp by (subst p; case_match; lia).
destruct (nthZ_is_Some (tm_queue s) idx Hi) as [e Ee].
destruct (nthZ_is_Some (tm_queue s) p ltac:(lia)) as [c Ec].
rewrite (bind_ok _ _ _ _ _ (queue_get_in _ _ _ Ee)), (bind_ok _ _ _ _ _ (queue_get_in _ _ _ Ec)).
rewrite (bind_ok _ _ _ _ _ (queue_set_in _ _ _ _ Ee)).
eexists _, _, _. split; [reflexivity|]. cbn [tm_queue with_queue]. rewrite length_updZ. lia.
Qed.

Lemma resort_runs_off n fuel idx l s :
0 <= idx < Z.of_nat (length (tm_queue s)) → Z.of_nat (length (tm_queue s)) < 2 ^ 30 →
Z.of_nat (length (tm_queue s)) - idx <= Z.of_nat n → (n <= fuel)%nat →
iter fuel resort_step (idx, l) s = Fault OutOfBounds.
Proof.
revert fuel idx l s. induction n as [|n IH]; intros [|fuel] idx l s Hi Hl Hn Hf; try lia.
cbn [iter]. destruct (resort_step_down idx l s Hi Hl) as [E|(p & l' & s' & E & Hp & Hs)].
- by apply bind_fault.
- rewrite (bind_ok _ _ _ _ _ E). apply IH; lia.
Qed.

(** When the timer interrupt ends the last event, [timerEnd] does not set the
    next timer: the resort climbs down past the end of the queue. *)
Theorem timerEnd_last_event_runs_off fuel e s :
nthZ (tm_queue s) 0 = Some e → Z.of_nat (length (tm_queue s)) < 2 ^ 30 → tm_next s <= 1 →
call (ev_callback e) (queue_addr 0) s = Ok tt s → (length (tm_queue s) <= fuel)%nat →
timerEnd call queue_addr fuel s = Fault OutOfBounds.
Proof.
intros He Hl Hn Hcall Hf. pose proof (nthZ_Some _ _ _ He) as Hr. unfold timerEnd.
rewrite (bind_ok _ _ _ _ _ (queue_get_in _ _ _ He)), (bind_ok _ _ _ _ _ Hcall).
rewrite (bind_ok _ _ _ _ _ (queue_get_in _ _ _ He)).
rewrite (bind_ok _ _ _ _ _ (queue_set_in _ _ _ _ He)).
set (s1 := with_queue _ s).
assert (iter fuel (decrement_step call (ev_ns e)) 1 s1 = Ok false s1) as Ed.
{ destruct fuel; [lia|]. cbn [iter]. erewrite bind_ok; [|unfold decrement_step; mstep;
    rewrite ltb_false by (cbn; lia); reflexivity]. done. }
rewrite (bind_ok _ _ _ _ _ Ed). apply bind_fault. unfold resortTree. mstep.
assert (nthZ (tm_queue s1) 0 = Some (Event 0 (ev_id e) (ev_callback e))) as E1
  by (apply nthZ_updZ_eq; lia).
rewrite (bind_ok _ _ _ _ _ (queue_get_in _ _ _ E1)). cbn [ev_ns Z.eqb].
assert (length (tm_queue s1) = length (tm_queue s)) as El by apply length_updZ.
apply bind_fault, (resort_runs_off (length (tm_queue s1))); lia.
Qed.
End props.

(** ** Witnesses *)

Definition timers0 : timers := Timers 0xFF 7 0 100 (replicate 100 no_event) [].
Definition ignore_call (f a : Z) : M timers unit := mret tt.

Lemma addTimerEvent_first_faults_witness :
  addTimerEvent ignore_call 200 5000 1 9 timers0 = Fault OutOfBounds.
Proof. apply (addTimerEvent_first_faults ignore_call 200 5000 1 9 timers0); simpl; lia. Defined.

(** One event of 50 ns at the root. *)
Definition timers1 : timers := with_next 1 (with_queue (updZ (replicate 100 no_event) 0 (Event 50 1 9)) timers0).

Lemma timerEnd_last_event_runs_off_witness :
  timerEnd ignore_call (λ i, 0x4000 + 24 * i) 100 timers1 = Fault OutOfBounds.
Proof.
  apply (timerEnd_last_event_runs_off ignore_call (λ i, 0x4000 + 24 * i) 100 (Event 50 1 9) timers1);
    done || simpl; lia.
Defined.
