(* ===== verification/Ramdisk.v ===== *)
(** * ramdisk.c: the ramdisk image, its builder and its driver

    [src/Ramdisk/ramdisk.c] writes the image on the build host; the kernel's
    ramdisk.c parses it in memory and registers every file with the virtual
    file system, which it sees through the interface [VfsOps].  The image is a
    6-byte header and, for every file, a 12-byte header, the name with its
    terminator and the contents. *)

From S2P Require Import Prelude Kmonad Mem Libc Heap.

(** What vfs.c offers to a driver: parent, name, phys, size, flags; and type,
    childCount, letter, flags, read function. *)
Class VfsOps := {
  addVFSFile : Z → Z → Z → Z → Z → M machine bool;
  mountVFS : Z → Z → Z → Z → Z → M machine Z
}.

(** ** ramdisk.h *)

Definition RD_FILE_MAGIC : Z := 0x5244464C.
Definition RD_HEADER_MAGIC : Z := 0x52444852.
Definition sizeof_ramdiskHeader : Z := 6.
Definition sizeof_ramdiskFile : Z := 12.
Definition RD_FILE_DATA (fl nlen : Z) : Z := u64 (fl + sizeof_ramdiskFile + nlen + 1).
Definition RD_FILE_NAME (fl : Z) : Z := u64 (fl + sizeof_ramdiskFile).
Definition RD_NEXT_FILE (fl fsz nlen : Z) : Z := u64 (fl + fsz + nlen + 1 + sizeof_ramdiskFile).

(** ** The builder *)

(** The little-endian bytes [fwrite] puts in the file. *)
Fixpoint le_bytes (n : nat) (v : Z) : list Z :=
  match n with O => [] | S n' => u8 v :: le_bytes n' (v / 256) end.

(** A file of the source tree: its path and its contents, as bytes. *)
Record host_file := HostFile { hf_path : list Z; hf_data : list Z }.

(** The file being written and [header.files]. *)
Record builder := Builder { b_files : Z; b_disk : list Z }.

(** The last component of a path: the loop goes down from the terminator to the
    last separator, and before the start of the path when there is none. *)
Fixpoint skip_name (rpath name : list Z) : option (list Z) :=
  match rpath with
  | [] => None
  | c :: r => if (c =? 92) || (c =? 47) then Some name else skip_name r (c :: name)
  end.
Definition file_name (path : list Z) : option (list Z) := skip_name (rev path) [].

(** [copyFile]: [sz] characters, as [char]s. *)
Definition copyFile (src : list Z) : list Z := u8 <$> src.

(** [addFile] for an entry of type FTW_F. *)
Definition addFile (f : host_file) (b : builder) : option builder :=
  match file_name (hf_path f) with
  | Some name =>
      Some (Builder (u16 (b_files b + 1))
              (b_disk b ++ le_bytes 4 RD_FILE_MAGIC ++ le_bytes 8 (Z.of_nat (length (hf_data f)))
                 ++ name ++ [0] ++ copyFile (hf_data f)))
  | None => None
  end.

Fixpoint add_files (fs : list host_file) (b : builder) : option builder :=
  match fs with
  | [] => Some b
  | f :: fs' => match addFile f b with Some b' => add_files fs' b' | None => None end
  end.

(** [main]: a zero header, the files, then the header again. *)
Definition build (fs : list host_file) : option (list Z) :=
  match add_files fs (Builder 0 (le_bytes 4 0 ++ le_bytes 2 0)) with
  | Some b => Some (le_bytes 4 RD_HEADER_MAGIC ++ le_bytes 2 (b_files b)
                    ++ drop (Z.to_nat sizeof_ramdiskHeader) (b_disk b))
  | None => None
  end.

(** ** The driver *)

Definition VFS_FLAG_NO_UNLOAD : Z := Z.shiftl 1 2.
Definition VFS_MOUNT_RAM : Z := 0.

Section driver.
Context `{VmemPhysOps} `{VfsOps}.
(** Iterations for strings and files, and the address of [ramdiskReadFile]. *)
Variables (fuel : nat) (ramdiskReadFile_addr : Z).

(** One file; the loop variables are [i], [file] and [physPtr].  The size that
    advances [physPtr] is read after [file] has moved on. *)
Definition load_file (master mount : Z) (st : Z * Z * Z) : M machine (Z * Z * Z + unit) :=
let '(i, file, physPtr) := st in
files ← ld 2 (master + 4);
if i <? files then
  magic ← ld 4 file;
  if negb (magic =? RD_FILE_MAGIC) then mret (inr tt)
  else
    let name := RD_FILE_NAME file in
    len ← strlen fuel name;
    let len := u32 len in
    size ← ld 8 (file + 4);
    _ ← addVFSFile mount name (RD_FILE_DATA physPtr len) (u32 size) VFS_FLAG_NO_UNLOAD;
    size ← ld 8 (file + 4);
    let file := RD_NEXT_FILE file size len in
    size ← ld 8 (file + 4);
    mret (inl (u32 (i + 1), file, RD_NEXT_FILE physPtr size len))
else mret (inr tt).

Definition initRamdisk (vtype_file vflag_make rdptr rdsz : Z) : M machine unit :=
virtPtr ← vmallocPhys rdptr rdsz vtype_file vflag_make;
_ ← gwrite g_ramdiskVbase virtPtr;
_ ← gwrite g_ramdiskPbase rdptr;
_ ← kassert (negb (virtPtr =? 0)) "Failed to allocate virt space for ramdisk";
magic ← ld 4 virtPtr;
if negb (magic =? RD_HEADER_MAGIC) then mret tt
else
  files ← ld 2 (virtPtr + 4);
  mount ← mountVFS VFS_MOUNT_RAM files 82 VFS_FLAG_NO_UNLOAD ramdiskReadFile_addr;
  if mount =? 0 then mret tt
  else iter fuel (load_file virtPtr mount)
         (0, u64 (virtPtr + sizeof_ramdiskHeader), u64 (rdptr + sizeof_ramdiskHeader)).

(** [ramdiskReadFile]: the size asked for is not used.  [vfsFile] has [phys] at
    16 and [size] (4 bytes) at 24. *)
Definition ramdiskReadFile (sz fl offset dst : Z) : M machine Z :=
phys ← ld 8 (fl + 16);
pbase ← gread g_ramdiskPbase;
vbase ← gread g_ramdiskVbase;
let s := u64 (phys - pbase + vbase + offset) in
iter fuel (λ rin,
  size ← ld 4 (fl + 24);
  if u64 (offset + rin) <? size then
    b ← ld 1 (s + rin);
    _ ← st 1 (dst + rin) b;
    mret (inl (u64 (rin + 1)))
  else mret (inr rin)) 0.
End driver.

(** ** Bytes in memory *)

(** The bytes [l] are at [a]. *)
Definition holds (m : gmap Z Z) (a : Z) (l : list Z) : Prop :=
  ∀ i x, l !! i = Some x → mbyte m (a + Z.of_nat i) = x.

Lemma holds_app m a l1 l2 :
  holds m a (l1 ++ l2) ↔ holds m a l1 ∧ holds m (a + Z.of_nat (length l1)) l2.
Proof.
  split.
  - intros H. split; intros i x Hi; [by apply H, lookup_app_l_Some|].
    replace (a + Z.of_nat (length l1) + Z.of_nat i) with (a + Z.of_nat (length l1 + i)) by lia.
    apply H. by rewrite lookup_app_r, Nat.add_sub_swap, Nat.sub_diag by lia.
  - intros [H1 H2] i x [Hi|[Hl Hi]]%lookup_app_Some; [by apply H1|].
    replace (a + Z.of_nat i) with (a + Z.of_nat (length l1) + Z.of_nat (i - length l1)) by lia.
    by apply H2.
Qed.

Lemma holds_cons m a x l : holds m a (x :: l) ↔ mbyte m a = x ∧ holds m (a + 1) l.
Proof.
  change (x :: l) with ([x] ++ l). rewrite holds_app. cbn [length].
  split; intros [H1 H2]; split; try done.
  - specialize (H1 0%nat x eq_refl). by replace (a + Z.of_nat 0) with a in H1 by lia.
  - intros [|i] y Hy; [|by destruct i]. cbn in Hy. replace (a + Z.of_nat 0) with a by lia. congruence.
Qed.

Lemma holds_ext m m' a l :
  (∀ b, a <= b < a + Z.of_nat (length l) → mbyte m' b = mbyte m b) → holds m a l → holds m' a l.
Proof.
  intros H Hl i x Hi. pose proof (lookup_lt_Some _ _ _ Hi). rewrite H by lia. by apply Hl.
Qed.

Lemma length_le_bytes n v : length (le_bytes n v) = n.
Proof. revert v. induction n; intros v; cbn; [done|by f_equal]. Qed.

Lemma load_le_bytes n m a v : holds m a (le_bytes n v) → load n m a = v mod 256 ^ Z.of_nat n.
Proof.
  revert a v. induction n as [|n IH]; intros a v H; [by rewrite Z.mod_1_r|].
  cbn [le_bytes] in H. apply holds_cons in H as [Hb H].
  change (load (S n) m a) with (mbyte m a + 256 * load n m (a + 1)).
  rewrite Hb, (IH _ _ H). unfold u8. rewrite Nat2Z.inj_succ, Z.pow_succ_r by lia.
  rewrite Z.rem_mul_r by lia. change (2 ^ 8) with 256. lia.
Qed.

Lemma holds_cstr m p l : Forall (λ x, 0 < x < 256) l → holds m p (l ++ [0]) → cstr m p l.
Proof.
  intros Hl [H1 H2]%holds_app. apply holds_cons in H2 as [H2 _]. split; [|done].
  intros i x Hi. split; [by apply H1|]. rewrite Forall_lookup in Hl. by eapply Hl.
Qed.

(** ** The image the builder writes *)

(** The bytes of a file of the image. *)
Definition file_bytes (f : list Z * list Z) : list Z :=
  le_bytes 4 RD_FILE_MAGIC ++ le_bytes 8 (Z.of_nat (length f.2)) ++ f.1 ++ [0] ++ copyFile f.2.

Definition image (fs : list (list Z * list Z)) : list Z :=
  (le_bytes 4 RD_HEADER_MAGIC ++ le_bytes 2 (Z.of_nat (length fs))) ++ concat (file_bytes <$> fs).

(** The host file is stored under this name with these contents. *)
Definition stored_as (h : host_file) (f : list Z * list Z) : Prop :=
  file_name (hf_path h) = Some f.1 ∧ hf_data h = f.2.

Lemma add_files_ok hs fs b :
  Forall2 stored_as hs fs → 0 <= b_files b → b_files b + Z.of_nat (length fs) < 2 ^ 16 →
  add_files hs b = Some (Builder (b_files b + Z.of_nat (length fs))
                          (b_disk b ++ concat (file_bytes <$> fs))).
Proof.
  intros H. revert b. induction H as [|h f hs fs [Hn Hd] H IH]; intros b Hb Hl.
  - cbn. rewrite app_nil_r, Z.add_0_r. by destruct b.
  - cbn [add_files length] in *. unfold addFile. rewrite Hn, Hd, u16_id by lia.
    rewrite IH by (cbn; lia). f_equal. cbn [b_files b_disk]. f_equal; [lia|].
    cbn [fmap list_fmap concat]. unfold file_bytes. by rewrite !app_assoc.
Qed.

Lemma build_image hs fs :
  Forall2 stored_as hs fs → Z.of_nat (length fs) < 2 ^ 16 → build hs = Some (image fs).
Proof.
  intros H Hl. unfold build. rewrite (add_files_ok _ fs) by (cbn; lia || done). done.
Qed.

(** ** What the driver registers *)

(** The arguments of a call of [addVFSFile]. *)
Record vfs_entry := VfsEntry { ve_name : Z; ve_phys : Z; ve_size : Z }.

(** For files at offset [off] of an image mapped at [virt] and stored at [phys]:
    the name and the size are those of the image, the address of the data is
    moved by the difference between the sizes of this and of the first file. *)
Fixpoint entries (virt phys first off : Z) (fs : list (list Z * list Z)) : list vfs_entry :=
  match fs with
  | [] => []
  | (n, d) :: fs' =>
      let data := off + 12 + Z.of_nat (length n) + 1 in
      VfsEntry (virt + off + 12) (u64 (phys + data + (Z.of_nat (length d) - first)))
        (u32 (Z.of_nat (length d)))
      :: entries virt phys first (data + Z.of_nat (length d)) fs'
  end.

Section registers.
Context {HV : VmemPhysOps} {HF : VfsOps}.
Variables (fuel : nat) (ramdiskReadFile_addr : Z).

Fixpoint add_all (mount : Z) (es : list vfs_entry) : M machine unit :=
match es with
| [] => mret tt
| e :: es' =>
    _ ← addVFSFile mount (ve_name e) (ve_phys e) (ve_size e) VFS_FLAG_NO_UNLOAD; add_all mount es'
end.

(** The registrations succeed one after the other and leave the image alone. *)
Definition adds_ok (area : Z → Prop) (mount : Z) (s : machine) (es : list vfs_entry) : Prop :=
∀ k, (k <= length es)%nat →
  ∃ s', add_all mount (take k es) s = Ok tt s' ∧ same_on area (memory s) (memory s').

Lemma adds_ok_cons area mount s e es :
adds_ok area mount s (e :: es) →
∃ b s1, addVFSFile mount (ve_name e) (ve_phys e) (ve_size e) VFS_FLAG_NO_UNLOAD s = Ok b s1 ∧
  same_on area (memory s) (memory s1) ∧ adds_ok area mount s1 es.
Proof.
intros H. destruct (H 1%nat ltac:(cbn; lia)) as (s1 & E & Hs). cbn [take add_all] in E.
unfold mbind, M_bind in E. rewrite take_0 in E. cbn [add_all] in E.
destruct (addVFSFile _ _ _ _ _ s) as [b s1'|] eqn:Ea; [|done]. injection E as ->.
exists b, s1. split_and!; [done|done|]. intros k Hk.
destruct (H (S k) ltac:(cbn; lia)) as (s' & E & Hs'). cbn [take add_all] in E.
rewrite (bind_ok _ _ _ _ _ Ea) in E. exists s'. split; [done|].
intros a Ha. by rewrite (Hs' a Ha), (Hs a Ha).
Qed.

Lemma length_file_bytes f :
length (file_bytes f) = (13 + length f.1 + length f.2)%nat.
Proof.
unfold file_bytes, copyFile. rewrite !length_app, !length_le_bytes, length_fmap. cbn. lia.
Qed.

(** The driver can read the name of the file. *)
Definition name_ok (f : list Z * list Z) : Prop :=
Forall (λ x, 0 < x < 256) f.1 ∧ Z.of_nat (length f.1) < 2 ^ 32 ∧ (length f.1 < fuel)%nat.

Lemma u64_add_l a b : u64 (u64 a + b) = u64 (a + b).
Proof. apply Zplus_mod_idemp_l. Qed.

(** What the driver reads of a file at [a]. *)
Lemma file_fields m a f :
holds m a (file_bytes f) → name_ok f → Z.of_nat (length f.2) < 2 ^ 64 →
load 4 m a = RD_FILE_MAGIC ∧ load 8 m (a + 4) = Z.of_nat (length f.2) ∧ cstr m (a + 12) f.1.
Proof.
intros H (Hn & _) Hd. unfold file_bytes in H.
apply holds_app in H as [H1 H]. apply holds_app in H as [H2 H]. rewrite !length_le_bytes in H, H2.
change (Z.of_nat 4) with 4 in H, H2. change (Z.of_nat 8) with 8 in H.
rewrite app_assoc in H. apply holds_app in H as [H3 _]. split_and!.
- apply load_le_bytes in H1. exact H1.
- apply load_le_bytes in H2. rewrite H2. apply Z.mod_small. lia.
- apply holds_cstr; [done|]. by replace (a + 12) with (a + 4 + 8) by lia.
Qed.

(** One round on a file the image holds, when its registration succeeds. *)
Lemma load_file_ok mount virt i n d file physPtr s b s1 :
let next := file + 13 + Z.of_nat (length n) + Z.of_nat (length d) in
holds (memory s) file (file_bytes (n, d)) → name_ok (n, d) → 0 <= file → next < 2 ^ 64 →
0 <= i < load 2 (memory s) (virt + 4) →
addVFSFile mount (file + 12) (RD_FILE_DATA physPtr (Z.of_nat (length n))) (u32 (Z.of_nat (length d)))
  VFS_FLAG_NO_UNLOAD s = Ok b s1 →
same_on (λ a, file <= a < next) (memory s) (memory s1) →
load_file fuel virt mount (i, file, physPtr) s =
Ok (inl (i + 1, next, RD_NEXT_FILE physPtr (load 8 (memory s1) (next + 4)) (Z.of_nat (length n)))) s1.
Proof.
intros next Hf Hname Hfile Hnext Hi Ea Hs.
destruct (file_fields _ _ _ Hf Hname ltac:(cbn; lia)) as (Em & Es & Ec). destruct Hname as (_ & Hn32 & Hnf).
cbn [fst snd] in *. pose proof (load_2_range (memory s) (virt + 4)) as Hr.
assert (load 8 (memory s1) (file + 4) = Z.of_nat (length d)) as Es1.
{ rewrite <- Es. apply (same_on_load _ _ _ _ _ Hs). intros x Hx. lia. }
assert (RD_NEXT_FILE file (Z.of_nat (length d)) (Z.of_nat (length n)) = next) as En.
{ unfold RD_NEXT_FILE, sizeof_ramdiskFile. rewrite u64_id; lia. }
unfold load_file. mstep. rewrite ltb_true by lia. mstep. rewrite Em, Z.eqb_refl. cbn [negb]. cbv zeta.
unfold RD_FILE_NAME, sizeof_ramdiskFile. rewrite (u64_id (file + 12)) by lia.
rewrite (bind_ok _ _ _ _ _ (strlen_spec fuel s _ n Ec ltac:(lia) Hnf)). cbv zeta.
rewrite (u32_id (Z.of_nat (length n))) by lia. mstep. rewrite Es.
rewrite (bind_ok _ _ _ _ _ Ea). mstep. rewrite Es1, En. mstep. by rewrite (u32_id (i + 1)) by lia.
Qed.

(** The size of the file that starts behind [pre]. *)
Lemma next_size m virt pre f rest :
holds m virt (pre ++ concat (file_bytes <$> f :: rest)) → name_ok f → Z.of_nat (length f.2) < 2 ^ 64 →
load 8 m (virt + Z.of_nat (length pre) + 4) = Z.of_nat (length f.2).
Proof.
intros Hh Hn Hl. cbn [fmap list_fmap concat] in Hh. apply holds_app in Hh as [_ Hf]. apply holds_app in Hf as [Hf _].
by destruct (file_fields _ _ _ Hf Hn Hl) as (_ & Es & _).
Qed.

Lemma load_loop_ok mount virt phys first rest pre i physPtr s fuel' :
let img := pre ++ concat (file_bytes <$> rest) in
6 <= Z.of_nat (length pre) → 0 <= virt → virt + Z.of_nat (length img) < 2 ^ 64 →
holds (memory s) virt img → Forall name_ok rest →
0 <= i → load 2 (memory s) (virt + 4) = i + Z.of_nat (length rest) →
match rest with
| [] => True
| f :: _ => physPtr = u64 (phys + Z.of_nat (length pre) + (Z.of_nat (length f.2) - first))
end →
adds_ok (λ a, virt <= a < virt + Z.of_nat (length img)) mount s
  (entries virt phys first (Z.of_nat (length pre)) rest) →
(length rest < fuel')%nat →
iter fuel' (load_file fuel virt mount) (i, virt + Z.of_nat (length pre), physPtr) s =
add_all mount (entries virt phys first (Z.of_nat (length pre)) rest) s.
Proof.
revert pre i physPtr s fuel'. induction rest as [|f rest IH];
  intros pre i physPtr s [|fuel'] img Hpre Hvirt Hfit Hh Hnames Hi Hcount Hphys Hadds Hfuel;
  cbn [length] in *; try lia; cbn [iter].
- erewrite bind_ok; [|unfold load_file; mstep; rewrite Hcount, ltb_false by lia; reflexivity].
  done.
- apply Forall_cons in Hnames as [Hname Hnames]. destruct f as [n d]. cbn [fst snd entries] in *.
  assert (img = (pre ++ file_bytes (n, d)) ++ concat (file_bytes <$> rest)) as Himg
    by (unfold img; cbn [fmap list_fmap concat]; by rewrite app_assoc).
  set (pre' := pre ++ file_bytes (n, d)) in *.
  assert (Z.of_nat (length pre') = Z.of_nat (length pre) + 13 + Z.of_nat (length n) + Z.of_nat (length d)) as Hpre'.
  { unfold pre'. rewrite length_app, length_file_bytes. cbn [fst snd]. lia. }
  assert (Z.of_nat (length img) = Z.of_nat (length pre') + Z.of_nat (length (concat (file_bytes <$> rest)))) as Hlen
    by (rewrite Himg, length_app; lia).
  pose proof Hh as Hf. cbn [fmap list_fmap concat] in Hf. apply holds_app in Hf as [_ Hf].
  apply holds_app in Hf as [Hf _].
  set (e := VfsEntry _ _ _) in *. set (es := entries _ _ _ _ rest) in *.
  destruct (adds_ok_cons _ _ _ _ _ Hadds) as (b & s1 & Ea & Hs1 & Hadds1).
  assert (RD_FILE_DATA physPtr (Z.of_nat (length n)) = ve_phys e) as Ed.
  { unfold e, RD_FILE_DATA, sizeof_ramdiskFile. cbn [ve_phys]. rewrite Hphys.
    rewrite <- !Z.add_assoc, u64_add_l. f_equal. lia. }
  pose proof (load_2_range (memory s) (virt + 4)).
  erewrite bind_ok; [|eapply (load_file_ok _ _ _ n d); [done|done|lia|lia|lia|rewrite Ed; exact Ea|]].
  2:{ intros a Ha. apply Hs1. lia. }
  cbv beta iota. cbn [add_all]. rewrite (bind_ok _ _ _ _ _ Ea).
  assert (holds (memory s1) virt img) as Hh1 by (eapply holds_ext; [|exact Hh]; intros x Hx; by apply Hs1).
  replace (virt + Z.of_nat (length pre) + 13 + Z.of_nat (length n) + Z.of_nat (length d))
    with (virt + Z.of_nat (length pre')) by lia.
  assert (es = entries virt phys first (Z.of_nat (length pre')) rest) as Hes by (unfold es; f_equal; lia).
  rewrite Hes in Hadds1 |- *. rewrite Himg in Hh1, Hadds1. apply IH; try lia; try done.
  + by rewrite <- Himg.
  + rewrite <- (same_on_load _ _ _ _ _ Hs1) in Hcount by (intros; lia). lia.
  + destruct rest as [|f' rest]; [done|].
    apply Forall_cons in Hnames as [Hname' _]. cbn [fmap list_fmap concat] in Hlen.
    rewrite length_app, length_file_bytes in Hlen.
    rewrite (next_size _ _ _ _ _ Hh1 Hname') by lia. unfold RD_NEXT_FILE, sizeof_ramdiskFile. rewrite Hphys.
    rewrite <- !Z.add_assoc, u64_add_l. f_equal. lia.
Qed.

(** The size of the first file, which the driver's addresses are relative to. *)
Definition first_size (fs : list (list Z * list Z)) : Z :=
match fs with f :: _ => Z.of_nat (length f.2) | [] => 0 end.

(** Loading a built image is registering its files. *)
Lemma ramdisk_loads hs fs img virt mount vt vf rdptr rdsz s s1 s2 :
Forall2 stored_as hs fs → Z.of_nat (length fs) < 2 ^ 16 → (length fs < fuel)%nat →
Forall name_ok fs → build hs = Some img →
0 < virt → virt + Z.of_nat (length img) < 2 ^ 64 →
vmallocPhys rdptr rdsz vt vf s = Ok virt s1 → holds (memory s1) virt img →
mountVFS VFS_MOUNT_RAM (Z.of_nat (length fs)) 82 VFS_FLAG_NO_UNLOAD ramdiskReadFile_addr
  (set_global g_ramdiskPbase rdptr (set_global g_ramdiskVbase virt s1)) = Ok mount s2 →
mount ≠ 0 →
same_on (λ a, virt <= a < virt + Z.of_nat (length img)) (memory s1) (memory s2) →
adds_ok (λ a, virt <= a < virt + Z.of_nat (length img)) mount s2
  (entries virt rdptr (first_size fs) 6 fs) →
initRamdisk fuel ramdiskReadFile_addr vt vf rdptr rdsz s =
add_all mount (entries virt rdptr (first_size fs) 6 fs) s2.
Proof.
intros Hst Hl Hf Hn Hb Hv Hfit Hvm Hh Hmount Hm0 Hs2 Hadds.
rewrite (build_image hs fs Hst Hl) in Hb. injection Hb as <-.
set (area := λ a, virt <= a < virt + Z.of_nat (length (image fs))) in *.
assert (6 <= Z.of_nat (length (image fs))) as Hi6.
{ unfold image. rewrite !length_app, !length_le_bytes. lia. }
assert (load 4 (memory s1) virt = RD_HEADER_MAGIC ∧
        load 2 (memory s1) (virt + 4) = Z.of_nat (length fs)) as [Hmagic Hcount].
{ unfold image in Hh. apply holds_app in Hh as [Hh _]. apply holds_app in Hh as [H1 H2].
  rewrite length_le_bytes in H2. apply load_le_bytes in H1, H2. split; [exact H1|].
  change (Z.of_nat 4) with 4 in H2. rewrite H2. apply Z.mod_small. change (256 ^ Z.of_nat 2) with (2 ^ 16). lia. }
unfold initRamdisk. rewrite (bind_ok _ _ _ _ _ Hvm). mstep. mstep.
rewrite eqb_false by lia. cbn [negb kassert]. mstep. mstep. mem.
rewrite Hmagic, Z.eqb_refl. cbn [negb]. mstep. mem. rewrite Hcount.
rewrite (bind_ok _ _ _ _ _ Hmount), eqb_false by done.
unfold sizeof_ramdiskHeader. rewrite (u64_id (virt + 6)) by lia.
assert (Z.of_nat (length (le_bytes 4 RD_HEADER_MAGIC ++ le_bytes 2 (Z.of_nat (length fs)))) = 6) as Hp
  by (rewrite length_app, !length_le_bytes; lia).
rewrite <- Hp at 1 3. unfold image in *.
apply load_loop_ok; rewrite ?Hp; try lia; try done.
- eapply holds_ext; [|exact Hh]. intros b Hb. by apply Hs2.
- rewrite <- Hcount. apply (same_on_load _ _ _ _ _ Hs2). intros x Hx. unfold area. lia.
- destruct fs as [|f fs']; [done|]. cbn [first_size]. f_equal. lia.
Qed.

(** C13: Building an image and loading it: every file of the source tree is
    registered in order, with the address of its own name and its own size;
    the address of its contents is right for the files of the size of the
    first one and off by the difference for the others. *)
Theorem ramdisk_roundtrip hs fs img virt mount vt vf rdptr rdsz s s1 s2 :
Forall2 stored_as hs fs → Z.of_nat (length fs) < 2 ^ 16 → (length fs < fuel)%nat →
Forall name_ok fs → build hs = Some img →
0 < virt → virt + Z.of_nat (length img) < 2 ^ 64 →
vmallocPhys rdptr rdsz vt vf s = Ok virt s1 → holds (memory s1) virt img →
mountVFS VFS_MOUNT_RAM (Z.of_nat (length fs)) 82 VFS_FLAG_NO_UNLOAD ramdiskReadFile_addr
  (set_global g_ramdiskPbase rdptr (set_global g_ramdiskVbase virt s1)) = Ok mount s2 →
mount ≠ 0 →
same_on (λ a, virt <= a < virt + Z.of_nat (length img)) (memory s1) (memory s2) →
adds_ok (λ a, virt <= a < virt + Z.of_nat (length img)) mount s2
  (entries virt rdptr (first_size fs) 6 fs) →
initRamdisk fuel ramdiskReadFile_addr vt vf rdptr rdsz s =
add_all mount (entries virt rdptr (first_size fs) 6 fs) s2.
Proof. apply ramdisk_loads. Qed.
End registers.

(** ** Reading a file *)

(** [ramdiskReadFile] copies everything from the offset to the end of the file
    to the destination, however few bytes were asked for. *)
Theorem ramdiskReadFile_ignores_size fuel sz fl offset dst s :
  let size := load 4 (memory s) (fl + 24) in
  let src := u64 (load 8 (memory s) (fl + 16) - globals s g_ramdiskPbase
                  + globals s g_ramdiskVbase + offset) in
  let n := size - offset in
  0 <= offset <= size → dst + n <= src ∨ src + n <= dst → dst + n <= fl ∨ fl + 32 <= dst →
  n < Z.of_nat fuel →
  wp (ramdiskReadFile fuel sz fl offset dst) (λ r s',
    r = n ∧ globals s' = globals s ∧
    ∀ a, mbyte (memory s') a =
         if decide (dst <= a < dst + n) then mbyte (memory s) (src + (a - dst))
         else mbyte (memory s) a) s.
Proof.
  intros size src n Ho Hd Hfl Hf. unfold ramdiskReadFile. do 6 wp_step. cbv zeta. fold src.
  pose proof (load_4_range (memory s) (fl + 24)) as Hsz. fold size in Hsz.
  apply (wp_iter (λ k rin s', 0 <= rin <= n ∧ Z.of_nat k = n - rin ∧ globals s' = globals s ∧
    ∀ a, mbyte (memory s') a =
         if decide (dst <= a < dst + rin) then mbyte (memory s) (src + (a - dst))
         else mbyte (memory s) a)) with (n := Z.to_nat n); [|split_and!; try lia; try done|lia].
  2:{ intros a. by rewrite decide_False by lia. }
  intros k rin s' (Hr & Hk & Hg & Hm). do 2 wp_step.
  assert (load 4 (memory s') (fl + 24) = size) as ->.
  { apply load_ext. intros i Hi. by rewrite Hm, decide_False by lia. }
  rewrite (u64_id (offset + rin)) by lia. destruct (Z.ltb_spec (offset + rin) size) as [Hlt|Hge].
  - wp_steps. rewrite load_1. exists (k - 1)%nat. rewrite u64_id by lia.
    split_and!; [lia|lia|lia|lia|done|]. intros a. cbn [memory set_memory].
    rewrite mbyte_store_1, !Hm.
    destruct (decide (dst + rin = a)) as [<-|].
    + rewrite decide_False by lia. rewrite decide_True by lia.
      replace (dst + rin - dst) with rin by lia. apply u8_id, mbyte_range.
    + repeat case_decide; done || lia.
  - wp_step. replace n with rin by lia. done.
Qed.

Definition read_machine : machine :=
  set_memory (write_bytes (store 4 (store 8 ∅ (0x100 + 16) 0x2000) (0x100 + 24) 3) 0x2000 [7; 8; 9])
    machine0.

(** One byte asked for, three written. *)
Lemma ramdiskReadFile_ignores_size_witness :
  wp (ramdiskReadFile 10 1 0x100 0 0x3000) (λ r s',
    r = load 4 (memory read_machine) (0x100 + 24) - 0 ∧ globals s' = globals read_machine ∧
    ∀ a, mbyte (memory s') a =
         if decide (0x3000 <= a < 0x3000 + (load 4 (memory read_machine) (0x100 + 24) - 0))
         then mbyte (memory read_machine)
                (u64 (load 8 (memory read_machine) (0x100 + 16)
                      - globals read_machine g_ramdiskPbase
                      + globals read_machine g_ramdiskVbase + 0) + (a - 0x3000))
         else mbyte (memory read_machine) a) read_machine.
Proof.
  assert (load 4 (memory read_machine) (0x100 + 24) = 3) as E1 by by vm_compute.
  assert (load 8 (memory read_machine) (0x100 + 16) = 0x2000) as E2 by by vm_compute.
  apply (ramdiskReadFile_ignores_size 10 1 0x100 0 0x3000 read_machine);
    rewrite ?E1, ?E2; change (u64 (0x2000 - globals read_machine g_ramdiskPbase
      + globals read_machine g_ramdiskVbase + 0)) with 0x2000; lia.
Defined.
