(* ===== verification/Vfs.v ===== *)
(** * vfs.c: mount points, paths and open files

    A mount point is 40 bytes ([header] at 0, [type] at 6, [childCount] at 8,
    [table] at 16, [letter] at 24, [references] at 26, [mfread] at 32), a file 32
    ([header] at 0, [name] at 8, [phys] at 16, [size] at 24, [references] at 28), an
    open file 24 ([file] at 0, [mount] at 8, [fileOffset] at 16); all are on the
    kernel heap behind the interface of [Heap].  Locals whose address is taken
    have a stack slot. *)

From S2P Require Import Prelude Kmonad Mem Libc Heap Hashtable Ramdisk.

Definition VFS_TYPE_MOUNT : Z := 0.
Definition VFS_TYPE_FILE : Z := 1.
Definition VFS_TYPE_DIR : Z := 2.
Definition VFS_TYPE_SYM : Z := 3.
Definition VFS_MOUNT_PHYS : Z := 1.
Definition VFS_SEEK_SET : Z := 0.
Definition VFS_SEEK_END : Z := 1.
Definition VFS_SEEK_CUR : Z := 2.
Definition sizeof_vfsMountpoint : Z := 40.
Definition sizeof_vfsFile : Z := 32.
Definition sizeof_vFILE : Z := 24.

Record vfsFile := VfsFile { vf_type : Z; vf_name : Z; vf_phys : Z; vf_size : Z; vf_references : Z }.
Definition read_file (m : gmap Z Z) (a : Z) : vfsFile :=
  VfsFile (load 2 m a) (load 8 m (a + 8)) (load 8 m (a + 16)) (load 4 m (a + 24)) (load 2 m (a + 28)).

Section vfs.
Context {HO : HeapOps} {HV : VmemPhysOps}.
(** Iterations for strings and chains, the stack slots of [letter] (mountVFS) and
    [header] (parsePath), and the address of the ramdisk's read function. *)
Variables (fuel : nat) (letter_slot header_slot ramdiskReadFile_addr : Z).

(** [mnt->mfread;] reads the field and stores nothing: the argument [mfread] is
    not used.  The key of the mount is the address of the parameter [letter]. *)
Definition mountVFS_ (type childCount letter flags mfread : Z) : M machine Z :=
mnt ← kmalloc sizeof_vfsMountpoint;
table ← hashtableCreate (u16 (if childCount =? 0 then 1 else childCount));
_ ← st 8 (mnt + 16) table;
_ ← st 4 (mnt + 8) 0;
_ ← st 1 (mnt + 24) letter;
_ ← st 1 (mnt + 6) type;
_ ← st 2 mnt VFS_TYPE_MOUNT;
_ ← st 2 (mnt + 2) flags;
_ ← st 2 (mnt + 4) sizeof_vfsMountpoint;
_ ← ld 8 (mnt + 32);
children ← gread g_root_children;
_ ← st 1 letter_slot letter;
_ ← hashtableInsert fuel children mnt letter_slot 1 0 false;
mret mnt.

Definition addVFSFile_ (parent name phys size flags : Z) : M machine bool :=
fl ← kmalloc sizeof_vfsFile;
_ ← st 8 (fl + 8) name;
_ ← st 8 (fl + 16) phys;
_ ← st 4 (fl + 24) size;
_ ← st 2 (fl + 28) 0;
_ ← st 2 fl VFS_TYPE_FILE;
_ ← st 2 (fl + 4) sizeof_vfsFile;
_ ← st 2 (fl + 2) flags;
type ← ld 2 parent;
if type =? VFS_TYPE_MOUNT then
  table ← ld 8 (parent + 16);
  len ← strlen fuel name;
  _ ← hashtableInsert fuel table fl name len 0 false;
  mret true
else mret false.

Definition vfs_ops : VfsOps := {| addVFSFile := addVFSFile_; mountVFS := mountVFS_ |}.

Definition initVFS (vtype_file vflag_make rdptr rdsz : Z) : M machine unit :=
p ← kmalloc (8 * 2);
_ ← gwrite g_mount p;
_ ← gwrite g_root_mounted 0;
children ← hashtableCreate 200;
_ ← gwrite g_root_children children;
_ ← gwrite g_root_childCount 0;
_ ← gwrite g_devices 0;
_ ← gwrite g_slots 1;
@initRamdisk HV vfs_ops fuel ramdiskReadFile_addr vtype_file vflag_make rdptr rdsz.

(** Characters from [base] up to a ['/'] or the end. *)
Definition pathNameLength (str base : Z) : M machine Z :=
iter fuel (λ '(base, i),
  c ← ld 1 (str + base);
  mret (if c =? 0 then inr i
        else if c =? 47 then inr i
        else inl (u32 (base + 1), u32 (i + 1)))) (base, 0).

(** One round after [nxt:]; [inr] is the value returned and that of [*mnt]. *)
Definition path_step (path : Z) (st : Z * Z * Z) : M machine (Z * Z * Z + Z * Z) :=
let '(base, header, mnt) := st in
slen ← pathNameLength path base;
if slen =? 0 then mret (inr (header, mnt))
else
  type ← ld 2 header;
  if type =? VFS_TYPE_MOUNT then
    table ← ld 8 (header + 16);
    let mnt := header in
    found ← hashtableFetch fuel table (path + base) slen header_slot;
    if negb found then mret (inr (0, mnt))
    else
      header ← ld 8 header_slot;
      type ← ld 2 header;
      mret (if type =? VFS_TYPE_FILE then inr (header, mnt)
            else inl (u32 (base + slen + 1), header, mnt))
  else mret (inr (0, mnt)).

(** The result is the structure found and the value of [*mnt], [mnt0] on entry. *)
Definition parsePath (path mnt0 : Z) : M machine (Z * Z) :=
slen ← pathNameLength path 1;
children ← gread g_root_children;
_ ← st 8 header_slot 0;
_ ← hashtableFetch fuel children (path + 1) slen header_slot;
header ← ld 8 header_slot;
if header =? 0 then mret (0, mnt0)
else
  type ← ld 2 header;
  if type =? VFS_TYPE_FILE then mret (header, 0)
  else iter fuel (path_step path) (u32 (1 + (slen + 1)), header, mnt0).

(** [(&mount[i]) != mnt] compares the address of the slot. *)
Definition unmountVFS (mnt : Z) : M machine bool :=
devices ← gread g_devices;
base ← gread g_mount;
found ← iter fuel (λ i,
  if i <? devices then
    if negb (base + 8 * i =? mnt) then mret (inl (u32 (i + 1)))
    else _ ← st 8 (base + 8 * i) 0; mret (inr true)
  else mret (inr false)) 0;
if negb found then mret false
else
  table ← ld 8 (mnt + 16);
  _ ← hashtableDestroy fuel table;
  devices ← gread g_devices;
  _ ← gwrite g_devices (u32 (devices - 1));
  mret true.

(** [mnt] is not initialised: [mnt0] is what its slot held; the new file's
    [fileOffset] is not set. *)
Definition openFile (mnt0 path flags : Z) : M machine Z :=
'(header, mnt) ← parsePath path mnt0;
if header =? 0 then mret 0
else
  type ← ld 2 header;
  if negb (type =? VFS_TYPE_FILE) then mret 0
  else
    fl ← kmalloc sizeof_vFILE;
    _ ← st 8 fl header;
    f ← ld 8 fl;
    r ← ld 2 (f + 28);
    _ ← st 2 (f + 28) (r + 1);
    _ ← st 8 (fl + 8) mnt;
    _ ← (if mnt =? 0 then mret tt
         else r ← ld 2 (mnt + 26); st 2 (mnt + 26) (r + 1));
    mret fl.

Definition closeFile (fl : Z) : M machine unit :=
if fl =? 0 then mret tt
else
  f ← ld 8 fl;
  r ← ld 2 (f + 28);
  _ ← st 2 (f + 28) (r - 1);
  kfree fl.

(** The call through [mfread]: the ramdisk's function is the only driver. *)
Definition call_mfread (mfread sz file offset dst : Z) : M machine Z :=
if mfread =? ramdiskReadFile_addr then ramdiskReadFile fuel sz file offset dst
else fail WildCall.

Definition readFile (fl sz dst : Z) : M machine Z :=
mount ← ld 8 (fl + 8);
if mount =? 0 then mret 0
else
  mfread ← ld 8 (mount + 32);
  file ← ld 8 fl;
  offset ← ld 8 (fl + 16);
  n ← call_mfread mfread sz file offset dst;
  o ← ld 8 (fl + 16);
  _ ← st 8 (fl + 16) (u64 (o + n));
  mret n.

Definition fileSeek (fl offset seek : Z) : M machine Z :=
o ← ld 8 (fl + 16);
file ← ld 8 fl;
size ← ld 4 (file + 24);
let past := size <=? u64 (offset + o) in
if (seek =? VFS_SEEK_CUR) || (seek =? VFS_SEEK_SET) then
  _ ← st 8 (fl + 16) (if past then size else offset); ld 8 (fl + 16)
else if seek =? VFS_SEEK_END then
  _ ← st 8 (fl + 16) (if past then 0 else u64 (size - offset)); ld 8 (fl + 16)
else mret (if offset =? 0 then 1 else 0).
End vfs.

(** ** Properties *)

(** At the end of a file [fileSeek] cannot go back: SEEK_SET and SEEK_CUR leave
    the offset at the end whatever the argument, SEEK_END goes to the start. *)
Theorem fileSeek_at_end fl offset seek s :
  let file := load 8 (memory s) fl in
  let size := load 4 (memory s) (file + 24) in
  load 8 (memory s) (fl + 16) = size → 0 <= offset < 2 ^ 63 → 0 <= seek <= 2 →
  wp (fileSeek fl offset seek) (λ r s',
    r = (if seek =? VFS_SEEK_END then 0 else size) ∧ load 8 (memory s') (fl + 16) = r) s.
Proof.
  intros file size Hcur Ho Hs. pose proof (load_4_range (memory s) (file + 24)) as Hr.
  fold size in Hr. unfold fileSeek. do 6 wp_step. cbv zeta. fold file size. rewrite Hcur.
  rewrite (u64_id (offset + size)), leb_true by lia.
  unfold VFS_SEEK_CUR, VFS_SEEK_SET, VFS_SEEK_END.
  destruct (Z.eqb_spec seek 2); [|destruct (Z.eqb_spec seek 0)]; cbn [orb].
  - rewrite eqb_false by lia. wp_steps. mem. by rewrite u64_id by lia.
  - rewrite eqb_false by lia. wp_steps. mem. by rewrite u64_id by lia.
  - rewrite eqb_true by lia. wp_steps. by mem.
Qed.

Section references.
Context {HO : HeapOps} {HL : HeapLaws}.
Variables (fuel : nat) (header_slot : Z).

(** The three objects an open file consists of lie apart. *)
Lemma open_blocks_apart s L hdr mnt fl :
heap_inv s L → L !! hdr = Some 32 → L !! mnt = Some 40 → L !! fl = Some 24 →
(0 < hdr < 2 ^ 63 ∧ 0 < mnt < 2 ^ 63 ∧ 0 < fl < 2 ^ 63) ∧
(hdr + 32 <= mnt ∨ mnt + 40 <= hdr) ∧ (fl + 24 <= hdr ∨ hdr + 32 <= fl) ∧ (fl + 24 <= mnt ∨ mnt + 40 <= fl).
Proof.
intros HI Hh Hm Hf.
destruct (heap_live _ _ _ _ HI Hh) as (Hh0 & _ & Hh63 & _), (heap_live _ _ _ _ HI Hm) as (Hm0 & _ & Hm63 & _),
  (heap_live _ _ _ _ HI Hf) as (Hf0 & _ & Hf63 & _).
split; [lia|]. split; [|split]; (eapply heap_disjoint; [exact HI|done..|]; intros ->; congruence).
Qed.

(** Writes inside live blocks keep the heap. *)
Lemma heap_inv_writes s s' L :
heap_inv s L → globals s' = globals s →
(∀ a, (∀ p z, L !! p = Some z → a < p ∨ p + z <= a) → mbyte (memory s') a = mbyte (memory s) a) → heap_inv s' L.
Proof.
intros HI Hg Hm. apply (heap_frame s); [done|by rewrite Hg|]. intros a [_ Ha]. apply Hm. intros p z Hpz.
destruct (decide (p <= a < p + z)); [|lia]. destruct Ha. by exists p, z.
Qed.

(** An allocator call leaves what is read from a live block. *)
Lemma load_live n s s' L p z o :
same_on (λ a, owned L a ∨ ¬ arena a) (memory s) (memory s') →
L !! p = Some z → 0 <= o → o + Z.of_nat n <= z → load n (memory s') (p + o) = load n (memory s) (p + o).
Proof.
intros Hs Hp Ho Hn. apply (same_on_load _ _ _ _ _ Hs). intros i Hi. left. exists p, z. split; [done|lia].
Qed.

(** C31: Opening a file and closing it again gives the file its references back and
    keeps the heap well formed, but the mount point has one reference more. *)
Theorem open_close_references mnt0 path flags hdr mnt s s1 L :
parsePath fuel header_slot path mnt0 s = Ok (hdr, mnt) s1 →
load 2 (memory s1) hdr = VFS_TYPE_FILE →
heap_inv s1 L → heap_room s1 sizeof_vFILE →
L !! hdr = Some sizeof_vfsFile → L !! mnt = Some sizeof_vfsMountpoint →
wp (fl ← openFile fuel header_slot mnt0 path flags; closeFile fl) (λ _ s',
  heap_inv s' L ∧
  load 2 (memory s') (hdr + 28) = load 2 (memory s1) (hdr + 28) ∧
  load 2 (memory s') (mnt + 26) = u16 (load 2 (memory s1) (mnt + 26) + 1)) s.
Proof.
intros Hp Ht HI Hroom Hh Hm. unfold sizeof_vfsFile, sizeof_vfsMountpoint in *.
destruct (heap_live _ _ _ _ HI Hh) as (Hh0 & _ & Hh63 & _).
unfold openFile. do 2 wp_step. eapply wp_eq; [exact Hp|]. cbv beta iota.
rewrite eqb_false by lia. wp_step. wp_step. rewrite Ht. change (VFS_TYPE_FILE =? _) with true.
cbn [negb]. wp_step. eapply wp_mono; [by apply kmalloc_spec|].
intros fl s2 (Hnew & HI2 & Hsame & _). cbv beta. unfold sizeof_vFILE in *.
set (L2 := <[fl := 24]> L) in *.
assert (L2 !! fl = Some 24) as Hf by apply lookup_insert_eq.
assert (fl ≠ hdr ∧ fl ≠ mnt) as [Hne1 Hne2] by (split; congruence).
assert (L2 !! hdr = Some 32) as Hh2 by (by unfold L2; rewrite lookup_insert_ne).
assert (L2 !! mnt = Some 40) as Hm2 by (by unfold L2; rewrite lookup_insert_ne).
destruct (open_blocks_apart _ _ _ _ _ HI2 Hh2 Hm2 Hf) as ((_ & Hm0 & Hf0) & Hhm & Hfh & Hfm).
assert (load 2 (memory s2) (hdr + 28) = load 2 (memory s1) (hdr + 28)) as E1 by (by eapply load_live).
assert (load 2 (memory s2) (mnt + 26) = load 2 (memory s1) (mnt + 26)) as E2 by (by eapply load_live).
pose proof (load_2_range (memory s1) (hdr + 28)) as Hr.
set (r0 := load 2 (memory s1) (hdr + 28)) in *. set (q0 := load 2 (memory s1) (mnt + 26)) in *.
do 8 wp_step. cbn [memory set_memory]. mem. rewrite (u64_id hdr) by lia.
rewrite (load_store_ne 8 2 _ fl) by lia. rewrite E1.
do 3 wp_step. rewrite eqb_false by lia.
wp_steps. cbn [memory set_memory]. mem. rewrite E2.
unfold closeFile. rewrite eqb_false by lia.
do 6 wp_step. cbn [memory set_memory]. mem. rewrite (u64_id hdr) by lia. mem.
set (s3 := set_memory _ _).
assert (u16 (u16 (r0 + 1) - 1) = r0) as Eback.
{ unfold u16. rewrite Zminus_mod_idemp_l. rewrite Z.mod_small; lia. }
assert (heap_inv s3 L2) as HI3.
{ apply (heap_inv_writes s2); [done|done|]. intros a Hout. cbn [memory s3 set_memory].
  pose proof (Hout _ _ Hf). pose proof (Hout _ _ Hh2). pose proof (Hout _ _ Hm2).
  by rewrite !mbyte_store_ne by lia. }
eapply wp_mono; [by eapply kfree_spec|]. intros [] s4 (HI4 & Hsame4 & _).
assert (delete fl L2 = L) as EL by (unfold L2; by rewrite delete_insert_id).
rewrite EL in HI4, Hsame4. split_and!; [done|..].
- rewrite (load_live 2 _ _ _ _ _ _ Hsame4 Hh) by lia. cbn [memory s3 set_memory]. by mem.
- rewrite (load_live 2 _ _ _ _ _ _ Hsame4 Hm) by lia. cbn [memory s3 set_memory]. by mem.
Qed.
End references.
