(* ===== verification/VfsPaths.v ===== *)
(** * Directories of the file system

    A mount point whose children are files, as a list of names with the address
    and the fields of the file each was registered with.  Registering files appends
    to the list, a path is resolved by the lookup of the mount's hash table, and
    opening a path after a ramdisk registered its files gives the file of that
    lookup - which cannot be read, since no read function was stored. *)

From S2P Require Import Prelude Kmonad Mem Libc Heap Hashtable HashtableProps HashtableRep Ramdisk Vfs.

(** A name with the address and the fields of its file. *)
Notation dirent := (list Z * (Z * vfs_entry))%type.

(** What [addVFSFile] stores for a file with [refs] references. *)
Definition file_of (e : vfs_entry) (refs : Z) : vfsFile :=
  VfsFile VFS_TYPE_FILE (ve_name e) (u64 (ve_phys e)) (u32 (ve_size e)) refs.
(** The hash table's entries: names and addresses. *)
Definition dir_table (ds : list dirent) : list entry := prod_map id fst <$> ds.
(** The names and the fields. *)
Definition dir_files (ds : list dirent) : list (list Z * vfs_entry) := prod_map id snd <$> ds.

Lemma dir_lookup_table count ds name :
  table_lookup count (dir_table ds) name = fst <$> table_lookup count ds name.
Proof. apply table_lookup_fmap. Qed.
Lemma dir_lookup_files count ds name :
  table_lookup count (dir_files ds) name = snd <$> table_lookup count ds name.
Proof. apply table_lookup_fmap. Qed.

(** What is found is in the list. *)
Lemma table_lookup_in {A} count (es : list (list Z * A)) key d :
  table_lookup count es key = Some d → ∃ k, (k, d) ∈ es.
Proof.
  unfold table_lookup, bucket_of. set (P := λ e : list Z * A, _).
  assert (∀ e, e ∈ filter P es → e ∈ es) as Hin by (intros e [_ He]%list_elem_of_filter; done).
  destruct (filter P es) as [|e [|e' r]]; [done| |]; cbn [chain_lookup].
  - intros [= <-]. exists e.1. rewrite <- surjective_pairing. apply Hin. left.
  - intros ([k d'] & Hf & ->)%fmap_Some. apply find_some in Hf as [Hf _]. apply list_elem_of_In in Hf.
    exists k. apply Hin. by right.
Qed.

Lemma cstr_bytes m p l : cstr m p l → bytes_at m p (length l) = l.
Proof.
  intros [H _]. apply list_eq. intros i. destruct (l !! i) as [x|] eqn:E.
  - pose proof (lookup_lt_Some _ _ _ E). rewrite bytes_at_lookup by done. f_equal. by apply (H i x).
  - apply lookup_ge_None in E. apply lookup_ge_None. by rewrite length_bytes_at.
Qed.

Lemma read_file_ext m m' a :
  same_on (λ i, a <= i < a + 32) m m' → read_file m' a = read_file m a.
Proof.
  intros Hs. unfold read_file. rewrite !(same_on_load _ _ _ _ _ Hs) by (intros; lia). done.
Qed.

Section paths.
Context {HO : HeapOps} {HL : HeapLaws} {HV : VmemPhysOps}.
Variables (fuel : nat) (letter_slot header_slot ramdiskReadFile_addr : Z).
(** Where the names are, and the slot of [header]: outside the heap and apart. *)
Variable K : Z → Prop.
Hypothesis K_outside : ∀ a, K a → ¬ arena a.
Hypothesis slot_outside : ∀ a, header_slot <= a < header_slot + 8 → ¬ arena a ∧ ¬ K a.
Hypothesis root_kept : ¬ heap_global g_root_children.
(** The root table with its buckets; the mount point, its letter, what its [mfread]
  holds and its table with its buckets. *)
Variables (rt RB rc mnt letter mfread table B count : Z).
Implicit Types (m L : gmap Z Z) (f : Z → list (Z * entry)) (ds : list dirent) (e : vfs_entry).

(** ** The invariant *)

(** The mount point's children are [ds]. *)
Record dir_rep m L f ds : Prop := {
  dr_mount : L !! mnt = Some 40;
  dr_type : load 2 m mnt = VFS_TYPE_MOUNT;
  dr_link : load 8 m (mnt + 16) = table;
  dr_read : load 8 m (mnt + 32) = mfread;
  dr_table : table_rep K m L table B count f (dir_table ds);
  dr_apart : ¬ table_block table B count f mnt;
  dr_file d : d ∈ ds → L !! d.2.1 = Some 32 ∧ read_file m d.2.1 = file_of d.2.2 0
}.

(** The mount point is the only entry of its bucket of the root table. *)
Record root_rep m L f : Prop := {
  rr_table : L !! rt = Some 16;
  rr_buckets : L !! RB = Some (40 * rc);
  rr_count : 0 < rc < 2 ^ 16;
  rr_base : load 8 m rt = RB;
  rr_counted : load 2 m (rt + 8) = rc;
  rr_used : load 8 m (RB + 40 * bucket_index rc [letter]) ≠ 0;
  rr_data : load 8 m (RB + 40 * bucket_index rc [letter] + 24) = mnt;
  rr_lone : load 8 m (RB + 40 * bucket_index rc [letter] + 32) = 0;
  rr_apart : ¬ table_block table B count f rt ∧ ¬ table_block table B count f RB
}.

Record vfs_rep (s : machine) L f ds : Prop := {
  vr_heap : heap_inv s L;
  vr_root : globals s g_root_children = rt;
  vr_table : root_rep (memory s) L f;
  vr_dir : dir_rep (memory s) L f ds
}.

(** The blocks of the table are not a file. *)
Lemma file_not_table m L f ds a : dir_rep m L f ds → L !! a = Some 32 → ¬ table_block table B count f a.
Proof.
  intros D Ha. pose proof (dr_table _ _ _ _ D) as T. intros [->|[->|(i & Hi & Hx)]].
  - rewrite (tr_table _ _ _ _ _ _ _ _ T) in Ha. discriminate.
  - rewrite (tr_buckets _ _ _ _ _ _ _ _ T) in Ha. injection Ha. lia.
  - destruct (tr_node _ _ _ _ _ _ _ _ T i a Hi Hx) as [Hl _]. rewrite Hl in Ha. discriminate.
Qed.

Lemma table_block_live m L f ds p : dir_rep m L f ds → table_block table B count f p → ∃ z, L !! p = Some z.
Proof.
  intros D. pose proof (dr_table _ _ _ _ D) as T. intros [->|[->|(i & Hi & Hx)]].
  - eexists. apply T.
  - eexists. apply T.
  - exists 40. by apply (tr_node _ _ _ _ _ _ _ _ T i p).
Qed.

(** A block that is not one of the table's is as it was after a step of the table. *)
Lemma kept_block m m' L f p z o n :
  same_on (λ a, blocks_of L (λ p, ¬ table_block table B count f p) a ∨ ¬ arena a) m m' →
  L !! p = Some z → ¬ table_block table B count f p → 0 <= o → o + Z.of_nat n <= z →
  load n m' (p + o) = load n m (p + o).
Proof.
  intros Hs Hp Hn Ho Hz. apply (same_on_load _ _ _ _ _ Hs). intros a Ha. left. exists p, z.
  split_and!; [done|done|lia|lia].
Qed.

Lemma root_index : 0 < rc → 0 <= bucket_index rc [letter] < rc.
Proof. intros Hc. by apply Z.mod_pos_bound. Qed.

(** The root stays what it is when its blocks do. *)
Lemma root_rep_ext m m' L L' f f' :
  root_rep m L f → L ⊆ L' →
  same_on (λ a, blocks_of L (λ p, p = rt ∨ p = RB) a) m m' →
  ¬ table_block table B count f' rt → ¬ table_block table B count f' RB → root_rep m' L' f'.
Proof.
  intros R HL' Hs Hn1 Hn2. pose proof (root_index (proj1 (rr_count _ _ _ R))) as Hi.
  assert (∀ o n, 0 <= o → o + Z.of_nat n <= 16 → load n m' (rt + o) = load n m (rt + o)) as Hr.
  { intros o n Ho Hn. apply (same_on_load _ _ _ _ _ Hs). intros a Ha. exists rt, 16.
    split; [apply R|]. split; [by left|lia]. }
  assert (∀ o n, 0 <= o → o + Z.of_nat n <= 40 →
    load n m' (RB + 40 * bucket_index rc [letter] + o) = load n m (RB + 40 * bucket_index rc [letter] + o)) as Hb.
  { intros o n Ho Hn. apply (same_on_load _ _ _ _ _ Hs). intros a Ha. exists RB, (40 * rc).
    split; [apply R|]. split; [by right|lia]. }
  pose proof (Hr 0 8%nat) as Hr0. pose proof (Hb 0 8%nat) as Hb0. rewrite Z.add_0_r in Hr0, Hb0.
  split; [..|by split]; rewrite ?Hr0, ?Hb0, ?Hr, ?Hb by lia; try apply R.
  - eapply lookup_weaken, HL'. apply R.
  - eapply lookup_weaken, HL'. apply R.
Qed.

(** More blocks and other memory than that of the blocks and names do not matter. *)
Lemma vfs_rep_ext s s' L L' f ds :
  vfs_rep s L f ds → heap_inv s' L' → L ⊆ L' → same_on (λ a, owned L a ∨ K a) (memory s) (memory s') →
  globals s' g_root_children = rt → vfs_rep s' L' f ds.
Proof.
  intros [HI Hg R D] HI' HL' Hs Hg'. pose proof (dr_table _ _ _ _ D) as T.
  assert (∀ p z o n, L !! p = Some z → 0 <= o → o + Z.of_nat n <= z →
    load n (memory s') (p + o) = load n (memory s) (p + o)) as Hl.
  { intros p z o n Hp Ho Hn. apply (same_on_load _ _ _ _ _ Hs). intros a Ha. left. exists p, z.
    split; [done|lia]. }
  pose proof (Hl mnt 40 0 2%nat (dr_mount _ _ _ _ D)) as H0. rewrite Z.add_0_r in H0.
  split; [done..| |split].
  - eapply root_rep_ext; [exact R|done| |apply R..]. intros a (p & z & Hp & _ & Ha).
    apply Hs. left. by exists p, z.
  - eapply lookup_weaken, HL'. apply D.
  - rewrite H0 by lia. apply D.
  - rewrite (Hl mnt 40) by (apply D || lia). apply D.
  - rewrite (Hl mnt 40) by (apply D || lia). apply D.
  - eapply table_rep_ext; [exact T|done|]. intros a Ha. apply Hs.
    destruct Ha as [Ha|Ha]; [left; by eapply blocks_owned|by right].
  - apply D.
  - intros d Hd. destruct (dr_file _ _ _ _ D d Hd) as [Hd1 Hd2]. split; [by eapply lookup_weaken|].
    rewrite <- Hd2. apply read_file_ext. intros a Ha. apply Hs. left. by exists d.2.1, 32.
Qed.

(** A file entered in the table is a child. *)
Lemma vfs_rep_insert s L f ds s' L' f' key a e :
  vfs_rep s L f ds → L !! a = Some 32 → read_file (memory s) a = file_of e 0 →
  table_rep K (memory s') L' table B count f' (dir_table ds ++ [(key, a)]) →
  table_grows s L table B count f s' L' f' → vfs_rep s' L' f' (ds ++ [(key, (a, e))]).
Proof.
  intros [HI Hg R D] Ha He T' [HL' HI' Hnew Hs Hg'].
  assert (∀ p z, L !! p = Some z → ¬ table_block table B count f p → ¬ table_block table B count f' p) as Hn.
  { intros p z Hp Hn [Hf|Hf]%Hnew; [done|congruence]. }
  pose proof (dr_mount _ _ _ _ D) as Hm. pose proof (dr_apart _ _ _ _ D) as Hma.
  destruct (rr_apart _ _ _ R) as [Hr1 Hr2].
  pose proof (kept_block _ _ _ _ _ _ 0 2%nat Hs Hm Hma) as H0. rewrite Z.add_0_r in H0.
  assert (∀ b, L !! b = Some 32 → read_file (memory s') b = read_file (memory s) b) as Hfile.
  { intros b Hb. apply read_file_ext. intros i Hi. apply Hs. left. exists b, 32.
    split; [done|]. split; [by eapply file_not_table|done]. }
  split; [done|by rewrite Hg'|..|split].
  - eapply root_rep_ext; [exact R|done| |by eapply Hn; [apply R|]..].
    intros i (p & z & Hp & Hpr & Hi). apply Hs. left. exists p, z. split; [done|].
    split; [by destruct Hpr as [-> | ->]|done].
  - by eapply lookup_weaken.
  - rewrite H0 by lia. apply D.
  - rewrite (kept_block _ _ _ _ _ _ _ _ Hs Hm Hma) by lia. apply D.
  - rewrite (kept_block _ _ _ _ _ _ _ _ Hs Hm Hma) by lia. apply D.
  - unfold dir_table. rewrite fmap_app. exact T'.
  - by eapply Hn.
  - intros d [Hd| ->%list_elem_of_singleton]%elem_of_app; cbn [fst snd].
    + destruct (dr_file _ _ _ _ D d Hd) as [Hd1 Hd2]. split; [by eapply lookup_weaken|]. by rewrite Hfile.
    + split; [by eapply lookup_weaken|]. by rewrite Hfile.
Qed.

(** ** Registering files *)

(** The name of [e] is [l], with its terminator where names are. *)
Record name_at m e (l : list Z) : Prop := {
  na_addr : 0 < ve_name e;
  na_fit : ve_name e + Z.of_nat (length l) < 2 ^ 64;
  na_fuel : (length l < fuel)%nat;
  na_str : cstr m (ve_name e) l;
  na_kept a : ve_name e <= a <= ve_name e + Z.of_nat (length l) → K a
}.

Lemma name_at_ext m m' e l : same_on K m m' → name_at m e l → name_at m' e l.
Proof.
  intros Hs [H1 H2 H3 H4 H5]. split; try done. eapply cstr_ext; [|exact H4].
  intros a Ha. symmetry. by apply Hs, H5.
Qed.

Lemma name_key m e l : name_at m e l → key_at K m (ve_name e) (length l) l.
Proof.
  intros N. split; [apply N|]. split; [apply N|]. split; [apply cstr_bytes, N|].
  intros a Ha. apply (na_kept _ _ _ N). lia.
Qed.

(** The heap a file costs: 32 bytes, a node of the table and two blocks. *)
Definition file_cost : Z := 72 + 2 * heap_overhead.

(** Memory after a new block at [fl] was filled. *)
Lemma vfs_rep_fill s s1 m2 L f ds fl z :
  vfs_rep s L f ds → L !! fl = None → heap_inv s1 (<[fl := z]> L) →
  same_on (λ a, owned L a ∨ ¬ arena a) (memory s) (memory s1) → globals s1 g_root_children = rt →
  same_on (λ a, ¬ (fl <= a < fl + z)) (memory s1) m2 →
  vfs_rep (set_memory m2 s1) (<[fl := z]> L) f ds ∧
  same_on (λ a, ¬ arena a) (memory s) m2 ∧
  ∀ k, heap_room s1 k → heap_room (set_memory m2 s1) k.
Proof.
  intros V HN HI1 Hs1 Hg1 Hs2. set (L1 := <[fl := z]> L) in *.
  assert (L1 !! fl = Some z) as Hfl by apply lookup_insert_eq.
  assert (∀ a, fl <= a < fl + z → arena a) as Har by (by apply (heap_live _ _ _ _ HI1 Hfl)).
  assert (∀ a, owned L a → ¬ (fl <= a < fl + z)) as Hold.
  { intros a (p & w & Hp & Ha). assert (p ≠ fl) as Hne by congruence.
    assert (L1 !! p = Some w) as Hp1 by (unfold L1; by rewrite lookup_insert_ne).
    by apply (live_disjoint _ _ _ _ _ _ a HI1 Hp1 Hfl Hne). }
  destruct (heap_frame s1 (set_memory m2 s1) L1 HI1) as [HI2 Hroom]; [done| |].
  { intros a [Ha Hno]. apply Hs2. intros Hin. apply Hno. by exists fl, z. }
  split; [|split; [|exact Hroom]].
  - apply (vfs_rep_ext s (set_memory m2 s1) L L1); [done|done|by apply insert_subseteq| |done].
    intros a [Ha|Ha]; cbn [memory set_memory].
    + rewrite Hs2 by (by apply Hold). apply Hs1. by left.
    + apply K_outside in Ha. rewrite Hs2 by (intros Hin; by apply Ha, Har). apply Hs1. by right.
  - intros a Ha. rewrite Hs2 by (intros Hin; by apply Ha, Har). apply Hs1. by right.
Qed.

(** [addVFSFile] on the mount point. *)
Lemma addVFSFile_ok s L f ds e l flags :
  vfs_rep s L f ds → name_at (memory s) e l → heap_room s file_cost → (length ds < fuel)%nat →
  wp (addVFSFile_ fuel mnt (ve_name e) (ve_phys e) (ve_size e) flags) (λ r s', r = true ∧
    (∃ L' f' a, vfs_rep s' L' f' (ds ++ [(l, (a, e))])) ∧
    same_on (λ a, ¬ arena a) (memory s) (memory s') ∧
    ∀ k, heap_room s (file_cost + k) → heap_room s' k) s.
Proof.
  intros V N Hroom Hf. pose proof heap_overhead_pos as Hov. unfold file_cost in *.
  pose proof (na_addr _ _ _ N) as Hn0. pose proof (na_fit _ _ _ N) as Hn1.
  unfold addVFSFile_, sizeof_vfsFile. wp_step. eapply wp_mono.
  { apply kmalloc_spec; [apply V|by eapply heap_room_mono, Hroom; lia|lia]. }
  intros fl s1 (HN & HI1 & Hs1 & Hg1 & _ & Hr1). cbv beta. do 16 wp_step.
  set (s2 := set_memory _ _). set (L1 := <[fl := 32]> L) in *.
  assert (L1 !! fl = Some 32) as Hfl by apply lookup_insert_eq.
  destruct (heap_live _ _ _ _ HI1 Hfl) as (Hfl0 & _ & Hfl63 & _).
  assert (same_on (λ a, ¬ (fl <= a < fl + 32)) (memory s1) (memory s2)) as Hs2.
  { intros a Ha. cbn [s2 memory set_memory]. by rewrite !mbyte_store_ne by lia. }
  assert (read_file (memory s2) fl = file_of e 0) as Efile.
  { unfold read_file, file_of. cbn [s2 memory set_memory]. mem. rewrite (u64_id (ve_name e)) by lia. done. }
  destruct (vfs_rep_fill s s1 (memory s2) L f ds fl 32 V HN HI1 Hs1) as (V2 & Ho2 & Hr2);
    [by rewrite Hg1; [apply V|]|done|].
  change (set_memory (memory s2) s1) with s2 in *. clearbody s2. fold L1 in V2.
  pose proof (vr_dir _ _ _ _ V2) as D2.
  rewrite (dr_type _ _ _ _ D2), Z.eqb_refl. do 2 wp_step. rewrite (dr_link _ _ _ _ D2).
  assert (name_at (memory s2) e l) as N2
    by (eapply name_at_ext, N; eapply same_on_weaken; [exact Ho2|apply K_outside]).
  wp_step. eapply wp_eq; [apply strlen_spec; [apply N2|lia|apply N2]|]. cbv beta.
  wp_step. eapply wp_mono.
  { apply (table_insert K K_outside fuel s2 L1 table B count f (dir_table ds) (ve_name e) (length l) l);
      [apply V2|apply V2|by apply name_key| |done|lia|by unfold dir_table; rewrite length_fmap].
    apply Hr2, Hr1. eapply heap_room_mono, Hroom. lia. }
  intros [] s3 (L3 & f3 & T3 & G3 & Hr3). cbv beta. wp_step. split; [done|]. split; [|split].
  - exists L3, f3, fl. by eapply vfs_rep_insert.
  - etrans; [exact Ho2|]. eapply same_on_weaken; [apply G3|]. by right.
  - intros k Hk. apply Hr3, Hr2, Hr1. eapply heap_room_mono, Hk. lia.
Qed.

(** Registering a list of files, given with their names. *)
Lemma add_all_ok (es : list (list Z * vfs_entry)) : ∀ s L f ds,
  vfs_rep s L f ds → Forall (λ d : list Z * vfs_entry, name_at (memory s) d.2 d.1) es →
  heap_room s (file_cost * Z.of_nat (length es)) → (length ds + length es < fuel)%nat →
  wp (add_all (HF := vfs_ops fuel letter_slot) mnt es.*2) (λ _ s', ∃ L' f' ds',
    vfs_rep s' L' f' ds' ∧ dir_files ds' = dir_files ds ++ es ∧
    same_on (λ a, ¬ arena a) (memory s) (memory s') ∧
    ∀ k, heap_room s (file_cost * Z.of_nat (length es) + k) → heap_room s' k) s.
Proof.
  pose proof heap_overhead_pos as Hov. assert (0 <= file_cost) as Hfc by (unfold file_cost; lia).
  induction es as [|[l e] es IH]; intros s L f ds V Hes Hroom Hf; cbn [fmap list_fmap add_all].
  - wp_step. exists L, f, ds. rewrite app_nil_r. split_and!; [done..|]. intros k. cbn [length].
    by replace (file_cost * Z.of_nat 0 + k) with k by lia.
  - apply Forall_cons in Hes as [Hn Hes]. cbn [fst snd length] in *. unfold addVFSFile, vfs_ops.
    wp_step. eapply wp_mono; [eapply addVFSFile_ok; [done..| |lia]|].
    { eapply heap_room_mono, Hroom. nia. }
    intros b s1 (_ & (L1 & f1 & a & V1) & Hs1 & Hr1). cbv beta. eapply wp_mono; [eapply IH|].
    + exact V1.
    + eapply Forall_impl; [exact Hes|]. intros [l' e'] N. eapply name_at_ext; [|exact N].
      eapply same_on_weaken; [exact Hs1|apply K_outside].
    + apply Hr1. eapply heap_room_mono, Hroom. nia.
    + rewrite length_app. cbn. lia.
    + intros [] s2 (L2 & f2 & ds2 & V2 & E2 & Hs2 & Hr2). exists L2, f2, ds2.
      split; [done|]. split; [|split].
      * rewrite E2. unfold dir_files. rewrite fmap_app, <- app_assoc. done.
      * by etrans.
      * intros k Hk. apply Hr2, Hr1. eapply heap_room_mono, Hk. nia.
Qed.

(** ** Resolving a path *)

(** A component of a path: up to a ['/'] or the end. *)
Definition component m (p : Z) (l : list Z) : Prop :=
(∀ i x, l !! i = Some x → mbyte m (p + Z.of_nat i) = x ∧ x ≠ 0 ∧ x ≠ 47) ∧
(mbyte m (p + Z.of_nat (length l)) = 0 ∨ mbyte m (p + Z.of_nat (length l)) = 47).

Lemma component_cons m p x l :
  component m p (x :: l) → mbyte m p = x ∧ x ≠ 0 ∧ x ≠ 47 ∧ component m (p + 1) l.
Proof.
  intros [H E]. destruct (H 0%nat x eq_refl) as (H0 & Hx & Hx'). rewrite Z.add_0_r in H0.
  split_and!; [done..|]. cbn [length] in E. split.
  - intros i y Hy. replace (p + 1 + Z.of_nat i) with (p + Z.of_nat (S i)) by lia. by apply H.
  - by replace (p + 1 + Z.of_nat (length l)) with (p + Z.of_nat (S (length l))) by lia.
Qed.

Lemma component_ext m m' p l :
  (∀ a, p <= a <= p + Z.of_nat (length l) → mbyte m' a = mbyte m a) → component m p l → component m' p l.
Proof.
  intros Hs [H E]. split; [|by rewrite Hs by lia].
  intros i x Hi. pose proof (lookup_lt_Some _ _ _ Hi). rewrite Hs by lia. by apply H.
Qed.

Lemma component_bytes m p l : component m p l → bytes_at m p (length l) = l.
Proof.
  intros [H _]. apply list_eq. intros i. destruct (l !! i) as [x|] eqn:E.
  - pose proof (lookup_lt_Some _ _ _ E). rewrite bytes_at_lookup by done. f_equal. by apply (H i x).
  - apply lookup_ge_None in E. apply lookup_ge_None. by rewrite length_bytes_at.
Qed.

Lemma pathNameLength_loop str s l : ∀ n base i,
  component (memory s) (str + base) l → 0 <= i <= base → base + Z.of_nat (length l) < 2 ^ 32 →
  (length l < n)%nat →
  iter n (λ '(base, i),
    c ← ld 1 (str + base);
    mret (if c =? 0 then inr i
          else if c =? 47 then inr i
          else inl (u32 (base + 1), u32 (i + 1)))) (base, i) s = Ok (i + Z.of_nat (length l)) s.
Proof.
  induction l as [|x l IH]; intros [|n] base i C Hi Hfit Hn; cbn [length] in *; try lia; cbn [iter].
  - destruct C as [_ C]. rewrite Z.add_0_r in C.
    unfold mbind, M_bind, ld. rewrite load_1. cbn [mret M_ret].
    destruct C as [-> | ->]; cbn; by rewrite Z.add_0_r.
  - apply component_cons in C as (E & Hx & Hx' & C).
    unfold mbind at 1, M_bind at 1, mbind at 1, M_bind at 1, ld at 1.
    rewrite load_1, E, !eqb_false by lia. cbn. rewrite !u32_id by lia.
    rewrite IH; [f_equal; lia| |lia..]. by replace (str + (base + 1)) with (str + base + 1) by lia.
Qed.

Lemma pathNameLength_ok str base s l :
  component (memory s) (str + base) l → 0 <= base → base + Z.of_nat (length l) < 2 ^ 32 →
  (length l < fuel)%nat →
  pathNameLength fuel str base s = Ok (Z.of_nat (length l)) s.
Proof.
  intros C Hb Hfit Hf. unfold pathNameLength. rewrite (pathNameLength_loop str s l); [done|done|lia..].
Qed.

(** The path ["/R/name"], where [R] is the letter of the mount point. *)
Record path_at m (path : Z) (name : list Z) : Prop := {
  pa_str : cstr m path ([47; letter; 47] ++ name);
  pa_name : name ≠ [] ∧ Forall (λ c, c ≠ 47) name ∧ letter ≠ 47;
  pa_fuel : (length name < fuel)%nat ∧ Z.of_nat (length name) < 2 ^ 31;
  pa_outside a : path <= a <= path + 3 + Z.of_nat (length name) →
    ¬ arena a ∧ ¬ (header_slot <= a < header_slot + 8)
}.

Lemma path_at_ext m m' path name :
  same_on (λ a, ¬ arena a ∧ ¬ (header_slot <= a < header_slot + 8)) m m' →
  path_at m path name → path_at m' path name.
Proof.
  intros Hs [H1 H2 H3 H4]. split; try done. eapply cstr_ext; [|exact H1].
  intros a Ha. rewrite length_app in Ha. cbn [length] in Ha. symmetry. apply Hs, H4. lia.
Qed.

Lemma path_components m path name :
  path_at m path name → component m (path + 1) [letter] ∧ component m (path + 3) name.
Proof.
  intros [[Hs He] (_ & Hn & Hl) _ _]. rewrite length_app in He. cbn [length app] in *.
  pose proof (Hs 1%nat letter eq_refl) as [H1 H1']. pose proof (Hs 2%nat 47 eq_refl) as [H2 _].
  rewrite Forall_lookup in Hn. split; split.
  - intros [|[]] x [= <-]. split_and!; [|lia|done]. by rewrite Z.add_0_r.
  - right. cbn [length]. by replace (path + 1 + Z.of_nat 1) with (path + Z.of_nat 2) by lia.
  - intros i x Hi. destruct (Hs (3 + i)%nat x Hi) as [E ?]. split_and!; [|lia|by eapply Hn].
    by replace (path + 3 + Z.of_nat i) with (path + Z.of_nat (3 + i)) by lia.
  - left. by replace (path + 3 + Z.of_nat (length name)) with (path + Z.of_nat (3 + length name)) by lia.
Qed.

(** Writing the slot changes neither the file system nor the room. *)
Lemma vfs_rep_slot s L f ds v :
  vfs_rep s L f ds → let s' := set_memory (store 8 (memory s) header_slot v) s in
  vfs_rep s' L f ds ∧ ∀ k, heap_room s k → heap_room s' k.
Proof.
  intros V s'. destruct (heap_frame s s' L (vr_heap _ _ _ _ V)) as [HI' Hr]; [done| |split; [|exact Hr]].
  - intros a [Ha _]. cbn [s' memory set_memory]. apply mbyte_store_ne.
    destruct (decide (header_slot <= a < header_slot + 8)) as [Hin|]; [|lia]. by destruct (slot_outside a Hin).
  - eapply vfs_rep_ext; [exact V|done|done| |apply V].
    intros a Ha. cbn [s' memory set_memory]. apply mbyte_store_ne.
    destruct (decide (header_slot <= a < header_slot + 8)) as [Hin|]; [|lia].
    destruct (slot_outside a Hin) as [Hn1 Hn2]. destruct Ha as [Ha|Ha]; [|done].
    destruct Hn1. eapply owned_arena; [apply V|done].
Qed.

(** The mount point is found in the root table. *)
Lemma root_fetch s L f ds path name :
  vfs_rep s L f ds → path_at (memory s) path name →
  hashtableFetch fuel rt (path + 1) 1 header_slot s =
    Ok true (set_memory (store 8 (memory s) header_slot mnt) s).
Proof.
  intros V P. pose proof (vr_table _ _ _ _ V) as R. destruct (path_components _ _ _ P) as [C _].
  apply component_bytes in C. cbn [length] in C.
  assert (home (memory s) rt (path + 1) 1 = RB + 40 * bucket_index rc [letter]) as Eh.
  { unfold home. rewrite (rr_base _ _ _ R), (rr_counted _ _ _ R). change (Z.to_nat 1) with 1%nat. by rewrite C. }
  pose proof (root_index (proj1 (rr_count _ _ _ R))).
  pose proof (heap_live _ _ _ _ (vr_heap _ _ _ _ V) (rr_buckets _ _ _ R)) as (HB & _).
  rewrite fetch_lone_bucket_ignores_key; rewrite ?Eh.
  - unfold read_bucket. cbn [hb_data]. by rewrite (rr_data _ _ _ R).
  - rewrite (rr_counted _ _ _ R). pose proof (rr_count _ _ _ R). lia.
  - lia.
  - apply R.
  - apply R.
Qed.

(** A step below the mount point is the lookup in its table, with the file that was
  found in [header]. *)
Lemma path_step_ok s L f ds path name mnt0 :
  vfs_rep s L f ds → path_at (memory s) path name → (length ds <= fuel)%nat →
  wp (path_step fuel header_slot path (3, mnt, mnt0)) (λ r s',
    r = inr (match table_lookup count ds name with None => 0 | Some d => d.1 end, mnt) ∧
    vfs_rep s' L f ds ∧ (∀ k, heap_room s k → heap_room s' k)) s.
Proof.
  intros V P Hf. pose proof (vr_dir _ _ _ _ V) as D. destruct (path_components _ _ _ P) as [_ C].
  destruct (pa_name _ _ _ P) as (Hne & _), (pa_fuel _ _ _ P) as (Hn & Hn').
  assert (Z.of_nat (length name) ≠ 0) as Hlen by (destruct name; [done|cbn; lia]).
  unfold path_step. cbv beta iota. wp_step.
  eapply wp_eq; [apply (pathNameLength_ok path 3 s name C); lia|]. cbv beta.
  rewrite eqb_false by done. do 2 wp_step. rewrite (dr_type _ _ _ _ D), Z.eqb_refl.
  do 2 wp_step. rewrite (dr_link _ _ _ _ D). cbv zeta. wp_step.
  pose proof (table_fetch K fuel s L table B count f (dir_table ds) (path + 3) (length name) header_slot
    (dr_table _ _ _ _ D) ltac:(lia) ltac:(by unfold dir_table; rewrite length_fmap)) as E.
  rewrite (component_bytes _ _ _ C), dir_lookup_table in E.
  destruct (table_lookup count ds name) as [[a e]|] eqn:El; cbn [fmap option_fmap option_map fst] in E.
  2:{ eapply wp_eq; [exact E|]. cbn [negb]. wp_step. done. }
  eapply wp_eq; [exact E|]. cbn [negb]. do 2 wp_step. cbn [memory set_memory].
  destruct (table_lookup_in _ _ _ _ El) as [k Hk]. destruct (dr_file _ _ _ _ D _ Hk) as [Ha _].
  destruct (heap_live _ _ _ _ (vr_heap _ _ _ _ V) Ha) as (Ha0 & _ & Ha63 & _). cbn [fst snd] in *.
  destruct (vfs_rep_slot s L f ds a V) as [V' Hr]. destruct (dr_file _ _ _ _ (vr_dir _ _ _ _ V') _ Hk) as [_ Efile].
  mem. rewrite (u64_id a) by lia. do 2 wp_step. apply (f_equal vf_type) in Efile. cbn [vf_type read_file file_of fst snd] in Efile.
  cbn [memory set_memory] in *. rewrite Efile, Z.eqb_refl. wp_step. done.
Qed.

(** [parsePath] of a path in the mount point. *)
Lemma parsePath_ok s L f ds path name mnt0 :
  vfs_rep s L f ds → path_at (memory s) path name → (length ds <= fuel)%nat →
  wp (parsePath fuel header_slot path mnt0) (λ r s',
    r = (match table_lookup count ds name with None => 0 | Some d => d.1 end, mnt) ∧
    vfs_rep s' L f ds ∧ (∀ k, heap_room s k → heap_room s' k)) s.
Proof.
  intros V P Hf. destruct (path_components _ _ _ P) as [C _]. destruct (pa_fuel _ _ _ P) as (Hn & _).
  destruct (pa_name _ _ _ P) as (Hne & _). assert (0 < length name)%nat as Hn0 by (destruct name; [done|cbn; lia]).
  pose proof (heap_live _ _ _ _ (vr_heap _ _ _ _ V) (dr_mount _ _ _ _ (vr_dir _ _ _ _ V))) as (Hm0 & _ & Hm63 & _).
  unfold parsePath. wp_step. eapply wp_eq; [apply (pathNameLength_ok path 1 s [letter] C); cbn [length]; lia|].
  cbv beta. cbn [length]. do 4 wp_step. rewrite (vr_root _ _ _ _ V).
  destruct (vfs_rep_slot s L f ds 0 V) as [V1 Hr1].
  set (s1 := set_memory _ s) in *.
  assert (path_at (memory s1) path name) as P1.
  { eapply path_at_ext; [|exact P]. intros a [_ Ha]. cbn [s1 memory set_memory]. apply mbyte_store_ne. lia. }
  wp_step. eapply wp_eq; [apply (root_fetch s1 L f ds path name V1 P1)|]. cbv beta.
  destruct (vfs_rep_slot s1 L f ds mnt V1) as [V2 Hr2].
  set (s2 := set_memory _ s1) in *.
  assert (path_at (memory s2) path name) as P2.
  { eapply path_at_ext; [|exact P1]. intros a [_ Ha]. cbn [s2 memory set_memory]. apply mbyte_store_ne. lia. }
  do 2 wp_step. assert (load 8 (memory s2) header_slot = mnt) as ->.
  { cbn [s2 memory set_memory]. mem. rewrite u64_id; lia. }
  rewrite eqb_false by lia. do 2 wp_step. rewrite (dr_type _ _ _ _ (vr_dir _ _ _ _ V2)).
  change (VFS_TYPE_MOUNT =? VFS_TYPE_FILE) with false. cbv beta iota.
  destruct fuel as [|fuel'] eqn:Efuel; [lia|]. rewrite <- Efuel in *. rewrite Efuel at 1. apply wp_iter_S.
  change (u32 (1 + (Z.of_nat 1 + 1))) with 3. eapply wp_mono; [by apply path_step_ok|].
  intros r s3 (-> & V3 & Hr3). split; [done|]. split; [done|]. intros k Hk. by apply Hr3, Hr2, Hr1.
Qed.

(** ** Opening *)

(** [fl] is an open file of [e] on the mount point. *)
Record opened m (fl : Z) e : Prop := {
  op_file : read_file m (load 8 m fl) = file_of e 1;
  op_mount : load 8 m (fl + 8) = mnt;
  op_live : mnt ≠ 0;
  op_read : load 8 m (mnt + 32) = mfread
}.

Lemma openFile_ok s L f ds path name mnt0 flags :
  vfs_rep s L f ds → path_at (memory s) path name → (length ds <= fuel)%nat → heap_room s sizeof_vFILE →
  wp (openFile fuel header_slot mnt0 path flags) (λ fl s',
    match table_lookup count ds name with
    | None => fl = 0
    | Some d => opened (memory s') fl d.2
    end) s.
Proof.
  intros V0 P Hf Hroom0. unfold openFile. wp_step. eapply wp_mono; [by apply parsePath_ok|].
  intros r s1 (-> & V & Hr). cbv beta iota.
  destruct (table_lookup count ds name) as [[hdr e]|] eqn:El; [|by apply wp_ret].
  destruct (table_lookup_in _ _ _ _ El) as [k Hk]. destruct (dr_file _ _ _ _ (vr_dir _ _ _ _ V) _ Hk) as [Hh Efile].
  pose proof (dr_mount _ _ _ _ (vr_dir _ _ _ _ V)) as Hm. pose proof (vr_heap _ _ _ _ V) as HI. cbn [fst snd] in *.
  destruct (heap_live _ _ _ _ HI Hh) as (Hh0 & _ & Hh63 & _).
  pose proof (f_equal vf_type Efile) as Ht. cbn [vf_type read_file file_of] in Ht.
  rewrite eqb_false by lia. do 2 wp_step. rewrite Ht, Z.eqb_refl. cbn [negb]. wp_step.
  eapply wp_mono; [apply kmalloc_spec; [done|by apply Hr|done]|].
  intros fl s2 (Hnew & HI2 & Hsame & _). cbv beta. unfold sizeof_vFILE in *.
  set (L2 := <[fl := 24]> L) in *.
  assert (L2 !! fl = Some 24) as Hfl by apply lookup_insert_eq.
  assert (fl ≠ hdr ∧ fl ≠ mnt) as [Hne1 Hne2] by (split; congruence).
  assert (L2 !! hdr = Some 32) as Hh2 by (by unfold L2; rewrite lookup_insert_ne).
  assert (L2 !! mnt = Some 40) as Hm2 by (by unfold L2; rewrite lookup_insert_ne).
  destruct (open_blocks_apart _ _ _ _ _ HI2 Hh2 Hm2 Hfl) as ((_ & Hm0 & Hf0) & Hhm & Hfh & Hfm).
  assert (read_file (memory s2) hdr = file_of e 0) as Efile2.
  { rewrite <- Efile. apply read_file_ext. intros a Ha. apply Hsame. left. by exists hdr, 32. }
  assert (load 8 (memory s2) (mnt + 32) = mfread) as Eread.
  { rewrite (load_live 8 _ _ _ _ _ _ Hsame Hm) by lia. apply (vr_dir _ _ _ _ V). }
  clear Efile Hsame. unfold read_file, file_of in Efile2. injection Efile2 as E1 E2 E3 E4 E5.
  do 8 wp_step. cbn [memory set_memory]. mem. rewrite (u64_id hdr) by lia.
  rewrite (load_store_ne 8 2 _ fl) by lia. rewrite E5.
  do 3 wp_step. rewrite eqb_false by lia. wp_steps. cbn [memory set_memory].
  set (m4 := store 2 _ (mnt + 26) _).
  assert (load 8 m4 fl = hdr) as Efl by (unfold m4; mem; by rewrite u64_id by lia).
  split; [|unfold m4; mem; by rewrite u64_id by lia|lia|by unfold m4; mem].
  rewrite Efl. unfold read_file, file_of, m4. mem. by rewrite E1, E2, E3, E4.
Qed.

(** Reading goes through the word at [mfread], whatever it is. *)
Lemma readFile_wild s fl e sz dst :
  opened (memory s) fl e → mfread ≠ ramdiskReadFile_addr →
  readFile fuel ramdiskReadFile_addr fl sz dst s = Fault WildCall.
Proof.
  intros [H1 H2 H3 H4] Hne. unfold readFile. mstep. rewrite H2, eqb_false by done. mstep. rewrite H4.
  do 2 mstep. unfold call_mfread. by rewrite eqb_false by done.
Qed.

(** After a driver registered files, opening ["/R/name"] gives the file that the
  lookup of the name in the list of the registered names answers, with the name,
  address and size it was registered with and one reference, or nothing; reading
  the file calls what the uninitialised [mfread] of the mount point holds. *)
Theorem ramdisk_files_open (es : list (list Z * vfs_entry)) path name mnt0 flags s L f :
  vfs_rep s L f [] → Forall (λ d : list Z * vfs_entry, name_at (memory s) d.2 d.1) es →
  path_at (memory s) path name → heap_room s (file_cost * Z.of_nat (length es) + sizeof_vFILE) →
  (length es < fuel)%nat →
  wp (_ ← add_all (HF := vfs_ops fuel letter_slot) mnt es.*2; openFile fuel header_slot mnt0 path flags)
    (λ fl s',
      match table_lookup count es name with
      | None => fl = 0
      | Some e =>
          opened (memory s') fl e ∧
          (mfread ≠ ramdiskReadFile_addr →
            ∀ sz dst, readFile fuel ramdiskReadFile_addr fl sz dst s' = Fault WildCall)
      end) s.
Proof.
  intros V Hes P Hroom Hf. wp_step. eapply wp_mono.
  { eapply add_all_ok; [done..| |cbn; lia]. eapply heap_room_mono, Hroom. unfold sizeof_vFILE. lia. }
  intros [] s1 (L1 & f1 & ds & V1 & Eds & Hs1 & Hr1). cbv beta. cbn [dir_files fmap list_fmap app] in Eds.
  assert (length ds = length es) as Hlen by (rewrite <- Eds; unfold dir_files; by rewrite length_fmap).
  eapply wp_mono.
  { eapply (openFile_ok s1 L1 f1 ds path name); [done| |lia|by apply Hr1].
    eapply path_at_ext, P. eapply same_on_weaken; [exact Hs1|]. by intros a [Ha _]. }
  intros fl s2. rewrite <- Eds, dir_lookup_files.
  destruct (table_lookup count ds name) as [[a e]|]; cbn [fmap option_fmap option_map snd]; [|done].
  intros Ho. split; [done|]. intros Hne sz dst. by eapply readFile_wild.
Qed.
End paths.
