(* ===== verification/VfsRamdisk.v ===== *)
(** * From the source tree to an open file

    The builder of the ramdisk image, the driver that loads it and the file system
    put together: the files of the source tree are registered under their names, and
    a path is opened through the hash table of the mount point. *)

From S2P Require Import Prelude Kmonad Mem Libc Heap Hashtable HashtableProps HashtableRep Ramdisk Vfs VfsPaths.

(** The files of an image as the driver registers them, with their names. *)
Definition registered (virt phys : Z) (fs : list (list Z * list Z)) : list (list Z * vfs_entry) :=
  zip fs.*1 (entries virt phys (first_size fs) 6 fs).

Lemma length_entries virt phys first off fs : length (entries virt phys first off fs) = length fs.
Proof. revert off. induction fs as [|[n d] fs IH]; intros off; cbn; [done|]. by rewrite IH. Qed.

Lemma registered_entries virt phys fs : (registered virt phys fs).*2 = entries virt phys (first_size fs) 6 fs.
Proof. unfold registered. apply snd_zip. by rewrite length_entries, length_fmap. Qed.

Lemma length_registered virt phys fs : length (registered virt phys fs) = length fs.
Proof. unfold registered. rewrite length_zip_with, length_fmap, length_entries. lia. Qed.

Section ramdisk.
Context {HO : HeapOps} {HL : HeapLaws} {HV : VmemPhysOps}.
Variables (fuel : nat) (letter_slot header_slot ramdiskReadFile_addr : Z).
Variable K : Z → Prop.
Hypothesis K_outside : ∀ a, K a → ¬ arena a.
Hypothesis slot_outside : ∀ a, header_slot <= a < header_slot + 8 → ¬ arena a ∧ ¬ K a.
Hypothesis root_kept : ¬ heap_global g_root_children.
Variables (rt RB rc mnt letter mfread table B count : Z).

(** The names are in the image. *)
Lemma registered_names m virt phys first rest : ∀ pre,
  let img := pre ++ concat (file_bytes <$> rest) in
  0 < virt → virt + Z.of_nat (length img) < 2 ^ 64 → holds m virt img → Forall (name_ok fuel) rest →
  (∀ a, virt <= a < virt + Z.of_nat (length img) → K a) →
  Forall (λ d : list Z * vfs_entry, name_at fuel K m d.2 d.1)
    (zip rest.*1 (entries virt phys first (Z.of_nat (length pre)) rest)).
Proof.
  induction rest as [|[n d] rest IH]; intros pre img Hv Hfit Hh Hn HK; [constructor|].
  apply Forall_cons in Hn as [Hname Hn]. cbn [fmap list_fmap fst entries zip zip_with].
  assert (img = (pre ++ file_bytes (n, d)) ++ concat (file_bytes <$> rest)) as Himg
    by (unfold img; cbn [fmap list_fmap concat]; by rewrite app_assoc).
  assert (Z.of_nat (length img) = Z.of_nat (length pre) + 13 + Z.of_nat (length n) + Z.of_nat (length d)
    + Z.of_nat (length (concat (file_bytes <$> rest)))) as Hlen.
  { rewrite Himg, !length_app, length_file_bytes. cbn [fst snd]. lia. }
  assert (holds m (virt + Z.of_nat (length pre)) (file_bytes (n, d))) as Hf.
  { rewrite Himg in Hh. apply holds_app in Hh as [Hh _]. by apply holds_app in Hh as [_ Hh]. }
  destruct (file_fields _ _ _ _ Hf Hname ltac:(cbn [snd]; lia)) as (_ & _ & Ec).
  destruct Hname as (_ & _ & Hnf). cbn [fst snd] in *. constructor.
  - cbn [fst snd]. split; cbn [ve_name]; try lia; try done. intros a Ha. apply HK. lia.
  - specialize (IH (pre ++ file_bytes (n, d))). cbv zeta in IH. rewrite <- Himg in IH.
    specialize (IH Hv Hfit Hh Hn HK). rewrite length_app, length_file_bytes in IH. cbn [fst snd] in IH.
    replace (Z.of_nat (length pre) + 12 + Z.of_nat (length n) + 1 + Z.of_nat (length d))
      with (Z.of_nat (length pre + (13 + length n + length d))) by lia. exact IH.
Qed.

(** The registrations of the driver succeed and leave the image alone. *)
Lemma adds_ok_vfs area s L f (es : list (list Z * vfs_entry)) :
  vfs_rep K rt RB rc mnt letter mfread table B count s L f [] →
  Forall (λ d : list Z * vfs_entry, name_at fuel K (memory s) d.2 d.1) es →
  heap_room s (file_cost * Z.of_nat (length es)) → (length es < fuel)%nat → (∀ a, area a → K a) →
  adds_ok (HF := vfs_ops fuel letter_slot) area mnt s es.*2.
Proof.
  intros V Hes Hroom Hf HK k Hk. rewrite <- fmap_take. pose proof heap_overhead_pos.
  destruct (wp_ok _ _ _ (add_all_ok fuel letter_slot K K_outside root_kept rt RB rc mnt letter mfread table B count
    (take k es) s L f [] V ltac:(by apply Forall_take)
    ltac:(eapply heap_room_mono, Hroom; rewrite length_take; unfold file_cost; nia)
    ltac:(rewrite length_take; cbn; lia))) as ([] & s' & E & _ & _ & _ & _ & _ & Hs & _).
  exists s'. split; [exact E|]. eapply same_on_weaken; [exact Hs|]. intros a Ha. by apply K_outside, HK.
Qed.

(** C16: Built, loaded and opened: when the driver loads the image the builder made of
  a source tree and the path ["/R/name"] is opened, the file found is the one the
  lookup of the name in the list of the files of the tree answers, with its size, one
  reference, and the address of its contents (off as the driver has it), or none;
  reading it calls what the uninitialised [mfread] of the mount point holds. *)
Theorem built_image_opens hs fs img virt vt vf rdptr rdsz s s1 s2 L f path name mnt0 flags :
  Forall2 stored_as hs fs → Z.of_nat (length fs) < 2 ^ 16 → (length fs < fuel)%nat →
  Forall (name_ok fuel) fs → build hs = Some img →
  0 < virt → virt + Z.of_nat (length img) < 2 ^ 64 → (∀ a, virt <= a < virt + Z.of_nat (length img) → K a) →
  vmallocPhys rdptr rdsz vt vf s = Ok virt s1 → holds (memory s1) virt img →
  mountVFS_ fuel letter_slot VFS_MOUNT_RAM (Z.of_nat (length fs)) 82 VFS_FLAG_NO_UNLOAD ramdiskReadFile_addr
    (set_global g_ramdiskPbase rdptr (set_global g_ramdiskVbase virt s1)) = Ok mnt s2 →
  same_on (λ a, virt <= a < virt + Z.of_nat (length img)) (memory s1) (memory s2) →
  vfs_rep K rt RB rc mnt letter mfread table B count s2 L f [] →
  path_at fuel header_slot letter (memory s2) path name →
  heap_room s2 (file_cost * Z.of_nat (length fs) + sizeof_vFILE) →
  wp (_ ← @initRamdisk HV (vfs_ops fuel letter_slot) fuel ramdiskReadFile_addr vt vf rdptr rdsz; openFile fuel header_slot mnt0 path flags)
    (λ fl s',
      match table_lookup count (registered virt rdptr fs) name with
      | None => fl = 0
      | Some e =>
          opened mnt mfread (memory s') fl e ∧
          (mfread ≠ ramdiskReadFile_addr →
            ∀ sz dst, readFile fuel ramdiskReadFile_addr fl sz dst s' = Fault WildCall)
      end) s.
Proof.
  intros Hst Hl Hf Hn Hb Hv Hfit HK Hvm Hh Hmount Hs2 V P Hroom.
  set (es := registered virt rdptr fs).
  assert (length es = length fs) as Hlen by apply length_registered.
  assert (mnt ≠ 0) as Hm0.
  { pose proof (heap_live _ _ _ _ (vr_heap _ _ _ _ _ _ _ _ _ _ _ _ _ _ V)
      (dr_mount _ _ _ _ _ _ _ _ _ _ (vr_dir _ _ _ _ _ _ _ _ _ _ _ _ _ _ V))) as (? & _). lia. }
  assert (holds (memory s2) virt img) as Hh2 by (eapply holds_ext; [|exact Hh]; intros b Hb2; by apply Hs2).
  assert (Forall (λ d : list Z * vfs_entry, name_at fuel K (memory s2) d.2 d.1) es) as Hnames.
  { pose proof (build_image hs fs Hst Hl) as Ei. rewrite Hb in Ei. injection Ei as ->. unfold image in *.
    apply (registered_names (memory s2) virt rdptr (first_size fs) fs
      (le_bytes 4 RD_HEADER_MAGIC ++ le_bytes 2 (Z.of_nat (length fs)))); done. }
  pose proof heap_overhead_pos.
  assert (adds_ok (HF := vfs_ops fuel letter_slot) (λ a, virt <= a < virt + Z.of_nat (length img)) mnt s2 es.*2) as Hadds.
  { eapply adds_ok_vfs; [exact V|done| |by rewrite Hlen|exact HK]. rewrite Hlen.
    eapply heap_room_mono, Hroom. unfold sizeof_vFILE. lia. }
  unfold es in Hadds. rewrite registered_entries in Hadds.
  pose proof (@ramdisk_loads HV (vfs_ops fuel letter_slot) fuel ramdiskReadFile_addr hs fs img virt mnt vt vf rdptr rdsz s s1 s2
    Hst Hl Hf Hn Hb Hv Hfit Hvm Hh Hmount Hm0 Hs2 Hadds) as E.
  rewrite <- registered_entries in E.
  unfold wp, mbind, M_bind. rewrite E.
  apply (ramdisk_files_open fuel letter_slot header_slot ramdiskReadFile_addr K K_outside slot_outside root_kept
    rt RB rc mnt letter mfread table B count es path name mnt0 flags s2 L f V Hnames P);
    by rewrite Hlen.
Qed.
End ramdisk.
