(* ===== verification/VfsClients.v ===== *)
(** * The file system on the real heap

    The interfaces of [Heap] and [Ramdisk] instantiated with kmalloc.c and vfs.c
    and run on concrete memory: a mounted file that is opened and closed, and an
    image of two files that is built, loaded and registered. *)

From S2P Require Import Prelude Kmonad Mem Libc Heap Kmalloc KmallocFacts KmallocHeap KmallocProps Hashtable HashtableProps HashtableRep Ramdisk Vfs VfsPaths VfsRamdisk.

#[local] Existing Instance no_vmem.
#[local] Instance vfs_heap_ops : HeapOps := @kheap_ops no_vmem 205.
#[local] Instance vfs_heap_laws : HeapLaws :=
  @kheap_laws no_vmem 0x10000 0x12000 205 ltac:(lia).
(** The image is already mapped at 0x20000. *)
#[local] Instance mapped_image : VmemPhysOps := {| vmallocPhys := λ _ _ _ _, mret 0x20000 |}.
#[local] Existing Instance vfs_ops.

(** The state a run ends in. *)
Definition state_after {A} (m : M machine A) (s : machine) : machine :=
  match m s with Ok _ s' => s' | Fault _ => machine0 end.

Lemma state_after_ok {A} (m : M machine A) s v :
  match m s with Ok a _ => a = v | Fault _ => False end → m s = Ok v (state_after m s).
Proof. unfold state_after. destruct (m s); [by intros ->|done]. Qed.

Lemma same_on_range lo n m m' :
  forallb (λ i, mbyte m' (lo + Z.of_nat i) =? mbyte m (lo + Z.of_nat i)) (seq 0 n) = true →
  same_on (λ a, lo <= a < lo + Z.of_nat n) m m'.
Proof.
  rewrite forallb_forall. intros H a Ha. cbv beta in Ha.
  specialize (H (Z.to_nat (a - lo))). rewrite Z2Nat.id in H by lia.
  replace (lo + (a - lo)) with a in H by lia. apply Z.eqb_eq, H, in_seq. lia.
Qed.

(** The live allocations of a list of blocks. *)
Definition blocks_live (l : list hblk) : gmap Z Z :=
  list_to_map ((λ b, (ba b + 32, bz b)) <$> tail l).

Lemma blocks_live_ok l p z :
  NoDup ((λ b, ba b + 32) <$> tail l) →
  blocks_live l !! p = Some z ↔ ∃ b, b ∈ tail l ∧ p = ba b + 32 ∧ z = bz b.
Proof.
  intros Hn. unfold blocks_live. rewrite <- elem_of_list_to_map.
  - rewrite list_elem_of_fmap. naive_solver.
  - by rewrite <- list_fmap_compose.
Qed.

(** A root table of one bucket on the 8 KiB heap. *)
Definition vfs_root : machine :=
  set_global g_root_children 0x10048 (state_after (hashtableCreate 1) heap8k).

(** ** Opening and closing *)

(** The path "/R/x" at 0x400, the name "x" at 0x500; a mount R with the file. *)
Definition vfs_mounted : machine :=
  let s0 := set_memory (write_bytes (write_bytes (memory vfs_root) 0x400 [47; 82; 47; 120; 0])
              0x500 [120; 0]) vfs_root in
  state_after (mnt ← mountVFS_ 10 0x600 VFS_MOUNT_RAM 1 82 0 7;
               addVFSFile_ 10 mnt 0x500 0x9000 3 0) s0.
Definition vfs_blocks : list hblk :=
  [HBlk 0x10000 0 0; HBlk 0x10028 16 0; HBlk 0x10060 40 0; HBlk 0x100B0 40 0; HBlk 0x10100 16 0;
   HBlk 0x10138 40 0; HBlk 0x10188 32 0x1E30].
Definition vfs_parsed : machine := state_after (parsePath 10 0x608 0x400 0) vfs_mounted.

Lemma vfs_parsed_layout : layout 0x10000 0x12000 vfs_parsed vfs_blocks.
Proof. split; [done|done|repeat split; by vm_compute|done..|by repeat constructor]. Qed.

Lemma open_close_references_witness :
  wp (fl ← openFile 10 0x608 0 0x400 0; closeFile fl) (λ _ s',
    Heap.heap_inv s' (blocks_live vfs_blocks) ∧
    load 2 (memory s') (0x101A8 + 28) = load 2 (memory vfs_parsed) (0x101A8 + 28) ∧
    load 2 (memory s') (0x100D0 + 26) = u16 (load 2 (memory vfs_parsed) (0x100D0 + 26) + 1))
    vfs_mounted.
Proof.
  apply (open_close_references 10 0x608 0 0x400 0 0x101A8 0x100D0 vfs_mounted vfs_parsed
           (blocks_live vfs_blocks)); [|by vm_compute| | |by vm_compute|by vm_compute].
  - refine (state_after_ok (parsePath 10 0x608 0x400 0) vfs_mounted (0x101A8, 0x100D0) _).
    by vm_compute.
  - split; [done|]. exists vfs_blocks. split; [apply vfs_parsed_layout|].
    intros p z. apply blocks_live_ok. apply (bool_decide_unpack _). by vm_compute.
  - exists vfs_blocks. split; [apply vfs_parsed_layout|].
    do 6 right. by left.
Defined.

(** ** Opening what was registered *)

(** The mount R with room for one child, without files; the path "/R/y" at 0x400,
    the names "x" at 0x500 and "y" at 0x510. *)
Definition dir_empty : machine :=
  let s0 := set_memory (write_bytes (write_bytes (write_bytes (memory vfs_root) 0x400 [47; 82; 47; 121; 0])
              0x500 [120; 0]) 0x510 [121; 0]) vfs_root in
  state_after (mountVFS_ 10 0x600 VFS_MOUNT_RAM 1 82 0 7) s0.
Definition dir_blocks : list hblk :=
  [HBlk 0x10000 0 0; HBlk 0x10028 16 0; HBlk 0x10060 40 0; HBlk 0x100B0 40 0; HBlk 0x10100 16 0;
   HBlk 0x10138 40 0x1E78].
Definition dir_names (a : Z) : Prop := 0x500 <= a < 0x520.
Definition dir_list : list (list Z * vfs_entry) :=
  [([120], VfsEntry 0x500 0x9000 3); ([121], VfsEntry 0x510 0x9100 4)].

Lemma dir_layout : layout 0x10000 0x12000 dir_empty dir_blocks.
Proof. split; [done|done|repeat split; by vm_compute|done..|by repeat constructor]. Qed.

Lemma dir_heap : Heap.heap_inv dir_empty (blocks_live dir_blocks).
Proof.
  split; [done|]. exists dir_blocks. split; [apply dir_layout|].
  intros p z. apply blocks_live_ok. apply (bool_decide_unpack _). by vm_compute.
Qed.

Lemma dir_table_rep :
  table_rep dir_names (memory dir_empty) (blocks_live dir_blocks) 0x10120 0x10158 1 (λ _, []) [].
Proof.
  split.
  1,2: by vm_compute. 1: lia. 1,2: by vm_compute.
  - intros i Hi. assert (i = 0) as -> by lia. by vm_compute.
  - done.
  - intros i x _ Hx%elem_of_nil. done.
  - constructor.
  - intros i j x _ _ _ Hx%elem_of_nil. done.
  - intros i x a _ Hx%elem_of_nil. done.
Qed.

Lemma empty_table_apart count p : p ∈ [0x10048; 0x10080; 0x100D0] → ¬ table_block 0x10120 0x10158 count (λ _, []) p.
Proof.
  intros Hp [->|[->|(i & _ & Hx%elem_of_nil)]]; [..|done]; set_unfold in Hp; lia.
Qed.

Lemma dir_rep_empty :
  vfs_rep dir_names 0x10048 0x10080 1 0x100D0 82 0 0x10120 0x10158 1 dir_empty (blocks_live dir_blocks) (λ _, []) [].
Proof.
  split; [apply dir_heap|by vm_compute|split|split].
  1,2: by vm_compute. 1: lia. 1-5: by vm_compute.
  - split; apply empty_table_apart; set_solver.
  - by vm_compute.
  - by vm_compute.
  - by vm_compute.
  - by vm_compute.
  - apply dir_table_rep.
  - apply empty_table_apart. set_solver.
  - intros d Hd%elem_of_nil. done.
Qed.

Lemma dir_names_outside a : dir_names a → ¬ arena a.
Proof. unfold dir_names, arena, vfs_heap_laws, kheap_laws. blia. Qed.
Lemma dir_slot_outside a : 0x608 <= a < 0x608 + 8 → ¬ arena a ∧ ¬ dir_names a.
Proof. unfold dir_names, arena, vfs_heap_laws, kheap_laws. blia. Qed.
Lemma dir_root_kept : ¬ heap_global g_root_children.
Proof. unfold heap_global, vfs_heap_laws, kheap_laws, kheap_global. by intros [H|H]. Qed.

Lemma dir_names_ok : Forall (λ d : list Z * vfs_entry, name_at 10 dir_names (memory dir_empty) d.2 d.1) dir_list.
Proof.
  unfold dir_list, dir_names. constructor; [|constructor; [|constructor]]; split; cbn [fst snd ve_name length];
    first [lia|split; [|by vm_compute]]; (intros [|i] x; [intros [= <-]; by vm_compute|done]).
Qed.

Lemma dir_path : path_at 10 0x608 82 (memory dir_empty) 0x400 [121].
Proof.
  split.
  - split; [|by vm_compute]. intros i x. do 4 (destruct i as [|i]; [intros [= <-]; by vm_compute|]). done.
  - split; [done|]. split; [by repeat constructor|done].
  - cbn. lia.
  - cbn [length]. unfold arena, vfs_heap_laws, kheap_laws. blia.
Qed.

(** "y" is found behind "x" in the bucket the two share; "x" would not be. *)
Lemma ramdisk_files_open_witness :
  wp (_ ← add_all (HF := vfs_ops 10 0x600) 0x100D0 dir_list.*2; openFile 10 0x608 0 0x400 0) (λ fl s',
    match table_lookup 1 dir_list [121] with
    | None => fl = 0
    | Some e => opened 0x100D0 0 (memory s') fl e ∧
        (0 ≠ 7 → ∀ sz dst, readFile 10 7 fl sz dst s' = Fault WildCall)
    end) dir_empty ∧
  table_lookup 1 dir_list [121] = Some (VfsEntry 0x510 0x9100 4) ∧ table_lookup 1 dir_list [120] = None.
Proof.
  split; [|by vm_compute].
  apply (ramdisk_files_open 10 0x600 0x608 7 dir_names dir_names_outside dir_slot_outside dir_root_kept
    0x10048 0x10080 1 0x100D0 82 0 0x10120 0x10158 1 dir_list 0x400 [121] 0 0 dir_empty
    (blocks_live dir_blocks) (λ _, []));
    [apply dir_rep_empty|apply dir_names_ok|apply dir_path| |cbn; lia].
  exists dir_blocks. split; [apply dir_layout|]. do 5 right. left. unfold file_cost, heap_overhead, vfs_heap_laws, kheap_laws, sizeof_vFILE. cbn. lia.
Defined.

(** A file of 3 bytes read to its end: SEEK_SET to 0 stays at 3. *)
Definition vfs_at_end : machine :=
  set_memory (store 4 (store 8 (store 8 ∅ 0x700 0x800) 0x710 3) 0x818 3) machine0.
Lemma fileSeek_at_end_witness :
  wp (fileSeek 0x700 0 VFS_SEEK_SET) (λ r s',
    r = (if VFS_SEEK_SET =? VFS_SEEK_END then 0
         else load 4 (memory vfs_at_end) (load 8 (memory vfs_at_end) 0x700 + 24)) ∧
    load 8 (memory s') (0x700 + 16) = r) vfs_at_end.
Proof. apply (fileSeek_at_end 0x700 0 VFS_SEEK_SET vfs_at_end);
  [by vm_compute|lia|unfold VFS_SEEK_SET; lia]. Defined.

(** ** Building and loading an image *)

(** "d/x" with 3 bytes and "d/y" with 2, and the path "/R/y" at 0x400. *)
Definition host_files : list host_file :=
  [HostFile [100; 47; 120] [1; 2; 3]; HostFile [100; 47; 121] [4; 5]].
Definition stored_files : list (list Z * list Z) := [([120], [1; 2; 3]); ([121], [4; 5])].
Definition rd_image : list Z := match build host_files with Some l => l | None => [] end.
Definition rd_start : machine :=
  set_memory (write_bytes (write_bytes (memory vfs_root) 0x20000 rd_image) 0x400 [47; 82; 47; 121; 0]) vfs_root.
Definition rd_mounted : machine :=
  state_after (mountVFS_ 20 0x600 VFS_MOUNT_RAM 2 82 VFS_FLAG_NO_UNLOAD 7)
    (set_global g_ramdiskPbase 0x90000 (set_global g_ramdiskVbase 0x20000 rd_start)).
#[local] Instance run_vfs : VfsOps := vfs_ops 20 0x600.

Definition rd_area (a : Z) : Prop := 0x20000 <= a < 0x20000 + Z.of_nat (length rd_image).

Lemma rd_image_held : holds (memory rd_start) 0x20000 rd_image.
Proof.
  assert (forallb (λ i, mbyte (memory rd_start) (0x20000 + Z.of_nat i) =? nth i rd_image 0)
    (seq 0 (length rd_image)) = true) as H by by vm_compute.
  rewrite forallb_forall in H. intros i x Hi. pose proof (lookup_lt_Some _ _ _ Hi).
  specialize (H i). rewrite in_seq, Z.eqb_eq in H. rewrite H by lia.
  by apply nth_lookup_Some.
Qed.

Lemma rd_adds_ok :
  adds_ok rd_area 0x100D0 rd_mounted (entries 0x20000 0x90000 3 6 stored_files).
Proof.
  intros k Hk. change (length (entries 0x20000 0x90000 3 6 stored_files)) with 2%nat in Hk.
  exists (state_after (add_all 0x100D0 (take k (entries 0x20000 0x90000 3 6 stored_files))) rd_mounted).
  assert (k = 0%nat ∨ k = 1%nat ∨ k = 2%nat) as [-> | [-> | ->]] by lia;
    (split; [apply state_after_ok; by vm_compute|apply same_on_range; by vm_compute]).
Qed.

(** The data of the second file, of two bytes, is registered one byte too low. *)
Lemma ramdisk_roundtrip_witness :
  initRamdisk 20 7 5 16 0x90000 (Z.of_nat (length rd_image)) rd_start =
    add_all 0x100D0 (entries 0x20000 0x90000 (first_size stored_files) 6 stored_files) rd_mounted.
Proof.
  apply (ramdisk_roundtrip 20 7 host_files stored_files rd_image 0x20000 0x100D0 5 16 0x90000
    (Z.of_nat (length rd_image)) rd_start rd_start rd_mounted).
  - by repeat constructor.
  - done.
  - simpl; lia.
  - repeat constructor; simpl; lia.
  - by vm_compute.
  - done.
  - by vm_compute.
  - reflexivity.
  - apply rd_image_held.
  - refine (state_after_ok (mountVFS_ 20 0x600 VFS_MOUNT_RAM 2 82 VFS_FLAG_NO_UNLOAD 7) _ 0x100D0 _).
    by vm_compute.
  - done.
  - apply same_on_range. by vm_compute.
  - apply rd_adds_ok.
Defined.

(** ** From the source tree to an open file *)

Definition rd_blocks : list hblk :=
  [HBlk 0x10000 0 0; HBlk 0x10028 16 0; HBlk 0x10060 40 0; HBlk 0x100B0 40 0; HBlk 0x10100 16 0;
   HBlk 0x10138 80 0x1E50].

Lemma rd_layout : layout 0x10000 0x12000 rd_mounted rd_blocks.
Proof. split; [done|done|repeat split; by vm_compute|done..|by repeat constructor]. Qed.

Lemma rd_area_outside a : rd_area a → ¬ arena a.
Proof.
  unfold rd_area, arena, vfs_heap_laws, kheap_laws.
  replace (Z.of_nat (length rd_image)) with 39 by (by vm_compute). blia.
Qed.
Lemma rd_slot_outside a : 0x608 <= a < 0x608 + 8 → ¬ arena a ∧ ¬ rd_area a.
Proof.
  unfold rd_area, arena, vfs_heap_laws, kheap_laws.
  replace (Z.of_nat (length rd_image)) with 39 by (by vm_compute). blia.
Qed.

Lemma rd_table_rep :
  table_rep rd_area (memory rd_mounted) (blocks_live rd_blocks) 0x10120 0x10158 2 (λ _, []) [].
Proof.
  split.
  1,2: by vm_compute. 1: lia. 1,2: by vm_compute.
  - intros i Hi. assert (i = 0 ∨ i = 1) as [-> | ->] by lia; by vm_compute.
  - done.
  - intros i x _ Hx%elem_of_nil. done.
  - constructor.
  - intros i j x _ _ _ Hx%elem_of_nil. done.
  - intros i x a _ Hx%elem_of_nil. done.
Qed.

Lemma rd_rep_empty :
  vfs_rep rd_area 0x10048 0x10080 1 0x100D0 82 0 0x10120 0x10158 2 rd_mounted (blocks_live rd_blocks) (λ _, []) [].
Proof.
  split; [|by vm_compute|split|split].
  - split; [done|]. exists rd_blocks. split; [apply rd_layout|].
    intros p z. apply blocks_live_ok. apply (bool_decide_unpack _). by vm_compute.
  - by vm_compute.
  - by vm_compute.
  - lia.
  - by vm_compute.
  - by vm_compute.
  - by vm_compute.
  - by vm_compute.
  - by vm_compute.
  - split; apply empty_table_apart; set_solver.
  - by vm_compute.
  - by vm_compute.
  - by vm_compute.
  - by vm_compute.
  - apply rd_table_rep.
  - apply empty_table_apart. set_solver.
  - intros d Hd%elem_of_nil. done.
Qed.

Lemma rd_path : path_at 20 0x608 82 (memory rd_mounted) 0x400 [121].
Proof.
  split.
  - split; [|by vm_compute]. intros i x. do 4 (destruct i as [|i]; [intros [= <-]; by vm_compute|]). done.
  - split; [done|]. split; [by repeat constructor|done].
  - cbn. lia.
  - cbn [length]. unfold arena, vfs_heap_laws, kheap_laws. blia.
Qed.

(** "y" is opened; of its two bytes the address is one too low. *)
Lemma built_image_opens_witness :
  wp (_ ← @initRamdisk _ run_vfs 20 7 5 16 0x90000 (Z.of_nat (length rd_image)); openFile 20 0x608 0 0x400 0) (λ fl s',
    match table_lookup 2 (registered 0x20000 0x90000 stored_files) [121] with
    | None => fl = 0
    | Some e => opened 0x100D0 0 (memory s') fl e ∧
        (0 ≠ 7 → ∀ sz dst, readFile 20 7 fl sz dst s' = Fault WildCall)
    end) rd_start ∧
  table_lookup 2 (registered 0x20000 0x90000 stored_files) [121] = Some (VfsEntry 0x20023 0x90024 2).
Proof.
  split; [|by vm_compute].
  apply (built_image_opens 20 0x600 0x608 7 rd_area rd_area_outside rd_slot_outside dir_root_kept
    0x10048 0x10080 1 0x100D0 82 0 0x10120 0x10158 2 host_files stored_files rd_image 0x20000 5 16 0x90000
    (Z.of_nat (length rd_image)) rd_start rd_start rd_mounted (blocks_live rd_blocks) (λ _, []) 0x400 [121] 0 0).
  - by repeat constructor.
  - done.
  - simpl; lia.
  - repeat constructor; simpl; lia.
  - by vm_compute.
  - done.
  - by vm_compute.
  - done.
  - reflexivity.
  - apply rd_image_held.
  - refine (state_after_ok (mountVFS_ 20 0x600 VFS_MOUNT_RAM 2 82 VFS_FLAG_NO_UNLOAD 7) _ 0x100D0 _).
    by vm_compute.
  - apply same_on_range. by vm_compute.
  - apply rd_rep_empty.
  - apply rd_path.
  - exists rd_blocks. split; [apply rd_layout|]. do 5 right. left.
    unfold file_cost, heap_overhead, vfs_heap_laws, kheap_laws, sizeof_vFILE. cbn. lia.
Defined.
