(* ===== verification/Pci.v ===== *)
(** * pci.c: configuration space, bus scan and message-signalled interrupts

    The configuration mechanism is reached through [Ports]; [PciBus] states what
    the chipset does with it.  [pci.device] is an array in memory; [pci.deviceCount],
    [pci.device], [alloc] and [msiCache] are globals. *)

From S2P Require Import Prelude Kmonad Mem Layout Device Heap Pmm Vmm Kprintf.

(** ** pci.h *)

Definition pciDeviceInfo : layout :=
  Layout Natural [U64 "classCode"; U8 "bus"; U8 "dev"; Bool "behindBridge"; U8 "bridge"].
Definition pciMSIInfo : layout :=
  Layout Natural [U32 "ptr"; Bool "msix"; Bool "extended"; Bool "pvMasking"; U16 "tblSize"; U64 "tblPhys";
    U64 "msixTable"; U64 "pbaPhys"; U64 "pba"; U8 "bus"; U8 "dev"; U8 "fn"].
Definition pciMSIXTbl : layout :=
  Layout Packed [U32 "msgAddrLower"; U32 "msgAddrUpper"; U32 "msgData"; U32 "versionCtrl"].

Definition PCI_CONFIG_ADDRESS : Z := 0xCF8.
Definition PCI_CONFIG_DATA : Z := 0xCFC.
Definition PCI_HEADER_VENDOR : Z := 0x0.
Definition PCI_HEADER_DEVICEID : Z := 0x0.
Definition PCI_HEADER_REVISIONID : Z := 0x8.
Definition PCI_HEADER_CLASSCODE : Z := 0x8.
Definition PCI_HEADER_SUBSYSTEMID : Z := 0x2C.
Definition PCI_HEADER_CAPABILITIES_PTR_RESERVED : Z := 0x34.
Definition PCI_HEADER_CAPABILITIES_POINTER (ptrsv : Z) : Z := Z.land ptrsv 0xFC.
Definition PCI_HEADER_STATUS_COMMAND : Z := 0x04.
Definition PCI_HEADER_STATUS (scmd : Z) : Z := Z.shiftr scmd 16.
Definition PCI_HEADER_COMMAND (scmd : Z) : Z := Z.land scmd 0xFFFF.
Definition PCI_HEADER_BAR (b : Z) : Z := u32 (0x10 + u32 (b * 4)).
Definition PCI_HEADER_INT : Z := 0x3C.
Definition PCI_HEADER_COMMAND_IO_SPACE : Z := Z.shiftl 1 0.
Definition PCI_HEADER_COMMAND_MEMORY_SPACE : Z := Z.shiftl 1 1.
Definition PCI_HEADER_COMMAND_BUS_MASTER : Z := Z.shiftl 1 2.
Definition PCI_HEADER_COMMAND_ID : Z := Z.shiftl 1 10.

Definition PCI_HEADER_GET_VENDOR (d : Z) : Z := Z.land d 0xFFFF.
Definition PCI_HEADER_GET_DEVICEID (d : Z) : Z := Z.shiftr d 16.
Definition PCI_HEADER_GET_CLASSCODE (d : Z) : Z := Z.shiftr d 8.
Definition PCI_CLASSCODE_BASE (d : Z) : Z := Z.shiftr d 16.
Definition PCI_CLASSCODE_SUBCLASS (d : Z) : Z := Z.land (Z.shiftr d 8) 0xFF.
Definition PCI_CLASSCODE_INTERFACE (d : Z) : Z := Z.land d 0xFF.

Definition PCI_CAPABILITY_ID (v : Z) : Z := Z.land v 0xFF.
Definition PCI_CAPABILITY_NEXT (v : Z) : Z := Z.land (Z.shiftr v 8) 0xFF.
Definition PCI_CAPABILITY_ID_MSI : Z := 0x5.
Definition PCI_CAPABILITY_ID_MSIX : Z := 0x11.

Definition PCI_MSI_ROW0 : Z := 0x0.
Definition PCI_MSI_ROW1 : Z := 0x4.
Definition PCI_MSI_ROW2 : Z := 0x8.
Definition PCI_MSI_MCONTROL (fld : Z) : Z := Z.land (Z.shiftr fld 16) 0xFFFF.
Definition PCI_MSI_MCONTROL_ENABLE : Z := 0x1.
Definition PCI_MSI_MCONTROL_VECTORS_REQUESTED (msg : Z) : Z :=
  u32 (Z.shiftl 1 (Z.land (Z.shiftr msg 1) 0x7)).
Definition PCI_MSI_MCONTROL_VECTORS_ALLOCATED (vec : Z) : Z := Z.shiftl (Z.land vec 0x7) 1.
Definition PCI_MSI_MCONTROL_EXTENDED_ADDRESSING (msg : Z) : Z := Z.land (Z.shiftr msg 7) 0x1.
Definition PCI_MSI_MCONTROL_PER_VECTOR_MASKING (msg : Z) : Z := Z.land (Z.shiftr msg 8) 0x1.
Definition PCI_MSI_MADDR_LOWER : Z := PCI_MSI_ROW1.
Definition PCI_MSI_MADDR_UPPER : Z := PCI_MSI_ROW2.
Definition PCI_MSIX_MCONTROL_TABLE_SIZE (msg : Z) : Z := Z.land msg 0x7FF.
Definition PCI_MSIX_MCONTROL_ENABLE : Z := Z.shiftl 0x1 15.
Definition PCI_MSIX_TABLE : Z := PCI_MSI_ROW1.
Definition PCI_MSIX_TABLE_BIR (tbl : Z) : Z := 0x10 + Z.land tbl 0x3 * 4.
Definition PCI_MSIX_TABLE_OFF (tbl : Z) : Z := Z.land tbl 0xFFFFFFFC.
Definition PCI_MSIX_PBA : Z := PCI_MSI_ROW2.
Definition PCI_MSIX_PBA_BIR (pba : Z) : Z := 0x10 + Z.land pba 0x3 * 4.
Definition PCI_MSIX_PBA_OFF (pba : Z) : Z := Z.land pba 0xFFFFFFFC.

Definition PCI_DEVICE_XHCI : Z := 0xC0330.
Definition PCI_DEVICE_AHCI : Z := 0x10601.
Definition PCI_DEVICE_BGA : Z := 0x30000.
Definition PCI_DEVICE_HOST_BRIDGE : Z := 0x60000.
Definition PCI_DEVICE_ISA_BRIDGE : Z := 0x60100.
Definition PCI_DEVICE_ETHERNET : Z := 0x20000.
Definition PCI_VENDOR_INTEL : Z := 0x8086.
Definition PCI_VENDOR_BOCHS : Z := 0x1234.
Definition PCI_VENDOR_REDHAT : Z := 0x1b36.

(** ** pci.c *)

(** The word [getPCIData] and [setPCIData] write to the address port. *)
Definition pci_address (bus dev fn reg : Z) : Z :=
  Z.lor (Z.lor (Z.lor (Z.lor (2 ^ 31) (u32 (Z.shiftl bus 16))) (u32 (Z.shiftl dev 11)))
    (u32 (Z.shiftl fn 8))) (Z.land reg 0xFC).

(** What [printVendor] prints: the format and its arguments. *)
Definition printVendor (vendor : Z) : string * list Z :=
  if vendor =? PCI_VENDOR_INTEL then ("Intel"%string, [])
  else if vendor =? PCI_VENDOR_BOCHS then ("Bochs"%string, [])
  else if vendor =? PCI_VENDOR_REDHAT then ("Redht"%string, [])
  else ("0x%x "%string, [vendor]).

(** The string [printDeviceName] prints, without the brackets. *)
Definition printDeviceName (classcode : Z) : string :=
  if classcode =? PCI_DEVICE_AHCI then "aHCI"
  else if classcode =? PCI_DEVICE_XHCI then "xHCI"
  else if classcode =? PCI_DEVICE_BGA then "BGA"
  else if classcode =? PCI_DEVICE_ETHERNET then "Ethernet"
  else if classcode =? PCI_DEVICE_HOST_BRIDGE then "Host bridge"
  else if classcode =? PCI_DEVICE_ISA_BRIDGE then "ISA bridge"
  else "Unknown".

Section pci.
Context {PT : Ports} {HO : HeapOps} {CO : CacheOps} {VO : VmemPhysOps}.

Definition getPCIData (bus dev fn reg : Z) : M machine Z :=
_ ← outd PCI_CONFIG_ADDRESS (pci_address bus dev fn reg);
ind PCI_CONFIG_DATA.

Definition setPCIData (bus dev fn reg value : Z) : M machine unit :=
_ ← outd PCI_CONFIG_ADDRESS (pci_address bus dev fn reg);
outd PCI_CONFIG_DATA value.

(** [pci.device[i]] *)
Definition pci_device (i : Z) : M machine Z :=
d ← gread g_pciDevice; mret (d + size_of pciDeviceInfo * i).

(** The lines that enter a device and keep room for one more. *)
Definition record_device (bus i class : Z) : M machine unit :=
n ← gread g_pciCount;
e ← pci_device n;
_ ← stf pciDeviceInfo "classCode" e class;
_ ← stf pciDeviceInfo "bus" e bus;
_ ← stf pciDeviceInfo "behindBridge" e 0;
_ ← stf pciDeviceInfo "bridge" e 0;
_ ← stf pciDeviceInfo "dev" e i;
_ ← gwrite g_pciCount (u16 (n + 1));
alloc ← gread g_pciAlloc;
if u16 (n + 1) >=? alloc then
  _ ← gwrite g_pciAlloc (u16 (alloc + 10));
  d ← gread g_pciDevice;
  d' ← krealloc d (size_of pciDeviceInfo * u16 (alloc + 10));
  gwrite g_pciDevice d'
else mret tt.

(** One round of the loop of [scanBus]. *)
Definition scan_slot (bus i : Z) : M machine unit :=
v ← getPCIData bus i 0 PCI_HEADER_VENDOR;
if PCI_HEADER_GET_VENDOR v =? 0xFFFF then mret tt
else
  devid ← getPCIData bus i 0 PCI_HEADER_DEVICEID;
  c ← getPCIData bus i 0 PCI_HEADER_CLASSCODE;
  record_device bus i (PCI_HEADER_GET_CLASSCODE c).

Definition scanBus (bus : Z) : M machine unit := for_range 0 255 (scan_slot bus).

(** The search for an AHCI controller: its bus and device number. *)
Definition find_ahci (fuel : nat) : M machine (option (Z * Z)) :=
iter fuel (λ i,
  n ← gread g_pciCount;
  if i <? n then
    e ← pci_device i;
    class ← ldf pciDeviceInfo "classCode" e;
    if class =? PCI_DEVICE_AHCI then
      bus ← ldf pciDeviceInfo "bus" e;
      dev ← ldf pciDeviceInfo "dev" e;
      mret (inr (Some (bus, dev)))
    else mret (inl (u16 (i + 1)))
  else mret (inr None)) 0.

(** [initPCI]; the name of the cache and [initAHCI] are parameters here. *)
Definition initPCI (fuel : nat) (msiName : Z) (initAHCI : Z → Z → M machine unit) : M machine unit :=
alloc ← gread g_pciAlloc;
d ← kmalloc (size_of pciDeviceInfo * alloc);
_ ← gwrite g_pciDevice d;
_ ← scanBus 0;
d ← gread g_pciDevice;
n ← gread g_pciCount;
d ← krealloc d (size_of pciDeviceInfo * n);
_ ← gwrite g_pciDevice d;
found ← find_ahci fuel;
match found with
| Some (bus, dev) => initAHCI bus dev
| None =>
    c ← kcacheCreate msiName 0x100 4 MEMORY_TYPE_LOW 0;
    _ ← gwrite g_msiCache c;
    kassert (negb (c =? 0)) "Failed to create MSI cache"
end.

(** *** MSI and MSI-X *)

(** One round of the walk over the capability list, from the header at [next]:
  the flag and the pointer found so far.  The function number is always 0. *)
Definition cap_step (msi bus dev : Z) (w : Z * bool * Z) : M machine (Z * bool * Z + bool * Z) :=
let '(next, found, ptr) := w in
if next =? 0 then mret (inr (found, ptr))
else
  cap ← getPCIData bus dev 0 next;
  let id := u8 (PCI_CAPABILITY_ID cap) in
  '(found, ptr) ← (if id =? PCI_CAPABILITY_ID_MSI
    then _ ← stf pciMSIInfo "msix" msi 0; mret (true, next) else mret (found, ptr));
  if id =? PCI_CAPABILITY_ID_MSIX
  then _ ← stf pciMSIInfo "msix" msi 1; mret (inr (true, next))
  else mret (inl (PCI_CAPABILITY_NEXT cap, found, ptr)).

Definition find_capability (fuel : nat) (msi bus dev fn : Z) : M machine (bool * Z) :=
cap ← getPCIData bus dev fn PCI_HEADER_CAPABILITIES_PTR_RESERVED;
iter fuel (cap_step msi bus dev) (PCI_HEADER_CAPABILITIES_POINTER cap, false, 0).

(** The part of [initMSIX] before the label [msix]. *)
Definition init_msi (msi bus dev fn ptr mctrl : Z) : M machine bool :=
let vec := u8 (PCI_MSI_MCONTROL_VECTORS_REQUESTED mctrl) in
let extended := PCI_MSI_MCONTROL_EXTENDED_ADDRESSING mctrl in
_ ← stf pciMSIInfo "extended" msi extended;
_ ← stf pciMSIInfo "pvMasking" msi (PCI_MSI_MCONTROL_PER_VECTOR_MASKING mctrl);
cache ← gread g_msiCache;
phys ← kcacheAlloc cache 0;
_ ← kassert (negb (phys =? 0)) "Failed to allocate pmem for MSI vectors";
virt ← vmallocPhys phys (vec * 4) (vType_value VTYPE_MMIO) (Z.lor VFLAG_MAKE VFLAG_WRITE);
_ ← kassert (negb (virt =? 0)) "Failed to allocate vmem for MSI vectors";
let mctrl := Z.lor (Z.land mctrl 0xFFFFFF8F) (PCI_MSI_MCONTROL_VECTORS_ALLOCATED vec) in
_ ← setPCIData bus dev fn ptr mctrl;
_ ← setPCIData bus dev fn (u32 (ptr + PCI_MSI_MADDR_LOWER)) (Z.land phys 0xFFFFFFFF);
_ ← when (negb (extended =? 0))
      (setPCIData bus dev fn (u32 (ptr + PCI_MSI_MADDR_UPPER)) (u32 (Z.shiftr phys 32)));
mret true.

(** Read a table register and the base register it names: the physical address. *)
Definition msix_base (bus dev fn reg : Z) (bir off : Z → Z) : M machine Z :=
r ← getPCIData bus dev fn reg;
bar ← getPCIData bus dev fn (PCI_HEADER_BAR (bir r));
mret (u32 (bar + off r)).

(** The part of [initMSIX] from the label [msix] on. *)
Definition init_msix (msi bus dev fn ptr mctrl : Z) : M machine bool :=
_ ← stf pciMSIInfo "tblSize" msi (PCI_MSIX_MCONTROL_TABLE_SIZE mctrl);
tblBar ← msix_base bus dev fn (u32 (ptr + PCI_MSIX_TABLE)) PCI_MSIX_TABLE_BIR PCI_MSIX_TABLE_OFF;
_ ← kassert (Z.land tblBar 0x7 =? 0) "MSIX table is not QWORD aligned";
_ ← stf pciMSIInfo "tblPhys" msi tblBar;
sz ← ldf pciMSIInfo "tblSize" msi;
tbl ← vmallocPhys tblBar (16 * sz) (vType_value VTYPE_MMIO)
        (Z.lor (Z.lor VFLAG_MAKE VFLAG_UC) VFLAG_WRITE);
_ ← stf pciMSIInfo "msixTable" msi tbl;
_ ← kassert (negb (tbl =? 0)) "valloc() failed to map MSIX table";
pbaBar ← msix_base bus dev fn (u32 (ptr + PCI_MSIX_PBA)) PCI_MSIX_PBA_BIR PCI_MSIX_PBA_OFF;
_ ← kassert (Z.land pbaBar 0x7 =? 0) "MSIX PBA is not QWORD aligned";
_ ← stf pciMSIInfo "pbaPhys" msi pbaBar;
sz ← ldf pciMSIInfo "tblSize" msi;
pba ← vmallocPhys pbaBar (8 * (sz / 64)) (vType_value VTYPE_MMIO)
        (Z.lor (Z.lor VFLAG_MAKE VFLAG_UC) VFLAG_WRITE);
_ ← stf pciMSIInfo "pba" msi pba;
_ ← kassert (negb (pba =? 0)) "valloc() failed to map MSIX PBA";
mret true.

Definition initMSIX (fuel : nat) (msi bus dev fn : Z) : M machine bool :=
'(found, ptr) ← find_capability fuel msi bus dev fn;
if negb found then mret false
else
  _ ← stf pciMSIInfo "bus" msi bus;
  _ ← stf pciMSIInfo "dev" msi dev;
  _ ← stf pciMSIInfo "fn" msi fn;
  _ ← stf pciMSIInfo "ptr" msi ptr;
  mctrl ← getPCIData bus dev fn (u32 (ptr + PCI_MSI_ROW0));
  let mctrl := PCI_MSI_MCONTROL mctrl in
  msix ← ldf pciMSIInfo "msix" msi;
  if negb (msix =? 0) then init_msix msi bus dev fn ptr mctrl
  else init_msi msi bus dev fn ptr mctrl.

Definition enableMSIX (msi : Z) : M machine unit :=
_ ← kassert (negb (msi =? 0)) "MSI is not supported";
bus ← ldf pciMSIInfo "bus" msi;
dev ← ldf pciMSIInfo "dev" msi;
fn ← ldf pciMSIInfo "fn" msi;
ptr ← ldf pciMSIInfo "ptr" msi;
mctrl ← getPCIData bus dev fn ptr;
msix ← ldf pciMSIInfo "msix" msi;
let mctrl := Z.lor mctrl (if msix =? 1 then PCI_MSIX_MCONTROL_ENABLE else PCI_MSI_MCONTROL_ENABLE) in
setPCIData bus dev fn ptr mctrl.

(** The body of the test is empty. *)
Definition maskMSIVector (msi : Z) : M machine unit :=
pv ← ldf pciMSIInfo "pvMasking" msi;
when (negb (pv =? 0)) (mret tt).
End pci.

(** ** The chipset's configuration mechanism

    The last word written to port 0xCF8 selects a bus (bits 16-23), device
    (11-15), function (8-10) and dword (2-7); a read of port 0xCFC with bit 31
    set gives that dword.  The configuration space is not in the memory below
    2^64. *)
Class PciBus `{Ports} := {
  pci_cfg : machine → Z → Z → Z → Z → Z;
  pci_cfg_range s b d f r : 0 <= pci_cfg s b d f r < 2 ^ 32;
  pci_cfg_frame s s' b d f r :
    (∀ a, 2 ^ 64 <= a → mbyte (memory s') a = mbyte (memory s) a) →
    pci_cfg s' b d f r = pci_cfg s b d f r;
  pci_select s a : outd 0xCF8 a s = Ok tt (set_global g_pciAddress a s);
  pci_read s : let a := globals s g_pciAddress in
    Z.testbit a 31 = true →
    ind 0xCFC s = Ok (pci_cfg s (bits a 16 8) (bits a 11 5) (bits a 8 3) (bits a 2 6)) s
}.

Lemma pci_address_testbit b d f r i :
  0 <= i < 32 →
  Z.testbit (pci_address b d f r) i =
  (31 =? i) || Z.testbit b (i - 16) || Z.testbit d (i - 11) || Z.testbit f (i - 8)
  || (Z.testbit r i && Z.testbit 0xFC i).
Proof.
  intros Hi. unfold pci_address, u32. rewrite !Z.lor_spec, Z.land_spec.
  rewrite Z.pow2_bits_eqb, !Z.mod_pow2_bits_low by lia. by rewrite !Z.shiftl_spec by lia.
Qed.

(** What an address word selects: the device number spills into the bus. *)
Lemma pci_address_fields b d f r :
  0 <= b < 256 → 0 <= d < 256 → 0 <= f < 8 → 0 <= r < 256 →
  let a := pci_address b d f r in
  Z.testbit a 31 = true ∧ bits a 16 8 = Z.lor b (d / 32) ∧ bits a 11 5 = d mod 32 ∧
  bits a 8 3 = f ∧ bits a 2 6 = r / 4.
Proof.
  intros Hb Hd Hf Hr a.
  assert (∀ n, 8 <= n → Z.testbit b n = false) as Sb by (intros; by apply (testbit_small _ 8)).
  assert (∀ n, 8 <= n → Z.testbit d n = false) as Sd by (intros; by apply (testbit_small _ 8)).
  assert (∀ n, 3 <= n → Z.testbit f n = false) as Sf by (intros; by apply (testbit_small _ 3)).
  assert (∀ n, 8 <= n → Z.testbit r n = false) as Sr by (intros; by apply (testbit_small _ 8)).
  assert (∀ n, n < 2 → Z.testbit 0xFC n = false) as Sm.
  { intros n Hn. destruct (decide (n < 0)); [by apply Z.testbit_neg_r|].
    assert (n = 0 ∨ n = 1) as [-> | ->] by lia; done. }
  subst a. split; [rewrite pci_address_testbit by lia; done|].
  split_and!; apply Z.bits_inj'; intros n Hn; rewrite bits_testbit by lia.
  - change 32 with (2 ^ 5). rewrite Z.lor_spec, Z.div_pow2_bits by lia.
    destruct (Z.ltb_spec n 8); cbn [andb]; [|by rewrite Sb, Sd by lia].
    rewrite pci_address_testbit by lia. rewrite Sf, Sr by lia.
    rewrite (eqb_false 31) by lia. rewrite Z.add_simpl_r. replace (n + 16 - 11) with (n + 5) by lia.
    cbn. by rewrite !orb_false_r.
  - change 32 with (2 ^ 5). destruct (Z.ltb_spec n 5); cbn [andb];
      [|by rewrite Z.mod_pow2_bits_high by lia].
    rewrite Z.mod_pow2_bits_low, pci_address_testbit by lia.
    rewrite (Z.testbit_neg_r b), Sf, Sr, (eqb_false 31), Z.add_simpl_r by lia.
    cbn. by rewrite !orb_false_r.
  - destruct (Z.ltb_spec n 3); cbn [andb]; [|by rewrite Sf by lia].
    rewrite pci_address_testbit by lia.
    rewrite (Z.testbit_neg_r b), (Z.testbit_neg_r d), Sr, (eqb_false 31), Z.add_simpl_r by lia.
    cbn. by rewrite !orb_false_r.
  - change 4 with (2 ^ 2). rewrite Z.div_pow2_bits by lia.
    destruct (Z.ltb_spec n 6); cbn [andb]; [|by rewrite Sr by lia].
    rewrite pci_address_testbit by lia.
    rewrite (Z.testbit_neg_r b), (Z.testbit_neg_r d), (Z.testbit_neg_r f), (eqb_false 31) by lia.
    cbn [orb]. replace (Z.testbit 0xFC (n + 2)) with true; [by rewrite andb_true_r|].
    assert (n = 0 ∨ n = 1 ∨ n = 2 ∨ n = 3 ∨ n = 4 ∨ n = 5) as Hc by lia.
    by destruct Hc as [-> |[-> |[-> |[-> |[-> | ->]]]]].
Qed.

Section scan.
Context {PT : Ports} {PB : PciBus} {HO : HeapOps}.
Implicit Types (s : machine).

Lemma getPCIData_ok b d f r s :
0 <= b < 256 → 0 <= d < 256 → 0 <= f < 8 → 0 <= r < 256 →
getPCIData b d f r s =
  Ok (pci_cfg s (Z.lor b (d / 32)) (d mod 32) f (r / 4)) (set_global g_pciAddress (pci_address b d f r) s).
Proof.
intros Hb Hd Hf Hr. destruct (pci_address_fields b d f r Hb Hd Hf Hr) as (H1 & H2 & H3 & H4 & H5).
unfold getPCIData. rewrite (bind_ok _ _ _ _ _ (pci_select s _)).
set (s1 := set_global _ _ s). assert (globals s1 g_pciAddress = pci_address b d f r) as E
  by apply globals_set_global_eq.
unfold PCI_CONFIG_DATA. rewrite pci_read by (by rewrite E). rewrite E, H2, H3, H4, H5.
f_equal. by apply pci_cfg_frame.
Qed.

(** Device number [i] of the loop answers with a vendor. *)
Definition slot_present s (bus i : Z) : bool :=
negb (PCI_HEADER_GET_VENDOR (pci_cfg s (Z.lor bus (i / 32)) (i mod 32) 0 0) =? 0xFFFF).
Definition slot_class s (bus i : Z) : Z :=
PCI_HEADER_GET_CLASSCODE (pci_cfg s (Z.lor bus (i / 32)) (i mod 32) 0 2).

(** The numbers below [n] with a device, in order. *)
Definition slots_below s (bus n : Z) : list Z := filter (λ i, slot_present s bus i = true) (seqZ 0 n).

(** The entry of the table for loop number [i]. *)
Definition entry_of s (bus i : Z) (m : gmap Z Z) (e : Z) : Prop :=
load 8 m e = slot_class s bus i ∧ load 1 m (e + 8) = bus ∧ load 1 m (e + 9) = i ∧
load 4 m (e + 12) = 0 ∧ load 1 m (e + 16) = 0.

(** [s'] is [s] with the devices [l] entered in the table at [d]. *)
Definition scanned s (bus d : Z) (l : list Z) s' : Prop :=
globals s' g_pciCount = Z.of_nat (length l) ∧ globals s' g_pciDevice = d ∧
globals s' g_pciAlloc = globals s g_pciAlloc ∧
(∀ k i, l !! k = Some i → entry_of s bus i (memory s') (d + 24 * Z.of_nat k)) ∧
same_on (λ a, a < d ∨ d + 24 * Z.of_nat (length l) <= a) (memory s) (memory s').

Lemma slots_below_succ s bus n : 0 <= n →
slots_below s bus (n + 1) = slots_below s bus n ++ (if slot_present s bus n then [n] else []).
Proof.
intros Hn. unfold slots_below. rewrite seqZ_app, filter_app by lia. f_equal.
change (seqZ (0 + n) 1) with [0 + (0 + n)]. rewrite !Z.add_0_l.
by destruct (slot_present s bus n) eqn:E; cbn; rewrite E.
Qed.

Lemma slots_below_length s bus n k : 0 <= n <= k → (length (slots_below s bus n) <= length (slots_below s bus k))%nat.
Proof.
intros H. unfold slots_below. replace k with (n + (k - n)) by lia.
rewrite seqZ_app, filter_app, length_app by lia. lia.
Qed.

Lemma entry_of_ext s bus i m m' e :
(∀ a, e <= a < e + 20 → mbyte m' a = mbyte m a) → entry_of s bus i m e → entry_of s bus i m' e.
Proof.
intros H (H1 & H2 & H3 & H4 & H5).
split_and!; [rewrite <- H1|rewrite <- H2|rewrite <- H3|rewrite <- H4|rewrite <- H5];
  apply load_ext; intros; apply H; lia.
Qed.

(** Entering a device when the table has room for one more after it. *)
Lemma record_device_ok s bus d l i s' :
scanned s bus d l s' → 0 <= bus < 256 → 0 <= i < 256 → 0 <= d →
Z.of_nat (length l) + 1 < globals s g_pciAlloc <= 2 ^ 16 - 1 →
0 <= slot_class s bus i < 2 ^ 64 →
wp (record_device bus i (slot_class s bus i)) (λ _, scanned s bus d (l ++ [i])) s'.
Proof.
intros (Hc & Hd & Ha & He & Hm) Hb Hi Hpos Hal Hcl. unfold record_device, pci_device.
fsteps. rewrite Hc, Hd. set (e := d + 24 * _). fsteps.
rewrite globals_set_global_ne by done. rewrite !globals_set_memory, Ha.
rewrite u16_id by lia. rewrite Z.geb_leb, leb_false by lia. wp_steps.
unfold scanned. rewrite length_app. cbn [length].
rewrite globals_set_global_eq, !globals_set_global_ne by done. rewrite !globals_set_memory.
split_and!; [lia|done|done| |].
- intros k j [Hj|[Hk Hj]]%lookup_app_Some.
  + eapply entry_of_ext; [|by apply He]. apply lookup_lt_Some in Hj.
    intros a Ha'. cbn [memory set_global set_memory]. subst e. by rewrite !mbyte_store_ne by lia.
  + apply list_lookup_singleton_Some in Hj as [Hk0 <-].
    replace (d + 24 * Z.of_nat k) with e by (subst e; lia).
    cbn [memory set_global set_memory]. unfold entry_of.
    rewrite !Z.add_0_r. split_and!.
    * rewrite !load_store_ne by lia. rewrite load_store_8. by apply u64_id.
    * rewrite !load_store_ne by lia. rewrite load_store_1. by apply u8_id.
    * rewrite load_store_1. by apply u8_id.
    * rewrite (load_store_ne _ _ _ (e + 9)), (load_store_ne _ _ _ (e + 16)) by lia. by rewrite load_store_4.
    * rewrite (load_store_ne _ _ _ (e + 9)) by lia. by rewrite load_store_1.
- intros a Ha'. cbn [memory set_global set_memory]. subst e. rewrite !mbyte_store_ne by lia.
  apply Hm. lia.
Qed.

(** C26: [scanBus] enters in the table, in ascending order, every device number
  below 255 whose vendor register answers, with its class code and the bus it
  was given, as long as the table has room; nothing else of memory changes.
  Numbers of 32 and more are read from the next buses: [i] is device [i mod 32]
  of bus [bus lor i/32]. *)
Theorem scanBus_enumerates bus d s :
0 <= bus < 256 → 0 <= d → d + 24 * Z.of_nat (length (slots_below s bus 255)) <= 2 ^ 64 →
globals s g_pciCount = 0 → globals s g_pciDevice = d →
Z.of_nat (length (slots_below s bus 255)) < globals s g_pciAlloc <= 2 ^ 16 - 1 →
wp (scanBus bus) (λ _, scanned s bus d (slots_below s bus 255)) s.
Proof.
intros Hb Hd Hend Hc Hdev Hal. unfold scanBus.
apply (wp_for_range (λ j, scanned s bus d (slots_below s bus j))); [lia| |done|].
2:{ change (slots_below s bus 0) with (@nil Z). split_and!; done. }
intros j s1 Hj Hs. pose proof (slots_below_succ s bus j ltac:(lia)) as Hsucc.
pose proof (slots_below_length s bus (j + 1) 255 ltac:(lia)) as Hlen.
assert (∀ t b x f r, memory t = memory s1 → pci_cfg t b x f r = pci_cfg s b x f r) as Hcfg.
{ intros t b x f r Ht. apply pci_cfg_frame. intros a Ha. rewrite Ht. apply Hs. right.
  pose proof (slots_below_length s bus j 255 ltac:(lia)). lia. }
unfold scan_slot. wp_step. eapply wp_eq; [apply getPCIData_ok; unfold PCI_HEADER_VENDOR; lia|].
rewrite Hcfg by done. change (PCI_HEADER_VENDOR / 4) with 0.
destruct (PCI_HEADER_GET_VENDOR _ =? 0xFFFF) eqn:E.
{ wp_step. rewrite Hsucc. unfold slot_present. rewrite E, app_nil_r.
  destruct Hs as (H1 & H2 & H3 & H4 & H5). split_and!; rewrite ?globals_set_global_ne by done; done. }
assert (slot_present s bus j = true) as Ep by (unfold slot_present; by rewrite E).
rewrite Ep in Hsucc. rewrite Hsucc, length_app in *. cbn [length] in Hlen.
wp_step. eapply wp_eq; [apply getPCIData_ok; unfold PCI_HEADER_DEVICEID; lia|].
wp_step. eapply wp_eq; [apply getPCIData_ok; unfold PCI_HEADER_CLASSCODE; lia|].
rewrite Hcfg by done. change (PCI_HEADER_CLASSCODE / 4) with 2.
apply record_device_ok; try lia.
- destruct Hs as (H1 & H2 & H3 & H4 & H5).
  split_and!; rewrite ?globals_set_global_ne by done; done.
- pose proof (pci_cfg_range s (Z.lor bus (j / 32)) (j mod 32) 0 2).
  unfold slot_class, PCI_HEADER_GET_CLASSCODE. rewrite Z.shiftr_div_pow2 by lia. zlia.
Qed.
End scan.

(** ** The capability list *)

Section capabilities.
Context {PT : Ports} {PB : PciBus}.
Implicit Types (s : machine).

(** The list of (pointer, id) of the capabilities of function 0 from [next] on. *)
Fixpoint cap_chain s (bus dev next : Z) (l : list (Z * Z)) : Prop :=
match l with
| [] => next = 0
| (p, id) :: l' =>
    let header := pci_cfg s bus dev 0 (p / 4) in
    next = p ∧ 0 < p < 256 ∧ PCI_CAPABILITY_ID header = id ∧
    cap_chain s bus dev (PCI_CAPABILITY_NEXT header) l'
end.

(** The first MSI-X capability, else the last MSI one, else [best]: its pointer
  and whether it is MSI-X. *)
Fixpoint cap_choice (l : list (Z * Z)) (best : option (Z * bool)) : option (Z * bool) :=
match l with
| [] => best
| (p, id) :: l' =>
    if id =? PCI_CAPABILITY_ID_MSIX then Some (p, true)
    else cap_choice l' (if id =? PCI_CAPABILITY_ID_MSI then Some (p, false) else best)
end.

(** The [found] and [ptr] of a choice, and the [msix] flag it leaves at [msi]. *)
Definition found_of (best : option (Z * bool)) : bool * Z :=
match best with Some (p, _) => (true, p) | None => (false, 0) end.
Definition msix_of (msi : Z) (best : option (Z * bool)) (m : gmap Z Z) : Prop :=
∀ p x, best = Some (p, x) → load 4 m (msi + 4) = if x : bool then 1 else 0.

(** Only the flag may have changed. *)
Definition flag_frame (msi : Z) s s' : Prop :=
same_on (λ a, ¬ (msi + 4 <= a < msi + 8)) (memory s) (memory s') ∧
∀ g, g ≠ g_pciAddress → globals s' g = globals s g.

Lemma flag_frame_cfg msi s s' b d f r :
flag_frame msi s s' → msi + 8 <= 2 ^ 64 → pci_cfg s' b d f r = pci_cfg s b d f r.
Proof. intros [Hm _] Hlt. apply pci_cfg_frame. intros a Ha. apply Hm. lia. Qed.

Lemma cap_chain_ext msi s s' bus dev next l :
flag_frame msi s s' → msi + 8 <= 2 ^ 64 → cap_chain s bus dev next l → cap_chain s' bus dev next l.
Proof.
intros Hf Hlt. revert next. induction l as [|[p id] l IH]; intros next; cbn [cap_chain]; [done|].
rewrite (flag_frame_cfg msi s s') by done. intros (H1 & H2 & H3 & H4). auto.
Qed.

Lemma flag_frame_select msi s s' a : flag_frame msi s s' → flag_frame msi s (set_global g_pciAddress a s').
Proof. intros [H1 H2]. split; [done|]. intros g Hg. rewrite globals_set_global_ne by done. by apply H2. Qed.

Lemma flag_frame_store msi s s' v :
flag_frame msi s s' → flag_frame msi s (set_memory (store 4 (memory s') (msi + 4) v) s').
Proof.
intros [H1 H2]. split; [|done]. intros a Ha. cbn [memory set_memory].
rewrite mbyte_store_ne by lia. by apply H1.
Qed.

Lemma cap_walk_ok msi bus dev l : ∀ fuel next best s0 s,
0 <= bus < 256 → 0 <= dev < 32 → msi + 8 <= 2 ^ 64 → (length l < fuel)%nat →
cap_chain s bus dev next l → flag_frame msi s0 s → msix_of msi best (memory s) →
wp (iter fuel (cap_step msi bus dev) (next, (found_of best).1, (found_of best).2))
  (λ r s', r = found_of (cap_choice l best) ∧ msix_of msi (cap_choice l best) (memory s') ∧
     flag_frame msi s0 s') s.
Proof.
induction l as [|[p id] l IH]; intros [|fuel] next best s0 s Hb Hd Hm Hf Hc Hs Hx;
  cbn [length] in Hf; try lia; apply wp_iter_S; cbn [cap_step].
- cbn [cap_chain] in Hc. subst next. cbn. by destruct (found_of best).
- destruct Hc as (-> & Hp & Hid & Hc). rewrite eqb_false by lia. wp_step.
  eapply wp_eq; [apply getPCIData_ok; lia|].
  rewrite (Z.div_small dev 32), (Z.mod_small dev 32), Z.lor_0_r by lia.
  set (h := pci_cfg _ _ _ _ _) in *. rewrite Hid.
  assert (0 <= id < 256) as Hidr by (subst id; apply (land_bound h 0xFF 8); lia).
  rewrite u8_id by lia. cbn [cap_choice]. apply (flag_frame_select _ _ _ (pci_address bus dev 0 p)) in Hs.
  set (s1 := set_global _ _ s) in *.
  destruct (Z.eqb_spec id PCI_CAPABILITY_ID_MSI) as [->|Hn1]; cbn [Z.eqb]; fsteps.
  + change (PCI_CAPABILITY_ID_MSI =? PCI_CAPABILITY_ID_MSIX) with false. cbn iota. fsteps.
    apply (IH fuel _ (Some (p, false))); [done..|lia| | |].
    * eapply cap_chain_ext; [|exact Hm|exact Hc].
      apply flag_frame_store, flag_frame_select. by split; [reflexivity|].
    * by apply flag_frame_store.
    * intros q x [= <- <-]. cbn [memory set_memory]. by rewrite load_store_4.
  + destruct (Z.eqb_spec id PCI_CAPABILITY_ID_MSIX) as [->|Hn2]; fsteps.
    * split_and!; [done| |by apply flag_frame_store].
      intros q x [= <- <-]. cbn [memory set_memory]. by rewrite load_store_4.
    * replace ((found_of best).1, (found_of best).2) with (found_of best) by by destruct (found_of best).
      apply IH; [done..|lia| |done|done].
      eapply cap_chain_ext; [|exact Hm|exact Hc]. apply flag_frame_select. by split; [reflexivity|].
Qed.

(** C32: on a capability list that ends, [initMSIX]'s walk ends too: it picks the
  first MSI-X capability, without one the last MSI capability, and reports
  none when there is neither; it sets the [msix] flag to match.  The list is
  that of function 0, reached from the pointer of the function asked for. *)
Theorem find_capability_prefers_msix fuel msi bus dev fn l s :
0 <= bus < 256 → 0 <= dev < 32 → 0 <= fn < 8 → 0 <= msi → msi + 8 <= 2 ^ 64 →
cap_chain s bus dev (PCI_HEADER_CAPABILITIES_POINTER (pci_cfg s bus dev fn 0xD)) l →
(length l < fuel)%nat →
wp (find_capability fuel msi bus dev fn)
  (λ r s', r = found_of (cap_choice l None) ∧ msix_of msi (cap_choice l None) (memory s') ∧
     flag_frame msi s s') s.
Proof.
intros Hb Hd Hf Hm0 Hm Hc Hfuel. unfold find_capability. wp_step.
eapply wp_eq; [apply getPCIData_ok; unfold PCI_HEADER_CAPABILITIES_PTR_RESERVED; lia|].
rewrite (Z.div_small dev 32), (Z.mod_small dev 32), Z.lor_0_r by lia.
change (PCI_HEADER_CAPABILITIES_PTR_RESERVED / 4) with 0xD.
apply (cap_walk_ok msi bus dev l fuel _ None); try done.
- eapply cap_chain_ext; [|exact Hm|exact Hc]. apply flag_frame_select. by split; [reflexivity|].
- apply flag_frame_select. by split; [reflexivity|].
Qed.
End capabilities.

(** ** Witnesses *)

(** A chipset with the configuration space [cfg]. *)
Definition pci_ports (cfg : Z → Z → Z → Z → Z) : Ports := {|
  inb := λ _, mret 0;
  outb := λ _ _, mret tt;
  ind := λ p s, let a := globals s g_pciAddress in
    Ok (if p =? 0xCFC then u32 (cfg (bits a 16 8) (bits a 11 5) (bits a 8 3) (bits a 2 6)) else 0) s;
  outd := λ p v, if p =? 0xCF8 then gwrite g_pciAddress v else mret tt
|}.
Definition pci_ports_bus cfg : @PciBus (pci_ports cfg).
Proof.
  refine (@Build_PciBus (pci_ports cfg) (λ _ b d f r, u32 (cfg b d f r)) _ _ _ _).
  - intros. apply u32_range.
  - done.
  - done.
  - done.
Defined.

(** Bus 0 has a host bridge (device 0) and an AHCI controller (device 3), bus 1 a
    network card (device 2).  The controller has an MSI capability at 0x40 and an
    MSI-X capability at 0x50. *)
Definition example_cfg (b d f r : Z) : Z :=
  if (b =? 0) && (d =? 0) then (if r =? 0 then 0x12378086 else if r =? 2 then 0x06000000 else 0)
  else if (b =? 1) && (d =? 2) then (if r =? 0 then 0x10008086 else if r =? 2 then 0x02000000 else 0)
  else if (b =? 0) && (d =? 3) then
    (if r =? 0 then 0x29228086 else if r =? 2 then 0x01060100 else if r =? 0xD then 0x40
     else if r =? 0x10 then 0x00805005 else if r =? 0x14 then 0x00030011 else 0)
  else 0xFFFFFFFF.

Definition scan_machine : machine := set_global g_pciAlloc 10 (set_global g_pciDevice 0x8000 machine0).

(** Three devices; the card on bus 1 is entered as device 34 of bus 0. *)
Lemma scanBus_enumerates_witness :
  @slots_below (pci_ports example_cfg) (pci_ports_bus example_cfg) scan_machine 0 255 = [0; 3; 34] ∧
  wp (@scanBus (pci_ports example_cfg)
        {| kmalloc _ := mret 0; kmallocAligned _ := mret 0; kfree _ := mret tt; krealloc _ _ := mret 0 |} 0)
     (λ _, @scanned (pci_ports example_cfg) (pci_ports_bus example_cfg) scan_machine 0 0x8000
        (@slots_below (pci_ports example_cfg) (pci_ports_bus example_cfg) scan_machine 0 255)) scan_machine.
Proof.
  assert (@slots_below (pci_ports example_cfg) (pci_ports_bus example_cfg) scan_machine 0 255 = [0; 3; 34])
    as E by by vm_compute.
  split; [exact E|].
  apply (@scanBus_enumerates (pci_ports example_cfg) (pci_ports_bus example_cfg) _ 0 0x8000 scan_machine);
    rewrite ?E; done || (cbn; lia).
Defined.

Lemma find_capability_prefers_msix_witness :
  wp (@find_capability (pci_ports example_cfg) 5 0x9000 0 3 0)
     (λ r s', r = (true, 0x50) ∧ msix_of 0x9000 (Some (0x50, true)) (memory s') ∧
        flag_frame 0x9000 machine0 s') machine0.
Proof.
  apply (@find_capability_prefers_msix (pci_ports example_cfg) (pci_ports_bus example_cfg)
    5 0x9000 0 3 0 [(0x40, 5); (0x50, 0x11)] machine0);
    first [lia | cbn; lia | vm_compute; by repeat split].
Defined.
