(* ===== verification/Acpi.v ===== *)
(** * acpi.c, apic.c: ACPI tables and the interrupt controller structures

    The tables are in memory, at the addresses the firmware put them.
    [findNextICS] walks the interrupt controller structures of the MADT,
    [initAPIC] starts the I/O APICs and the local APIC from it, [initACPI] finds
    the tables.  The devices are parameters: Apic.v and Hpet.v model them. *)

From S2P Require Import Prelude Kmonad Mem Layout Mmap Kprintf.

(** ** acpi.h *)

Definition rsdp : layout :=
  Layout Packed [U64 "signature"; U8 "checksum"; Arr U8 "oemid" 6; U8 "revision"; U32 "rsdt"; U32 "length";
    U64 "xsdt"; U8 "extendedChecksum"; Arr U8 "reserved" 3].
Definition rsdt : layout :=
  Layout Packed [U32 "signature"; U32 "length"; U8 "revision"; U8 "checksum"; Arr U8 "oemid" 6;
    U64 "oemTableid"; U32 "oemRevision"; Arr U8 "creatorid" 4; U32 "creatorRevision"].
Definition acpiDescHeader : layout :=
  Layout Packed [U32 "signature"; U32 "length"; U8 "revision"; U8 "checksum"; Arr U8 "oemid" 6;
    U64 "oemTableid"; U32 "oemRevision"; Arr U8 "creatorid" 4; U32 "creatorRevision"].
Definition acpiMADT : layout :=
  Layout Packed [U32 "signature"; U32 "length"; U8 "revision"; U8 "checksum"; Arr U8 "oemid" 6;
    U64 "oemTableid"; U32 "oemRevision"; Arr U8 "creatorID" 4; U32 "creatorRevision";
    U32 "LocalInterruptControllerAddress"; U32 "flags"].
Definition icsHeader : layout := Layout Packed [U8 "type"; U8 "length"].
(** [struct lapic] of acpi.h *)
Definition ics_lapic : layout := Layout Packed [Sub icsHeader "header"; U8 "uid"; U8 "lapicID"; U32 "flags"].
Definition ioApic : layout :=
  Layout Packed [Sub icsHeader "header"; U8 "id"; U8 "reserved"; U32 "ioAddr"; U32 "sib"].
Definition interruptSourceOverride : layout :=
  Layout Packed [Sub icsHeader "header"; U8 "bus"; U8 "source"; U32 "gsi"; U16 "flags"].

Definition RSDP_SIGNATURE : Z := 0x2052545020445352.
Definition XSDT_SIGNATURE : Z := 0x0.
Definition APIC_SIGNATURE : Z := 0x43495041.
Definition HPET_SIGNATURE : Z := 0x54455048.
Definition ICS_LAPIC : Z := 0.
Definition ICS_IOAPIC : Z := 1.
Definition ICS_ISO : Z := 2.
Definition LAPIC_ENABLED : Z := Z.shiftl 1 0.
Definition LAPIC_ONLINE_CAPABLE : Z := Z.shiftl 1 1.

(** ** apic.c *)

(** One round of the search, from the structure at [check]. *)
Definition ics_step (type : Z) (w : Z * Z) : M machine (Z * Z + Z) :=
  let '(clen, check) := w in
  madtLength ← gread g_madtLength;
  if clen <=? madtLength then
    len ← ldf icsHeader "length" check;
    let check := check + len in
    len ← ldf icsHeader "length" check;
    t ← ldf icsHeader "type" check;
    if t =? type then mret (inr check) else mret (inl (u64 (clen + len), check))
  else mret (inr 0).

Definition findNextICS (fuel : nat) (type current : Z) (checkInitial : bool) : M machine Z :=
  madtBase ← gread g_madtBase;
  let clen := u64 (u64 (current - madtBase) - size_of acpiMADT) in
  hit ← (if checkInitial then t ← ldf icsHeader "type" current; mret (t =? type) else mret false);
  if hit : bool then mret current
  else iter fuel (ics_step type) (clen, current).

(** The test of the processor loop: [==] binds tighter than [|]. *)
Definition lapic_skipped (flags : Z) : bool :=
  negb (Z.lor (Z.land flags LAPIC_ENABLED)
          (if Z.land flags LAPIC_ONLINE_CAPABLE =? 0 then 1 else 0) =? 0).

Section acpi.
Variable fuel : nat.
Context (initIOAPIC : Z → Z → M machine unit) (initLapic : Z → Z → Z → M machine unit).

(** Start every I/O APIC from [check] on. *)
Definition start_ioapics (header check : Z) : M machine unit :=
iter fuel (λ check,
  if check =? 0 then mret (inr tt)
  else
    _ ← initIOAPIC check header;
    check ← findNextICS fuel ICS_IOAPIC check false;
    mret (inl check)) check.

(** One round of the loop that counts processors. *)
Definition count_step (w : Z * Z) : M machine (Z * Z + Z) :=
let '(check, apCount) := w in
check ← findNextICS fuel ICS_LAPIC check false;
if check =? 0 then mret (inr apCount)
else
  flags ← ldf ics_lapic "flags" check;
  if lapic_skipped flags then mret (inl (check, apCount))
  else mret (inl (check, u16 (apCount + 1))).

(** The processors in the local APIC structures after [check]. *)
Definition count_lapics (check : Z) : M machine Z := iter fuel count_step (check, 1).

Definition initAPIC (madt : Z) : M machine unit :=
_ ← gwrite g_madtBase madt;
len ← ldf acpiMADT "length" madt;
_ ← gwrite g_madtLength len;
let header := madt + size_of acpiMADT in
check ← findNextICS fuel ICS_IOAPIC header true;
_ ← start_ioapics header check;
mpw ← findNextICS fuel ICS_IOAPIC header true;
check ← findNextICS fuel ICS_IOAPIC header true;
apCount ← count_lapics check;
bar ← ldf acpiMADT "LocalInterruptControllerAddress" madt;
initLapic bar apCount mpw.

(** ** acpi.c *)

Context (initHPET : Z → M machine unit).
Context {PT : Ports}.
Variable spin : nat.

Definition printAPCIstr (str bytes : Z) : M machine unit :=
for_range 0 bytes (λ i, c ← ld 1 (str + i); kprintChar spin c).

(** Of the line [indentifyTable] prints the identifiers only. *)
Definition indentifyTable (ptr : Z) : M machine unit :=
_ ← printAPCIstr (ptr + fld acpiDescHeader "signature") 4;
_ ← printAPCIstr (ptr + fld acpiDescHeader "oemid") 6;
_ ← printAPCIstr (ptr + fld acpiDescHeader "creatorid") 4;
sig ← ldf acpiDescHeader "signature" ptr;
if sig =? HPET_SIGNATURE then initHPET ptr
else if sig =? APIC_SIGNATURE then initAPIC ptr
else mret tt.

(** The second test of the guard can not hold when the first does not. *)
Definition initACPI (kinf : bootInfo) : M machine unit :=
let p := bi_acpiptr kinf in
sig ← ldf rsdp "signature" p;
if negb (sig =? RSDP_SIGNATURE) || (sig =? XSDT_SIGNATURE) then mret tt
else
  r ← ldf rsdp "rsdt" p;
  let tables := r + size_of rsdt in
  iter fuel (λ i,
    t ← ld 4 (tables + 4 * i);
    if t =? 0 then mret (inr tt)
    else _ ← indentifyTable t; mret (inl (s32 (i + 1)))) 0.
End acpi.

(** ** The list of structures *)

Section structures.
Implicit Types (s : machine) (m : gmap Z Z) (l : list (Z * Z)).

(** The structures (type, length) of [l] lie one after the other from [a] on. *)
Fixpoint ics_chain m (a : Z) l : Prop :=
match l with
| [] => True
| (t, len) :: l' => load 1 m a = t ∧ load 1 m (a + 1) = len ∧ ics_chain m (a + len) l'
end.

Fixpoint ics_total l : Z := match l with [] => 0 | (_, len) :: l' => len + ics_total l' end.

Lemma ics_chain_total m a l : ics_chain m a l → 0 <= ics_total l.
Proof.
revert a. induction l as [|[t len] l IH]; intros a; cbn [ics_chain ics_total]; [lia|].
intros (_ & Hl & Hc). apply IH in Hc. pose proof (load_1_range m (a + 1)). lia.
Qed.

Lemma ics_step_eq type clen check s :
0 <= clen <= globals s g_madtLength →
ics_step type (clen, check) s =
  let a := check + load 1 (memory s) (check + 1) in
  Ok (if load 1 (memory s) a =? type then inr a
      else inl (u64 (clen + load 1 (memory s) (a + 1)), a)) s.
Proof.
intros Hc. unfold ics_step. mstep. rewrite leb_true by lia. fields. do 3 mstep.
rewrite !Z.add_0_r. by destruct (_ =? type).
Qed.

Lemma ics_search_finds type l : ∀ fuel clen check len0 k h s,
load 1 (memory s) (check + 1) = len0 → ics_chain (memory s) (check + len0) l →
list_find (λ h, h.1 = type) l = Some (k, h) →
0 <= clen → clen + ics_total (take k l) <= globals s g_madtLength → globals s g_madtLength < 2 ^ 32 →
(k < fuel)%nat →
iter fuel (ics_step type) (clen, check) s = Ok (check + len0 + ics_total (take k l)) s.
Proof.
induction l as [|[t len] l IH]; intros fuel clen check len0 k h s Hl0 Hc Hf H0 Hle Hm Hk; [done|].
destruct Hc as (Ht & Hlen & Hc). pose proof (load_1_range (memory s) (check + len0 + 1)).
destruct fuel as [|fuel]; [lia|]. cbn [iter]. cbn [list_find] in Hf.
destruct (decide _) as [E|E]; cbn [fst] in E.
- injection Hf as <- <-. cbn [take ics_total] in *.
  rewrite (bind_ok _ _ _ _ _ (ics_step_eq type clen check s ltac:(lia))). cbv zeta.
  rewrite Hl0, Ht. rewrite eqb_true by done. by rewrite Z.add_0_r.
- destruct (list_find _ l) as [[k' h']|] eqn:Ef; [|done]. injection Hf as <- <-. cbn [take ics_total] in *.
  assert (0 <= ics_total (take k' l)) as Ht1.
  { clear -Hc. revert k' Hc. generalize (check + len0 + len). induction l as [|[t' len'] l IH];
      intros a [|k'] Hc; cbn [take ics_total]; try lia. destruct Hc as (_ & Hl & Hc).
    specialize (IH _ k' Hc). pose proof (load_1_range (memory s) (a + 1)). lia. }
  rewrite (bind_ok _ _ _ _ _ (ics_step_eq type clen check s ltac:(lia))). cbv zeta.
  rewrite Hl0, Ht, eqb_false, Hlen by done. rewrite u64_id by lia.
  rewrite (IH fuel (clen + len) (check + len0) len k' h' s); [f_equal; lia|done..|lia|lia|done|lia].
Qed.

(** C29: called with [checkInitial] false, [findNextICS] skips [current] and returns the
  address of the first structure after it that has the type, when the structures from [current] on are
  consecutive and the one found starts within the table; nothing changes.  The comment on [checkInitial]
  says that [current] is skipped if it is true. *)
Theorem findNextICS_finds fuel type current t0 len0 l k h s :
let base := globals s g_madtBase in
ics_chain (memory s) current ((t0, len0) :: l) → list_find (λ h, h.1 = type) l = Some (k, h) →
0 <= base → base + 44 <= current → current < 2 ^ 63 → globals s g_madtLength < 2 ^ 32 →
current + ics_total (take k l) <= base + globals s g_madtLength + 44 → (k < fuel)%nat →
findNextICS fuel type current false s = Ok (current + len0 + ics_total (take k l)) s.
Proof.
intros base (_ & Hlen & Hc) Hf Hb0 Hb Hcur Hm Hle Hk. unfold findNextICS. fields. mstep. mstep.
fold base. rewrite (u64_id (current - base)) by lia. rewrite u64_id by lia.
eapply ics_search_finds; try done; lia.
Qed.

(** Non-empty structures from [a] on up to one of type 0 and length 0 at [z]. *)
Inductive zero_ended m (z : Z) : Z → Prop :=
| ze_zero : load 1 m z = 0 → load 1 m (z + 1) = 0 → zero_ended m z z
| ze_step a : 0 < load 1 m (a + 1) → zero_ended m z (a + load 1 m (a + 1)) → zero_ended m z a.

Lemma zero_ended_le m z a : zero_ended m z a → a <= z.
Proof. induction 1; lia. Qed.

Lemma zero_ended_next m z a : zero_ended m z a → zero_ended m z (a + load 1 m (a + 1)).
Proof. destruct 1 as [H1 H2|a H1 H2]; [|done]. rewrite H2, Z.add_0_r. by constructor. Qed.

(** The end of a structure is not behind the empty one. *)
Lemma zero_ended_end m z a : zero_ended m z a → a + load 1 m (a + 1) <= z.
Proof. intros H. by eapply zero_ended_le, zero_ended_next. Qed.

Lemma ics_search_zero z s : ∀ fuel clen check,
zero_ended (memory s) z check → 0 <= clen → 0 <= globals s g_madtBase →
clen + globals s g_madtBase + 44 <= check + load 1 (memory s) (check + 1) →
z <= globals s g_madtBase + 44 + globals s g_madtLength → globals s g_madtLength < 2 ^ 32 →
iter fuel (ics_step ICS_LAPIC) (clen, check) s = Fault NoFuel ∨
∃ a, iter fuel (ics_step ICS_LAPIC) (clen, check) s = Ok a s ∧ zero_ended (memory s) z a ∧ check <= a.
Proof.
induction fuel as [|fuel IH]; intros clen check Hz H0 Hb Hc Hm Hm2; [by left|].
pose proof (zero_ended_end _ _ _ Hz) as He. pose proof (zero_ended_next _ _ _ Hz) as Hn.
pose proof (load_1_range (memory s) (check + 1)). cbn [iter].
rewrite (bind_ok _ _ _ _ _ (ics_step_eq ICS_LAPIC clen check s ltac:(lia))). cbv zeta.
set (a := check + _) in *. destruct (_ =? ICS_LAPIC).
- right. exists a. split; [done|]. split; [done|lia].
- pose proof (load_1_range (memory s) (a + 1)). rewrite u64_id by lia.
  destruct (IH (clen + load 1 (memory s) (a + 1)) a) as [E|(c & E & Hz' & Hle)]; try done; try lia.
  + by left.
  + right. exists c. split; [done|]. split; [done|lia].
Qed.

(** when zero bytes follow the structures of the table, counting the
  processors never ends: the bound of [findNextICS] lets it look 44 bytes
  behind the table, where it takes the zeros for a local APIC structure of
  length 0 and finds that one again for ever. *)
Theorem count_lapics_zero_diverges fuel check z s :
let base := globals s g_madtBase in
zero_ended (memory s) z check → 0 <= base → base + 44 <= check → z < 2 ^ 63 →
z <= base + 44 + globals s g_madtLength → globals s g_madtLength < 2 ^ 32 →
count_lapics fuel check s = Fault NoFuel.
Proof.
intros base Hz Hb0 Hb Hz63 Hm Hm2. unfold count_lapics. generalize (1 : Z) as apCount. revert check Hz Hb.
generalize fuel at 1. intros n. induction n as [|n IH]; intros check Hz Hb apCount; [done|].
pose proof (zero_ended_le _ _ _ Hz). pose proof (load_1_range (memory s) (check + 1)).
cbn [iter]. change base with (globals s g_madtBase) in *.
assert (findNextICS fuel ICS_LAPIC check false s = iter fuel (ics_step ICS_LAPIC)
  (check - globals s g_madtBase - 44, check) s) as E.
{ unfold findNextICS. fields. do 2 mstep. rewrite (u64_id (check - _)) by lia. by rewrite u64_id by lia. }
destruct (ics_search_zero z s fuel (check - globals s g_madtBase - 44) check)
  as [En|(a & Ea & Hza & Hle)]; try done; try lia.
- apply bind_fault. unfold count_step. apply bind_fault. by rewrite E.
- set (flags := load 4 (memory s) (a + 4)).
  rewrite (bind_ok _ _ _ (inl (a, if lapic_skipped flags then apCount else u16 (apCount + 1))) s).
  { case_match; apply IH; done || lia. }
  unfold count_step. rewrite (bind_ok _ _ _ a s) by (by rewrite E). rewrite eqb_false by lia. fields. mstep. fold flags.
  by destruct (lapic_skipped flags).
Qed.
End structures.

(** ** Witnesses *)

(** A MADT at 0x1000 with a local APIC structure (8 bytes) and an I/O APIC
    structure (12 bytes), followed by zeros. *)
Definition madt_machine : machine :=
  set_global g_madtLength 64 (set_global g_madtBase 0x1000
    (set_memory (write_bytes ∅ 0x102C [0; 8; 0; 0; 1; 0; 0; 0; 1; 12]) machine0)).

Lemma findNextICS_finds_witness :
  findNextICS 1 ICS_IOAPIC 0x102C false madt_machine = Ok (0x102C + 8 + 0) madt_machine.
Proof.
  apply (findNextICS_finds 1 ICS_IOAPIC 0x102C 0 8 [(1, 12)] 0 (1, 12) madt_machine);
    first [by vm_compute | cbn; lia].
Defined.

Lemma count_lapics_zero_diverges_witness : count_lapics 1000 0x1034 madt_machine = Fault NoFuel.
Proof.
  apply (count_lapics_zero_diverges 1000 0x1034 0x1040 madt_machine); [|first [by vm_compute | cbn; lia]..].
  apply ze_step; [by vm_compute|].
  change (0x1034 + load 1 (memory madt_machine) (0x1034 + 1)) with 0x1040. by constructor.
Defined.
