(* ===== verification/Apic.v ===== *)
(** * ioapic.c, lapic.c and pit.c: interrupt controllers and the interval timer

    Register blocks are reached through [Mmio], the arrays [ioapic] and [lapic]
    are in memory.  [apic_init] puts initIOAPIC and initLapic in the place of
    the parameters of Acpi.v. *)

From S2P Require Import Prelude Kmonad Mem Layout Device Heap Pmm Vmm Paging Kprintf Cpu Acpi.

(** ** ioapic.h, lapic.h, pit.h *)

Definition ioapicMMIO : layout := Layout Packed [U32 "regsel"; U32 "pad"; U32 "win"].
Definition ioapicInfo : layout := Layout Natural [U64 "mmio"; U64 "physBAR"; U32 "intmap"].
Definition IOAPIC_REGSEL : Z := 0x0.
Definition IOAPIC_WIN : Z := 0x10.
Definition IOAPIC_REDTBL_ENTRY (i : Z) : Z := 0x10 + 2 * i.
Definition IOAPIC_REDTBL_APICID (id : Z) : Z := u64 (Z.shiftl id 56).
Definition IOAPIC_REDTBL_DELIVER_MODE (v : Z) : Z := u64 (Z.shiftl v 10).
Definition IOAPIC_REDTBL_VECTOR (v : Z) : Z := u64 (Z.shiftl v 0).
Definition IOAPIC_DELIVERY_MODE_FIXED : Z := 0x0.

(** A register of 4 bytes and the padding behind it. *)
Definition lapicMMIO : layout := Layout Packed [
  Arr U64 "pad0" 4; U32 "id"; Arr U32 "pad1" 3; U32 "version"; Arr U32 "pad2" 19;
  U32 "taskPriority"; Arr U32 "pad3" 3; U32 "arbitrationPriority"; Arr U32 "pad4" 3;
  U32 "processorPriority"; Arr U32 "pad5" 3; U32 "endOfInterrupt"; Arr U32 "pad6" 3;
  U32 "remoteRead"; Arr U32 "pad7" 3; U32 "logicalDestination"; Arr U32 "pad8" 3;
  U32 "destinationFormat"; Arr U32 "pad9" 3; U32 "spurriousInterrupt"; Arr U32 "pad10" 3;
  Arr U32 "inService" 28; Arr U32 "pad11" 4; Arr U32 "triggerMode" 28; Arr U32 "pad12" 4;
  Arr U32 "interruptRequest" 28; Arr U32 "pad13" 4; U32 "errorStatus"; Arr U32 "pad14" 31;
  U32 "icrLower"; Arr U32 "pad15" 3; U32 "icrUpper"; Arr U32 "pad16" 3;
  U32 "timerLVT"; Arr U32 "pad17" 3; U32 "thermalLVT"; Arr U32 "pad18" 3;
  U32 "perfCounterLVT"; Arr U32 "pad19" 3; U32 "lint0LVT"; Arr U32 "pad20" 3;
  U32 "lint1LVT"; Arr U32 "pad21" 3; U32 "errorVector"; Arr U32 "pad22" 3;
  U32 "timerInitialCount"; Arr U32 "pad23" 3; U32 "timerCurrentCount"; Arr U32 "pad24" 19;
  U32 "timerDivideConfig"; Arr U32 "pad25" 7; U32 "exAPICFeature"; Arr U32 "pad26" 3;
  U32 "exAPICControl"; Arr U32 "pad27" 3; U32 "specificEOI"; Arr U32 "pad28" 23;
  Arr U32 "interruptEnableRegisters" 28; Arr U32 "pad29" 4; Arr U32 "extendedInterruptLVT" 12].
Definition lapicInfo : layout :=
  Layout Natural [U64 "mmio"; U64 "physBAR"; U16 "id"; Bool "bsc"; Bool "x2apic"].

Definition LAPIC_MSR_BASE : Z := 0x1B.
Definition LAPIC_MSR_BASE_X2APIC_ENABLE : Z := Z.shiftl 0x1 10.
Definition LAPIC_MSR_BASE_APIC_ENABLE : Z := Z.shiftl 0x1 11.
Definition LAPIC_ID : Z := 0x20.
Definition LAPIC_ID_AID (id : Z) : Z := Z.shiftr id 24.
Definition LAPIC_VERSION : Z := 0x30.
Definition LAPIC_TPR : Z := 0x80.
Definition LAPIC_APR : Z := 0x90.
Definition LAPIC_PPR : Z := 0xA0.
Definition LAPIC_EOI : Z := 0xB0.
Definition LAPIC_RRR : Z := 0xC0.
Definition LAPIC_LDR : Z := 0xD0.
Definition LAPIC_DFR : Z := 0xE0.
Definition LAPIC_SPURIOUS_INT : Z := 0xF0.
Definition LAPIC_ISR (idx : Z) : Z := idx * 16 + 0x100.
Definition LAPIC_TMR (idx : Z) : Z := idx * 16 + 0x180.
Definition LAPIC_IRR (idx : Z) : Z := idx * 16 + 0x200.
Definition LAPIC_ESR : Z := 0x280.
Definition LAPIC_ICR0 : Z := 0x300.
Definition LAPIC_ICR1 : Z := 0x310.
Definition LAPIC_TIMER_LVT : Z := 0x320.
Definition LAPIC_THERMAL_LVT : Z := 0x330.
Definition LAPIC_PERFORMANCE : Z := 0x340.
Definition LAPIC_LINT0 : Z := 0x350.
Definition LAPIC_LINT1 : Z := 0x360.
Definition LAPIC_LVT_ERROR : Z := 0x370.
Definition LAPIC_INITIAL_COUNT : Z := 0x380.
Definition LAPIC_CURRENT_COUNT : Z := 0x390.
Definition LAPIC_DIVIDE_CONFIG : Z := 0x3E0.
Definition LAPIC_SET_DIVIDE_CONFIG (d : Z) : Z := Z.lor (Z.shiftl (Z.land d 0x4) 1) (Z.land d 0x3).

Definition PIT_PORT_CHANNEL0 : Z := 0x40.
Definition PIT_PORT_MODE : Z := 0x43.
Definition PIT_MODE_OPERATING (o : Z) : Z := Z.shiftl (Z.land o 0x07) 1.
Definition PIT_MODE_ACCESS (a : Z) : Z := Z.shiftl (Z.land a 0x03) 4.
Definition PIT_MODE_CHANNEL (c : Z) : Z := Z.shiftl (Z.land c 0x03) 6.
Definition PIT_OPERATING_MODE_INT_ON_COUNT : Z := 0x0.
Definition PIT_ACCESS_HILO : Z := 0x3.
Definition PIT_CHANNEL0 : Z := 0x0.

(** ** ioapic.c *)

Section ioapic.
Context {MM : Mmio} {HO : HeapOps} {VO : VmemPhysOps}.
Variable fuel : nat.
(** The address of the variable [ioapic]. *)
Variable sym_ioapic : Z.

(** [ioapic[0].mmio] *)
Definition ioapic_mmio : M machine Z := a ← gread g_ioapic; ldf ioapicInfo "mmio" a.

Definition readIOAPIC (reg : Z) : M machine Z :=
mmio ← ioapic_mmio; _ ← str ioapicMMIO "regsel" mmio reg;
mmio ← ioapic_mmio; ldr ioapicMMIO "win" mmio.

Definition writeIOAPIC (val reg : Z) (qword : bool) : M machine unit :=
mmio ← ioapic_mmio; _ ← str ioapicMMIO "regsel" mmio reg;
mmio ← ioapic_mmio; _ ← str ioapicMMIO "win" mmio (u32 (Z.land val 0xFFFFFFFF));
if negb qword then mret tt
else
  let reg := u32 (reg + 1) in
  mmio ← ioapic_mmio; _ ← str ioapicMMIO "regsel" mmio reg;
  mmio ← ioapic_mmio; str ioapicMMIO "win" mmio (u32 (Z.shiftr val 32)).

Definition bad_vector (vector : Z) : bool := (vector <? 0x10) || (vector >? 0xFE).

Definition redirection (vector mode apicid : Z) : Z :=
Z.lor (Z.lor (IOAPIC_REDTBL_APICID apicid) (IOAPIC_REDTBL_DELIVER_MODE mode)) (IOAPIC_REDTBL_VECTOR vector).

(** One round of the search for a clear bit of the map; it leaves with 25 when
  there is none up to 24. *)
Definition free_step (entry : Z) : M machine (Z + Z) :=
if entry <=? 24 then
  a ← gread g_ioapic;
  map ← ldf ioapicInfo "intmap" a;
  bit ← int_bit entry;
  if Z.land map bit =? 0 then mret (inr entry) else mret (inl (u32 (entry + 1)))
else mret (inr entry).

Definition free_entry : M machine Z := iter 27 free_step 0.

Definition mark_entry (entry : Z) : M machine unit :=
a ← gread g_ioapic;
map ← ldf ioapicInfo "intmap" a;
bit ← int_bit entry;
stf ioapicInfo "intmap" a (Z.lor map bit).

Definition allocateIOAPICInterrupt (vector mode apicid : Z) : M machine Z :=
if bad_vector vector then mret 0xFF
else
  entry ← free_entry;
  if entry =? 24 then mret 0xFF
  else
    _ ← mark_entry entry;
    _ ← writeIOAPIC (redirection vector mode apicid) (u32 (IOAPIC_REDTBL_ENTRY entry)) true;
    mret (u8 entry).

(** [!=] binds tighter than [&]: the test is of bit 0 of the map. *)
Definition setIOAPICInterrupt (apicVector intVector mode apicid : Z) : M machine Z :=
if bad_vector intVector then mret 0xFF
else
  a ← gread g_ioapic;
  map ← ldf ioapicInfo "intmap" a;
  bit ← int_bit apicVector;
  if negb (Z.land map (if negb (bit =? 0) then 1 else 0) =? 0) then mret 0xFF
  else
    _ ← mark_entry apicVector;
    _ ← writeIOAPIC (redirection intVector mode apicid) (u32 (IOAPIC_REDTBL_ENTRY apicVector)) true;
    mret apicVector.

(** The search for an interrupt source override of the PIT. *)
Definition find_pit_override (headers : Z) : M machine Z :=
iter fuel (λ iso,
  iso ← findNextICS fuel ICS_ISO iso false;
  if iso =? 0 then mret (inr 0)
  else
    source ← ldf interruptSourceOverride "source" iso;
    if negb (source =? PIT_CHANNEL0) then mret (inl iso)
    else gsi ← ldf interruptSourceOverride "gsi" iso; mret (inr (u8 gsi))) headers.

Definition initIOAPIC (ptr headers : Z) : M machine unit :=
ioAddr ← ldf ioApic "ioAddr" ptr;
if IS_UNALIGNED ioAddr then mret tt
else
  a ← gread g_ioapic;
  count ← gread g_ioapicCount;
  np ← (if negb (a =? 0) then krealloc a (size_of ioapicInfo * (count + 1)) else kmalloc (size_of ioapicInfo));
  _ ← kassert (negb (np =? 0)) "NULL ioapic struct";
  _ ← gwrite g_ioapic np;
  let e := np + size_of ioapicInfo * count in
  _ ← stf ioapicInfo "physBAR" e ioAddr;
  phys ← ldf ioapicInfo "physBAR" e;
  virt ← vmallocPhys (Pmm.KALIGN phys) (size_of ioapicMMIO) (vType_value VTYPE_MMIO)
           (Z.lor (Z.lor VFLAG_WT VFLAG_WRITE) VFLAG_MAKE);
  _ ← stf ioapicInfo "mmio" e virt;
  _ ← kassert (negb (virt =? 0)) "NULL ioapic MMIO";
  _ ← stf ioapicInfo "intmap" e 0;
  _ ← gwrite g_sysinf_ioapic sym_ioapic;
  _ ← gwrite g_ioapicCount (count + 1);
  pitMap ← find_pit_override headers;
  _ ← setIOAPICInterrupt pitMap 32 IOAPIC_DELIVERY_MODE_FIXED 0;
  mret tt.
End ioapic.

(** ** lapic.c *)

Section lapic.
Context {MM : Mmio} {CI : CpuInsns} {PT : Ports} {HO : HeapOps} {VO : VmemPhysOps} {KS : KernelSyms}.
(** The register [CPUID] moves to rax without setting it. *)
Variable unset : Z.

(** cpu.asm: [rdmmio] and [wdmmio]. *)
Definition rdmmio (bar reg : Z) : M machine Z := mmio_ld 4 (bar + reg).
Definition wdmmio (bar reg data : Z) : M machine unit := mmio_st 4 (bar + reg) data.

Definition disablePIC : M machine unit := _ ← outb 0xA1 0xFF; outb 0x21 0xFF.

(** [lapic[apn]] *)
Definition lapic_at (apn : Z) : M machine Z := a ← gread g_lapic; mret (a + size_of lapicInfo * apn).

Definition readLapic (apn reg : Z) : M machine Z :=
l ← lapic_at apn;
x2 ← ldf lapicInfo "x2apic" l;
if negb (x2 =? 0) then v ← rdmsr (LAPIC_MSR_BASE + reg); mret (u32 v)
else bar ← ldf lapicInfo "physBAR" l; rdmmio bar reg.

Definition writeLapic (apn reg data : Z) (preserve : bool) : M machine unit :=
l ← lapic_at apn;
x2 ← ldf lapicInfo "x2apic" l;
if negb (x2 =? 0) then
  data ← (if preserve then v ← rdmsr (LAPIC_MSR_BASE + reg); mret (Z.lor data v) else mret data);
  wrmsr (LAPIC_MSR_BASE + reg) data
else
  bar ← ldf lapicInfo "physBAR" l;
  data ← (if preserve then v ← rdmmio bar reg; mret (Z.lor data v) else mret data);
  wdmmio bar reg (u32 data).

(** The body only has comments. *)
Definition lapicInterrupt : M machine unit := mret tt.

(** Set bits of the APIC base register. *)
Definition set_base_bits (b : Z) : M machine unit :=
msr ← rdmsr LAPIC_MSR_BASE; wrmsr LAPIC_MSR_BASE (Z.lor msr b).

(** The x2APIC test of [registerLapic]. *)
Definition enter_x2apic (l : Z) : M machine unit :=
'(_, _, tst) ← CPUID unset 0x1;
if negb (Z.land tst CPUID_X2APIC_PRESENT =? 0) then
  _ ← stf lapicInfo "x2apic" l 1;
  _ ← set_base_bits LAPIC_MSR_BASE_X2APIC_ENABLE;
  bar ← ldf lapicInfo "physBAR" l;
  _ ← unmapPage sym_kspace bar;
  stf lapicInfo "physBAR" l 0
else stf lapicInfo "x2apic" l 0.

Definition registerLapic (bar : Z) (bsc : bool) : M machine Z :=
_ ← get_lock g_lapicLock;
apn ← gread g_apInit;
_ ← gwrite g_apInit (u16 (apn + 1));
virt ← vmallocPhys bar (size_of lapicMMIO) (vType_value VTYPE_MMIO)
         (Z.lor (Z.lor VFLAG_UC VFLAG_MAKE) VFLAG_WRITE);
l ← lapic_at apn;
_ ← stf lapicInfo "physBAR" l bar;
_ ← stf lapicInfo "mmio" l virt;
_ ← stf lapicInfo "bsc" l (if bsc then 1 else 0);
mmio ← ldf lapicInfo "mmio" l;
id ← ldr lapicMMIO "id" mmio;
_ ← stf lapicInfo "id" l (LAPIC_ID_AID id);
mmio ← ldf lapicInfo "mmio" l;
_ ← str lapicMMIO "timerCurrentCount" mmio 0;
_ ← set_base_bits LAPIC_MSR_BASE_APIC_ENABLE;
_ ← enter_x2apic l;
_ ← writeLapic apn LAPIC_DIVIDE_CONFIG (LAPIC_SET_DIVIDE_CONFIG 0x5) false;
_ ← writeLapic apn LAPIC_INITIAL_COUNT 0xFFFFFFFF false;
count ← readLapic apn LAPIC_INITIAL_COUNT;
_ ← free_lock g_lapicLock;
mret apn.

Definition writeNewTaskTimer (id ticks : Z) : M machine unit :=
_ ← writeLapic id LAPIC_EOI 0 false;
writeLapic id LAPIC_INITIAL_COUNT ticks false.

Definition initLapic (bar apCount wakeup : Z) : M machine unit :=
_ ← disablePIC;
a ← kmalloc (size_of lapicInfo * apCount);
_ ← gwrite g_lapic a;
ap ← registerLapic bar true;
mret tt.

(** [getLapicID] of lapic.h; [x2] is a 16-bit object, bit 10 fits. *)
Definition getLapicID : M machine Z :=
msr ← rdmsr 0x1B;
let x2 := u16 (Z.land msr (Z.shiftl 1 10)) in
if negb (x2 =? 0) then v ← rdmsr (LAPIC_MSR_BASE + LAPIC_ID); mret (u16 (LAPIC_ID_AID v))
else v ← mmio_ld 4 (Z.shiftr msr 12 + 4 * LAPIC_ID); mret (u16 (LAPIC_ID_AID v)).
End lapic.

(** ** pit.c *)

Section pit.
Context {PT : Ports}.
(** [hlt] with interrupts on: any handlers may run. *)
Variable hlt : M machine unit.

Definition pitInterrupt : M machine unit := gwrite g_pitirq 1.

Definition pitOneShot (ticks : Z) : M machine unit :=
_ ← gwrite g_pitirq 0;
if ticks =? 0 then fail DivideByZero
else
  let ticks := u16 (1193180 / ticks) in
  _ ← outb PIT_PORT_CHANNEL0 (u8 (Z.land ticks 0xFF));
  outb PIT_PORT_CHANNEL0 (u8 (Z.shiftr (Z.land ticks 0xFF00) 8)).

Definition pitCalibrate (fuel : nat) (ticks : Z) : M machine unit :=
_ ← pitOneShot ticks;
iter fuel (λ _ : unit, irq ← gread g_pitirq; if negb (irq =? 0) then mret (inr tt) else _ ← hlt; mret (inl tt)) tt.

(** [handlers] is the table of cpu.c, [handler] the address of [pitInterrupt]. *)
Definition initPIT (handlers handler : Z) : M machine unit :=
_ ← addInterruptHandler handlers 0x20 handler;
let cmd := u8 (PIT_MODE_OPERATING PIT_OPERATING_MODE_INT_ON_COUNT) in
let cmd := u8 (Z.lor cmd (Z.lor (PIT_MODE_ACCESS PIT_ACCESS_HILO) (PIT_MODE_CHANNEL PIT_CHANNEL0))) in
outb PIT_PORT_MODE cmd.
End pit.

(** ** The composition *)

(** [initAPIC] with the functions it calls. *)
Definition apic_init `{Mmio, CpuInsns, Ports, HeapOps, VmemPhysOps, KernelSyms}
    (fuel : nat) (sym_ioapic unset madt : Z) : M machine unit :=
  initAPIC fuel (initIOAPIC fuel sym_ioapic) (initLapic unset) madt.

(** ** Properties *)

(** the members of [struct lapicMMIO] are at the offsets the register macros
    of lapic.h give, each register 16 bytes aligned. *)
Theorem lapicMMIO_registers :
  Forall (λ xo, offset_of lapicMMIO xo.1 = Some xo.2 ∧ xo.2 mod 16 = 0)
    [("id"%string, LAPIC_ID); ("version"%string, LAPIC_VERSION); ("taskPriority"%string, LAPIC_TPR);
     ("arbitrationPriority"%string, LAPIC_APR); ("processorPriority"%string, LAPIC_PPR);
     ("endOfInterrupt"%string, LAPIC_EOI); ("remoteRead"%string, LAPIC_RRR);
     ("logicalDestination"%string, LAPIC_LDR); ("destinationFormat"%string, LAPIC_DFR);
     ("spurriousInterrupt"%string, LAPIC_SPURIOUS_INT); ("inService"%string, LAPIC_ISR 0);
     ("triggerMode"%string, LAPIC_TMR 0); ("interruptRequest"%string, LAPIC_IRR 0);
     ("errorStatus"%string, LAPIC_ESR); ("icrLower"%string, LAPIC_ICR0); ("icrUpper"%string, LAPIC_ICR1);
     ("timerLVT"%string, LAPIC_TIMER_LVT); ("thermalLVT"%string, LAPIC_THERMAL_LVT);
     ("perfCounterLVT"%string, LAPIC_PERFORMANCE); ("lint0LVT"%string, LAPIC_LINT0);
     ("lint1LVT"%string, LAPIC_LINT1); ("errorVector"%string, LAPIC_LVT_ERROR);
     ("timerInitialCount"%string, LAPIC_INITIAL_COUNT); ("timerCurrentCount"%string, LAPIC_CURRENT_COUNT);
     ("timerDivideConfig"%string, LAPIC_DIVIDE_CONFIG)].
Proof. repeat (constructor; [by vm_compute|]). constructor. Qed.

(** ** The I/O APIC *)

(** The bits of the registers of the redirection table that hold what is written:
    neither the reserved ones nor the delivery status and the remote IRR. *)
Definition io_writable (i : Z) : Z :=
  if i <? 0x10 then 0 else if Z.even i then 0x1AFFF else 0xFF000000.

(** An I/O APIC at [d] with its data window at offset [w]: the byte written to
    offset 0 selects a register, the window reaches the selected one, and a write
    to any other offset has no effect.  The 82093AA has the window at 0x10.  The
    registers are not in the memory of the kernel. *)
Class IoApicDevice `{Mmio} (d w : Z) := {
  io_sel : machine → Z;
  io_reg : machine → Z → Z;
  io_store s n a v : 0 <= a →
    io_sel (set_memory (store n (memory s) a v) s) = io_sel s ∧
    ∀ i, io_reg (set_memory (store n (memory s) a v) s) i = io_reg s i;
  io_write s off v : 0 <= off < 0x20 →
    ∃ s', mmio_st 4 (d + off) v s = Ok tt s' ∧ globals s' = globals s ∧
      same_on (λ a, 0 <= a) (memory s) (memory s') ∧
      io_sel s' = (if off =? 0 then u8 v else io_sel s) ∧
      ∀ i, if (off =? w) && (i =? io_sel s)
           then Z.land (io_reg s' i) (io_writable i) = Z.land v (io_writable i)
           else io_reg s' i = io_reg s i
}.

Section entries.
Context {MM : Mmio} {d w : Z} {IO : IoApicDevice d w}.
Implicit Types (s : machine).

(** The map of the first I/O APIC. *)
Definition intmap_of s : Z := load 4 (memory s) (globals s g_ioapic + 16).

Lemma free_step_ok s i : 0 <= i <= 24 →
free_step i s = Ok (if Z.testbit (intmap_of s) i then inl (i + 1) else inr i) s.
Proof.
intros Hi. unfold free_step. rewrite leb_true by lia. mstep. mstep. unfold int_bit.
rewrite leb_true, ltb_true by lia. cbn [andb]. mstep. fields. fold (intmap_of s).
rewrite land_pow2_zero, u32_id by lia. by destruct (Z.testbit _ i).
Qed.

(** With bit 24 clear the search stops at the first clear bit. *)
Lemma free_entry_loop s k : ∀ n i,
0 <= i <= k → k <= 24 → (∀ j, i <= j < k → Z.testbit (intmap_of s) j = true) →
Z.testbit (intmap_of s) k = false → (Z.to_nat (k - i) < n)%nat →
iter n free_step i s = Ok k s.
Proof.
induction n as [|n IH]; intros i Hi Hk Hset Hclr Hn; [lia|]. cbn [iter].
rewrite (bind_ok _ _ _ _ _ (free_step_ok s i ltac:(lia))).
destruct (decide (i = k)) as [->|]; [by rewrite Hclr|].
rewrite Hset by lia. apply IH; [lia|done| |done|lia]. intros j Hj. apply Hset. lia.
Qed.

Lemma mark_entry_ok s k : 0 <= k < 31 →
mark_entry k s = Ok tt (set_memory (store 4 (memory s) (globals s g_ioapic + 16)
  (Z.lor (intmap_of s) (2 ^ k))) s).
Proof.
intros Hk. unfold mark_entry. fields. mstep. mstep. unfold int_bit.
rewrite leb_true, ltb_true by lia. cbn [andb]. by mstep.
Qed.

Lemma ioapic_mmio_ok s b : load 8 (memory s) (globals s g_ioapic) = b → ioapic_mmio s = Ok b s.
Proof. intros H. unfold ioapic_mmio. mstep. fields. unfold ld. by rewrite Z.add_0_r, H. Qed.

(** A write to the register block. *)
Lemma io_write_field s off v :
0 <= globals s g_ioapic → load 8 (memory s) (globals s g_ioapic) = d → 0 <= off < 0x20 →
∃ s', mmio_st 4 (d + off) v s = Ok tt s' ∧ ioapic_mmio s = Ok d s ∧ ioapic_mmio s' = Ok d s' ∧
  globals s' = globals s ∧ same_on (λ a, 0 <= a) (memory s) (memory s') ∧
  load 8 (memory s') (globals s' g_ioapic) = d ∧
  io_sel s' = (if off =? 0 then u8 v else io_sel s) ∧
  ∀ i, if (off =? w) && (i =? io_sel s)
       then Z.land (io_reg s' i) (io_writable i) = Z.land v (io_writable i)
       else io_reg s' i = io_reg s i.
Proof.
intros Ha Hd Hoff. destruct (io_write s off v Hoff) as (s' & E & Hg & Hm & Hs & Hr).
assert (load 8 (memory s') (globals s' g_ioapic) = d) as Hd'.
{ rewrite Hg, <- Hd. eapply same_on_load; [exact Hm|]. intros i Hi. blia. }
exists s'. split; [exact E|]. split; [by apply ioapic_mmio_ok|]. split; [by apply ioapic_mmio_ok|]. done.
Qed.

(** What a redirection entry of the device holds after [writeIOAPIC] with [qword]:
    both halves, when the window is where [struct ioapicMMIO] has it, and what it
    held before otherwise. *)
Definition entry_written (s s' : machine) (reg low high : Z) : Prop :=
if w =? 8 then
  Z.land (io_reg s' reg) (io_writable reg) = Z.land low (io_writable reg) ∧
  Z.land (io_reg s' (reg + 1)) (io_writable (reg + 1)) = Z.land high (io_writable (reg + 1)) ∧
  ∀ i, i ≠ reg → i ≠ reg + 1 → io_reg s' i = io_reg s i
else ∀ i, io_reg s' i = io_reg s i.

Lemma writeIOAPIC_ok s val reg :
w ≠ 0 → 0 <= globals s g_ioapic → load 8 (memory s) (globals s g_ioapic) = d → 0 <= reg < 255 →
∃ s', writeIOAPIC val reg true s = Ok tt s' ∧ globals s' = globals s ∧
  same_on (λ a, 0 <= a) (memory s) (memory s') ∧
  entry_written s s' reg (u32 (Z.land val 0xFFFFFFFF)) (u32 (Z.shiftr val 32)).
Proof.
intros Hw Ha Hd Hreg. unfold writeIOAPIC. fields. cbn [negb]. rewrite (u32_id (reg + 1)) by lia.
destruct (io_write_field s 0 reg Ha Hd ltac:(lia)) as (s1 & E1 & M0 & M1 & G1 & S1 & D1 & L1 & R1).
destruct (io_write_field s1 8 (u32 (Z.land val 0xFFFFFFFF)) ltac:(by rewrite G1) D1 ltac:(lia))
  as (s2 & E2 & _ & M2 & G2 & S2 & D2 & L2 & R2).
destruct (io_write_field s2 0 (reg + 1) ltac:(by rewrite G2, G1) D2 ltac:(lia))
  as (s3 & E3 & _ & M3 & G3 & S3 & D3 & L3 & R3).
destruct (io_write_field s3 8 (u32 (Z.shiftr val 32)) ltac:(by rewrite G3, G2, G1) D3 ltac:(lia))
  as (s4 & E4 & _ & M4 & G4 & S4 & D4 & L4 & R4).
exists s4. split_and!.
- rewrite (bind_ok _ _ _ _ _ M0), (bind_ok _ _ _ _ _ E1), (bind_ok _ _ _ _ _ M1), (bind_ok _ _ _ _ _ E2).
  by rewrite (bind_ok _ _ _ _ _ M2), (bind_ok _ _ _ _ _ E3), (bind_ok _ _ _ _ _ M3).
- congruence.
- intros a Hpos. by rewrite (S4 a Hpos), (S3 a Hpos), (S2 a Hpos), (S1 a Hpos).
- rewrite (eqb_false 0 w) in R1, R3 by lia. cbn [andb] in R1, R3.
  cbn [Z.eqb] in L1, L2, L3. rewrite (u8_id reg) in L1 by lia. rewrite (u8_id (reg + 1)) in L3 by lia.
  rewrite L3 in R4. rewrite L1 in R2. rewrite (Z.eqb_sym 8 w) in R2, R4. unfold entry_written.
  destruct (w =? 8); cbn [andb] in R2, R4.
  + split_and!.
    * pose proof (R4 reg) as Q4. pose proof (R2 reg) as Q2. rewrite eqb_false in Q4 by lia. rewrite Z.eqb_refl in Q2.
      by rewrite Q4, R3.
    * pose proof (R4 (reg + 1)) as Q4. by rewrite Z.eqb_refl in Q4.
    * intros i H1 H2. pose proof (R4 i) as Q4. pose proof (R2 i) as Q2.
      rewrite eqb_false in Q4, Q2 by done. by rewrite Q4, R3, Q2, R1.
  + intros i. by rewrite R4, R3, R2, R1.
Qed.

(** The two halves of a redirection entry. *)
Lemma redirection_halves vector mode apicid :
0 <= vector < 256 → 0 <= mode < 256 → 0 <= apicid < 256 →
u32 (Z.land (redirection vector mode apicid) 0xFFFFFFFF) = Z.lor vector (1024 * mode) ∧
u32 (Z.shiftr (redirection vector mode apicid) 32) = apicid * 2 ^ 24.
Proof.
intros Hv Hm Ha.
assert (redirection vector mode apicid = Z.lor (apicid * 2 ^ 24 * 2 ^ 32) (Z.lor vector (1024 * mode))) as ->.
{ unfold redirection, IOAPIC_REDTBL_APICID, IOAPIC_REDTBL_DELIVER_MODE, IOAPIC_REDTBL_VECTOR.
  rewrite !Z.shiftl_mul_pow2, !u64_id by lia. rewrite <- Z.lor_assoc. f_equal; [lia|].
  rewrite Z.lor_comm. f_equal; lia. }
assert (0 <= Z.lor vector (1024 * mode) < 2 ^ 32) as Hl by (apply lor_bound; lia).
change 0xFFFFFFFF with (Z.ones 32). rewrite Z.land_ones, Z.shiftr_div_pow2 by lia. split.
- unfold u32. rewrite Z.mod_mod, <- Z.land_ones, Z.land_lor_distr_l, !Z.land_ones by lia.
  by rewrite Z.mod_mul, Z.lor_0_l, Z.mod_small by lia.
- rewrite <- Z.shiftr_div_pow2, Z.shiftr_lor, !Z.shiftr_div_pow2 by lia.
  rewrite Z.div_mul, (Z.div_small (Z.lor _ _)), Z.lor_0_r by lia. apply u32_id. lia.
Qed.

(** Entries 0 to 23 are the redirection table; the code keeps bit 24 and up clear. *)
Definition intmap_ok s : Prop := intmap_of s < 2 ^ 24.

(** C27: [allocateIOAPICInterrupt] takes the lowest free entry of the 24 and sets
  exactly its bit of the map, or returns 0xFF and changes nothing when the map is
  full or the vector is out of range; the map stays well formed.  On an I/O APIC
  whose window is at offset 8, where [struct ioapicMMIO] has it, the entry then
  holds the vector, the mode from bit 10 on and the destination; on one with the
  window anywhere else, as at the documented 0x10, no register changes. *)
Theorem allocateIOAPICInterrupt_lowest_free s vector mode apicid k :
let a := globals s g_ioapic in
w ≠ 0 → 0 <= a → load 8 (memory s) a = d → intmap_ok s → 0 <= k <= 24 →
0 <= vector < 256 → 0 <= mode < 256 → 0 <= apicid < 256 →
(∀ j, 0 <= j < k → Z.testbit (intmap_of s) j = true) → (k < 24 → Z.testbit (intmap_of s) k = false) →
wp (allocateIOAPICInterrupt vector mode apicid)
  (λ r s',
     if (vector <? 0x10) || (vector =? 0xFF) || (k =? 24) then r = 0xFF ∧ s' = s
     else r = k ∧ intmap_of s' = Z.lor (intmap_of s) (2 ^ k) ∧ intmap_ok s' ∧
       entry_written s s' (0x10 + 2 * k) (Z.lor vector (1024 * mode)) (apicid * 2 ^ 24) ∧
       globals s' = globals s ∧
       same_on (λ x, 0 <= x ∧ (x < a + 16 ∨ a + 20 <= x)) (memory s) (memory s')) s.
Proof.
intros a Hw Ha Hd Hok Hk Hv Hmo Hap Hset Hclr. unfold allocateIOAPICInterrupt.
assert (bad_vector vector = (vector <? 0x10) || (vector =? 0xFF)) as ->.
{ unfold bad_vector. f_equal. destruct (Z.gtb_spec vector 0xFE), (Z.eqb_spec vector 0xFF); done || lia. }
destruct (_ || _); [by wp_step|]. cbn [orb].
assert (Z.testbit (intmap_of s) k = false) as Hkc.
{ destruct (decide (k = 24)) as [->|]; [|apply Hclr; lia].
  pose proof (load_4_range (memory s) (a + 16)). by apply (testbit_small _ 24); [split; [apply load_range|]|]. }
wp_step. eapply wp_eq; [apply (free_entry_loop s k); [lia..|done|done|lia]|].
destruct (Z.eqb_spec k 24); [by wp_step|]. wp_step.
eapply wp_eq; [apply mark_entry_ok; lia|]. fold a.
destruct (io_store s 4 (a + 16) (Z.lor (intmap_of s) (2 ^ k)) ltac:(lia)) as [_ Hreg].
set (s1 := set_memory _ s) in *.
assert (load 8 (memory s1) (globals s1 g_ioapic) = d) as Hd1
  by (subst s1; cbn [memory set_memory globals]; by rewrite load_store_ne by (fold a; lia)).
assert (u32 (IOAPIC_REDTBL_ENTRY k) = 0x10 + 2 * k) as -> by (unfold IOAPIC_REDTBL_ENTRY; apply u32_id; lia).
destruct (writeIOAPIC_ok s1 (redirection vector mode apicid) (0x10 + 2 * k) Hw Ha Hd1 ltac:(lia))
  as (s2 & E & Hg & Hsame & Hent).
destruct (redirection_halves vector mode apicid Hv Hmo Hap) as [Hlo Hhi]. rewrite Hlo, Hhi in Hent.
assert (0 <= Z.lor (intmap_of s) (2 ^ k) < 2 ^ 24) as Hb.
{ apply lor_bound; [|split; [lia|apply Z.pow_lt_mono_r; lia]|lia].
  split; [apply (load_range 4)|exact Hok]. }
assert (intmap_of s2 = Z.lor (intmap_of s) (2 ^ k)) as Em.
{ unfold intmap_of at 1. rewrite Hg. change (globals s1 g_ioapic) with a.
  rewrite (same_on_load _ _ _ 4 (a + 16) Hsame) by (intros; blia).
  subst s1. cbn [memory set_memory]. rewrite load_store_4. apply u32_id. lia. }
wp_step. eapply wp_eq; [exact E|]. wp_step. unfold intmap_ok.
rewrite u8_id by lia. split_and!; [done|done|rewrite Em; lia| |exact Hg|].
- unfold entry_written in *. destruct (w =? 8).
  + destruct Hent as (H1 & H2 & H3). split_and!; [exact H1|exact H2|].
    intros i Hi1 Hi2. by rewrite H3, Hreg by done.
  + intros i. by rewrite Hent, Hreg.
- intros x [Hx1 Hx2]. rewrite Hsame by done. subst s1. cbn [memory set_memory].
  apply mbyte_store_ne. lia.
Qed.
End entries.

(** ** Witnesses *)

(** An I/O APIC at 0x5000 with its window at 0x10.  Its registers are kept at
    negative addresses, which no pointer of the kernel reaches. *)
Definition io_sel_at : Z := -8.
Definition io_reg_at (i : Z) : Z := -4096 + 8 * i.
Definition sel_of (s : machine) : Z := u8 (load 8 (memory s) io_sel_at).
Definition reg_of (s : machine) (i : Z) : Z :=
  if (0 <=? i) && (i <? 256) then load 8 (memory s) (io_reg_at i) else 0.
Definition io_mmio : Mmio := {|
  mmio_ld n a s := Ok (if a =? 0x5010 then reg_of s (sel_of s) else 0) s;
  mmio_st n a v :=
    if a =? 0x5000 then st 8 io_sel_at (u8 v)
    else if a =? 0x5010 then λ s, st 8 (io_reg_at (sel_of s)) (Z.land v (io_writable (sel_of s))) s
    else mret tt
|}.

Lemma io_writable_range v i : 0 <= Z.land v (io_writable i) < 2 ^ 64.
Proof.
  apply (land_bound _ _ 64); [|lia]. unfold io_writable.
  destruct (i <? 0x10); [done|]. by destruct (Z.even i).
Qed.

Definition io_device : @IoApicDevice io_mmio 0x5000 0x10.
Proof.
  refine (@Build_IoApicDevice io_mmio 0x5000 0x10 sel_of reg_of _ _).
  - intros s n a v Ha. unfold sel_of, reg_of, io_sel_at, io_reg_at. cbn [memory set_memory]. split.
    + by rewrite load_store_ne by lia.
    + intros i. destruct (Z.leb_spec 0 i), (Z.ltb_spec i 256); cbn [andb]; try done.
      by rewrite load_store_ne by lia.
  - intros s off v Hoff. unfold io_mmio, mmio_st. pose proof (u8_range (load 8 (memory s) io_sel_at)) as Hs.
    fold (sel_of s) in Hs.
    destruct (Z.eqb_spec (0x5000 + off) 0x5000) as [E0|E0]; [|destruct (Z.eqb_spec (0x5000 + off) 0x5010) as [E1|E1]].
    + assert (off = 0) as -> by lia. eexists. split; [reflexivity|]. cbn [globals set_memory memory]. split; [done|].
      split; [intros x Hx; apply mbyte_store_ne; unfold io_sel_at; blia|]. split.
      * unfold sel_of. cbn [memory set_memory Z.eqb]. rewrite load_store_8. pose proof (u8_range v).
        rewrite (u64_id (u8 v)) by lia. by apply u8_id.
      * intros i. cbn [Z.eqb andb]. unfold reg_of, io_sel_at, io_reg_at. cbn [memory set_memory].
        destruct (Z.leb_spec 0 i), (Z.ltb_spec i 256); cbn [andb]; try done. by rewrite load_store_ne by lia.
    + assert (off = 0x10) as -> by lia. eexists. split; [reflexivity|]. cbn [globals set_memory memory]. split; [done|].
      split; [intros x Hx; apply mbyte_store_ne; unfold io_reg_at; lia|]. split.
      * unfold sel_of at 1. cbn [memory set_memory Z.eqb]. unfold io_reg_at, io_sel_at.
        rewrite load_store_ne by lia. done.
      * intros i. change (0x10 =? 0x10) with true. cbn [andb]. unfold reg_of at 1 2, io_reg_at at 1 2. cbn [memory set_memory].
        destruct (Z.eqb_spec i (sel_of s)) as [->|Hne].
        -- rewrite leb_true, ltb_true by lia. cbn [andb]. unfold io_reg_at. rewrite load_store_8.
           rewrite u64_id by apply io_writable_range.
           by rewrite <- Z.land_assoc, Z.land_diag.
        -- unfold reg_of. destruct (Z.leb_spec 0 i), (Z.ltb_spec i 256); cbn [andb]; try done.
           unfold io_reg_at. by rewrite load_store_ne by lia.
    + exists s. split; [done|]. split; [done|]. split; [done|]. split; [by rewrite eqb_false by lia|].
      intros i. rewrite eqb_false by lia. done.
Defined.

(** The entries 0 and 1 are in use. *)
Definition ioapic_machine : machine :=
  set_global g_ioapic 0x4000
    (set_memory (store 4 (store 8 ∅ 0x4000 0x5000) 0x4010 3) machine0).

Lemma allocateIOAPICInterrupt_lowest_free_witness :
  wp (@allocateIOAPICInterrupt io_mmio 0x30 0 0)
    (λ r s', r = 2 ∧ intmap_of s' = Z.lor (intmap_of ioapic_machine) (2 ^ 2) ∧ intmap_ok s' ∧
       (∀ i, reg_of s' i = reg_of ioapic_machine i) ∧ globals s' = globals ioapic_machine ∧
       same_on (λ x, 0 <= x ∧ (x < 0x4000 + 16 ∨ 0x4000 + 20 <= x)) (memory ioapic_machine) (memory s'))
    ioapic_machine.
Proof.
  apply (@allocateIOAPICInterrupt_lowest_free io_mmio 0x5000 0x10 io_device ioapic_machine 0x30 0 0 2);
    try lia; try by vm_compute.
  intros j Hj. assert (j = 0 ∨ j = 1) as [-> | ->] by lia; by vm_compute.
Defined.
