(* ===== verification/Hpet.v ===== *)
(** * hpet.c: the high precision event timer

    The members of the static struct [hpet] are globals; its register block is
    reached through [Mmio].  [registerTimer] of timer.c works on the state of
    Timer.v and is a parameter here. *)

From S2P Require Import Prelude Kmonad Mem Layout Device Heap Vmm Timer.

Definition acpiHPET : layout :=
  Layout Packed [U32 "signature"; U32 "length"; U8 "revision"; U8 "checksum"; Arr U8 "oemid" 6;
    U64 "oemTableid"; U32 "oemRevision"; Arr U8 "creatorid" 4; U32 "creatorRevision";
    U32 "eventTimerBlockID"; U32 "upper"; U64 "bar"; U8 "hpetNum"; U16 "minClockTick";
    U8 "pageProtection"].
Definition hpetTimerMMIO : layout :=
  Layout Packed [U64 "configCapability"; U64 "compareValue"; U64 "interruptRoute"; U64 "pad0"].
Definition hpetMMIO : layout :=
  Layout Packed [U64 "capabilities"; U64 "pad0"; U64 "configuration"; U64 "pad1"; U64 "interruptStatus";
    U64 "pad2"; U64 "mainCounter"; U64 "pad3"; Arr (Sub hpetTimerMMIO) "timer" 32].

Definition HPET_GENERAL_CAPABILITIES_TIMERS (cap : Z) : Z := Z.land (Z.shiftr cap 8) 0x0F.
Definition HPET_GENERAL_CAPABILITIES_COUNT_SIZE (cap : Z) : Z := Z.land (Z.shiftr cap 13) 0x1.
Definition HPET_GENERAL_CAPABILITIES_LEG_ROUTE (cap : Z) : Z := Z.land (Z.shiftr cap 15) 0x1.
Definition HPET_GENERAL_CAPABILITIES_CLOCK_PER (cap : Z) : Z := Z.shiftr cap 32.
Definition HPET_MAIN_COUNTER_VAL : Z := 0xF0.
Definition HPET_TIMER_BASE_OFFSET (timer : Z) : Z := 0x100 + timer * 0x20.
Definition HPET_TIMER_CONFIG_OFFSET : Z := 0x0.
Definition HPET_TIMER_COMPAR_OFFSET : Z := 0x8.
Definition HPET_TIMER_32MODE_CNF : Z := Z.shiftl 1 8.

Section hpet.
Context {MM : Mmio} {VO : VmemPhysOps}.
(** Calling a callback with its argument, and [registerTimer]. *)
Variables (call : Z → Z → M machine unit) (registerTimer : Z → Z → M machine unit).
(** The address of [setTimer]. *)
Variable sym_setTimer : Z.

(** [hpet.mmio->timer[i]] *)
Definition timer_at (i : Z) : M machine Z :=
mmio ← gread g_hpetMmio;
mret (mmio + fld hpetMMIO "timer" + size_of hpetTimerMMIO * i).

Definition hpetInterrupt : M machine unit :=
t ← timer_at 0;
_ ← str hpetTimerMMIO "compareValue" t 0;
cb ← gread g_hpetCallback;
if cb =? 0 then fail WildCall else call cb 0.

(** The scaled time [t] is computed and not used.  The value the C function
  would have to return is undefined; no caller uses it. *)
Definition setTimer (time : Z) (ns : bool) (cb timer : Z) : M machine unit :=
mmio ← gread g_hpetMmio;
count ← ldr hpetMMIO "mainCounter" mmio;
t ← timer_at timer;
_ ← str hpetTimerMMIO "compareValue" t (u64 (count + time));
gwrite g_hpetCallback cb.

(** The body of the loop of [initHPET]. *)
Definition reset_timer (i : Z) : M machine unit :=
ext ← gread g_hpetExtended;
_ ← when (negb (ext =? 0)) (
      t ← timer_at i;
      c ← ldr hpetTimerMMIO "configCapability" t;
      _ ← str hpetTimerMMIO "configCapability" t (Z.lor c HPET_TIMER_32MODE_CNF);
      c ← ldr hpetTimerMMIO "configCapability" t;
      str hpetTimerMMIO "configCapability" t (Z.lxor c HPET_TIMER_32MODE_CNF));
t ← timer_at i;
str hpetTimerMMIO "compareValue" t 0.

Definition initHPET (ptr : Z) : M machine unit :=
bar ← ldf acpiHPET "bar" ptr;
virt ← vmallocPhys bar (size_of hpetMMIO) (vType_value VTYPE_MMIO)
         (Z.lor (Z.lor VFLAG_WRITE VFLAG_MAKE) VFLAG_WT);
_ ← gwrite g_hpetMmio virt;
_ ← kassert (negb (s32 virt =? 0)) "Allocating a virtual address failed";
bar ← ldf acpiHPET "bar" ptr;
_ ← gwrite g_hpetPhys bar;
mmio ← gread g_hpetMmio;
cap ← ldr hpetMMIO "capabilities" mmio;
_ ← gwrite g_hpetTimers (u8 (HPET_GENERAL_CAPABILITIES_TIMERS cap));
_ ← gwrite g_hpetExtended (HPET_GENERAL_CAPABILITIES_COUNT_SIZE cap);
_ ← gwrite g_hpetLegacy (HPET_GENERAL_CAPABILITIES_LEG_ROUTE cap);
clk ← ldf acpiHPET "minClockTick" ptr;
_ ← gwrite g_hpetMinClock clk;
_ ← gwrite g_hpetPeriod (u32 (HPET_GENERAL_CAPABILITIES_CLOCK_PER cap));
prot ← ldf acpiHPET "pageProtection" ptr;
_ ← gwrite g_hpetProtection prot;
timers ← gread g_hpetTimers;
_ ← for_range 0 timers reset_timer;
registerTimer TIMER_TYPE_HPET sym_setTimer.
End hpet.
