(* ===== verification/Ahci.v ===== *)
(** * ahci.c: the AHCI host controller

    Brings the controller up: command register, register block, hand-off from
    the BIOS, reset, interrupts, ports.  [initAHCI] is what [Pci.initPCI] calls. *)

From S2P Require Import Prelude Kmonad Mem Libc Layout Device Heap Pmm Vmm Kprintf Cpu Pci Apic Hpet.

(** ** ahci.h *)

Definition ahciPortMMIO : layout := Layout Packed [
  U32 "cmdListBaseLower"; U32 "cmdListBaseUpper"; U32 "FISBaseLower"; U32 "FISBaseUpper";
  U32 "interruptStatus"; U32 "interruptEnable"; U32 "command"; U32 "reserved"; U32 "taskFileData";
  U32 "signature"; U32 "sataStatus"; U32 "sataControl"; U32 "sataError"].
Definition ahciMMIO : layout := Layout Packed [
  U32 "hostCapabilities"; U32 "globalHostControl"; U32 "interruptStatus"; U32 "portsImplimented";
  U32 "version"; U32 "cccControl"; U32 "cccPorts"; U32 "emLocation"; U32 "emControl";
  U32 "exCapabilities"; U32 "biosHandoff"; Arr U32 "pad" 53; Arr (Sub ahciPortMMIO) "port" 32].

Definition AHCI_PCI_ABAR : Z := 0x24.
Definition AHCI_HBA_CAPABILITIES : Z := 0x0.
Definition AHCI_GLOBAL_HBA_CONTROL : Z := 0x4.
Definition AHCI_INTERRUPT_STATUS : Z := 0x8.
Definition AHCI_PORTS_IMPLEMENTED : Z := 0xC.
Definition AHCI_VERSION : Z := 0x10.
Definition AHCI_COMMAND_CC_CONTROL : Z := 0x14.
Definition AHCI_COMMAND_CC_PORTS : Z := 0x18.
Definition AHCI_EM_LOCATION : Z := 0x1C.
Definition AHCI_EM_CONTROL : Z := 0x20.
Definition AHCI_xHOST_CAPABILITIES : Z := 0x24.
Definition AHCI_BIOS_HANDOFF_CS : Z := 0x28.
Definition AHCI_PORT_CONTROL (port : Z) : Z := 0x100 + port * 0x80.
Definition AHCI_PORT_CMD : Z := 0x18.
Definition AHCI_PORT_SSTS : Z := 0x28.
Definition AHCI_PORT_CMD_ICC (cmd : Z) : Z := Z.shiftr cmd 28.
Definition AHCI_PORT_CMD_ICC_ACTIVE : Z := 0x1.
Definition AHCI_PORT_SSTS_DET (sts : Z) : Z := Z.land sts 0x0F.
Definition AHCI_PORT_SSTS_DET_NONE : Z := 0x0.
Definition AHCI_HBA_CAPABILITIES_NCS (hc : Z) : Z := Z.land (Z.shiftr hc 8) 0x0F.
Definition AHCI_GLOBAL_HBA_CONTROL_HR : Z := Z.shiftl 1 0.
Definition AHCI_GLOBAL_HBA_CONTROL_AE : Z := 2 ^ 31.
Definition AHCI_xHOST_CAPABILITIES_BOH : Z := Z.shiftl 1 0.
Definition AHCI_BIOS_HANDOFF_CS_OOS : Z := Z.shiftl 1 1.
Definition AHCI_BIOS_HANDOFF_CS_BB : Z := Z.shiftl 1 4.

(** ** ahci.c *)

Section ahci.
Context {MM : Mmio} {PT : Ports} {HO : HeapOps} {CO : CacheOps} {VO : VmemPhysOps}.
Variable fuel : nat.
(** [sysSleep] of sleep.c, and the statics [ahciMSI], the name of the cache, the
  table [handlers] of cpu.c and the address of [ahciInterrupt]. *)
Variable sysSleep : Z → M machine unit.
Variables (ahciMSI cacheName handlers sym_ahciInterrupt : Z).

(** It clears no bytes. *)
Definition portConstructor (mem : Z) : M machine Z := _ ← memset mem 0 0; mret mem.

Definition ahciInterrupt : M machine unit := mret tt.

(** [ahci.mmio->port[port]] *)
Definition port_at (port : Z) : M machine Z :=
mmio ← gread g_ahciMmio;
mret (mmio + fld ahciMMIO "port" + size_of ahciPortMMIO * port).

Definition initPort (port : Z) : M machine unit :=
p ← port_at port;
_ ← str ahciPortMMIO "command" p (AHCI_PORT_CMD_ICC AHCI_PORT_CMD_ICC_ACTIVE);
cache ← gread g_portCache;
commandList ← kcacheAlloc cache 0;
if commandList =? 0 then fail (Panic "Failed to allocate command list")
else
  p ← port_at port;
  str ahciPortMMIO "cmdListBaseLower" p (u32 commandList).

(** A field of [*ahci.mmio]. *)
Definition hba_read (x : string) : M machine Z := mmio ← gread g_ahciMmio; ldr ahciMMIO x mmio.
Definition hba_write (x : string) (v : Z) : M machine unit := mmio ← gread g_ahciMmio; str ahciMMIO x mmio v.

Definition bios_handoff : M machine unit :=
cap ← hba_read "exCapabilities";
when (negb (Z.land cap AHCI_xHOST_CAPABILITIES_BOH =? 0)) (
  _ ← hba_write "biosHandoff" AHCI_BIOS_HANDOFF_CS_OOS;
  iter fuel (λ _ : unit,
    b ← hba_read "biosHandoff";
    if negb (Z.land b AHCI_BIOS_HANDOFF_CS_BB =? 0) then _ ← sysSleep 10; mret (inl tt)
    else mret (inr tt)) tt).

Definition reset_hba : M machine unit :=
_ ← hba_write "globalHostControl" AHCI_GLOBAL_HBA_CONTROL_HR;
iter fuel (λ _ : unit,
  _ ← sysSleep 32;
  c ← hba_read "globalHostControl";
  if negb (Z.land c AHCI_GLOBAL_HBA_CONTROL_HR =? 0) then mret (inl tt) else mret (inr tt)) tt.

(** Message-signalled interrupts, or a vector of the CPU in the interrupt register. *)
Definition init_interrupts (bus dev : Z) : M machine unit :=
msi ← initMSIX fuel ahciMSI bus dev 0;
if negb msi then
  vec ← allocateInterrupt handlers sym_ahciInterrupt;
  _ ← kassert (negb (vec =? 0)) "Failed to allocate an interrupt";
  setPCIData bus dev 0 PCI_HEADER_INT vec
else enableMSIX ahciMSI.

Definition check_port (pi i : Z) : M machine unit :=
bit ← int_bit i;
if Z.land pi (u32 bit) =? 0 then mret tt
else
  p ← port_at i;
  prt ← ldr ahciPortMMIO "sataStatus" p;
  if AHCI_PORT_SSTS_DET prt =? AHCI_PORT_SSTS_DET_NONE then mret tt else initPort i.

Definition initAHCI (bus dev : Z) : M machine unit :=
old ← getPCIData bus dev 0 PCI_HEADER_STATUS_COMMAND;
let cmd := Z.lor (Z.lor (Z.lor PCI_HEADER_COMMAND_MEMORY_SPACE PCI_HEADER_COMMAND_ID)
  PCI_HEADER_COMMAND_BUS_MASTER) PCI_HEADER_COMMAND_IO_SPACE in
_ ← setPCIData bus dev 0 PCI_HEADER_STATUS_COMMAND cmd;
abar ← getPCIData bus dev 0 AHCI_PCI_ABAR;
let bar := Z.land abar 0xFFFFE000 in
if bar =? 0 then mret tt
else
  virt ← vmallocPhys bar (size_of ahciMMIO) (vType_value VTYPE_MMIO)
           (Z.lor (Z.lor VFLAG_WRITE VFLAG_UC) VFLAG_MAKE);
  _ ← kassert (negb (virt =? 0)) "valloc() failed";
  _ ← gwrite g_ahciMmio virt;
  _ ← gwrite g_ahciPhys bar;
  ver ← hba_read "version";
  pi ← hba_read "portsImplimented";
  cap ← hba_read "hostCapabilities";
  ae ← hba_read "globalHostControl";
  _ ← when (Z.land ae AHCI_GLOBAL_HBA_CONTROL_AE =? 0)
        (hba_write "globalHostControl" (Z.lor ae AHCI_GLOBAL_HBA_CONTROL_AE));
  _ ← bios_handoff;
  _ ← reset_hba;
  c ← hba_read "globalHostControl";
  _ ← hba_write "globalHostControl" (Z.lor c AHCI_GLOBAL_HBA_CONTROL_AE);
  cache ← kcacheCreate cacheName 0x400 0x400 MEMORY_TYPE_LOW 0;
  _ ← gwrite g_portCache cache;
  _ ← kassert (negb (cache =? 0)) "NULL portCache";
  _ ← init_interrupts bus dev;
  for_range 0 32 (check_port pi).
End ahci.

(** [initPCI] with the driver it starts. *)
Definition pci_init `{Mmio, Ports, HeapOps, CacheOps, VmemPhysOps} (fuel : nat)
    (sysSleep : Z → M machine unit) (ahciMSI cacheName handlers sym_ahciInterrupt msiName : Z) :
    M machine unit :=
  initPCI fuel msiName (initAHCI fuel sysSleep ahciMSI cacheName handlers sym_ahciInterrupt).

(** three register blocks are not laid out as the register macros say: the
    window of the I/O APIC, the counter and the timers of the HPET, and every
    AHCI port but the first are at other offsets. *)
Theorem register_blocks_misplaced :
  offset_of ioapicMMIO "win" ≠ Some IOAPIC_WIN ∧
  offset_of hpetMMIO "mainCounter" ≠ Some HPET_MAIN_COUNTER_VAL ∧
  (∀ i, fld hpetMMIO "timer" + size_of hpetTimerMMIO * i ≠ HPET_TIMER_BASE_OFFSET i) ∧
  (∀ i, fld ahciMMIO "port" + size_of ahciPortMMIO * i = AHCI_PORT_CONTROL i ↔ i = 0).
Proof.
  unfold HPET_TIMER_BASE_OFFSET, AHCI_PORT_CONTROL. fields.
  split_and!; [by vm_compute|by vm_compute|lia|lia].
Qed.
