(* ===== verification/BootMem.v ===== *)
(** * The boot loader's memory (src/Bootloader/x86_64/mem.c)

    Allocation with bookkeeping, the page tables the kernel starts on and the
    memory map handed to it.  The firmware library (sefi.h) is a parameter:
    [allocPool], [clearMem], [reallocPool] and the firmware's own memory map.
    The arrays [kmmap] and [allocMap] are lists; page tables are in memory. *)

From S2P Require Import Prelude Kmonad Mem Mmap Paging.

Create HintDb quiet.

(** The memory types of the firmware, in the order of [mtype]. *)
Inductive efi_type :=
  | EfiReservedMemoryType | EfiLoaderCode | EfiLoaderData | EfiBootServicesCode
  | EfiBootServicesData | EfiRuntimeServicesCode | EfiRuntimeServicesData
  | EfiConventionalMemory | EfiUnusableMemory | EfiACPIReclaimMemory | EfiACPIMemoryNVS
  | EfiMemoryMappedIO | EfiMemoryMappedIOPortSpace | EfiPalCode | EfiPersistentMemory
  | EfiUnacceptedMemoryType | EfiMaxMemoryType.

#[export] Instance efi_type_eq_dec : EqDecision efi_type.
Proof. solve_decision. Defined.

Record EFI_MEMORY_DESCRIPTOR := Desc {
  Type_ : efi_type; PhysicalStart : Z; VirtualStart : Z; NumberOfPages : Z
}.

(** The firmware library. *)
Class Efi := {
  allocPool : Z → M machine Z;
  clearMem : Z → Z → M machine unit;
  reallocPool : list mmapEntry → Z → M machine (list mmapEntry);
  getEfiMmap : M machine (option (list EFI_MEMORY_DESCRIPTOR))
}.

Definition EFI_PAGE_SIZE : Z := 4096.
Definition PAGE_SZ : Z := 0x1000.
Definition PAGE_ALIGN : Z := 0xFFFFFFFFFFFFF000.
Definition KALIGN (addr : Z) : Z := Z.land addr PAGE_ALIGN.
Definition DESC_SZ (d : EFI_MEMORY_DESCRIPTOR) : Z := u64 (NumberOfPages d * EFI_PAGE_SIZE).

(** The globals of mem.c; [bt_entries] and [bt_aentries] are the counts written
    to [kinf.mem]. *)
Record boot := Boot {
  bt_machine : machine;
  bt_kmmap : list mmapEntry; bt_allocMap : list mmapEntry;
  bt_mapMax : Z; bt_mapPtr : Z; bt_allocEntries : Z;
  bt_pml : Z; bt_bumpBase : Z; bt_bumpPtr : Z; bt_bumpSize : Z;
  bt_entries : Z; bt_aentries : Z
}.
Definition set_machine (m : machine) (s : boot) : boot :=
  Boot m (bt_kmmap s) (bt_allocMap s) (bt_mapMax s) (bt_mapPtr s) (bt_allocEntries s) (bt_pml s)
    (bt_bumpBase s) (bt_bumpPtr s) (bt_bumpSize s) (bt_entries s) (bt_aentries s).
Definition set_kmmap (l : list mmapEntry) (s : boot) : boot :=
  Boot (bt_machine s) l (bt_allocMap s) (bt_mapMax s) (bt_mapPtr s) (bt_allocEntries s) (bt_pml s)
    (bt_bumpBase s) (bt_bumpPtr s) (bt_bumpSize s) (bt_entries s) (bt_aentries s).
Definition set_alloc (l : list mmapEntry) (mx ptr n : Z) (s : boot) : boot :=
  Boot (bt_machine s) (bt_kmmap s) l mx ptr n (bt_pml s)
    (bt_bumpBase s) (bt_bumpPtr s) (bt_bumpSize s) (bt_entries s) (bt_aentries s).
Definition set_pml (p : Z) (s : boot) : boot :=
  Boot (bt_machine s) (bt_kmmap s) (bt_allocMap s) (bt_mapMax s) (bt_mapPtr s) (bt_allocEntries s) p
    (bt_bumpBase s) (bt_bumpPtr s) (bt_bumpSize s) (bt_entries s) (bt_aentries s).
Definition set_bump (base ptr size : Z) (s : boot) : boot :=
  Boot (bt_machine s) (bt_kmmap s) (bt_allocMap s) (bt_mapMax s) (bt_mapPtr s) (bt_allocEntries s)
    (bt_pml s) base ptr size (bt_entries s) (bt_aentries s).
Definition set_counts (n a : Z) (s : boot) : boot :=
  Boot (bt_machine s) (bt_kmmap s) (bt_allocMap s) (bt_mapMax s) (bt_mapPtr s) (bt_allocEntries s)
    (bt_pml s) (bt_bumpBase s) (bt_bumpPtr s) (bt_bumpSize s) n a.

Definition on_machine {A} (m : M machine A) : M boot A := zoom bt_machine set_machine m.

Definition empty_entry : mmapEntry := MmapEntry 0 0 0 0 0 0.

Section boot.
Context `{Efi}.

(** [allocMem_int]; a failed allocation loops for ever. *)
Definition allocMem_int (sz virt type : Z) (temp align clear : bool) : M boot Z :=
let sz := if align then u64 (sz + PAGE_SZ) else sz in
ptr ← on_machine (allocPool sz);
let bptr := ptr in
if ptr =? 0 then fail Halt
else
  let ptr := if align then u64 (KALIGN ptr + PAGE_SZ) else ptr in
  _ ← when clear (on_machine (clearMem ptr sz));
  if temp then mret ptr
  else
    s ← get;
    e ← array_get (bt_allocMap s) (bt_mapPtr s);
    let flags := if align then Z.lor (me_flags e) MMAP_FLAG_ALIGN else me_flags e in
    l ← array_set (bt_allocMap s) (bt_mapPtr s)
          (MmapEntry MMAP_MAGIC flags type bptr (if virt =? 0 then ptr else virt) sz);
    let ptr' := u64 (bt_mapPtr s + 1) in
    _ ← modify (set_alloc l (bt_mapMax s) ptr' (u64 (bt_allocEntries s + 1)));
    _ ← when (ptr' =? bt_mapMax s)
          (s ← get;
           l ← on_machine (reallocPool (bt_allocMap s) (bt_mapMax s + 20));
           modify (set_alloc l (u64 (bt_mapMax s + 20)) (bt_mapPtr s) (bt_allocEntries s)));
    mret ptr.

(** ** Page tables *)

Definition pgAlloc : M boot Z :=
s ← get;
_ ← when (bt_bumpPtr s =? bt_bumpSize s)
      (base ← on_machine (allocPool (0x400000 + PAGE_SZ));
       modify (set_bump (u64 (KALIGN base + PAGE_SZ)) 0 0x400000));
s ← get;
let ptr := u64 (bt_bumpBase s + bt_bumpPtr s) in
_ ← on_machine (clearMem ptr 0x1000);
s ← get;
_ ← modify (set_bump (bt_bumpBase s) (u64 (bt_bumpPtr s + 0x1000)) (bt_bumpSize s));
mret ptr.

(** [if(TABLE_BASE(t[n]) == 0x0){t[n] |= TABLE_BASE(pgAlloc());}], then the table. *)
Definition boot_table (slot : Z) : M boot Z :=
e ← on_machine (ld 8 slot);
_ ← (if TABLE_BASE e =? 0 then
       p ← pgAlloc;
       e ← on_machine (ld 8 slot);
       on_machine (st 8 slot (Z.lor e (TABLE_BASE p)))
     else mret tt);
e ← on_machine (ld 8 slot);
mret (TABLE_BASE e).

Definition boot_or (slot flags : Z) : M boot unit :=
e ← on_machine (ld 8 slot); on_machine (st 8 slot (Z.lor e flags)).

Definition boot_mapPage (phys virt : Z) (write execute : bool) : M boot unit :=
let phys := KALIGN phys in
let virt := KALIGN virt in
s ← get;
let pmln := bt_pml s + 8 * PML_ENTRY virt in
pdpe ← boot_table pmln;
let pdpen := pdpe + 8 * PDPE_ENTRY virt in
pde ← boot_table pdpen;
let pden := pde + 8 * PDE_ENTRY virt in
pte ← boot_table pden;
let flags := if write then Z.lor PG_PRESENT PG_WRITE else PG_PRESENT in
_ ← boot_or pmln flags;
_ ← boot_or pdpen flags;
_ ← boot_or pden flags;
let flags := if execute then flags else Z.lor flags PG_NX in
on_machine (st 8 (pte + 8 * PTE_ENTRY virt) (Z.lor flags phys)).

(** [n] is a [uint32_t] and so is [i*PAGE_SZ] with the [int] constant. *)
Definition boot_mapPages (phys virt n : Z) (write execute : bool) : M boot unit :=
let n := if u32 n =? 0 then 1 else u32 n in
for_range 0 n (λ i,
  boot_mapPage (u64 (phys + u32 (i * PAGE_SZ))) (u64 (virt + u32 (i * PAGE_SZ))) write execute).

(** The firmware's map through the library call; NULL loops for ever. *)
Definition idMapMem : M boot unit :=
m ← on_machine getEfiMmap;
match m with
| None => fail Halt
| Some descs =>
    for_range 0 (Z.of_nat (length descs) - 1) (λ i,
      d ← array_get descs i;
      if bool_decide (Type_ d = EfiReservedMemoryType ∨ Type_ d = EfiUnusableMemory
                      ∨ Type_ d = EfiUnacceptedMemoryType)
      then mret tt
      else boot_mapPages (PhysicalStart d) (PhysicalStart d) (DESC_SZ d / PAGE_SZ) true false)
end.

Definition boot_initMem : M boot unit :=
p ← on_machine (allocPool (48 * 40));
_ ← on_machine (clearMem p (48 * 40));
_ ← modify (λ s, set_alloc (replicate 40 empty_entry) 40 (bt_mapPtr s) (bt_allocEntries s) s);
pml ← pgAlloc;
_ ← modify (set_pml pml);
idMapMem.

(** [testPath] reports where a walk stops: 1 to 4 for a missing entry, 0 with the
    page table entry for a mapped page. *)
Definition testPath (tpml addr : Z) : M boot (Z * Z) :=
let addr := KALIGN addr in
e ← on_machine (ld 8 (tpml + 8 * PML_ENTRY addr));
if Z.land e PG_PRESENT =? 0 then mret (1, 0)
else
  let pdpe := TABLE_BASE e in
  e ← on_machine (ld 8 (pdpe + 8 * PDPE_ENTRY addr));
  if Z.land e PG_PRESENT =? 0 then mret (2, 0)
  else
    let pde := TABLE_BASE e in
    e ← on_machine (ld 8 (pde + 8 * PDE_ENTRY addr));
    if Z.land e PG_PRESENT =? 0 then mret (3, 0)
    else
      let pte := TABLE_BASE e in
      e ← on_machine (ld 8 (pte + 8 * PTE_ENTRY addr));
      if Z.land e PG_PRESENT =? 0 then mret (4, 0) else mret (0, e).

(** ** The kernel's memory map *)

Definition convertMmapType (t : efi_type) : Z :=
match t with
| EfiReservedMemoryType => MMAP_TYPE_RESV
| EfiLoaderCode | EfiLoaderData | EfiBootServicesCode | EfiBootServicesData
| EfiConventionalMemory => MMAP_TYPE_FREE
| EfiRuntimeServicesCode | EfiRuntimeServicesData => MMAP_TYPE_UEFI
| EfiACPIReclaimMemory | EfiACPIMemoryNVS => MMAP_TYPE_ACPI
| EfiMemoryMappedIO | EfiMemoryMappedIOPortSpace => MMAP_TYPE_MMIO
| _ => MMAP_TYPE_OTHER
end.

Definition kmmap_get (i : Z) : M boot mmapEntry := l ← gets bt_kmmap; array_get l i.
Definition kmmap_set (i : Z) (e : mmapEntry) : M boot unit :=
l ← gets bt_kmmap; l' ← array_set l i e; modify (set_kmmap l').

Definition converted (flags : Z) (d : EFI_MEMORY_DESCRIPTOR) : mmapEntry :=
MmapEntry MMAP_MAGIC flags (convertMmapType (Type_ d)) (PhysicalStart d) (VirtualStart d) (DESC_SZ d).
Definition writeKmmapEntry (mp : Z) (d : EFI_MEMORY_DESCRIPTOR) : M boot unit :=
e ← kmmap_get mp; kmmap_set mp (converted (me_flags e) d).

(** The mappings of the loader's own code and data. *)
Definition map_loader (d : EFI_MEMORY_DESCRIPTOR) : M boot unit :=
_ ← (if decide (Type_ d = EfiLoaderCode) then
       boot_mapPages (PhysicalStart d) (PhysicalStart d) (DESC_SZ d / PAGE_SZ) false true
     else mret tt);
if decide (Type_ d = EfiLoaderData) then
  boot_mapPages (PhysicalStart d) (PhysicalStart d) (DESC_SZ d / PAGE_SZ) true false
else mret tt.

Definition with_bytes (b : Z) (e : mmapEntry) : mmapEntry :=
MmapEntry (me_magic e) (me_flags e) (me_type e) (me_phys e) (me_virt e) b.

(** The test of entry [z] against a descriptor. *)
Definition desc_touches (e : mmapEntry) (d : EFI_MEMORY_DESCRIPTOR) : bool :=
(me_type e =? convertMmapType (Type_ d)) && (me_phys e <=? PhysicalStart d) &&
(u64 (PhysicalStart d + DESC_SZ d) <=? u64 (me_phys e + me_bytes e + DESC_SZ d)).

(** The search of [mergeDescToMMAP] from [z] on, [n] entries. *)
Fixpoint merge_search (n : nat) (z mp : Z) (d : EFI_MEMORY_DESCRIPTOR) : M boot bool :=
match n with
| O => mret false
| S n' =>
    e ← kmmap_get z;
    if desc_touches e d then
      last ← kmmap_get mp;
      _ ← kmmap_set mp (with_bytes (u64 (me_bytes last + DESC_SZ d)) last);
      mret true
    else merge_search n' (z + 1) mp d
end.

Definition mergeDescToMMAP (mp : Z) (d : EFI_MEMORY_DESCRIPTOR) : M boot bool :=
_ ← map_loader d; merge_search (Z.to_nat mp) 0 mp d.

(** The overlap tests of [mergeKmmapEntry]; [k] is [kmmap[z]]. *)
Definition entries_touch (e k : mmapEntry) : bool :=
((me_phys k <=? u64 (me_phys e + me_bytes e)) && (me_phys e <? me_phys k)) ||
((me_phys e <=? u64 (me_phys k + me_bytes k)) && (me_phys k <? me_phys e)).

Definition with_type (t : Z) (e : mmapEntry) : mmapEntry :=
MmapEntry (me_magic e) (me_flags e) t (me_phys e) (me_virt e) (me_bytes e).
Definition with_phys (p : Z) (e : mmapEntry) : mmapEntry :=
MmapEntry (me_magic e) (me_flags e) (me_type e) p (me_virt e) (me_bytes e).

(** The loop of [mergeKmmapEntry] for [entry = &kmmap[c]]. *)
Fixpoint kmmap_merge_loop (n : nat) (z mp c : Z) : M boot unit :=
match n with
| O => mret tt
| S n' =>
    if z =? c then kmmap_merge_loop n' (z + 1) mp c
    else
      e ← kmmap_get c;
      k ← kmmap_get z;
      if negb (me_type k =? me_type e) then kmmap_merge_loop n' (z + 1) mp c
      else if entries_touch e k then
        last ← kmmap_get mp;
        _ ← kmmap_set z (with_bytes (u64 (me_bytes e + me_bytes last)) k);
        e ← kmmap_get c;
        _ ← kmmap_set c (with_type MMAP_TYPE_IGNORE e);
        k ← kmmap_get z;
        e ← kmmap_get c;
        kmmap_set z (with_phys (if me_phys k <? me_phys e then me_phys k else me_phys e) k)
      else kmmap_merge_loop n' (z + 1) mp c
end.

Definition mergeKmmapEntry (mp c : Z) : M boot unit :=
e ← kmmap_get c;
if me_type e =? MMAP_TYPE_IGNORE then mret tt else kmmap_merge_loop (Z.to_nat mp) 0 mp c.

(** The loop over the descriptors after the first. *)
Fixpoint add_descs (ds : list EFI_MEMORY_DESCRIPTOR) (mp : Z) : M boot Z :=
match ds with
| [] => mret mp
| d :: ds' =>
    merged ← mergeDescToMMAP mp d;
    if merged : bool then add_descs ds' mp
    else _ ← writeKmmapEntry (mp + 1) d; add_descs ds' (mp + 1)
end.

(** [initMMAP]: [false] for a status other than EFI_SUCCESS.  The array has as
    many zeroed entries as [allocMem] was asked for. *)
Definition initMMAP : M boot bool :=
m ← on_machine getEfiMmap;
match m with
| None => mret false
| Some ds0 =>
    a ← gets bt_allocEntries;
    let n := Z.of_nat (length ds0) + a * 2 + 5 in
    p ← allocMem_int (48 * n) 0 MMAP_TYPE_OTHER true true true;
    _ ← modify (set_kmmap (replicate (Z.to_nat n) empty_entry));
    m ← on_machine getEfiMmap;
    match m with
    | None => mret false
    | Some [] => fail OutOfBounds
    | Some (d :: ds) =>
        _ ← writeKmmapEntry 0 d;
        _ ← map_loader d;
        mp ← add_descs ds 0;
        _ ← for_range 0 mp (λ c, mergeKmmapEntry mp c);
        s ← get;
        _ ← modify (set_counts (u32 mp) (u32 (bt_allocEntries s)));
        mret true
    end
end.
End boot.

(** ** Merging a descriptor *)

Section props.
Context {HE : Efi}.

Lemma kmmap_get_ok i e s : nthZ (bt_kmmap s) i = Some e → kmmap_get i s = Ok e s.
Proof. intros H. unfold kmmap_get. mstep. unfold array_get. by rewrite H. Qed.
Lemma kmmap_set_ok i e e' s :
nthZ (bt_kmmap s) i = Some e → kmmap_set i e' s = Ok tt (set_kmmap (updZ (bt_kmmap s) i e') s).
Proof. intros H. unfold kmmap_set. mstep. unfold array_set. by rewrite H. Qed.

Lemma merge_search_none n z mp d s :
(∀ i, z <= i < z + Z.of_nat n → ∃ e, nthZ (bt_kmmap s) i = Some e ∧ desc_touches e d = false) →
merge_search n z mp d s = Ok false s.
Proof.
revert z. induction n as [|n IH]; intros z H; [done|]. cbn [merge_search].
destruct (H z ltac:(lia)) as (e & E & Ht). rewrite (bind_ok _ _ _ _ _ (kmmap_get_ok _ _ _ E)), Ht.
apply IH. intros i Hi. apply H. lia.
Qed.

Lemma merge_search_found n z mp d s k e last :
nthZ (bt_kmmap s) k = Some e → desc_touches e d = true → z <= k < z + Z.of_nat n →
(∀ i, z <= i < k → ∃ e, nthZ (bt_kmmap s) i = Some e ∧ desc_touches e d = false) →
nthZ (bt_kmmap s) mp = Some last →
merge_search n z mp d s =
  Ok true (set_kmmap (updZ (bt_kmmap s) mp (with_bytes (u64 (me_bytes last + DESC_SZ d)) last)) s).
Proof.
intros Ek Ht Hk Hbefore Hl. revert z Hk Hbefore.
induction n as [|n IH]; intros z Hk Hbefore; [lia|]. cbn [merge_search].
destruct (Z.eq_dec z k) as [->|Hne].
- rewrite (bind_ok _ _ _ _ _ (kmmap_get_ok _ _ _ Ek)), Ht.
  rewrite (bind_ok _ _ _ _ _ (kmmap_get_ok _ _ _ Hl)).
  by rewrite (bind_ok _ _ _ _ _ (kmmap_set_ok _ _ _ _ Hl)).
- destruct (Hbefore z ltac:(lia)) as (e' & E' & Ht').
  rewrite (bind_ok _ _ _ _ _ (kmmap_get_ok _ _ _ E')), Ht'.
  apply IH; [lia|]. intros i Hi. apply Hbefore. lia.
Qed.

(** A descriptor that continues the entry [k] of the map is not added to it: the
    last entry of the map grows instead, whatever its type and address. *)
Theorem mergeDescToMMAP_grows_last mp d s k e last :
Type_ d ≠ EfiLoaderCode → Type_ d ≠ EfiLoaderData →
0 <= k < mp → nthZ (bt_kmmap s) k = Some e → desc_touches e d = true →
(∀ i, 0 <= i < k → ∃ e, nthZ (bt_kmmap s) i = Some e ∧ desc_touches e d = false) →
nthZ (bt_kmmap s) mp = Some last →
mergeDescToMMAP mp d s =
  Ok true (set_kmmap (updZ (bt_kmmap s) mp (with_bytes (u64 (me_bytes last + DESC_SZ d)) last)) s).
Proof.
intros H1 H2 Hk Ek Ht Hbefore Hl. unfold mergeDescToMMAP, map_loader.
rewrite !decide_False by done. mstep. by apply (merge_search_found _ _ _ _ _ k e last); try lia.
Qed.
End props.

(** ** The map handed over *)

(** The firmware library returns from every call. *)
Class EfiReturns `{Efi} := {
  allocPool_returns n s : ∃ p s', allocPool n s = Ok p s' ∧ p ≠ 0;
  clearMem_returns p n s : ∃ s', clearMem p n s = Ok tt s'
}.

Section handover.
Context {HE : Efi} {HR : EfiReturns}.

(** A computation that returns and leaves the map alone. *)
Definition quiet {A} (m : M boot A) : Prop :=
∀ s, ∃ a s', m s = Ok a s' ∧ bt_kmmap s' = bt_kmmap s.

Lemma quiet_ret {A} (a : A) : quiet (mret a).
Proof. intros s. by exists a, s. Qed.
Lemma quiet_bind {A B} (m : M boot A) (f : A → M boot B) :
quiet m → (∀ a, quiet (f a)) → quiet (m ≫= f).
Proof.
intros Hm Hf s. destruct (Hm s) as (a & s1 & E1 & K1). destruct (Hf a s1) as (b & s2 & E2 & K2).
exists b, s2. rewrite (bind_ok _ _ _ _ _ E1). split; [done|congruence].
Qed.
Lemma quiet_get : quiet get.
Proof. intros s. by exists s, s. Qed.
Lemma quiet_modify f : (∀ s, bt_kmmap (f s) = bt_kmmap s) → quiet (modify f).
Proof. intros Hf s. by exists tt, (f s). Qed.
Lemma quiet_ld n a : quiet (on_machine (ld n a)).
Proof. intros s. eexists _, _. by split. Qed.
Lemma quiet_st n a v : quiet (on_machine (st n a v)).
Proof. intros s. eexists _, _. by split. Qed.
Lemma quiet_allocPool n : quiet (on_machine (allocPool n)).
Proof.
intros s. destruct (allocPool_returns n (bt_machine s)) as (p & m & E & _).
exists p, (set_machine m s). unfold on_machine, zoom. by rewrite E.
Qed.
Lemma quiet_clearMem p n : quiet (on_machine (clearMem p n)).
Proof.
intros s. destruct (clearMem_returns p n (bt_machine s)) as (m & E).
exists tt, (set_machine m s). unfold on_machine, zoom. by rewrite E.
Qed.
Lemma quiet_for n i body : (∀ j, quiet (body j)) → quiet (for_from n i body).
Proof.
intros Hb. revert i. induction n as [|n IH]; intros i; [apply quiet_ret|].
apply quiet_bind; [apply Hb|intros; apply IH].
Qed.

#[local] Hint Resolve quiet_ret quiet_get quiet_ld quiet_st quiet_allocPool quiet_clearMem : quiet.

Ltac quiet :=
  repeat first
    [ solve [auto with quiet]
    | progress cbv zeta
    | apply quiet_bind; [|intros ?]
    | apply quiet_modify; intros ?; reflexivity
    | case_match ].

Lemma quiet_pgAlloc : quiet pgAlloc.
Proof. unfold pgAlloc, when. quiet. Qed.
#[local] Hint Resolve quiet_pgAlloc : quiet.

Lemma quiet_mapPage phys virt w x : quiet (boot_mapPage phys virt w x).
Proof. unfold boot_mapPage, boot_table, boot_or. quiet. Qed.

Lemma quiet_map_loader d : quiet (map_loader d).
Proof.
assert (∀ p v n w x, quiet (boot_mapPages p v n w x)) as Hp.
{ intros. apply quiet_for. intros. apply quiet_mapPage. }
unfold map_loader. quiet; apply Hp.
Qed.

(** ** Descriptors that do not meet *)

Definition desc_end (d : EFI_MEMORY_DESCRIPTOR) : Z := PhysicalStart d + NumberOfPages d * 4096.
Definition desc_wf (d : EFI_MEMORY_DESCRIPTOR) : Prop :=
0 <= PhysicalStart d ∧ 0 <= NumberOfPages d ∧ desc_end d < 2 ^ 62.
(** No two descriptors of one kernel type touch. *)
Definition separate (d1 d2 : EFI_MEMORY_DESCRIPTOR) : Prop :=
convertMmapType (Type_ d1) ≠ convertMmapType (Type_ d2) ∨
desc_end d1 < PhysicalStart d2 ∨ desc_end d2 < PhysicalStart d1.
Definition all_separate (ds : list EFI_MEMORY_DESCRIPTOR) : Prop :=
∀ i j d1 d2, i ≠ j → ds !! i = Some d1 → ds !! j = Some d2 → separate d1 d2.

Lemma desc_touches_separate d1 d2 :
desc_wf d1 → desc_wf d2 → separate d1 d2 → desc_touches (converted 0 d1) d2 = false.
Proof.
unfold desc_wf, separate, desc_end. intros H1 H2 Hs. unfold desc_touches, converted, DESC_SZ, EFI_PAGE_SIZE.
cbn [me_type me_phys me_bytes]. wrap.
destruct (Z.eqb_spec (convertMmapType (Type_ d1)) (convertMmapType (Type_ d2))); [|done].
cbn [andb]. zcases; cbn [andb]; try done; lia.
Qed.

Lemma entries_touch_separate d1 d2 :
desc_wf d1 → desc_wf d2 → separate d1 d2 →
(me_type (converted 0 d2) =? me_type (converted 0 d1)) = true →
entries_touch (converted 0 d1) (converted 0 d2) = false.
Proof.
unfold desc_wf, separate, desc_end. intros H1 H2 Hs. unfold entries_touch, converted, DESC_SZ, EFI_PAGE_SIZE.
cbn [me_type me_phys me_bytes]. wrap. intros Ht%Z.eqb_eq.
apply orb_false_iff; split; apply andb_false_iff; rewrite Z.leb_gt, Z.ltb_ge; lia.
Qed.

(** The map holds the first [n] of the descriptors [ds], and zeroed entries. *)
Definition holds_descs (ds : list EFI_MEMORY_DESCRIPTOR) (l : list mmapEntry) : Prop :=
∀ i, 0 <= i < Z.of_nat (length l) →
  nthZ l i = Some (match nthZ ds i with Some d => converted 0 d | None => empty_entry end).

Lemma nthZ_snoc {A} (l : list A) x i :
nthZ (l ++ [x]) i = if i =? Z.of_nat (length l) then Some x else nthZ l i.
Proof.
unfold nthZ. destruct (Z.eqb_spec i (Z.of_nat (length l))) as [->|Hne].
- rewrite decide_True by lia. by rewrite Nat2Z.id, list_lookup_middle.
- case_decide; [|done]. destruct (decide (Z.to_nat i < length l)%nat).
  + by rewrite lookup_app_l.
  + rewrite !lookup_ge_None_2; rewrite ?length_app; cbn; done || lia.
Qed.

Lemma writeKmmapEntry_ok ds d s :
holds_descs ds (bt_kmmap s) → Z.of_nat (length ds) < Z.of_nat (length (bt_kmmap s)) →
∃ s', writeKmmapEntry (Z.of_nat (length ds)) d s = Ok tt s' ∧
  holds_descs (ds ++ [d]) (bt_kmmap s') ∧ length (bt_kmmap s') = length (bt_kmmap s).
Proof.
intros Hh Hl. pose proof (Hh (Z.of_nat (length ds)) ltac:(lia)) as He.
rewrite (nthZ_None ds) in He by lia. eexists. split; [|split].
- unfold writeKmmapEntry. rewrite (bind_ok _ _ _ _ _ (kmmap_get_ok _ _ _ He)).
  by rewrite (kmmap_set_ok _ _ _ _ He).
- intros i. cbn [bt_kmmap set_kmmap]. rewrite length_updZ. intros Hi. rewrite nthZ_snoc.
  destruct (Z.eqb_spec i (Z.of_nat (length ds))) as [->|Hne].
  + rewrite nthZ_updZ_eq by lia. done.
  + rewrite nthZ_updZ_ne by lia. by apply Hh.
- cbn [bt_kmmap set_kmmap]. by rewrite length_updZ.
Qed.

Lemma add_descs_ok pre ds s :
pre ≠ [] → Forall desc_wf (pre ++ ds) → all_separate (pre ++ ds) →
holds_descs pre (bt_kmmap s) → Z.of_nat (length (pre ++ ds)) <= Z.of_nat (length (bt_kmmap s)) →
∃ s', add_descs ds (Z.of_nat (length pre) - 1) s = Ok (Z.of_nat (length (pre ++ ds)) - 1) s' ∧
  holds_descs (pre ++ ds) (bt_kmmap s') ∧ length (bt_kmmap s') = length (bt_kmmap s).
Proof.
revert pre s. induction ds as [|d ds IH]; intros pre s Hne Hwf Hsep Hh Hl.
{ rewrite app_nil_r in *. by exists s. }
assert (pre ++ d :: ds = (pre ++ [d]) ++ ds) as Eapp by by rewrite <- app_assoc.
destruct (quiet_map_loader d s) as ([] & s1 & E1 & K1).
assert (mergeDescToMMAP (Z.of_nat (length pre) - 1) d s = Ok false s1) as Em.
{ unfold mergeDescToMMAP. rewrite (bind_ok _ _ _ _ _ E1). apply merge_search_none.
  intros i Hi. destruct (nthZ_is_Some pre i ltac:(lia)) as [d1 Ed1].
  exists (converted 0 d1). rewrite K1. split.
  - rewrite Hh, Ed1; [done|]. rewrite length_app in Hl. lia.
  - unfold nthZ in Ed1. rewrite decide_True in Ed1 by lia.
    assert ((pre ++ d :: ds) !! Z.to_nat i = Some d1) as L1 by by apply lookup_app_l_Some.
    assert ((pre ++ d :: ds) !! length pre = Some d) as L2 by by apply list_lookup_middle.
    apply desc_touches_separate.
    + by eapply Forall_lookup_1 in L1; [|exact Hwf].
    + by eapply Forall_lookup_1 in L2; [|exact Hwf].
    + eapply Hsep; [|exact L1|exact L2]. lia. }
destruct (writeKmmapEntry_ok pre d s1) as (s2 & E2 & H2 & L2).
{ by rewrite K1. } { rewrite K1. rewrite length_app in Hl. cbn in Hl. lia. }
cbn [add_descs]. rewrite (bind_ok _ _ _ _ _ Em). cbv iota.
replace (Z.of_nat (length pre) - 1 + 1) with (Z.of_nat (length pre)) by lia.
rewrite (bind_ok _ _ _ _ _ E2). rewrite Eapp in *.
destruct (IH (pre ++ [d]) s2) as (s3 & E3 & H3 & L3); try done.
- by destruct pre.
- rewrite L2, K1. done.
- exists s3. rewrite <- E3. split; [|split; [done|congruence]]. f_equal.
  rewrite length_app. cbn. lia.
Qed.

Lemma merge_loop_quiet ds n z mp c d s :
holds_descs ds (bt_kmmap s) → Forall desc_wf ds → all_separate ds →
Z.of_nat (length ds) <= Z.of_nat (length (bt_kmmap s)) →
0 <= z → z + Z.of_nat n <= Z.of_nat (length ds) → nthZ ds c = Some d →
kmmap_merge_loop n z mp c s = Ok tt s.
Proof.
intros Hh Hwf Hsep Hl. revert z. induction n as [|n IH]; intros z Hz Hn Hc; [done|].
pose proof (nthZ_Some _ _ _ Hc) as Hcr. cbn [kmmap_merge_loop].
destruct (Z.eqb_spec z c) as [|Hne]; [apply IH; done || lia|].
destruct (nthZ_is_Some ds z ltac:(lia)) as [k Hk].
pose proof (Hh c ltac:(lia)) as Ec. pose proof (Hh z ltac:(lia)) as Ek. rewrite Hc in Ec. rewrite Hk in Ek.
rewrite (bind_ok _ _ _ _ _ (kmmap_get_ok _ _ _ Ec)), (bind_ok _ _ _ _ _ (kmmap_get_ok _ _ _ Ek)).
destruct (me_type (converted 0 k) =? me_type (converted 0 d)) eqn:Et; cbn [negb];
  [|apply IH; done || lia].
unfold nthZ in Hk, Hc. rewrite decide_True in Hk by lia. rewrite decide_True in Hc by lia.
rewrite entries_touch_separate; [apply IH; try lia|..|done].
- unfold nthZ. by rewrite decide_True by lia.
- by eapply Forall_lookup_1 in Hc.
- by eapply Forall_lookup_1 in Hk.
- eapply Hsep; [|exact Hc|exact Hk]. lia.
Qed.

(** Without the map entry the pool request always gives memory. *)
Lemma allocMem_int_returns sz s : ∃ p s', allocMem_int sz 0 MMAP_TYPE_OTHER true true true s = Ok p s'.
Proof.
unfold allocMem_int. cbv zeta.
destruct (allocPool_returns (u64 (sz + PAGE_SZ)) (bt_machine s)) as (p & m & E & Hp).
erewrite bind_ok; [|unfold on_machine, zoom; by rewrite E]. cbv beta.
rewrite eqb_false by done. cbn [when].
destruct (quiet_clearMem (u64 (KALIGN p + PAGE_SZ)) (u64 (sz + PAGE_SZ)) (set_machine m s)) as ([] & s1 & Ec & _).
rewrite (bind_ok _ _ _ _ _ Ec). by eexists _, _.
Qed.

Lemma holds_descs_fresh n : holds_descs [] (replicate n empty_entry).
Proof.
intros i Hi. rewrite (nthZ_None (@nil EFI_MEMORY_DESCRIPTOR)) by (cbn; lia).
unfold nthZ. rewrite decide_True by lia. apply lookup_replicate. split; [done|].
rewrite length_replicate in Hi. lia.
Qed.

(** No two entries of a map whose descriptors do not touch are merged. *)
Lemma merge_all_quiet ds k c n s :
holds_descs ds (bt_kmmap s) → Forall desc_wf ds → all_separate ds →
Z.of_nat (length ds) <= Z.of_nat (length (bt_kmmap s)) →
n = Z.of_nat (length ds) - 1 → 0 <= c → c + Z.of_nat k <= n →
for_from k c (λ c, mergeKmmapEntry n c) s = Ok tt s.
Proof.
intros Hh Hwf Hsep Hl -> Hc Hk. revert c Hc Hk. induction k as [|k IH]; intros c Hc Hk; [done|].
cbn [for_from]. destruct (nthZ_is_Some ds c ltac:(lia)) as [x Hx].
pose proof (Hh c ltac:(lia)) as Ec. rewrite Hx in Ec.
rewrite (bind_ok _ _ _ tt s); [apply IH; lia|].
unfold mergeKmmapEntry. rewrite (bind_ok _ _ _ _ _ (kmmap_get_ok _ _ _ Ec)).
case_match; [done|]. apply (merge_loop_quiet ds _ _ _ _ x); try done; lia.
Qed.

(** C17: A memory map whose descriptors do not touch is converted entry by entry,
    but the count handed to the kernel leaves out the last one. *)
Theorem initMMAP_drops_last d ds s :
(∀ m, getEfiMmap m = Ok (Some (d :: ds)) m) →
Forall desc_wf (d :: ds) → all_separate (d :: ds) → 0 <= bt_allocEntries s < 2 ^ 30 →
Z.of_nat (length ds) < 2 ^ 30 →
∃ s', initMMAP s = Ok true s' ∧ bt_entries s' = Z.of_nat (length ds) ∧
  ∀ i x, (d :: ds) !! i = Some x → nthZ (bt_kmmap s') (Z.of_nat i) = Some (converted 0 x).
Proof.
intros Hget Hwf Hsep Ha Hlen.
assert (∀ s, on_machine getEfiMmap s = Ok (Some (d :: ds)) s) as Hg.
{ intros [m ? ? ? ? ? ? ? ? ? ? ?]. unfold on_machine, zoom. cbn [bt_machine]. by rewrite Hget. }
unfold initMMAP. rewrite (bind_ok _ _ _ _ _ (Hg s)). mstep.
set (n := Z.of_nat (length (d :: ds)) + bt_allocEntries s * 2 + 5).
destruct (allocMem_int_returns (48 * n) s) as (p & s1 & E1).
rewrite (bind_ok _ _ _ _ _ E1). mstep. rewrite (bind_ok _ _ _ _ _ (Hg _)).
set (s2 := set_kmmap _ s1).
assert (length (bt_kmmap s2) = Z.to_nat n) as Ln by apply length_replicate.
pose proof (holds_descs_fresh (Z.to_nat n) : holds_descs [] (bt_kmmap s2)) as H0.
destruct (writeKmmapEntry_ok [] d s2 H0) as (s3 & E3 & H3 & L3).
{ rewrite Ln. cbn. unfold n. cbn [length]. lia. }
change (Z.of_nat (length (@nil EFI_MEMORY_DESCRIPTOR))) with 0 in E3.
rewrite (bind_ok _ _ _ _ _ E3).
destruct (quiet_map_loader d s3) as ([] & s4 & E4 & K4). rewrite (bind_ok _ _ _ _ _ E4).
destruct (add_descs_ok [d] ds s4) as (s5 & E5 & H5 & L5); try done.
{ by rewrite K4. } { rewrite K4, L3, Ln. unfold n. cbn [length app]. lia. }
change (Z.of_nat (length [d]) - 1) with 0 in E5. rewrite (bind_ok _ _ _ _ _ E5).
cbn [app length] in *.
assert (Z.of_nat (length (d :: ds)) <= Z.of_nat (length (bt_kmmap s5))) as L5'.
{ rewrite L5, K4, L3, Ln. unfold n. cbn [length]. lia. }
unfold for_range. rewrite (bind_ok _ _ _ tt s5).
2:{ apply (merge_all_quiet (d :: ds)); try done; cbn [length]; lia. }
do 2 mstep.
eexists. split; [reflexivity|]. split.
- cbn [bt_entries set_counts]. rewrite u32_id; lia.
- intros i x Hi. pose proof (lookup_lt_Some _ _ _ Hi). cbn [bt_kmmap set_counts].
  rewrite H5 by lia. unfold nthZ at 1. rewrite decide_True by lia. by rewrite Nat2Z.id, Hi.
Qed.
End handover.

(** ** Witnesses *)

(** Free memory, firmware data, and free memory that does not continue the first. *)
Definition three_descs : list EFI_MEMORY_DESCRIPTOR :=
  [Desc EfiConventionalMemory 0x100000 0 16; Desc EfiRuntimeServicesData 0x110000 0 4;
   Desc EfiBootServicesData 0x200000 0 32].
(** A firmware whose pools are at 0x40000000 and whose map never changes. *)
Definition small_efi : Efi := {|
  allocPool := λ _, mret 0x40000000;
  clearMem := λ p n, mret tt;
  reallocPool := λ l _, mret l;
  getEfiMmap := mret (Some three_descs)
|}.
Lemma small_efi_returns : @EfiReturns small_efi.
Proof. split; [intros n s; by exists 0x40000000, s|intros p n s; by exists s]. Defined.

Definition boot0 : boot := Boot machine0 [] (replicate 40 empty_entry) 40 0 0 0x5000 0 0 0 0 0.

Lemma initMMAP_drops_last_witness :
  ∃ s', @initMMAP small_efi boot0 = Ok true s' ∧ bt_entries s' = 2 ∧
    ∀ i x, three_descs !! i = Some x → nthZ (bt_kmmap s') (Z.of_nat i) = Some (converted 0 x).
Proof.
  apply (@initMMAP_drops_last small_efi small_efi_returns (Desc EfiConventionalMemory 0x100000 0 16)
    (tail three_descs) boot0); [done| | |done|done].
  - repeat constructor; done.
  - intros i j d1 d2 Hij Hi Hj. change (_ :: tail three_descs) with three_descs in Hi, Hj.
    do 3 (destruct i as [|i]; [injection Hi as <-; do 3 (destruct j as [|j];
      [injection Hj as <-; unfold separate, desc_end; cbn; solve [done|left; done|right; lia]|]); done|]).
    done.
Defined.

(** Free memory at 1 MiB and a firmware entry; a descriptor that continues the
    first makes the second grow. *)
Definition boot_two : boot :=
  set_kmmap [converted 0 (Desc EfiConventionalMemory 0x100000 0 16);
             converted 0 (Desc EfiRuntimeServicesData 0x200000 0 4)] boot0.
Lemma mergeDescToMMAP_grows_last_witness :
  @mergeDescToMMAP small_efi 1 (Desc EfiConventionalMemory 0x110000 0 8) boot_two =
  Ok true (set_kmmap (updZ (bt_kmmap boot_two) 1
    (with_bytes (u64 (0x4000 + 0x8000)) (converted 0 (Desc EfiRuntimeServicesData 0x200000 0 4))))
    boot_two).
Proof.
  apply (@mergeDescToMMAP_grows_last small_efi 1 (Desc EfiConventionalMemory 0x110000 0 8) boot_two 0
    (converted 0 (Desc EfiConventionalMemory 0x100000 0 16))
    (converted 0 (Desc EfiRuntimeServicesData 0x200000 0 4))); try done; try lia.
Defined.
