(* ===== verification/PageTrees.v ===== *)
(** * Trees of page tables

    Tables are kept with their level: 4 for the root, 1 for the tables whose entries
    are pages.  A walk is a recursion over the levels, so that making a table, or-ing
    flags into an entry and writing a page entry are each one lemma for all levels. *)

From S2P Require Import Prelude Kmonad Mem Paging PagingProps.

(** ** Walks over levels *)

(** The index into a table of level [l] that [v] selects. *)
Definition index_of (l : nat) (v : Z) : Z := Z.land (Z.shiftr v (12 + 9 * (Z.of_nat l - 1))) SELECT_MASK.
Definition present (e : Z) : Prop := Z.land e PG_PRESENT ≠ 0.
(** Two addresses in the same page of the 48-bit address space. *)
Definition page_of (v : Z) : Z := (v / 0x1000) mod 2 ^ 36.

Section walk.
Variable m : gmap Z Z.

Definition entry (t i : Z) : Z := load 8 m (t + 8 * i).

(** The slot of the page entry of [v], when no table on the way is missing. *)
Fixpoint walk (t : Z) (l : nat) (v : Z) : option Z :=
  match l with
  | O => None
  | S O => Some (t + 8 * index_of 1 v)
  | S l' => let b := TABLE_BASE (entry t (index_of l v)) in if b =? 0 then None else walk b l' v
  end.
Definition leaf_entry (t : Z) (l : nat) (v : Z) : Z :=
  match walk t l v with Some a => load 8 m a | None => 0 end.

(** The number of tables that are missing on the way to [v]. *)
Fixpoint missing (t : Z) (l : nat) (v : Z) : Z :=
  match l with
  | S (S _ as l') =>
      let b := TABLE_BASE (entry t (index_of l v)) in if b =? 0 then Z.of_nat l' else missing b l' v
  | _ => 0
  end.
End walk.

(** The tables [T], each with its level, of the root [pml]: a table entry points to
    a table of the next level, to no table that another entry points to, and is
    present exactly when it points to a table, but for the slots in [P], whose flags
    are still to be written. *)
Record ptree (m : gmap Z Z) (pml : Z) (T : gmap Z nat) (P : gset Z) : Prop := {
  pt_root : T !! pml = Some 4%nat;
  pt_base t l : T !! t = Some l → t mod 0x1000 = 0 ∧ 0 < t < 2 ^ 52;
  pt_child t l i : T !! t = Some (S (S l)) → 0 <= i < 512 →
    TABLE_BASE (entry m t i) ≠ 0 → T !! TABLE_BASE (entry m t i) = Some (S l);
  pt_inj t l i t' l' i' : T !! t = Some (S (S l)) → T !! t' = Some (S (S l')) →
    0 <= i < 512 → 0 <= i' < 512 → TABLE_BASE (entry m t i) ≠ 0 →
    TABLE_BASE (entry m t i) = TABLE_BASE (entry m t' i') → t = t' ∧ i = i';
  pt_present t l i : T !! t = Some (S (S l)) → 0 <= i < 512 → t + 8 * i ∉ P →
    (present (entry m t i) ↔ TABLE_BASE (entry m t i) ≠ 0)
}.

(** The entries of the tables above the last level point where they did. *)
Definition same_bases (T : gmap Z nat) (m m' : gmap Z Z) : Prop :=
  ∀ t l i, T !! t = Some (S (S l)) → 0 <= i < 512 →
    TABLE_BASE (entry m' t i) = TABLE_BASE (entry m t i).
(** No entry that points to a table points elsewhere. *)
Definition bases_kept (T : gmap Z nat) (m m' : gmap Z Z) : Prop :=
  ∀ t l i, T !! t = Some (S (S l)) → 0 <= i < 512 → TABLE_BASE (entry m t i) ≠ 0 →
    TABLE_BASE (entry m' t i) = TABLE_BASE (entry m t i).

Section bits.

Lemma index_range l v : 0 <= index_of l v < 512.
Proof. apply entry_range. Qed.

(** The index as a quotient: level [l] selects bits [12 + 9 (l - 1)] on. *)
Lemma index_of_div l v : (1 <= l)%nat → index_of l v = v / 2 ^ (12 + 9 * (Z.of_nat l - 1)) mod 512.
Proof.
intros Hl. unfold index_of, SELECT_MASK. rewrite Z.shiftr_div_pow2 by lia.
change 0x1FF with (Z.ones 9). by rewrite Z.land_ones by lia.
Qed.

(** The page number is made of the four indices. *)
Lemma page_of_indices v :
page_of v = index_of 1 v + 512 * (index_of 2 v + 512 * (index_of 3 v + 512 * index_of 4 v)).
Proof.
rewrite !index_of_div by lia. unfold page_of.
change (2 ^ (12 + 9 * (Z.of_nat 1 - 1))) with 0x1000.
change (2 ^ (12 + 9 * (Z.of_nat 2 - 1))) with (0x1000 * 512).
change (2 ^ (12 + 9 * (Z.of_nat 3 - 1))) with (0x1000 * 512 * 512).
change (2 ^ (12 + 9 * (Z.of_nat 4 - 1))) with (0x1000 * 512 * 512 * 512).
rewrite <- !Z.div_div by lia. set (a := v / 0x1000). zlia.
Qed.

Lemma page_of_eq v v' :
page_of v = page_of v' ↔ ∀ l, (1 <= l <= 4)%nat → index_of l v = index_of l v'.
Proof.
rewrite !page_of_indices. split.
- intros E l Hl.
  pose proof (index_range 1 v). pose proof (index_range 2 v). pose proof (index_range 3 v).
  pose proof (index_range 1 v'). pose proof (index_range 2 v'). pose proof (index_range 3 v').
  assert (l = 1 ∨ l = 2 ∨ l = 3 ∨ l = 4)%nat as [->|[->|[->| ->]]] by lia; lia.
- intros E. rewrite (E 1%nat), (E 2%nat), (E 3%nat), (E 4%nat) by lia. done.
Qed.

Lemma TABLE_BASE_table p : p mod 0x1000 = 0 → 0 <= p < 2 ^ 52 → TABLE_BASE p = p.
Proof. intros Hm Hp. apply TABLE_BASE_frame; [rewrite unaligned_mod by lia; by rewrite Hm|done]. Qed.

Lemma present_lor e f : present f → present (Z.lor e f).
Proof.
unfold present, PG_PRESENT. rewrite !(land_pow2 _ 0) by lia. rewrite Z.lor_spec.
destruct (Z.testbit f 0); [|done]. by rewrite orb_true_r.
Qed.
Lemma not_present_0 : ¬ present 0.
Proof. intros H. by apply H. Qed.

Lemma slot_eq t t' i i' :
t mod 0x1000 = 0 → t' mod 0x1000 = 0 → 0 <= i < 512 → 0 <= i' < 512 →
t + 8 * i = t' + 8 * i' → t = t' ∧ i = i'.
Proof. intros. split; zlia. Qed.
End bits.

Section trees.
Implicit Types (m : gmap Z Z) (T : gmap Z nat) (P : gset Z).

Lemma bases_same_kept T m m' : same_bases T m m' → bases_kept T m m'.
Proof. intros H t l i Ht Hi _. by eapply H. Qed.
Lemma bases_kept_refl T m : bases_kept T m m.
Proof. by intros t l i. Qed.
Lemma bases_kept_trans T T' m1 m2 m3 :
T ⊆ T' → bases_kept T m1 m2 → bases_kept T' m2 m3 → bases_kept T m1 m3.
Proof.
intros HT H1 H2 t l i Ht Hi Hne. rewrite (H2 t l i); [by eapply H1| |done|].
- by eapply lookup_weaken.
- by rewrite (H1 t l i).
Qed.

(** A walk sees only where the entries point. *)
Lemma walk_same_bases m m' pml T P t l v :
ptree m pml T P → same_bases T m m' → T !! t = Some l → walk m' t l v = walk m t l v.
Proof.
intros HT Hs. revert t. induction l as [|[|l] IH]; intros t Ht; [done|done|].
cbn [walk]. fold (walk m') (walk m). pose proof (index_range (S (S l)) v) as Hi.
rewrite (Hs t l _ Ht Hi). destruct (Z.eqb_spec (TABLE_BASE (entry m t (index_of (S (S l)) v))) 0); [done|].
apply IH. by eapply pt_child.
Qed.

Lemma walk_slot m pml T P t l v a :
ptree m pml T P → T !! t = Some l → walk m t l v = Some a →
∃ p, T !! p = Some 1%nat ∧ a = p + 8 * index_of 1 v.
Proof.
intros HT. revert t. induction l as [|[|l] IH]; intros t Ht Hw; [done| |].
- injection Hw as <-. by exists t.
- cbn [walk] in Hw. fold (walk m) in Hw. pose proof (index_range (S (S l)) v) as Hi.
  destruct (Z.eqb_spec (TABLE_BASE (entry m t (index_of (S (S l)) v))) 0); [done|].
  eapply IH; [|exact Hw]. by eapply pt_child.
Qed.

(** Walks that end in the same slot went the same way. *)
Lemma walk_inj m pml T P t t' l v v' a :
ptree m pml T P → T !! t = Some l → T !! t' = Some l → walk m t l v = Some a → walk m t' l v' = Some a →
t = t' ∧ ∀ k, (1 <= k <= l)%nat → index_of k v = index_of k v'.
Proof.
intros HT. revert t t'. induction l as [|[|l] IH]; intros t t' Ht Ht' Hw Hw'; [done| |].
- cbn [walk] in Hw, Hw'. injection Hw as <-. injection Hw' as E.
  pose proof (index_range 1 v). pose proof (index_range 1 v').
  destruct (pt_base _ _ _ _ HT _ _ Ht), (pt_base _ _ _ _ HT _ _ Ht').
  destruct (slot_eq t t' (index_of 1 v) (index_of 1 v')) as [-> E1]; try lia.
  split; [done|]. intros k Hk. by replace k with 1%nat by lia.
- cbn [walk] in Hw, Hw'. fold (walk m) in Hw, Hw'.
  pose proof (index_range (S (S l)) v) as Hi. pose proof (index_range (S (S l)) v') as Hi'.
  destruct (Z.eqb_spec (TABLE_BASE (entry m t (index_of (S (S l)) v))) 0) as [|N]; [done|].
  destruct (Z.eqb_spec (TABLE_BASE (entry m t' (index_of (S (S l)) v'))) 0) as [|N']; [done|].
  destruct (IH _ _ (pt_child _ _ _ _ HT _ _ _ Ht Hi N) (pt_child _ _ _ _ HT _ _ _ Ht' Hi' N') Hw Hw')
    as [Eb Ek].
  destruct (pt_inj _ _ _ _ HT _ _ _ _ _ _ Ht Ht' Hi Hi' N Eb) as [-> Ei]. split; [done|].
  intros k Hk. destruct (decide (k = S (S l))) as [->|]; [done|]. apply Ek. lia.
Qed.

Lemma walk_S m t l v :
walk m t (S (S l)) v =
  let b := TABLE_BASE (entry m t (index_of (S (S l)) v)) in if b =? 0 then None else walk m b (S l) v.
Proof. done. Qed.
Lemma missing_S m t l v :
missing m t (S (S l)) v =
  let b := TABLE_BASE (entry m t (index_of (S (S l)) v)) in if b =? 0 then Z.of_nat (S l) else missing m b (S l) v.
Proof. done. Qed.

Lemma missing_bound m t l v : 0 <= missing m t l v <= Z.of_nat (l - 1).
Proof.
revert t. induction l as [|[|l] IH]; intros t; [cbn; lia|cbn; lia|].
rewrite missing_S. cbv zeta. case_match; [lia|].
specialize (IH (TABLE_BASE (entry m t (index_of (S (S l)) v)))). lia.
Qed.

Lemma missing_kept m m' pml T P t l v :
ptree m pml T P → bases_kept T m m' → T !! t = Some l → missing m' t l v <= missing m t l v.
Proof.
intros HT Hk. revert t. induction l as [|[|l] IH]; intros t Ht; [done|done|].
rewrite !missing_S. cbv zeta. pose proof (index_range (S (S l)) v) as Hi.
destruct (Z.eqb_spec (TABLE_BASE (entry m t (index_of (S (S l)) v))) 0) as [|N].
- case_match; [lia|]. pose proof (missing_bound m' (TABLE_BASE (entry m' t (index_of (S (S l)) v))) (S l) v). lia.
- rewrite (Hk _ _ _ Ht Hi N). rewrite eqb_false by done. apply IH. by eapply pt_child.
Qed.

(** Where a walk is complete for [v], it lacks at most the tables below the first
    level at which the index of [v'] differs. *)
Lemma missing_near m t l v v' j :
(1 <= j)%nat → missing m t l v = 0 → (∀ k, (j < k <= l)%nat → index_of k v = index_of k v') →
missing m t l v' <= Z.of_nat (j - 1).
Proof.
intros Hj. revert t. induction l as [|[|l] IH]; intros t H0 E; [cbn; lia|cbn; lia|].
destruct (decide (S (S l) <= j)%nat) as [|Hlj].
{ pose proof (missing_bound m t (S (S l)) v'). lia. }
rewrite missing_S in *. cbv zeta in *. rewrite <- (E (S (S l))) by lia.
destruct (_ =? 0); [lia|]. apply IH; [done|]. intros k Hk. apply E. lia.
Qed.

Lemma walk_complete m t l v : (1 <= l)%nat → missing m t l v = 0 → is_Some (walk m t l v).
Proof.
revert t. induction l as [|[|l] IH]; intros t Hl H0; [lia|by eexists|].
rewrite missing_S in H0. cbn [walk]. fold (walk m). cbv zeta in *. destruct (_ =? 0); [lia|]. apply IH; [lia|done].
Qed.

(** [ptree] and the leaves see only the entries of the tables. *)
Lemma ptree_same m m' pml T P P' :
ptree m pml T P → same_bases T m m' →
(∀ t l i, T !! t = Some (S (S l)) → 0 <= i < 512 → t + 8 * i ∉ P' →
   (present (entry m' t i) ↔ TABLE_BASE (entry m t i) ≠ 0)) →
ptree m' pml T P'.
Proof.
intros [Hr Hb Hc Hinj Hp] Hs Hp'. split; [done|done|..].
- intros t l i Ht Hi. rewrite (Hs _ _ _ Ht Hi). by apply Hc.
- intros t l i t' l' i' Ht Ht' Hi Hi'. rewrite (Hs _ _ _ Ht Hi), (Hs _ _ _ Ht' Hi'). by eapply Hinj.
- intros t l i Ht Hi Hn. rewrite (Hs _ _ _ Ht Hi). by eapply Hp'.
Qed.

Lemma leaf_same m m' pml T P v :
ptree m pml T P → same_bases T m m' →
(∀ p i, T !! p = Some 1%nat → 0 <= i < 512 → entry m' p i = entry m p i) →
leaf_entry m' pml 4 v = leaf_entry m pml 4 v.
Proof.
intros HT Hs He. unfold leaf_entry. rewrite (walk_same_bases m m' _ T P) by (done || apply (pt_root _ _ _ _ HT)).
destruct (walk m pml 4 v) as [a|] eqn:Ew; [|done].
destruct (walk_slot _ _ _ _ _ _ _ _ HT (pt_root _ _ _ _ HT) Ew) as (p & Hp & ->).
apply (He p); [done|apply index_range].
Qed.

(** A store to a slot of a table reaches no other slot. *)
Lemma entry_store_ne m t i t' i' v T l l' pml P :
ptree m pml T P → T !! t = Some l → T !! t' = Some l' → 0 <= i < 512 → 0 <= i' < 512 →
t + 8 * i ≠ t' + 8 * i' → entry (store 8 m (t + 8 * i) v) t' i' = entry m t' i'.
Proof.
intros HT Ht Ht' Hi Hi' Hne. unfold entry. apply load_store_ne.
destruct (pt_base _ _ _ _ HT _ _ Ht), (pt_base _ _ _ _ HT _ _ Ht'). zlia.
Qed.

Lemma level_apart m t i t' i' T l l' pml P :
ptree m pml T P → T !! t = Some l → T !! t' = Some l' → 0 <= i < 512 → 0 <= i' < 512 →
l ≠ l' → t + 8 * i ≠ t' + 8 * i'.
Proof.
intros HT Ht Ht' Hi Hi' Hne E. apply slot_eq in E as [-> _]; [congruence|..]; try done.
- by eapply (pt_base _ _ _ _ HT).
- by eapply (pt_base _ _ _ _ HT).
Qed.
End trees.

(** ** The three kinds of store *)

Section stores.
Implicit Types (m : gmap Z Z) (T : gmap Z nat) (P : gset Z).

(** Or-ing flags into an entry that points to a table. *)
Lemma or_entry m pml T P t l i f :
ptree m pml T P → T !! t = Some (S (S l)) → 0 <= i < 512 → TABLE_BASE (entry m t i) ≠ 0 →
present f → TABLE_BASE f = 0 → 0 <= f < 2 ^ 64 →
let m' := store 8 m (t + 8 * i) (Z.lor (entry m t i) f) in
ptree m' pml T (P ∖ {[t + 8 * i]}) ∧ same_bases T m m' ∧
∀ v, leaf_entry m' pml 4 v = leaf_entry m pml 4 v.
Proof.
intros HT Ht Hi Hne Hf Hf0 Hfr m'.
assert (entry m' t i = Z.lor (entry m t i) f) as Eq.
{ unfold entry at 1, m'. rewrite load_store_8. pose proof (load_8_range m (t + 8 * i)).
  apply u64_id, lor_bound; [done|lia|done]. }
assert (same_bases T m m') as Hs.
{ intros t' l' i' Ht' Hi'. destruct (decide (t + 8 * i = t' + 8 * i')) as [E|E].
  - apply slot_eq in E as [<- <-]; try done; [|by eapply (pt_base _ _ _ _ HT)..].
    by rewrite Eq, TABLE_BASE_lor, Hf0, Z.lor_0_r.
  - f_equal. by eapply entry_store_ne. }
split; [|split; [done|]].
- eapply ptree_same; [done|done|]. intros t' l' i' Ht' Hi' Hn.
  destruct (decide (t + 8 * i = t' + 8 * i')) as [E|E].
  + apply slot_eq in E as [<- <-]; try done; [|by eapply (pt_base _ _ _ _ HT)..].
    rewrite Eq. split; [done|]. intros _. by apply present_lor.
  + unfold m'. erewrite entry_store_ne by done. eapply pt_present; [done..|]. set_solver.
- intros v. eapply leaf_same; [done|done|]. intros p j Hp Hj.
  eapply entry_store_ne; [done..|]. by eapply level_apart.
Qed.

(** Writing the page entry at the end of a complete walk. *)
Lemma page_entry m pml T P virt a e :
ptree m pml T P → walk m pml 4 virt = Some a → 0 <= e < 2 ^ 64 →
let m' := store 8 m a e in
ptree m' pml T P ∧ same_bases T m m' ∧
∀ v, leaf_entry m' pml 4 v = if decide (page_of v = page_of virt) then e else leaf_entry m pml 4 v.
Proof.
intros HT Hw He m'. pose proof (pt_root _ _ _ _ HT) as Hr.
destruct (walk_slot _ _ _ _ _ _ _ _ HT Hr Hw) as (p & Hp & ->). pose proof (index_range 1 virt) as Hi.
assert (∀ t l i, T !! t = Some (S (S l)) → 0 <= i < 512 → entry m' t i = entry m t i) as Hup.
{ intros t l i Ht Hi'. eapply entry_store_ne; [done..|]. by eapply level_apart. }
assert (same_bases T m m') as Hs by (intros t l i Ht Hi'; f_equal; by eapply Hup).
split; [|split; [done|]].
- eapply ptree_same; [done|done|]. intros t l i Ht Hi' Hn. rewrite (Hup _ _ _ Ht Hi').
  by eapply pt_present.
- intros v. unfold leaf_entry. rewrite (walk_same_bases m m' _ T P) by done.
  destruct (walk m pml 4 v) as [a|] eqn:Ev.
  + destruct (decide (a = p + 8 * index_of 1 virt)) as [->|Hne].
    * destruct (walk_inj _ _ _ _ _ _ _ _ _ _ HT Hr Hr Ev Hw) as [_ Hk].
      rewrite decide_True by by apply page_of_eq. unfold m'. rewrite load_store_8. by wrap.
    * destruct (walk_slot _ _ _ _ _ _ _ _ HT Hr Ev) as (q & Hq & ->). pose proof (index_range 1 v).
      rewrite decide_False.
      -- by eapply (entry_store_ne m p (index_of 1 virt) q (index_of 1 v)); [..|intros E; apply Hne].
      -- intros E. apply Hne. rewrite page_of_eq in E.
         assert (walk m pml 4 virt = walk m pml 4 v) as Ew; [|congruence].
         cbn [walk]. by rewrite !E by lia.
  + rewrite decide_False; [done|]. intros E. rewrite page_of_eq in E.
    assert (walk m pml 4 virt = walk m pml 4 v) as Ew; [|congruence].
    cbn [walk]. by rewrite !E by lia.
Qed.
End stores.

Section link.
Implicit Types (m : gmap Z Z) (T : gmap Z nat) (P : gset Z).

Lemma leaf_S m t l v :
leaf_entry m t (S (S l)) v =
  let b := TABLE_BASE (entry m t (index_of (S (S l)) v)) in if b =? 0 then 0 else leaf_entry m b (S l) v.
Proof. unfold leaf_entry. cbn [walk]. fold (walk m). cbv zeta. by destruct (_ =? 0). Qed.

Lemma leaf_zero m b l v : (∀ j, 0 <= j < 512 → entry m b j = 0) → leaf_entry m b l v = 0.
Proof.
intros H0. destruct l as [|[|l]]; [done|apply H0, index_range|].
rewrite leaf_S, H0 by apply index_range. done.
Qed.

(** A new table has no pages, and neither had the entry that points to it now. *)
Lemma link_leaf m m' pml T P t l i b v :
ptree m pml T P → T !! t = Some (S (S l)) → TABLE_BASE (entry m t i) = 0 → TABLE_BASE (entry m' t i) = b →
(∀ t' j, t' mod 0x1000 = 0 → 0 <= j < 512 → ¬ (t' = t ∧ j = i) → entry m' t' j = entry m t' j) →
(∀ j, 0 <= j < 512 → entry m' b j = 0) →
leaf_entry m' pml 4 v = leaf_entry m pml 4 v.
Proof.
intros HT Ht H0 Eb Hne Hz'. pose proof (pt_root _ _ _ _ HT) as Hr. revert Hr. generalize pml as t'. generalize 4%nat as l'.
intros l'. induction l' as [|[|l'] IH]; intros t' Ht'; [done| |].
+ apply Hne; [by eapply (pt_base _ _ _ _ HT)|apply index_range|]. intros [-> _]. congruence.
+ rewrite !leaf_S. cbv zeta. pose proof (index_range (S (S l')) v) as Hj.
  destruct (decide (t' = t ∧ index_of (S (S l')) v = i)) as [[-> ->]|Hd].
  * rewrite Eb, H0. cbn [Z.eqb]. rewrite leaf_zero by done. by destruct (b =? 0).
  * rewrite Hne; [|by eapply (pt_base _ _ _ _ HT)|done|done].
    destruct (Z.eqb_spec (TABLE_BASE (entry m t' (index_of (S (S l')) v))) 0) as [|N]; [done|].
    apply IH. by eapply pt_child.
Qed.

(** Pointing an entry that points nowhere to a new, zeroed table. *)
Lemma link_table m pml T P t l i b :
ptree m pml T P → T !! t = Some (S (S l)) → 0 <= i < 512 → TABLE_BASE (entry m t i) = 0 →
T !! b = None → b mod 0x1000 = 0 → 0 < b < 2 ^ 52 → (∀ j, 0 <= j < 512 → entry m b j = 0) →
let m' := store 8 m (t + 8 * i) (Z.lor (entry m t i) b) in
ptree m' pml (<[b := S l]> T) ({[t + 8 * i]} ∪ P) ∧ bases_kept T m m' ∧
TABLE_BASE (entry m' t i) = b ∧ ∀ v, leaf_entry m' pml 4 v = leaf_entry m pml 4 v.
Proof.
intros HT Ht Hi H0 Hb Hbm Hbr Hz m'. assert (t ≠ b) as Htb by congruence.
destruct (pt_base _ _ _ _ HT _ _ Ht) as [Htm Htr].
assert (TABLE_BASE (entry m' t i) = b) as Eb.
{ unfold entry at 1, m'. rewrite load_store_8. pose proof (load_8_range m (t + 8 * i)).
  rewrite u64_id by (apply lor_bound; [done|unfold entry; lia|lia]).
  by rewrite TABLE_BASE_lor, H0, TABLE_BASE_table by lia. }
assert (∀ t' j, t' mod 0x1000 = 0 → 0 <= j < 512 → ¬ (t' = t ∧ j = i) → entry m' t' j = entry m t' j) as Hne.
{ intros t' j Hm Hj Hn. unfold entry, m'. apply load_store_ne.
  destruct (decide (t' = t)) as [->|]; [assert (j ≠ i) by tauto; lia|zlia]. }
assert (∀ t' l' j, T !! t' = Some (S (S l')) → 0 <= j < 512 → ¬ (t' = t ∧ j = i) →
          TABLE_BASE (entry m t' j) ≠ b) as Hold.
{ intros t' l' j Ht' Hj Hn E. assert (TABLE_BASE (entry m t' j) ≠ 0) as N by lia.
  pose proof (pt_child _ _ _ _ HT _ _ _ Ht' Hj N) as Hc. congruence. }
assert (∀ j, 0 <= j < 512 → entry m' b j = 0) as Hz' by (intros j Hj; rewrite Hne by naive_solver; auto).
split; [split|split; [|split; [done|]]].
- rewrite lookup_insert_ne; [apply (pt_root _ _ _ _ HT)|]. intros ->. pose proof (pt_root _ _ _ _ HT). congruence.
- intros t' l' [[<- _]|[_ Ht']]%lookup_insert_Some; [done|by eapply (pt_base _ _ _ _ HT)].
- intros t' l' j [[<- _]|[Hn Ht']]%lookup_insert_Some Hj; [by rewrite Hz'|].
  destruct (decide (t' = t ∧ j = i)) as [[-> ->]|Hd].
  + intros _. rewrite Eb, lookup_insert_eq. congruence.
  + rewrite Hne; [|by eapply (pt_base _ _ _ _ HT)|done|done]. intros N.
    rewrite lookup_insert_ne by (apply not_eq_sym; by apply (Hold t' l' j)). by eapply pt_child.
- intros t1 l1 i1 t2 l2 i2 [[<- _]|[_ Ht1]]%lookup_insert_Some Ht2 Hi1 Hi2; [by rewrite Hz'|].
  apply lookup_insert_Some in Ht2 as [[<- _]|[_ Ht2]]; [rewrite (Hz' i2) by done; intros N E; by rewrite E in N|].
  pose proof (proj1 (pt_base _ _ _ _ HT _ _ Ht1)) as M1. pose proof (proj1 (pt_base _ _ _ _ HT _ _ Ht2)) as M2.
  destruct (decide (t1 = t ∧ i1 = i)) as [[-> ->]|D1], (decide (t2 = t ∧ i2 = i)) as [[-> ->]|D2]; [done|..].
  + rewrite Eb, (Hne t2) by done. intros _ E. by destruct (Hold t2 l2 i2 Ht2 Hi2 D2).
  + rewrite Eb, (Hne t1) by done. intros _ E. by destruct (Hold t1 l1 i1 Ht1 Hi1 D1).
  + rewrite (Hne t1), (Hne t2) by done. by eapply pt_inj.
- intros t' l' j [[<- _]|[_ Ht']]%lookup_insert_Some Hj Hn.
  + rewrite Hz' by done. split; [by intros []%not_present_0|done].
  + rewrite Hne; [|by eapply (pt_base _ _ _ _ HT)|done|set_solver]. eapply pt_present; [done..|set_solver].
- intros t' l' j Ht' Hj N. f_equal. apply Hne; [by eapply (pt_base _ _ _ _ HT)|done|].
  intros [-> ->]. by rewrite H0 in N.
- intros v. by eapply (link_leaf m m' pml T P t l i b).
Qed.
End link.
