(* ===== verification/BootPaging.v ===== *)
(** * The page tables of the boot loader

    [mapPage] of the boot loader (src/Bootloader/x86_64/mem.c) makes the tables it
    misses from pieces of 4 MiB of the firmware's pool.  The tables it has made form a
    tree, and mapping a page changes one entry of the map from pages to page entries. *)

From S2P Require Import Prelude Kmonad Mem Mmap Paging PagingProps BootMem PageTrees.

(** ** The firmware's pool *)

(** What the boot loader relies on: while the pool has room, [allocPool] hands out
    memory that was free and is not any more, below 2^52 and without touching the
    memory; [clearMem] zeroes; what is free does not depend on the bytes in memory,
    and neither function moves in the open file. *)
Class EfiPool `{Efi} := {
  pool_free : machine → Z → Prop;
  pool_room : machine → Z;
  file_position : machine → Z;
  allocPool_fresh n s : 0 < n <= pool_room s →
    ∃ p s', allocPool n s = Ok p s' ∧ memory s' = memory s ∧ pool_room s - n <= pool_room s' ∧
      0 < p ∧ p + n <= 2 ^ 52 ∧ (∀ a, p <= a < p + n → pool_free s a ∧ ¬ pool_free s' a) ∧
      (∀ a, pool_free s' a → pool_free s a) ∧ file_position s' = file_position s;
  clearMem_zeroes p n s : 0 <= n →
    ∃ m, clearMem p n s = Ok tt (set_memory m s) ∧
      ∀ a, mbyte m a = if decide (p <= a < p + n) then 0 else mbyte (memory s) a;
  pool_memory m s : pool_room (set_memory m s) = pool_room s ∧
    (∀ a, pool_free (set_memory m s) a ↔ pool_free s a) ∧ file_position (set_memory m s) = file_position s
}.

Definition mem (s : boot) : gmap Z Z := memory (bt_machine s).

(** The pages that are still free in the current piece of 4 MiB, and those of the
    pieces the pool has room for besides [R] reserved bytes. *)
Definition CHUNK : Z := 0x400000 + PAGE_SZ.
Definition tables_left `{EfiPool} (R : Z) (s : boot) : Z :=
  (bt_bumpSize s - bt_bumpPtr s) / 0x1000 + 1024 * ((pool_room (bt_machine s) - R) / CHUNK).

(** The tables lie apart from the rest of the piece and from the pool. *)
Record areas `{EfiPool} (R : Z) (s : boot) (T : gmap Z nat) : Prop := {
  ar_aligned : bt_bumpBase s mod 0x1000 = 0 ∧ bt_bumpPtr s mod 0x1000 = 0 ∧ bt_bumpSize s mod 0x1000 = 0;
  ar_bounds : 0 <= bt_bumpPtr s <= bt_bumpSize s ∧ 0 <= bt_bumpBase s ∧
    bt_bumpBase s + bt_bumpSize s <= 2 ^ 52 ∧ (bt_bumpPtr s < bt_bumpSize s → 0 < bt_bumpBase s);
  ar_room : R <= pool_room (bt_machine s);
  ar_chunk a : bt_bumpBase s + bt_bumpPtr s <= a < bt_bumpBase s + bt_bumpSize s →
    ¬ pool_free (bt_machine s) a;
  ar_table t l : T !! t = Some l → t mod 0x1000 = 0 ∧
    (∀ a, t <= a < t + 0x1000 → ¬ pool_free (bt_machine s) a) ∧
    ¬ (bt_bumpBase s + bt_bumpPtr s <= t < bt_bumpBase s + bt_bumpSize s)
}.

Section machine_steps.

Lemma on_machine_ok {A} (m : M machine A) s a t :
m (bt_machine s) = Ok a t → on_machine m s = Ok a (set_machine t s).
Proof. intros E. unfold on_machine, zoom. by rewrite E. Qed.
Lemma on_ld n a s : on_machine (ld n a) s = Ok (load n (mem s) a) s.
Proof. by destruct s. Qed.
Lemma on_st n a v s :
on_machine (st n a v) s = Ok tt (set_machine (set_memory (store n (mem s) a v) (bt_machine s)) s).
Proof. done. Qed.

Lemma KALIGN_div a : 0 <= a < 2 ^ 64 → KALIGN a = a - a mod 0x1000.
Proof.
intros Ha. unfold KALIGN, PAGE_ALIGN.
assert (Z.land a (Z.ones 64) = a) as E by (rewrite Z.land_ones by lia; apply Z.mod_small; lia).
assert (Z.land a (Z.ones 12) = a mod 0x1000) as E1 by (by rewrite Z.land_ones).
change (Z.ones 64) with (Z.lor 0xFFFFFFFFFFFFF000 (Z.ones 12)) in E.
rewrite Z.land_lor_distr_r, <- Z.lxor_lor, <- Z.add_nocarry_lxor in E; [lia|..].
all: rewrite <- Z.land_assoc, (Z.land_comm _ (Z.land a _)), <- Z.land_assoc; cbn [Z.land]; by rewrite !Z.land_0_r.
Qed.
End machine_steps.

Section pool.
Context {HE : Efi} {HP : EfiPool} (R : Z).
Hypothesis HR : 0 <= R.

(** The memory the loader makes tables from: the tables, the rest of the piece, the pool. *)
Definition owned (s : boot) (T : gmap Z nat) (a : Z) : Prop :=
pool_free (bt_machine s) a ∨ bt_bumpBase s + bt_bumpPtr s <= a < bt_bumpBase s + bt_bumpSize s ∨
∃ t l, T !! t = Some l ∧ t <= a < t + 0x1000.

(** Nothing but that memory changes, and no more becomes part of it. *)
Record keeps (s : boot) (T : gmap Z nat) (s' : boot) (T' : gmap Z nat) : Prop := {
  kp_owned a : owned s' T' a → owned s T a;
  kp_mem a : ¬ owned s T a → mbyte (mem s') a = mbyte (mem s) a;
  kp_file : file_position (bt_machine s') = file_position (bt_machine s);
  kp_alloc : bt_allocMap s' = bt_allocMap s ∧ bt_mapPtr s' = bt_mapPtr s ∧ bt_mapMax s' = bt_mapMax s
}.

Lemma keeps_refl s T : keeps s T s T.
Proof. by split. Qed.
Lemma keeps_trans s1 s2 s3 T1 T2 T3 : keeps s1 T1 s2 T2 → keeps s2 T2 s3 T3 → keeps s1 T1 s3 T3.
Proof.
intros [A1 A2 A3 (A4 & A5 & A6)] [B1 B2 B3 (B4 & B5 & B6)]. split; [auto| |congruence|split_and!; congruence].
intros a Ha. rewrite B2 by auto. by apply A2.
Qed.

(** A change of the memory alone. *)
Lemma owned_set_memory s T m a :
owned (set_machine (set_memory m (bt_machine s)) s) T a ↔ owned s T a.
Proof. unfold owned. cbn [bt_machine set_machine bt_bumpBase bt_bumpPtr bt_bumpSize]. by rewrite (proj1 (proj2 (pool_memory _ _)) a). Qed.
Lemma keeps_set_memory s T m :
(∀ a, ¬ owned s T a → mbyte m a = mbyte (mem s) a) → keeps s T (set_machine (set_memory m (bt_machine s)) s) T.
Proof.
intros Hm. split; [|exact Hm|apply (pool_memory m (bt_machine s))|done]. intros a. by rewrite owned_set_memory.
Qed.
Lemma keeps_store s T t l i v :
T !! t = Some l → 0 <= i < 512 →
keeps s T (set_machine (set_memory (store 8 (mem s) (t + 8 * i) v) (bt_machine s)) s) T.
Proof.
intros Ht Hi. apply keeps_set_memory. intros a Ha. apply mbyte_store_ne.
destruct (decide (t <= a < t + 0x1000)); [|lia]. destruct Ha. right. right. by exists t, l.
Qed.

(** A change of the machine that keeps the pool. *)
Lemma areas_set_machine s T t :
(∀ a, pool_free t a → pool_free (bt_machine s) a) → R <= pool_room t → areas R s T →
areas R (set_machine t s) T.
Proof.
intros Hf Hr [Ha Hb Hro Hc Ht]. split; [done|done|done|..].
- intros a Hin Hfree. by apply (Hc a Hin), Hf.
- intros t' l' Hl. destruct (Ht _ _ Hl) as (? & Hn & ?). split_and!; [done| |done].
  intros a Hin Hfree. by apply (Hn a Hin), Hf.
Qed.
Lemma areas_set_memory s T m : areas R s T → areas R (set_machine (set_memory m (bt_machine s)) s) T.
Proof.
intros Ha. destruct (pool_memory m (bt_machine s)) as (E1 & E2 & _). apply areas_set_machine; [by apply E2| |done].
rewrite E1. apply Ha.
Qed.
Lemma tables_left_set_memory s m :
tables_left R (set_machine (set_memory m (bt_machine s)) s) = tables_left R s.
Proof. unfold tables_left. cbn [bt_machine set_machine bt_bumpSize bt_bumpPtr]. by rewrite (proj1 (pool_memory _ _)). Qed.

(** The current piece is renewed when it is used up. *)
Lemma refill_ok s T :
areas R s T → 1 <= tables_left R s →
wp (when (bt_bumpPtr s =? bt_bumpSize s)
    (base ← on_machine (allocPool (0x400000 + PAGE_SZ));
     modify (set_bump (u64 (KALIGN base + PAGE_SZ)) 0 0x400000)))
  (λ _ s', areas R s' T ∧ tables_left R s <= tables_left R s' ∧ bt_bumpPtr s' < bt_bumpSize s' ∧
     mem s' = mem s ∧ bt_pml s' = bt_pml s ∧ keeps s T s' T) s.
Proof.
intros HA Hleft. pose proof (ar_bounds _ _ _ HA) as Hb. apply wp_when; intros E.
2:{ apply Z.eqb_neq in E. split_and!; (done || lia || apply keeps_refl). }
apply Z.eqb_eq in E.
assert (0 < CHUNK <= pool_room (bt_machine s) - R) as Hroom.
{ unfold tables_left in Hleft. rewrite E, Z.sub_diag in Hleft. change (0 / 0x1000) with 0 in Hleft.
  unfold CHUNK, PAGE_SZ in *. zlia. }
destruct (allocPool_fresh CHUNK (bt_machine s)) as (p & t & Ep & Em & Hr & Hp & Hp2 & Hfresh & Hmono & Hfile); [lia|].
apply wp_bind. eapply wp_eq; [by apply on_machine_ok|]. apply wp_modify.
rewrite KALIGN_div by (unfold CHUNK, PAGE_SZ in *; lia). unfold CHUNK, PAGE_SZ in *.
pose proof (Z.mod_pos_bound p 0x1000 ltac:(lia)) as Hmod.
rewrite u64_id by lia. set (base := p - p mod 0x1000 + 0x1000).
assert (base mod 0x1000 = 0 ∧ p < base <= p + 0x1000) as [Hbm Hbr] by (unfold base; zlia).
split_and!; [|unfold tables_left; cbn; rewrite E; unfold CHUNK, PAGE_SZ; zlia|cbn; lia|done|done|].
- split; cbn; [done|lia|lia|..].
  + intros a Ha. apply (Hfresh a). lia.
  + intros t' l Hl. destruct (ar_table _ _ _ HA _ _ Hl) as (Hm & Hn & _). split_and!; [done|naive_solver|].
    intros Hin. apply (Hn t'); [lia|]. apply Hfresh. lia.
- split; [|by intros a _; unfold mem; cbn; rewrite Em|done|done].
  intros a [Hf|[Hc|Ht]]; cbn in *; [left; auto|left; apply Hfresh; lia|by right; right].
Qed.

Lemma pgAlloc_ok s T :
areas R s T → 1 <= tables_left R s →
wp pgAlloc (λ b s', T !! b = None ∧ b mod 0x1000 = 0 ∧ 0 < b < 2 ^ 52 ∧
  (∀ a, mbyte (mem s') a = if decide (b <= a < b + 0x1000) then 0 else mbyte (mem s) a) ∧
  (∀ l, areas R s' (<[b := l]> T) ∧ keeps s T s' (<[b := l]> T)) ∧
  tables_left R s - 1 <= tables_left R s' ∧ bt_pml s' = bt_pml s) s.
Proof.
intros HA Hleft. unfold pgAlloc. apply wp_bind, wp_get, wp_bind.
eapply wp_mono; [by apply refill_ok|]. cbv beta. intros _ s1 (HA1 & Hl1 & Hlt & Em & Ep & Hk1).
apply wp_bind, wp_get. cbv zeta. destruct (ar_bounds _ _ _ HA1) as (B1 & B2 & B3 & B4). specialize (B4 Hlt).
destruct (ar_aligned _ _ _ HA1) as (A1 & A2 & A3). rewrite u64_id by lia.
set (b := bt_bumpBase s1 + bt_bumpPtr s1).
assert (b + 0x1000 <= bt_bumpBase s1 + bt_bumpSize s1) as Hend by (unfold b; zlia).
destruct (clearMem_zeroes b 0x1000 (bt_machine s1)) as (m & Ec & Hm); [lia|].
apply wp_bind. eapply wp_eq; [by apply on_machine_ok|]. apply wp_bind, wp_get, wp_bind, wp_modify, wp_ret.
cbn. rewrite u64_id by lia.
pose proof (areas_set_memory s1 T m HA1) as HA2. pose proof (tables_left_set_memory s1 m) as Hl2.
assert (keeps s1 T (set_machine (set_memory m (bt_machine s1)) s1) T) as Hk2.
{ apply keeps_set_memory. intros a Ha. rewrite Hm, decide_False; [done|]. intros Hin. apply Ha.
  right. left. unfold b in Hin. lia. }
split_and!; [|unfold b; zlia|lia|lia| | |unfold tables_left in *; cbn in *; zlia|done].
- destruct (T !! b) as [l|] eqn:E; [|done]. destruct (ar_table _ _ _ HA1 _ _ E) as (_ & _ & []). unfold b. lia.
- intros a. rewrite <- Em. apply Hm.
- intros l. split.
  + destruct HA2 as [Ha Hb Hro Hc Ht]. cbn in *. split; cbn; [zlia|zlia|done|..].
    * intros a Hin. apply Hc. lia.
    * intros t l' [[<- _]|[_ Hl']]%lookup_insert_Some.
      -- split_and!; [unfold b; zlia|intros a Hin; apply Hc; unfold b in Hin; lia|unfold b; lia].
      -- destruct (Ht _ _ Hl') as (? & ? & ?). split_and!; [done|done|lia].
  + eapply keeps_trans; [exact Hk1|]. eapply keeps_trans; [exact Hk2|]. split; [|done|done|done].
    intros a [Hf|[Hc|(t & l' & Ht & Ha)]]; cbn in *; [by left|right; left; cbn; lia|].
    apply lookup_insert_Some in Ht as [[<- _]|[_ Ht]]; [right; left; cbn; unfold b in *; lia|right; right; by exists t, l'].
Qed.
(** ** Mapping a page *)

Record built (s : boot) (T : gmap Z nat) (P : gset Z) : Prop := {
  bu_tree : ptree (mem s) (bt_pml s) T P;
  bu_areas : areas R s T
}.
Record grows (s s' : boot) (T T' : gmap Z nat) : Prop := {
  gr_tables : T ⊆ T';
  gr_bases : bases_kept T (mem s) (mem s');
  gr_pml : bt_pml s' = bt_pml s;
  gr_leaf v : leaf_entry (mem s') (bt_pml s) 4 v = leaf_entry (mem s) (bt_pml s) 4 v;
  gr_keeps : keeps s T s' T'
}.

Lemma grows_refl s T : grows s s T T.
Proof. split; [done|apply bases_kept_refl|done|done|apply keeps_refl]. Qed.
Lemma grows_trans s1 s2 s3 T1 T2 T3 : grows s1 s2 T1 T2 → grows s2 s3 T2 T3 → grows s1 s3 T1 T3.
Proof.
intros [A1 A2 A3 A4 A5] [B1 B2 B3 B4 B5]. split; [by etrans|by eapply bases_kept_trans|congruence| |by eapply keeps_trans].
intros v. rewrite <- A4, <- A3. apply B4.
Qed.

(** The tables are as before next to a page that was cleared. *)
Lemma cleared_page m m' pml T P b :
ptree m pml T P → T !! b = None → b mod 0x1000 = 0 →
(∀ a, mbyte m' a = if decide (b <= a < b + 0x1000) then 0 else mbyte m a) →
(∀ t l i, T !! t = Some l → 0 <= i < 512 → entry m' t i = entry m t i) ∧
(∀ i, 0 <= i < 512 → entry m' b i = 0).
Proof.
intros HT Hb Hm Hz. split.
- intros t l i Ht Hi. destruct (pt_base _ _ _ _ HT _ _ Ht) as [Htm _]. assert (t ≠ b) by congruence.
  unfold entry. apply load_ext. intros a Ha. rewrite Hz, decide_False; [done|zlia].
- intros i Hi. change 0 with (load 8 ∅ (b + 8 * i)). unfold entry. apply load_ext.
  intros a Ha. rewrite Hz, decide_True; [done|lia].
Qed.

Lemma boot_table_ok s T P t l v :
let i := index_of (S (S l)) v in
built s T P → T !! t = Some (S (S l)) → missing (mem s) t (S (S l)) v <= tables_left R s →
wp (boot_table (t + 8 * i)) (λ b s', ∃ T', built s' T' ({[t + 8 * i]} ∪ P) ∧ grows s s' T T' ∧
  T' !! b = Some (S l) ∧ TABLE_BASE (entry (mem s') t i) = b ∧
  missing (mem s') b (S l) v - tables_left R s' <= missing (mem s) t (S (S l)) v - tables_left R s) s.
Proof.
intros i [HT HA] Ht Hleft. rewrite missing_S in Hleft |- *. fold i in Hleft |- *. cbv zeta in *.
pose proof (index_range (S (S l)) v) as Hi. fold i in Hi. unfold boot_table.
apply wp_bind. eapply wp_eq; [apply on_ld|]. fold (entry (mem s) t i). apply wp_bind.
destruct (Z.eqb_spec (TABLE_BASE (entry (mem s) t i)) 0) as [E|N].
2:{ apply wp_ret, wp_bind. eapply wp_eq; [apply on_ld|]. apply wp_ret. fold (entry (mem s) t i).
  exists T. split_and!; [|apply grows_refl|by eapply pt_child|done|lia].
  split; [|done]. eapply ptree_same; [done|done|]. intros. eapply pt_present; [done..|set_solver]. }
apply wp_bind. eapply wp_mono; [apply (pgAlloc_ok s T HA); lia|].
cbv beta. intros b s1 (Hb & Hbm & Hbr & Hz & HA1 & Hl1 & Ep).
destruct (HA1 (S l)) as [HA2 HK1].
destruct (cleared_page _ _ _ _ _ _ HT Hb Hbm Hz) as [Hsame Hzero].
assert (ptree (mem s1) (bt_pml s1) T P) as HT1.
{ rewrite Ep. eapply ptree_same; [done|intros ????? ; by erewrite Hsame|].
  intros. erewrite Hsame by done. by eapply pt_present. }
destruct (link_table _ _ _ _ _ _ _ _ HT1 Ht Hi ltac:(by erewrite Hsame) Hb Hbm Hbr Hzero) as (HT2 & Hk & Eb & Hleaf).
assert (TABLE_BASE b = b) as Etb by (apply TABLE_BASE_table; lia). rewrite Etb.
apply wp_bind. eapply wp_eq; [apply on_ld|]. fold (entry (mem s1) t i).
eapply wp_eq; [apply on_st|]. apply wp_bind. eapply wp_eq; [apply on_ld|].
set (s2 := set_machine _ s1). change (mem s2) with (store 8 (mem s1) (t + 8 * i) (Z.lor (entry (mem s1) t i) b)) at 1.
apply wp_ret. fold (entry (store 8 (mem s1) (t + 8 * i) (Z.lor (entry (mem s1) t i) b)) t i). rewrite Eb.
exists (<[b := S l]> T). split_and!; [|split| |exact Eb|].
- split; [exact HT2|]. by apply areas_set_memory.
- by apply insert_subseteq.
- intros t' l' j Ht' Hj Hn. etrans; [apply (Hk t' l' j Ht' Hj)|]; by erewrite Hsame.
- exact Ep.
- intros v'. specialize (Hleaf v'). rewrite Ep in Hleaf. etrans; [exact Hleaf|]. eapply leaf_same; [done|intros ?????; by erewrite Hsame|intros; by erewrite Hsame].
- eapply keeps_trans; [exact HK1|]. apply (keeps_store _ _ t (S (S l))); [|done].
  by rewrite lookup_insert_ne by congruence.
- by rewrite lookup_insert_eq.
- assert (tables_left R s2 = tables_left R s1) as -> by apply tables_left_set_memory.
  pose proof (missing_bound (mem s2) b (S l) v). lia.
Qed.

Lemma boot_or_ok s T P t l i f :
built s T P → T !! t = Some (S (S l)) → 0 <= i < 512 → TABLE_BASE (entry (mem s) t i) ≠ 0 →
present f → TABLE_BASE f = 0 → 0 <= f < 2 ^ 64 →
wp (boot_or (t + 8 * i) f) (λ _ s', built s' T (P ∖ {[t + 8 * i]}) ∧ grows s s' T T ∧
  same_bases T (mem s) (mem s') ∧ tables_left R s' = tables_left R s) s.
Proof.
intros [HT HA] Ht Hi Hne Hf Hf0 Hfr. unfold boot_or. apply wp_bind. eapply wp_eq; [apply on_ld|].
eapply wp_eq; [apply on_st|]. fold (entry (mem s) t i).
destruct (or_entry _ _ _ _ _ _ _ _ HT Ht Hi Hne Hf Hf0 Hfr) as (HT' & Hs & Hl).
split_and!; [split|split| |].
- exact HT'.
- by apply areas_set_memory.
- done.
- by apply bases_same_kept.
- done.
- exact Hl.
- by apply (keeps_store _ _ t (S (S l))).
- exact Hs.
- apply tables_left_set_memory.
Qed.

(** The three tables on the way to [v]. *)
Definition path (m : gmap Z Z) (T : gmap Z nat) (pml v pdpe pde pte : Z) : Prop :=
TABLE_BASE (entry m pml (index_of 4 v)) = pdpe ∧ TABLE_BASE (entry m pdpe (index_of 3 v)) = pde ∧
TABLE_BASE (entry m pde (index_of 2 v)) = pte ∧
T !! pdpe = Some 3%nat ∧ T !! pde = Some 2%nat ∧ T !! pte = Some 1%nat.

Lemma table_not_0 s T P t l : built s T P → T !! t = Some l → t ≠ 0.
Proof. intros [HT _] Ht. pose proof (pt_base _ _ _ _ HT _ _ Ht). lia. Qed.

Lemma path_same m m' T pml v pdpe pde pte :
T !! pml = Some 4%nat → same_bases T m m' → path m T pml v pdpe pde pte → path m' T pml v pdpe pde pte.
Proof.
intros Hr Hs (E1 & E2 & E3 & T1 & T2 & T3).
split_and!; [rewrite <- E1|rewrite <- E2|rewrite <- E3|done..]; eapply Hs; (done || apply index_range).
Qed.

Lemma path_walk s T P v pdpe pde pte :
built s T P → path (mem s) T (bt_pml s) v pdpe pde pte →
walk (mem s) (bt_pml s) 4 v = Some (pte + 8 * index_of 1 v) ∧ missing (mem s) (bt_pml s) 4 v = 0.
Proof.
intros HB (E1 & E2 & E3 & T1 & T2 & T3).
pose proof (table_not_0 _ _ _ _ _ HB T1). pose proof (table_not_0 _ _ _ _ _ HB T2). pose proof (table_not_0 _ _ _ _ _ HB T3).
split.
- rewrite walk_S. cbv zeta. rewrite E1, eqb_false, walk_S by done. cbv zeta.
  rewrite E2, eqb_false, walk_S by done. cbv zeta. by rewrite E3, eqb_false.
- rewrite missing_S. cbv zeta. rewrite E1, eqb_false, missing_S by done. cbv zeta.
  rewrite E2, eqb_false, missing_S by done. cbv zeta. by rewrite E3, eqb_false.
Qed.

(** The tables of a path are made from the root down. *)
Lemma make_path s T v :
built s T ∅ → missing (mem s) (bt_pml s) 4 v <= tables_left R s →
wp (pdpe ← boot_table (bt_pml s + 8 * index_of 4 v);
    pde ← boot_table (pdpe + 8 * index_of 3 v);
    pte ← boot_table (pde + 8 * index_of 2 v); mret (pdpe, pde, pte))
  (λ '(pdpe, pde, pte) s', ∃ T', path (mem s') T' (bt_pml s) v pdpe pde pte ∧ grows s s' T T' ∧
     built s' T' {[bt_pml s + 8 * index_of 4 v; pdpe + 8 * index_of 3 v; pde + 8 * index_of 2 v]} ∧
     tables_left R s - missing (mem s) (bt_pml s) 4 v <= tables_left R s') s.
Proof.
intros HB Hleft. pose proof (pt_root _ _ _ _ (bu_tree _ _ _ HB)) as Hr.
apply wp_bind. eapply wp_mono; [by apply (boot_table_ok s T ∅ _ 2 v HB Hr)|].
intros pdpe s1 (T1 & B1 & G1 & L1 & E1 & M1).
apply wp_bind. eapply wp_mono; [apply (boot_table_ok s1 T1 _ _ 1 v B1 L1); lia|].
intros pde s2 (T2 & B2 & G2 & L2 & E2 & M2).
apply wp_bind. eapply wp_mono; [apply (boot_table_ok s2 T2 _ _ 0 v B2 L2); lia|].
intros pte s3 (T3 & B3 & G3 & L3 & E3 & M3). apply wp_ret.
pose proof (grows_trans _ _ _ _ _ _ G2 G3) as G23.
pose proof (lookup_weaken _ _ _ _ Hr (gr_tables _ _ _ _ G1)) as Hr1.
pose proof (lookup_weaken _ _ _ _ L1 (gr_tables _ _ _ _ G2)) as L1'.
exists T3. split_and!.
- split_and!.
  + rewrite <- E1. eapply (gr_bases _ _ _ _ G23); [done|apply index_range|]. rewrite E1. exact (table_not_0 _ _ _ _ _ B1 L1).
  + rewrite <- E2. eapply (gr_bases _ _ _ _ G3); [done|apply index_range|]. rewrite E2. exact (table_not_0 _ _ _ _ _ B2 L2).
  + done.
  + eapply lookup_weaken; [exact L1'|apply G3].
  + eapply lookup_weaken; [exact L2|apply G3].
  + done.
- eapply grows_trans; [exact G1|exact G23].
- replace {[bt_pml s + 8 * index_of 4 v; pdpe + 8 * index_of 3 v; pde + 8 * index_of 2 v]}
    with ({[pde + 8 * index_of 2 v]} ∪ ({[pdpe + 8 * index_of 3 v]} ∪ ({[bt_pml s + 8 * index_of 4 v]} ∪ ∅)) : gset Z)
    by set_solver. exact B3.
- pose proof (missing_bound (mem s3) pte 1 v). lia.
Qed.

(** The flags of the table entries, and the page entry. *)
Definition boot_flags (write : bool) : Z := if write then Z.lor PG_PRESENT PG_WRITE else PG_PRESENT.
Definition boot_pte (phys : Z) (write execute : bool) : Z :=
Z.lor (if execute then boot_flags write else Z.lor (boot_flags write) PG_NX) (KALIGN phys).

Lemma boot_flags_ok w : present (boot_flags w) ∧ TABLE_BASE (boot_flags w) = 0 ∧ 0 <= boot_flags w < 2 ^ 64.
Proof. by destruct w. Qed.

Lemma boot_pte_range phys w x : 0 <= phys < 2 ^ 64 → 0 <= boot_pte phys w x < 2 ^ 64.
Proof.
intros Hp. apply lor_bound; [by destruct w, x|rewrite KALIGN_div by done; zlia|lia].
Qed.

(** [boot_mapPage] regrouped: the tables, the flags, the page entry. *)
Definition make_tables (pml v : Z) : M boot (Z * Z * Z) :=
pdpe ← boot_table (pml + 8 * index_of 4 v);
pde ← boot_table (pdpe + 8 * index_of 3 v);
pte ← boot_table (pde + 8 * index_of 2 v);
mret (pdpe, pde, pte).
Definition flag_tables (pml pdpe pde v f : Z) : M boot unit :=
_ ← boot_or (pml + 8 * index_of 4 v) f;
_ ← boot_or (pdpe + 8 * index_of 3 v) f;
boot_or (pde + 8 * index_of 2 v) f.

Lemma boot_mapPage_parts phys virt w x s :
boot_mapPage phys virt w x s =
('(pdpe, pde, pte) ← make_tables (bt_pml s) (KALIGN virt);
 _ ← flag_tables (bt_pml s) pdpe pde (KALIGN virt) (boot_flags w);
 on_machine (st 8 (pte + 8 * index_of 1 (KALIGN virt)) (boot_pte phys w x))) s.
Proof.
unfold boot_mapPage, make_tables, flag_tables. mstep. unfold mbind, M_bind, mret, M_ret.
change (PML_ENTRY (KALIGN virt)) with (index_of 4 (KALIGN virt)).
change (PDPE_ENTRY (KALIGN virt)) with (index_of 3 (KALIGN virt)).
change (PDE_ENTRY (KALIGN virt)) with (index_of 2 (KALIGN virt)).
change (PTE_ENTRY (KALIGN virt)) with (index_of 1 (KALIGN virt)).
destruct (boot_table _ s) as [pdpe s1|]; [|done]. destruct (boot_table _ s1) as [pde s2|]; [|done].
destruct (boot_table _ s2) as [pte s3|]; [|done]. fold (boot_flags w).
destruct (boot_or _ _ s3) as [[] s4|]; [|done]. destruct (boot_or _ _ s4) as [[] s5|]; [|done].
by destruct (boot_or _ _ s5).
Qed.

Lemma flag_tables_ok s T v pdpe pde pte w :
built s T {[bt_pml s + 8 * index_of 4 v; pdpe + 8 * index_of 3 v; pde + 8 * index_of 2 v]} →
path (mem s) T (bt_pml s) v pdpe pde pte →
wp (flag_tables (bt_pml s) pdpe pde v (boot_flags w)) (λ _ s', built s' T ∅ ∧ grows s s' T T ∧
  path (mem s') T (bt_pml s) v pdpe pde pte ∧ tables_left R s' = tables_left R s) s.
Proof.
intros B1 P1. destruct (boot_flags_ok w) as (F1 & F2 & F3). pose proof (pt_root _ _ _ _ (bu_tree _ _ _ B1)) as R1.
destruct (P1) as (E1 & E2 & E3 & T4 & T3 & T2).
pose proof (index_range 4 v) as I4. pose proof (index_range 3 v) as I3. pose proof (index_range 2 v) as I2.
assert (∀ t l, T !! t = Some l → t ≠ 0) as N by (intros t l Ht; by eapply table_not_0).
apply wp_bind. eapply wp_mono; [eapply (boot_or_ok s T _ _ 2); try done; rewrite E1; by eapply N|].
intros _ s2 (B2 & G2 & S2 & L2). pose proof (path_same _ _ _ _ _ _ _ _ R1 S2 P1) as P2.
apply wp_bind. eapply wp_mono; [eapply (boot_or_ok s2 T _ _ 1); try done; rewrite (proj1 (proj2 P2)); by eapply N|].
intros _ s3 (B3 & G3 & S3 & L3). pose proof (path_same _ _ _ _ _ _ _ _ R1 S3 P2) as P3.
eapply wp_mono; [eapply (boot_or_ok s3 T _ _ 0); try done; rewrite (proj1 (proj2 (proj2 P3))); by eapply N|].
intros _ s4 (B4 & G4 & S4 & L4). split_and!.
- eassert ((_ ∖ _ ∖ _ ∖ _ : gset Z) = ∅) as E; [|rewrite E in B4; exact B4]. set_solver.
- eapply grows_trans; [exact G2|]. by eapply grows_trans.
- by eapply path_same.
- congruence.
Qed.

Lemma index_of_KALIGN l v : (1 <= l)%nat → 0 <= v < 2 ^ 64 → index_of l (KALIGN v) = index_of l v.
Proof.
intros Hl Hv. rewrite !index_of_div by done. rewrite KALIGN_div by done.
rewrite Z.pow_add_r by lia. rewrite <- !Z.div_div by lia. do 2 f_equal. change (2 ^ 12) with 0x1000. zlia.
Qed.

(** The page entry of [v], 0 when a table is missing. *)
Definition page_map (s : boot) (v : Z) : Z := leaf_entry (mem s) (bt_pml s) 4 v.

(** What mapping leaves behind: the tables of [T] are still there and complete
    walks stay complete. *)
Record mapped (s s' : boot) (T : gmap Z nat) : Prop := {
  mp_built : ∃ T', built s' T' ∅ ∧ T ⊆ T' ∧ keeps s T s' T';
  mp_kept : bases_kept T (mem s) (mem s');
  mp_pml : bt_pml s' = bt_pml s
}.

Lemma boot_mapPage_ok s T phys virt w x :
built s T ∅ → 0 <= phys < 2 ^ 64 → 0 <= virt < 2 ^ 64 → missing (mem s) (bt_pml s) 4 virt <= tables_left R s →
wp (boot_mapPage phys virt w x) (λ _ s', mapped s s' T ∧
  tables_left R s - missing (mem s) (bt_pml s) 4 virt <= tables_left R s' ∧
  missing (mem s') (bt_pml s') 4 virt = 0 ∧
  ∀ v, page_map s' v = if decide (page_of v = page_of virt) then boot_pte phys w x else page_map s v) s.
Proof.
intros HB Hp Hv Hleft. eapply wp_ext; [apply boot_mapPage_parts|].
unfold make_tables, flag_tables. rewrite !index_of_KALIGN by (lia || done).
apply wp_bind. eapply wp_mono; [by apply (make_path s T)|].
intros [[pdpe pde] pte] s1 (T1 & P1 & G1 & B1 & L1). pose proof (gr_pml _ _ _ _ G1) as E1.
rewrite <- E1 in P1, B1, L1 |- *.
apply wp_bind. eapply wp_mono; [by apply (flag_tables_ok s1 T1 virt)|].
intros _ s2 (B2 & G2 & P2 & L2). pose proof (gr_pml _ _ _ _ G2) as E2. rewrite <- E2 in P2.
destruct (path_walk _ _ _ _ _ _ _ B2 P2) as [W2 M2].
eapply wp_eq; [apply on_st|]. set (s3 := set_machine _ _).
destruct (page_entry _ _ _ _ virt _ (boot_pte phys w x) (bu_tree _ _ _ B2) W2 (boot_pte_range _ _ _ Hp)) as (HT3 & S3 & K3).
pose proof (grows_trans _ _ _ _ _ _ G1 G2) as [GT GB GP GL GK].
split_and!; [split| | |].
- exists T1. split_and!; [split; [exact HT3|apply areas_set_memory, B2]|done|].
  eapply keeps_trans; [exact GK|]. apply (keeps_store _ _ pte 1%nat); [apply P2|apply index_range].
- eapply bases_kept_trans; [exact GT|exact GB|]. by apply bases_same_kept.
- exact GP.
- unfold s3. rewrite tables_left_set_memory. lia.
- pose proof (missing_kept _ (mem s3) _ _ _ _ _ virt (bu_tree _ _ _ B2) (bases_same_kept _ _ _ S3) (pt_root _ _ _ _ (bu_tree _ _ _ B2))).
  pose proof (missing_bound (mem s3) (bt_pml s2) 4 virt). change (bt_pml s3) with (bt_pml s2). lia.
- intros v. unfold page_map. etrans; [apply K3|]. case_decide; [done|]. rewrite GP. apply GL.
Qed.

(** ** Ranges *)

(** The index of the last table of each level that holds a page below [v], added
    up: the difference over a range counts the tables it enters. *)
Definition table_count (v : Z) : Z := v / 2 ^ 21 + v / 2 ^ 30 + v / 2 ^ 39.
Definition tables_in (virt k : Z) : Z := 3 + table_count (virt + 0x1000 * (k - 1)) - table_count virt.
(** The pages [boot_mapPages] maps: at least one, and at most 4 GiB, because the
    byte offset of a page is a [uint32_t]. *)
Definition pages_mapped (n : Z) : Z := Z.min (if u32 n =? 0 then 1 else u32 n) (2 ^ 20).
Definition in_pages (virt k v : Z) : Prop := page_of virt <= page_of v < page_of virt + k.
#[export] Instance in_pages_dec virt k v : Decision (in_pages virt k v).
Proof. unfold in_pages. apply _. Defined.

(** The page after [v] lacks only tables that [table_count] counts. *)
Lemma missing_next m t v :
0 <= v → v mod 0x1000 = 0 → missing m t 4 v = 0 →
missing m t 4 (v + 0x1000) <= table_count (v + 0x1000) - table_count v.
Proof.
intros Hv Hm H0. unfold table_count.
assert (∀ l l' : Z, 0 <= l <= l' → v / 2 ^ l = (v + 0x1000) / 2 ^ l → v / 2 ^ l' = (v + 0x1000) / 2 ^ l') as Hup.
{ intros l l' Hl E. replace l' with (l + (l' - l)) by lia. rewrite Z.pow_add_r, <- !Z.div_div by lia. by rewrite E. }
assert (∀ l, 12 <= l → v / 2 ^ l <= (v + 0x1000) / 2 ^ l) as Hle by (intros l Hl; apply Z.div_le_mono; lia).
pose proof (Hle 21). pose proof (Hle 30). pose proof (Hle 39). 
assert (∀ j : nat, (1 <= j)%nat → v / 2 ^ (12 + 9 * Z.of_nat j) = (v + 0x1000) / 2 ^ (12 + 9 * Z.of_nat j) →
          missing m t 4 (v + 0x1000) <= Z.of_nat (j - 1)) as Hj.
{ intros j Hj E. apply (missing_near m t 4 v); [done|done|]. intros k Hk. rewrite !index_of_div by lia.
  f_equal. eapply Hup; [|exact E]. lia. }
pose proof (missing_bound m t 4 (v + 0x1000)).
destruct (decide (v / 2 ^ 21 = (v + 0x1000) / 2 ^ 21)) as [E|N1]; [specialize (Hj 1%nat ltac:(lia) E); lia|].
destruct (decide (v / 2 ^ 30 = (v + 0x1000) / 2 ^ 30)) as [E|N2]; [specialize (Hj 2%nat ltac:(lia) E); lia|].
destruct (decide (v / 2 ^ 39 = (v + 0x1000) / 2 ^ 39)) as [E|N3]; [specialize (Hj 3%nat ltac:(lia) E); lia|lia].
Qed.

Lemma tables_in_1 virt : tables_in virt 1 = 3.
Proof. unfold tables_in. replace (virt + 0x1000 * (1 - 1)) with virt by lia. lia. Qed.

Lemma tables_in_mono virt j k : 0 <= virt → 1 <= j <= k → 3 <= tables_in virt j <= tables_in virt k.
Proof.
intros Hv Hjk. unfold tables_in, table_count.
assert (∀ l a b, 0 <= l → a <= b → a / 2 ^ l <= b / 2 ^ l) as Hle by (intros; apply Z.div_le_mono; lia).
pose proof (Hle 21 virt (virt + 0x1000 * (j - 1))). pose proof (Hle 30 virt (virt + 0x1000 * (j - 1))).
pose proof (Hle 39 virt (virt + 0x1000 * (j - 1))).
pose proof (Hle 21 (virt + 0x1000 * (j - 1)) (virt + 0x1000 * (k - 1))).
pose proof (Hle 30 (virt + 0x1000 * (j - 1)) (virt + 0x1000 * (k - 1))).
pose proof (Hle 39 (virt + 0x1000 * (j - 1)) (virt + 0x1000 * (k - 1))). lia.
Qed.

(** [k] pages from [virt] on do not run past the end of the address space, nor past
  that of the 48 bits the tables translate. *)
Definition range_ok (virt k : Z) : Prop :=
virt mod 0x1000 = 0 ∧ 0 <= virt ∧ virt + 0x1000 * k <= 2 ^ 64 ∧ virt mod 2 ^ 48 + 0x1000 * k <= 2 ^ 48.

Lemma page_of_add virt k j : range_ok virt k → 0 <= j < k → page_of (virt + 0x1000 * j) = page_of virt + j.
Proof.
intros (Hm & Hv & _ & Hb) Hj. unfold page_of.
replace (virt + 0x1000 * j) with (virt + j * 0x1000) by lia. rewrite Z.div_add by lia. zlia.
Qed.

Lemma offset_wraps i : 0 <= i → u32 (i * PAGE_SZ) = 0x1000 * (i mod 2 ^ 20).
Proof. intros Hi. unfold u32, PAGE_SZ. zlia. Qed.

Lemma mapped_trans s1 s2 s3 T T2 :
T ⊆ T2 → keeps s1 T s2 T2 → mapped s1 s2 T → mapped s2 s3 T2 → mapped s1 s3 T.
Proof.
intros HT HK [_ K1 P1] [(T3 & B3 & S3 & K3) K2 P2]. split; [|by eapply bases_kept_trans|congruence].
exists T3. split_and!; [done|by etrans|by eapply keeps_trans].
Qed.

(** The tables that the first [j] pages need at most. *)
Definition tables_first (virt j : Z) : Z := if j =? 0 then 0 else tables_in virt j.

(** After some rounds the first [j] pages are mapped. *)
Record range_state (s0 : boot) (T : gmap Z nat) (phys virt : Z) (w x : bool) (j : Z) (s : boot) : Prop := {
  rs_mapped : mapped s0 s T;
  rs_left : tables_left R s0 - tables_first virt j <= tables_left R s;
  rs_complete p : 0 <= p < j → missing (mem s) (bt_pml s) 4 (virt + 0x1000 * p) = 0;
  rs_map v : page_map s v =
    if decide (in_pages virt j v) then boot_pte (phys + 0x1000 * (page_of v - page_of virt)) w x else page_map s0 v
}.

Section round.
Context (s0 : boot) (T : gmap Z nat) (phys virt k : Z) (w x : bool).
Hypothesis Hv : range_ok virt k.
Hypothesis Hp : 0 <= phys ∧ phys + 0x1000 * k <= 2 ^ 64.
Hypothesis Hroom : tables_in virt k <= tables_left R s0.

(** Page [p] needs the tables that the first [p] pages did not need. *)
Lemma round_room j p s :
0 <= p <= j → p < k → j <= k → range_state s0 T phys virt w x j s →
missing (mem s) (bt_pml s) 4 (virt + 0x1000 * p) <=
  (if p =? j then tables_first virt (j + 1) - tables_first virt j else 0) ∧
tables_first virt (if p =? j then j + 1 else j) <= tables_in virt k.
Proof.
intros Hpj Hpk Hjk [_ _ Hc _]. destruct Hv as (V1 & V2 & V3 & _). unfold tables_first. destruct (Z.eqb_spec p j) as [->|].
- rewrite (eqb_false (j + 1) 0) by lia. split; [|by apply tables_in_mono; lia].
  destruct (Z.eqb_spec j 0) as [->|].
  + rewrite tables_in_1. pose proof (missing_bound (mem s) (bt_pml s) 4 (virt + 0x1000 * 0)). lia.
  + unfold tables_in. replace (virt + 0x1000 * j) with (virt + 0x1000 * (j - 1) + 0x1000) by lia.
    replace (virt + 0x1000 * (j + 1 - 1)) with (virt + 0x1000 * (j - 1) + 0x1000) by lia.
    pose proof (missing_next (mem s) (bt_pml s) (virt + 0x1000 * (j - 1)) ltac:(lia) ltac:(zlia) (Hc (j - 1) ltac:(lia))).
    lia.
- split; [rewrite Hc by lia; lia|]. rewrite eqb_false by lia. apply tables_in_mono; lia.
Qed.

Lemma range_round j p s :
0 <= p <= j → p < k → j <= k → range_state s0 T phys virt w x j s →
wp (boot_mapPage (phys + 0x1000 * p) (virt + 0x1000 * p) w x)
  (λ _ s', range_state s0 T phys virt w x (if p =? j then j + 1 else j) s') s.
Proof.
intros Hpj Hpk Hjk HS. pose proof Hv as (V1 & V2 & V3 & _). destruct (round_room j p s Hpj Hpk Hjk HS) as [Hmiss Htot]. destruct HS as [Hm Hl Hc Hmap].
destruct (mp_built _ _ _ Hm) as (T1 & B1 & S1 & K1).
assert (0 <= tables_first virt j) as H0.
{ unfold tables_first. destruct (Z.eqb_spec j 0); [lia|]. pose proof (tables_in_mono virt j j). lia. }
eapply wp_mono.
{ apply (boot_mapPage_ok s T1); [done|lia|lia|]. destruct (p =? j); lia. }
cbv beta. intros _ s' (M' & L' & C' & K'). split.
- by eapply mapped_trans.
- destruct (p =? j); lia.
- intros q Hq. destruct (decide (q = p)) as [->|Hne]; [done|].
  assert (0 <= q < j) as Hqj by (destruct (Z.eqb_spec p j); lia).
  pose proof (missing_kept _ _ _ _ _ _ _ (virt + 0x1000 * q) (bu_tree _ _ _ B1) (mp_kept _ _ _ M') (pt_root _ _ _ _ (bu_tree _ _ _ B1))).
  rewrite (mp_pml _ _ _ M'). rewrite Hc in H by lia. pose proof (missing_bound (mem s') (bt_pml s) 4 (virt + 0x1000 * q)). lia.
- intros v. rewrite K', (page_of_add virt k) by (done || lia). destruct (decide (page_of v = page_of virt + p)) as [E|N].
  + rewrite decide_True by (unfold in_pages; destruct (Z.eqb_spec p j); lia). f_equal. lia.
  + rewrite Hmap. apply decide_ext. unfold in_pages. destruct (Z.eqb_spec p j); lia.
Qed.

Lemma range_rounds n s :
0 <= n → k = Z.min n (2 ^ 20) → range_state s0 T phys virt w x 0 s →
wp (for_range 0 n (λ i, boot_mapPage (u64 (phys + u32 (i * PAGE_SZ))) (u64 (virt + u32 (i * PAGE_SZ))) w x))
  (λ _ s', range_state s0 T phys virt w x k s') s.
Proof.
intros Hn Hk HS. pose proof Hv as (V1 & V2 & V3 & _). apply (wp_for_range (λ i s, range_state s0 T phys virt w x (Z.min i (2 ^ 20)) s)); [done| | |exact HS].
- intros i s1 Hi HS1. rewrite offset_wraps by lia. pose proof (Z.mod_pos_bound i (2 ^ 20) ltac:(lia)) as Hmod.
  assert (i mod 2 ^ 20 <= Z.min i (2 ^ 20)) as Hle by zlia.
  rewrite !u64_id by lia. eapply wp_mono; [apply (range_round (Z.min i (2 ^ 20))); [lia|lia|lia|done]|].
  cbv beta. intros _ s2. destruct (Z.eqb_spec (i mod 2 ^ 20) (Z.min i (2 ^ 20))) as [E|N].
  + by replace (Z.min (i + 1) (2 ^ 20)) with (Z.min i (2 ^ 20) + 1) by zlia.
  + by replace (Z.min (i + 1) (2 ^ 20)) with (Z.min i (2 ^ 20)) by zlia.
- intros s1 HS1. by rewrite Hk.
Qed.
End round.

(** A range of at most 4 GiB is mapped page by page; of a larger one the first 4 GiB. *)
Lemma boot_mapPages_ok s T phys virt n w x :
let k := pages_mapped n in
built s T ∅ → range_ok virt k →
0 <= phys → phys + 0x1000 * k <= 2 ^ 64 → tables_in virt k <= tables_left R s →
wp (boot_mapPages phys virt n w x) (λ _ s', mapped s s' T ∧ tables_left R s - tables_in virt k <= tables_left R s' ∧
  ∀ v, page_map s' v =
    if decide (in_pages virt k v) then boot_pte (phys + 0x1000 * (page_of v - page_of virt)) w x else page_map s v) s.
Proof.
intros k HB Hv Hp Hpk Hroom. unfold boot_mapPages. cbv zeta. pose proof (u32_range n).
assert (1 <= k) as Hk1 by (unfold k, pages_mapped; destruct (Z.eqb_spec (u32 n) 0); lia).
eapply wp_mono; [apply (range_rounds s T phys virt k w x)|].
- done.
- done.
- done.
- destruct (Z.eqb_spec (u32 n) 0); lia.
- done.
- split.
  + split; [exists T; split_and!; (done || apply keeps_refl)|apply bases_kept_refl|done].
  + unfold tables_first. cbn. lia.
  + lia.
  + intros v. by rewrite decide_False by (unfold in_pages; lia).
- cbv beta. intros _ s' [R1 R2 _ R4]. split_and!; [done| |exact R4].
  unfold tables_first in R2. rewrite eqb_false in R2 by lia. done.
Qed.
End pool.

(** ** The identity map *)

Definition usable (d : EFI_MEMORY_DESCRIPTOR) : Prop :=
  ¬ (Type_ d = EfiReservedMemoryType ∨ Type_ d = EfiUnusableMemory ∨ Type_ d = EfiUnacceptedMemoryType).
#[export] Instance usable_dec d : Decision (usable d).
Proof. unfold usable. apply _. Defined.
Definition desc_pages (d : EFI_MEMORY_DESCRIPTOR) : Z := pages_mapped (DESC_SZ d / PAGE_SZ).
(** The address [v] lies in a page of one of the descriptors. *)
Definition id_mapped (ds : list EFI_MEMORY_DESCRIPTOR) (v : Z) : Prop :=
  Exists (λ d, usable d ∧ in_pages (PhysicalStart d) (desc_pages d) v) ds.
#[export] Instance id_mapped_dec ds v : Decision (id_mapped ds v).
Proof. unfold id_mapped. apply _. Defined.
Definition desc_fits (d : EFI_MEMORY_DESCRIPTOR) : Prop :=
  PhysicalStart d mod 0x1000 = 0 ∧ 0 <= PhysicalStart d ∧ PhysicalStart d + 0x1000 * desc_pages d <= 2 ^ 48.
(** The tables the descriptors need at most. *)
Definition desc_tables (d : EFI_MEMORY_DESCRIPTOR) : Z :=
  if decide (usable d) then tables_in (PhysicalStart d) (desc_pages d) else 0.
Definition tables_of (ds : list EFI_MEMORY_DESCRIPTOR) : Z := foldr Z.add 0 (desc_tables <$> ds).

Section identity.
Context {HE : Efi} {HP : EfiPool} (R : Z).
Hypothesis HR : 0 <= R.

Lemma desc_pages_pos d : 1 <= desc_pages d.
Proof. unfold desc_pages, pages_mapped. pose proof (u32_range (DESC_SZ d / PAGE_SZ)). destruct (Z.eqb_spec (u32 (DESC_SZ d / PAGE_SZ)) 0); lia. Qed.

Lemma tables_of_app ds ds' : tables_of (ds ++ ds') = tables_of ds + tables_of ds'.
Proof. unfold tables_of. rewrite fmap_app. induction (desc_tables <$> ds); cbn; lia. Qed.
Lemma desc_tables_pos d : desc_fits d → 0 <= desc_tables d.
Proof.
intros (_ & H & _). unfold desc_tables. case_decide; [|done]. pose proof (desc_pages_pos d).
pose proof (tables_in_mono (PhysicalStart d) (desc_pages d) (desc_pages d)). lia.
Qed.
Lemma tables_of_pos ds : Forall desc_fits ds → 0 <= tables_of ds.
Proof. induction 1 as [|d ds Hd H IH]; [done|]. pose proof (desc_tables_pos d Hd). unfold tables_of in *. cbn in *. lia. Qed.

Lemma id_mapped_1 d v : id_mapped [d] v ↔ usable d ∧ in_pages (PhysicalStart d) (desc_pages d) v.
Proof. unfold id_mapped. rewrite Exists_cons, Exists_nil. tauto. Qed.
Lemma id_mapped_app ds ds' v : id_mapped (ds ++ ds') v ↔ id_mapped ds v ∨ id_mapped ds' v.
Proof. apply Exists_app. Qed.

(** One round of the loop over the descriptors. *)
Lemma map_desc_ok s T d :
built R s T ∅ → desc_fits d → desc_tables d <= tables_left R s →
wp (if bool_decide (Type_ d = EfiReservedMemoryType ∨ Type_ d = EfiUnusableMemory
                      ∨ Type_ d = EfiUnacceptedMemoryType)
    then mret tt
    else boot_mapPages (PhysicalStart d) (PhysicalStart d) (DESC_SZ d / PAGE_SZ) true false)
  (λ _ s', mapped R s s' T ∧ tables_left R s - desc_tables d <= tables_left R s' ∧
     ∀ v, page_map s' v =
       if decide (id_mapped [d] v) then boot_pte (0x1000 * page_of v) true false else page_map s v) s.
Proof.
intros HB (D1 & D2 & D3) Hroom. unfold desc_tables in *. case_bool_decide as E.
- assert (¬ usable d) as Hu by (intros Hu; by apply Hu). rewrite decide_False in Hroom |- * by done. apply wp_ret.
  split_and!; [split; [exists T; split_and!; (done || apply keeps_refl)|apply bases_kept_refl|done]|lia|].
  intros v. by rewrite decide_False by (rewrite id_mapped_1; tauto).
- assert (usable d) as Hu by done. rewrite decide_True in Hroom |- * by done.
  pose proof (desc_pages_pos d).
  assert (range_ok (PhysicalStart d) (desc_pages d)) as Hrange.
  { unfold range_ok. rewrite (Z.mod_small (PhysicalStart d) (2 ^ 48)) by lia. lia. }
  eapply wp_mono; [apply (boot_mapPages_ok R HR s T); fold (desc_pages d); (done || lia)|].
  cbv beta. fold (desc_pages d). intros _ s' (M & L & K). split_and!; [done|exact L|].
  intros v. rewrite K. destruct (decide (in_pages (PhysicalStart d) (desc_pages d) v)) as [Hin|Hn].
  + rewrite decide_True by by apply id_mapped_1. f_equal.
    assert (page_of (PhysicalStart d) = PhysicalStart d / 0x1000) as -> by (unfold page_of; zlia). zlia.
  + by rewrite decide_False by (rewrite id_mapped_1; tauto).
Qed.

(** The descriptors before the last one are mapped. *)
Lemma idMapMem_ok s T ds last :
(∀ m, getEfiMmap m = Ok (Some (ds ++ [last])) m) →
built R s T ∅ → Forall desc_fits ds → tables_of ds <= tables_left R s →
wp idMapMem (λ _ s', mapped R s s' T ∧
  ∀ v, page_map s' v = if decide (id_mapped ds v) then boot_pte (0x1000 * page_of v) true false else page_map s v) s.
Proof.
intros Hget HB Hfits Hroom. unfold idMapMem. apply wp_bind.
eapply wp_eq; [apply on_machine_ok, Hget|]. replace (set_machine (bt_machine s) s) with s by by destruct s.
rewrite length_app. cbn [length].
apply (wp_for_range (λ i s', mapped R s s' T ∧ tables_left R s - tables_of (take (Z.to_nat i) ds) <= tables_left R s' ∧
  ∀ v, page_map s' v =
    if decide (id_mapped (take (Z.to_nat i) ds) v) then boot_pte (0x1000 * page_of v) true false else page_map s v)).
- lia.
- intros i s1 Hi (M1 & L1 & K1). destruct (lookup_lt_is_Some_2 ds (Z.to_nat i)) as [d Hd]; [lia|].
  apply wp_bind. eapply wp_eq.
  { unfold array_get, nthZ. rewrite decide_True by lia. by rewrite (lookup_app_l_Some _ _ _ _ Hd). }
  replace (Z.to_nat (i + 1)) with (S (Z.to_nat i)) by lia. rewrite (take_S_r _ _ _ Hd).
  pose proof (Forall_lookup_1 _ _ _ _ Hfits Hd) as Hfd. destruct (mp_built _ _ _ _ M1) as (T1 & B1 & S1 & K1').
  assert (tables_of (take (Z.to_nat i) ds ++ [d]) <= tables_of ds) as Hle.
  { rewrite <- (take_drop (S (Z.to_nat i)) ds) at 2. rewrite (take_S_r _ _ _ Hd), (tables_of_app (_ ++ _)).
    pose proof (tables_of_pos (drop (S (Z.to_nat i)) ds) (Forall_drop _ _ _ Hfits)). lia. }
  rewrite tables_of_app in Hle |- *. assert (tables_of [d] = desc_tables d) as Ed by (unfold tables_of; cbn [fmap list_fmap foldr]; lia). rewrite Ed in Hle |- *.
  eapply wp_mono; [apply (map_desc_ok s1 T1 d B1 Hfd); lia|]. cbv beta. intros _ s2 (M2 & L2 & K2).
  split_and!; [by eapply mapped_trans|lia|]. intros v. rewrite K2, K1.
  destruct (decide (id_mapped [d] v)) as [Hin|Hn].
  + by rewrite decide_True by (rewrite id_mapped_app; tauto).
  + apply decide_ext. rewrite id_mapped_app. tauto.
- intros s1 (M1 & _ & K1). split; [done|]. intros v. rewrite K1. apply decide_ext.
  rewrite take_ge by lia. done.
- split_and!; [split; [exists T; split_and!; (done || apply keeps_refl)|apply bases_kept_refl|done]|change (tables_of (take (Z.to_nat 0) ds)) with 0; lia|].
  intros v. rewrite decide_False; [done|]. by intros []%Exists_nil.
Qed.

(** What the debugging walk [testPath] finds is the page map. *)
Lemma testPath_finds s T v :
built R s T ∅ → 0 <= v < 2 ^ 64 →
(present (page_map s v) → testPath (bt_pml s) v s = Ok (0, page_map s v) s) ∧
(¬ present (page_map s v) → ∃ stage, 1 <= stage <= 4 ∧ testPath (bt_pml s) v s = Ok (stage, 0) s).
Proof.
intros [HT _] Hv. pose proof (pt_root _ _ _ _ HT) as R4. unfold page_map, testPath.
change (PML_ENTRY (KALIGN v)) with (index_of 4 (KALIGN v)).
change (PDPE_ENTRY (KALIGN v)) with (index_of 3 (KALIGN v)).
change (PDE_ENTRY (KALIGN v)) with (index_of 2 (KALIGN v)).
change (PTE_ENTRY (KALIGN v)) with (index_of 1 (KALIGN v)).
rewrite !index_of_KALIGN by (lia || done).
assert (∀ t l i, T !! t = Some (S (S l)) → 0 <= i < 512 →
  (Z.land (entry (mem s) t i) PG_PRESENT =? 0) = (TABLE_BASE (entry (mem s) t i) =? 0)) as Hp.
{ intros t l i Ht Hi. pose proof (pt_present _ _ _ _ HT t l i Ht Hi ltac:(set_solver)) as Hpr. unfold present in Hpr.
  destruct (Z.eqb_spec (Z.land (entry (mem s) t i) PG_PRESENT) 0), (Z.eqb_spec (TABLE_BASE (entry (mem s) t i)) 0); tauto. }
rewrite leaf_S. cbv zeta. rewrite (bind_ok _ _ _ _ _ (on_ld _ _ _)). fold (entry (mem s) (bt_pml s) (index_of 4 v)).
pose proof (index_range 4 v) as I4. pose proof (index_range 3 v) as I3. pose proof (index_range 2 v) as I2.
rewrite (Hp _ _ _ R4 I4).
destruct (Z.eqb_spec (TABLE_BASE (entry (mem s) (bt_pml s) (index_of 4 v))) 0) as [|N4].
{ split; [by intros []%not_present_0|]. intros _. by exists 1. }
pose proof (pt_child _ _ _ _ HT _ _ _ R4 I4 N4) as R3. revert R3 N4.
generalize (TABLE_BASE (entry (mem s) (bt_pml s) (index_of 4 v))) as t3. intros t3 R3 N4.
rewrite leaf_S. cbv zeta. rewrite (bind_ok _ _ _ _ _ (on_ld _ _ _)). fold (entry (mem s) t3 (index_of 3 v)).
rewrite (Hp _ _ _ R3 I3).
destruct (Z.eqb_spec (TABLE_BASE (entry (mem s) t3 (index_of 3 v))) 0) as [|N3].
{ split; [by intros []%not_present_0|]. intros _. by exists 2. }
pose proof (pt_child _ _ _ _ HT _ _ _ R3 I3 N3) as R2. revert R2 N3.
generalize (TABLE_BASE (entry (mem s) t3 (index_of 3 v))) as t2. intros t2 R2 N3.
rewrite leaf_S. cbv zeta. rewrite (bind_ok _ _ _ _ _ (on_ld _ _ _)). fold (entry (mem s) t2 (index_of 2 v)).
rewrite (Hp _ _ _ R2 I2).
destruct (Z.eqb_spec (TABLE_BASE (entry (mem s) t2 (index_of 2 v))) 0) as [|N2].
{ split; [by intros []%not_present_0|]. intros _. by exists 3. }
rewrite (bind_ok _ _ _ _ _ (on_ld _ _ _)). unfold leaf_entry. cbn [walk]. unfold present.
split; intros H.
- by rewrite eqb_false.
- exists 4. rewrite eqb_true by (by apply dec_stable). done.
Qed.

(** The first table is an empty tree. *)
Lemma empty_tree m b : b mod 0x1000 = 0 → 0 < b < 2 ^ 52 → (∀ i, 0 <= i < 512 → entry m b i = 0) →
ptree m b {[b := 4%nat]} ∅.
Proof.
intros Hm Hr Hz. split.
- apply lookup_insert_eq.
- by intros t l [<- _]%lookup_singleton_Some.
- intros t l i [<- _]%lookup_singleton_Some Hi. by rewrite Hz.
- intros t l i t' l' i' [<- _]%lookup_singleton_Some _ Hi _. by rewrite Hz.
- intros t l i [<- _]%lookup_singleton_Some Hi _. rewrite Hz by done. split; [by intros []%not_present_0|done].
Qed.

Lemma boot_pte_page v w x : 0 <= v < 2 ^ 48 → boot_pte (0x1000 * page_of v) w x = boot_pte v w x.
Proof. intros Hv. unfold boot_pte, page_of. f_equal. rewrite !KALIGN_div by zlia. zlia. Qed.
Lemma boot_pte_present phys w x : present (boot_pte phys w x).
Proof. unfold boot_pte. rewrite Z.lor_comm. apply present_lor. by destruct w, x. Qed.

(** [initMem] up to the identity map: the array of allocations and the root. *)
Lemma initMem_root s :
bt_bumpBase s = 0 → bt_bumpPtr s = 0 → bt_bumpSize s = 0 → R + 1920 <= pool_room (bt_machine s) →
1 <= 1024 * ((pool_room (bt_machine s) - (R + 1920)) / CHUNK) → ∀ (Q : unit → boot → Prop),
(∀ s' T, built R s' T ∅ → 1024 * ((pool_room (bt_machine s) - (R + 1920)) / CHUNK) - 1 <= tables_left R s' →
   (∀ v, page_map s' v = 0) → wp idMapMem Q s') →
wp boot_initMem Q s.
Proof.
intros E1 E2 E3 Hr Hc Q HQ. unfold boot_initMem.
destruct (allocPool_fresh (48 * 40) (bt_machine s)) as (p & t & Ep & Em & Hr' & _); [lia|].
destruct (clearMem_zeroes p (48 * 40) t) as (m & Ec & _); [lia|].
apply wp_bind. eapply wp_eq; [by apply on_machine_ok|].
apply wp_bind. eapply wp_eq; [by apply on_machine_ok|]. apply wp_bind, wp_modify.
set (s1 := set_alloc _ _ _ _ _). 
assert (pool_room (bt_machine s1) = pool_room t) as Er by apply (pool_memory m t).
assert (areas R s1 ∅) as HA.
{ unfold s1. split; cbn; rewrite ?E1, ?E2, ?E3; try done; try lia. change (R <= pool_room (bt_machine s1)). lia. }
assert (1024 * ((pool_room (bt_machine s) - (R + 1920)) / CHUNK) <= tables_left R s1) as Hl.
{ unfold tables_left. rewrite Er. change (bt_bumpSize s1) with (bt_bumpSize s). change (bt_bumpPtr s1) with (bt_bumpPtr s).
  rewrite E2, E3. change ((0 - 0) / 0x1000) with 0. unfold CHUNK, PAGE_SZ in *. zlia. }
apply wp_bind. eapply wp_mono; [apply (pgAlloc_ok R HR s1 ∅ HA); lia|]. cbv beta.
intros b s2 (_ & Hbm & Hbr & Hz & HA2 & Hl2 & _). apply wp_bind, wp_modify.
assert (∀ i, 0 <= i < 512 → entry (mem s2) b i = 0) as Hzero.
{ intros i Hi. change 0 with (load 8 ∅ (b + 8 * i)). unfold entry. apply load_ext.
  intros a Ha. rewrite Hz, decide_True; [done|lia]. }
apply (HQ _ {[b := 4%nat]}).
- split; [by apply empty_tree|]. destruct (HA2 4%nat) as [[] _]. by split.
- change (tables_left R (set_pml b s2)) with (tables_left R s2). lia.
- intros v. by apply leaf_zero.
Qed.

End identity.

Section initMem.
Context {HE : Efi} {HP : EfiPool}.

(** C10: [initMem] builds page tables that map every page of the usable descriptors of
    the firmware's map but the last to itself, writable and not executable, and map
    nothing else; of a descriptor of more than 4 GiB the first 4 GiB are mapped. *)
Theorem initMem_maps ds last s :
(∀ m, getEfiMmap m = Ok (Some (ds ++ [last])) m) → Forall desc_fits ds →
bt_bumpBase s = 0 → bt_bumpPtr s = 0 → bt_bumpSize s = 0 →
1 + tables_of ds <= 1024 * ((pool_room (bt_machine s) - 1920) / CHUNK) →
wp boot_initMem (λ _ s', ∀ v, 0 <= v < 2 ^ 48 →
  if decide (id_mapped ds v) then testPath (bt_pml s') v s' = Ok (0, boot_pte v true false) s'
  else ∃ stage, 1 <= stage <= 4 ∧ testPath (bt_pml s') v s' = Ok (stage, 0) s') s.
Proof.
intros Hget Hfits E1 E2 E3 Hroom. pose proof (tables_of_pos _ Hfits) as Hpos.
apply (initMem_root 0); [done|done|done|done|unfold CHUNK, PAGE_SZ in *; zlia|change (0 + 1920) with 1920; lia|].
change (0 + 1920) with 1920.
intros s1 T B1 L1 Z1. eapply wp_mono; [apply (idMapMem_ok 0 (Z.le_refl 0) s1 T ds last Hget B1 Hfits); lia|].
cbv beta. intros _ s2 (M2 & K2) v Hv. destruct (mp_built _ _ _ _ M2) as (T2 & B2 & _).
destruct (testPath_finds 0 (Z.le_refl 0) s2 T2 v B2 ltac:(lia)) as [Hyes Hno]. rewrite K2, Z1 in Hyes, Hno.
destruct (decide (id_mapped ds v)) as [Hin|Hn].
- rewrite boot_pte_page in Hyes by done. apply Hyes, boot_pte_present.
- apply Hno, not_present_0.
Qed.
End initMem.

(** ** Witness *)

(** A firmware that keeps the start of the rest of its pool in one variable and the
    position in the open file in another. *)
Definition pool_efi (ds : list EFI_MEMORY_DESCRIPTOR) : Efi := {|
  allocPool := λ n, p ← gread g_vbuffer; _ ← gwrite g_vbuffer (p + n); mret p;
  clearMem := λ p n s, Ok tt (set_memory (write_bytes (memory s) p (replicate (Z.to_nat n) 0)) s);
  reallocPool := λ l _, mret l;
  getEfiMmap := mret (Some ds)
|}.
Definition pool_efi_pool ds : @EfiPool (pool_efi ds).
Proof.
  refine (@Build_EfiPool (pool_efi ds) (λ s a, globals s g_vbuffer <= a)
    (λ s, if 0 <? globals s g_vbuffer then 2 ^ 40 - globals s g_vbuffer else 0) (λ s, globals s g_bpp) _ _ _).
  - intros n s. destruct (Z.ltb_spec 0 (globals s g_vbuffer)) as [Hp|]; [|lia]. intros Hn.
    eexists _, _. split; [reflexivity|]. rewrite globals_set_global_eq, memory_set_global.
    rewrite ltb_true by lia. repeat split; try lia; intros; lia.
  - intros p n s Hn. eexists. split; [reflexivity|]. intros a. rewrite mbyte_write_bytes. unfold nthZ.
    case_decide as E; [|by rewrite decide_False by lia].
    destruct (decide (p <= a < p + n)) as [Hin|Hout].
    + rewrite lookup_replicate_2 by lia. done.
    + rewrite lookup_ge_None_2 by (rewrite length_replicate; lia). done.
  - intros m s. by split.
Defined.

(** 64 KiB of free memory, a reserved page, and a last descriptor that is left out. *)
Definition small_map : list EFI_MEMORY_DESCRIPTOR :=
  [Desc EfiConventionalMemory 0x100000 0 16; Desc EfiReservedMemoryType 0x200000 0 1].
Definition boot_pool : boot :=
  Boot (set_global g_vbuffer 0x40000000 machine0) [] [] 0 0 0 0 0 0 0 0 0.

Lemma initMem_maps_witness :
  wp (@boot_initMem (pool_efi (small_map ++ [Desc EfiConventionalMemory 0x300000 0 4]))) (λ _ s',
    testPath (bt_pml s') 0x105123 s' = Ok (0, 0x8000000000105003) s' ∧
    (∃ stage, 1 <= stage <= 4 ∧ testPath (bt_pml s') 0x200000 s' = Ok (stage, 0) s') ∧
    ∃ stage, 1 <= stage <= 4 ∧ testPath (bt_pml s') 0x300000 s' = Ok (stage, 0) s') boot_pool.
Proof.
  eapply wp_mono.
  { apply (@initMem_maps (pool_efi (small_map ++ [Desc EfiConventionalMemory 0x300000 0 4])) (pool_efi_pool _)
      small_map (Desc EfiConventionalMemory 0x300000 0 4) boot_pool).
    - done.
    - repeat constructor; vm_compute; congruence.
    - done.
    - done.
    - done.
    - vm_compute. congruence. }
  cbv beta. intros _ s' H. split_and!.
  - specialize (H 0x105123 ltac:(lia)). rewrite decide_True in H by (apply (bool_decide_unpack _); vm_compute; exact I).
    exact H.
  - specialize (H 0x200000 ltac:(lia)). rewrite decide_False in H; [exact H|].
    apply (bool_decide_unpack _). vm_compute. exact I.
  - specialize (H 0x300000 ltac:(lia)). rewrite decide_False in H; [exact H|].
    apply (bool_decide_unpack _). vm_compute. exact I.
Defined.
