(* ===== verification/BootElf.v ===== *)
(** * The boot loader's ELF loader (src/Bootloader/x86_64/elf.c)

    The file is behind the functions of file.c, which pass to the firmware and
    are a parameter; [header] and [prog] are stack slots.  Memory comes from
    [allocMem] and is mapped with the functions of [BootMem]. *)

From S2P Require Import Prelude Kmonad Mem Mmap Paging Ksym BootMem.

(** file.c: [setFilePos] says whether the status was EFI_SUCCESS. *)
Class EfiFile := {
  setFilePos : Z → M boot bool;
  getFilePos : M boot Z;
  readFile : Z → Z → M boot unit          (* destination, bytes *)
}.

(** [ELF_MAGIC], the literal "\177ELF" (its terminator is never reached). *)
Definition ELF_MAGIC : list Z := [127; 69; 76; 70].

(** [checkMagic] stops at the first 'F' of its second argument. *)
Definition checkMagic (fuel : nat) (s magic : Z) : M machine bool :=
  iter fuel (λ i,
    m ← ld 1 (magic + i);
    if m =? 70 then mret (inr true)
    else
      c ← ld 1 (s + i);
      mret (if negb (c =? m) then inr false else inl (s32 (i + 1)))) 0.

Section elf.
Context {HE : Efi} {HF : EfiFile}.
(** The stack slots of [header] and [prog], the address of the magic literal. *)
Variables (fuel : nat) (header prog magic_literal : Z).

Definition getELFMemSize : M boot Z :=
ok ← setFilePos 0;
if negb ok then mret 0
else
  _ ← readFile header sizeof_ELF64Header;
  phoff ← on_machine (ld 8 (header + 32));
  ok ← setFilePos phoff;
  if negb ok then mret 0
  else
    iter fuel (λ '(i, sz),
      phnum ← on_machine (ld 2 (header + 56));
      if i <? phnum then
        _ ← readFile prog sizeof_ELF64ProgramHeader;
        type ← on_machine (ld 4 prog);
        if negb (type =? PT_LOAD) then mret (inl (u16 (i + 1), sz))
        else memsz ← on_machine (ld 8 (prog + 40)); mret (inl (u16 (i + 1), u64 (sz + memsz)))
      else mret (inr sz)) (0, 0).

(** One LOAD segment: allocate, read, map. *)
Definition load_segment (type : Z) : M boot unit :=
memsz ← on_machine (ld 8 (prog + 40));
vaddr ← on_machine (ld 8 (prog + 16));
load ← allocMem_int memsz vaddr type false true true;
filesz ← on_machine (ld 8 (prog + 32));
_ ← (if filesz =? 0 then mret tt
     else
       save ← getFilePos;
       offset ← on_machine (ld 8 (prog + 8));
       _ ← setFilePos offset;
       _ ← readFile load filesz;
       _ ← setFilePos save;
       mret tt);
flags ← on_machine (ld 4 (prog + 4));
boot_mapPages load vaddr (memsz / PAGE_SZ + 1) (has flags PF_W) (has flags PF_X).

Definition loadELF (kernel : bool) : M boot Z :=
ok ← setFilePos 0;
if negb ok then mret 0
else
  _ ← readFile header sizeof_ELF64Header;
  ok ← on_machine (checkMagic fuel magic_literal header);
  if negb ok then mret 0
  else
    class ← on_machine (ld 1 (header + 4));
    if negb (class =? ELF_CLASS64) then mret 0
    else
      phoff ← on_machine (ld 8 (header + 32));
      ok ← setFilePos phoff;
      if negb ok then mret 0
      else
        let type := if kernel then MMAP_TYPE_KERNEL else MMAP_TYPE_ELF in
        _ ← iter fuel (λ i,
          phnum ← on_machine (ld 2 (header + 56));
          if i <? phnum then
            _ ← readFile prog sizeof_ELF64ProgramHeader;
            ptype ← on_machine (ld 4 prog);
            _ ← (if negb (ptype =? PT_LOAD) then mret tt else load_segment type);
            mret (inl (u16 (i + 1)))
          else mret (inr tt)) 0;
        on_machine (ld 8 (header + 24)).
End elf.

(** ** The magic test *)

(** The headers [checkMagic] accepts: a prefix of the magic, then an 'F'. *)
Definition magic_prefix (m : gmap Z Z) (a : Z) (k : nat) : Prop :=
  (∀ i, (i < k)%nat → ELF_MAGIC !! i = Some (mbyte m (a + Z.of_nat i))) ∧
  mbyte m (a + Z.of_nat k) = 70.

(** Whether [checkMagic] accepts what follows after [i] matching bytes. *)
Fixpoint accepts (rest : list Z) (m : gmap Z Z) (a : Z) : bool :=
  match rest with
  | [] => false
  | c :: rest' =>
      if mbyte m a =? 70 then true
      else if c =? mbyte m a then accepts rest' m (a + 1) else false
  end.

Lemma checkMagic_loop fuel s a pre rest st :
  (∀ i x, ELF_MAGIC !! i = Some x → mbyte (memory st) (s + Z.of_nat i) = x) →
  ELF_MAGIC = pre ++ rest → rest ≠ [] → (length rest <= fuel)%nat →
  iter fuel (λ i,
    m ← ld 1 (a + i);
    if m =? 70 then mret (inr true)
    else
      c ← ld 1 (s + i);
      mret (if negb (c =? m) then inr false else inl (s32 (i + 1)))) (Z.of_nat (length pre)) st =
  Ok (accepts rest (memory st) (a + Z.of_nat (length pre))) st.
Proof.
  intros Hlit. revert fuel pre. induction rest as [|c rest IH]; intros [|fuel] pre Hm Hne Hf;
    cbn [length] in Hf; try lia; try done. cbn [iter accepts].
  assert (mbyte (memory st) (s + Z.of_nat (length pre)) = c) as Hc.
  { apply Hlit. rewrite Hm. by apply list_lookup_middle. }
  set (h := mbyte (memory st) (a + Z.of_nat (length pre))).
  assert (length ELF_MAGIC = length pre + S (length rest))%nat as Hl
    by (rewrite Hm, length_app; done). cbn in Hl.
  destruct (Z.eqb_spec h 70) as [E|E].
  - erewrite bind_ok; [|mstep; rewrite load_1; fold h; rewrite E; reflexivity]. done.
  - erewrite bind_ok; [|mstep; rewrite load_1; fold h; rewrite eqb_false by done;
      mstep; rewrite load_1, Hc; reflexivity].
    destruct (Z.eqb_spec c h) as [Ec|Ec]; cbn [negb]; [|done].
    replace (s32 (Z.of_nat (length pre) + 1)) with (Z.of_nat (length (pre ++ [c])))
      by (rewrite length_app; unfold s32; cbn [length]; zlia).
    rewrite IH.
    + do 2 f_equal. rewrite length_app. cbn [length]. lia.
    + by rewrite <- app_assoc.
    + intros ->. assert (last ELF_MAGIC = Some c) as Hlast by (rewrite Hm; by rewrite last_snoc).
      injection Hlast as Hlast. congruence.
    + lia.
Qed.

Lemma accepts_prefix rest m a :
  accepts rest m a = true ↔
  ∃ k, (k < length rest)%nat ∧
    (∀ i, (i < k)%nat → rest !! i = Some (mbyte m (a + Z.of_nat i))) ∧ mbyte m (a + Z.of_nat k) = 70.
Proof.
  revert a. induction rest as [|c rest IH]; intros a; cbn [accepts length].
  { split; [done|]. intros (k & Hk & _). lia. }
  destruct (Z.eqb_spec (mbyte m a) 70) as [E|E].
  { split; [|done]. intros _. exists 0%nat. replace (a + Z.of_nat 0) with a by lia.
    split_and!; [lia|lia|done]. }
  destruct (Z.eqb_spec c (mbyte m a)) as [Ec|Ec].
  - rewrite IH. split.
    + intros (k & Hk & Hi & Hf). exists (S k). split_and!; [lia| |].
      * intros [|i] Hik; [cbn; replace (a + Z.of_nat 0) with a by lia; congruence|].
        change ((c :: rest) !! S i) with (rest !! i). rewrite Hi by lia. do 2 f_equal. lia.
      * rewrite <- Hf. f_equal. lia.
    + intros ([|k] & Hk & Hi & Hf); [by replace (a + Z.of_nat 0) with a in Hf by lia|].
      exists k. split_and!; [lia| |rewrite <- Hf; f_equal; lia].
      intros i Hik. specialize (Hi (S i) ltac:(lia)).
      change ((c :: rest) !! S i) with (rest !! i) in Hi. rewrite Hi. do 2 f_equal. lia.
  - split; [done|]. intros ([|k] & Hk & Hi & Hf); [by replace (a + Z.of_nat 0) with a in Hf by lia|].
    specialize (Hi 0%nat ltac:(lia)). replace (a + Z.of_nat 0) with a in Hi by lia.
    cbn in Hi. congruence.
Qed.

(** The loop ends within four rounds and accepts exactly the headers in which an
    'F' follows a proper prefix of the magic: "F", "\177F" and "\177EF" pass like
    "\177ELF". *)
Theorem checkMagic_accepts fuel s a st :
  (∀ i x, ELF_MAGIC !! i = Some x → mbyte (memory st) (s + Z.of_nat i) = x) → (4 <= fuel)%nat →
  ∃ b, checkMagic fuel s a st = Ok b st ∧
    (b = true ↔ ∃ k, (k < 4)%nat ∧ magic_prefix (memory st) a k).
Proof.
  intros Hlit Hf. exists (accepts ELF_MAGIC (memory st) a). split.
  - unfold checkMagic. pose proof (checkMagic_loop fuel s a [] ELF_MAGIC st Hlit eq_refl) as H.
    rewrite Z.add_0_r in H. apply H; [done|exact Hf].
  - apply accepts_prefix.
Qed.

(** The literal at 0x100; a file that starts with "Foo" at 0x200 is accepted. *)
Definition magic_machine : machine :=
  set_memory (write_bytes (write_bytes ∅ 0x100 ELF_MAGIC) 0x200 [70; 111; 111]) machine0.
Lemma checkMagic_accepts_witness :
  ∃ b, checkMagic 4 0x100 0x200 magic_machine = Ok b magic_machine ∧
    (b = true ↔ ∃ k, (k < 4)%nat ∧ magic_prefix (memory magic_machine) 0x200 k).
Proof.
  apply (checkMagic_accepts 4 0x100 0x200 magic_machine); [|lia].
  intros i x. do 4 (destruct i as [|i]; [intros [= <-]; by vm_compute|]). done.
Defined.
