(* ===== verification/ElfLoad.v ===== *)
(** * The ELF loader puts the segments where the program expects them

    [loadELF] (src/Bootloader/x86_64/elf.c) on the pages of BootPaging.v: after it
    every byte of every LOAD segment is found in memory through the page tables it
    built.  The open file is a parameter with the behaviour UEFI documents. *)

From S2P Require Import Prelude Kmonad Mem Mmap Paging PagingProps Ksym BootMem PageTrees BootPaging BootElf.

(** ** The open file and the pool *)

Definition same_pool `{EfiPool} (s t : machine) : Prop :=
  pool_room t = pool_room s ∧ ∀ a, pool_free t a ↔ pool_free s a.

(** [file] are the bytes of the open file, [file_size] how many: positions can be set
    and asked for, and a read that stays in the file copies its bytes and moves on. *)
Class FileLaws `{EfiPool} `{EfiFile} := {
  file : gmap Z Z;
  file_size : Z;
  setFilePos_moves pos s : 0 <= pos →
    ∃ t, setFilePos pos s = Ok true (set_machine t s) ∧ memory t = mem s ∧ file_position t = pos ∧
      same_pool (bt_machine s) t;
  getFilePos_tells s : getFilePos s = Ok (file_position (bt_machine s)) s;
  readFile_reads dst n s :
    let pos := file_position (bt_machine s) in
    0 <= n → 0 <= pos → pos + n <= file_size →
    ∃ t, readFile dst n s = Ok tt (set_machine t s) ∧ file_position t = pos + n ∧ same_pool (bt_machine s) t ∧
      ∀ a, mbyte (memory t) a =
        if decide (dst <= a < dst + n) then mbyte file (pos + (a - dst)) else mbyte (mem s) a
}.

(** [allocMem_int] rounds the address up to a page and clears as many bytes as it
    asked for, so it clears up to a page behind the memory it got: it relies on that
    page being free as well. *)
Class PoolSlack `{EfiPool} : Prop := {
  page_behind_free n s p t a : 0 < n → allocPool n s = Ok p t → p + n <= a < p + n + 0x1000 → pool_free s a
}.

(** ** Steps that change only memory the loader owns *)

Section steps.
Context {HE : Efi} {HP : EfiPool}.

(** As [keeps], but the array of allocations may change. *)
Record keeps_mem (s : boot) (T : gmap Z nat) (s' : boot) (T' : gmap Z nat) : Prop := {
  km_owned a : owned s' T' a → owned s T a;
  km_mem a : ¬ owned s T a → mbyte (mem s') a = mbyte (mem s) a
}.

Lemma keeps_mem_refl s T : keeps_mem s T s T.
Proof. by split. Qed.
Lemma keeps_mem_trans s1 s2 s3 T1 T2 T3 : keeps_mem s1 T1 s2 T2 → keeps_mem s2 T2 s3 T3 → keeps_mem s1 T1 s3 T3.
Proof. intros [A1 A2] [B1 B2]. split; [auto|]. intros a Ha. rewrite B2 by auto. by apply A2. Qed.
Lemma keeps_weaken s T s' T' : keeps s T s' T' → keeps_mem s T s' T'.
Proof. by intros [H1 H2 _ _]. Qed.
Lemma keeps_mem_load s T s' T' n a :
  keeps_mem s T s' T' → (∀ i, a <= i < a + Z.of_nat n → ¬ owned s T i) → load n (mem s') a = load n (mem s) a.
Proof. intros [_ Hm] Ha. apply load_ext. intros i Hi. by apply Hm, Ha. Qed.

(** A change of the machine that takes nothing but pool memory and leaves the tables. *)
Definition spares (s : boot) (T : gmap Z nat) (t : machine) : Prop :=
  (∀ a, pool_free t a → pool_free (bt_machine s) a) ∧
  ∀ tab l a, T !! tab = Some l → tab <= a < tab + 0x1000 → mbyte (memory t) a = mbyte (mem s) a.

Lemma spares_entry s T t tab l i :
  spares s T t → T !! tab = Some l → 0 <= i < 512 → entry (memory t) tab i = entry (mem s) tab i.
Proof. intros [_ H] Ht Hi. apply load_ext. intros a Ha. eapply H; [exact Ht|lia]. Qed.

(** The reserve may be used up by [R - R'] bytes. *)
Lemma spares_ok R R' s T t :
  built R s T ∅ → spares s T t → R' <= pool_room t → pool_room (bt_machine s) - R <= pool_room t - R' →
  built R' (set_machine t s) T ∅ ∧ (∀ v, page_map (set_machine t s) v = page_map s v) ∧
  tables_left R s <= tables_left R' (set_machine t s) ∧ ∀ a, owned (set_machine t s) T a → owned s T a.
Proof.
  intros [HT [A1 A2 A3 A4 A5]] Hs HR' Hroom. destruct (Hs) as [Hf _]. split_and!.
  - split.
    + eapply ptree_same; [exact HT|intros ?????; f_equal; by eapply spares_entry|].
      intros tab l i Ht Hi Hn. change (mem (set_machine t s)) with (memory t).
      rewrite (spares_entry s T t tab _ i) by done. by eapply (pt_present _ _ _ _ HT).
    + split; [done|done|done|..].
      * intros a Ha Hfree. by apply (A4 a Ha), Hf.
      * intros tab l Ht. destruct (A5 tab l Ht) as (B1 & B2 & B3). split_and!; [done| |done].
        intros a Ha Hfree. by apply (B2 a Ha), Hf.
  - intros v. eapply leaf_same; [exact HT|intros ?????; f_equal; by eapply spares_entry|].
    intros p i Hp Hi. by eapply spares_entry.
  - unfold tables_left. cbn [bt_machine set_machine bt_bumpSize bt_bumpPtr].
    assert ((pool_room (bt_machine s) - R) / CHUNK <= (pool_room t - R') / CHUNK); [|lia].
    apply Z.div_le_mono; [unfold CHUNK, PAGE_SZ; lia|lia].
  - intros a [Ha|Ha]; [left; by apply Hf|by right].
Qed.
End steps.

(** ** Allocating the memory of a segment *)

Section alloc.
Context {HE : Efi} {HP : EfiPool} {HS : PoolSlack}.

(** The array of allocations has [n] entries to spare before it is enlarged. *)
Definition entries_left (s : boot) (n : Z) : Prop :=
  Z.of_nat (length (bt_allocMap s)) = bt_mapMax s ∧ 0 <= bt_mapPtr s ∧ bt_mapPtr s + n < bt_mapMax s < 2 ^ 64.

Lemma built_set_alloc R s T l mx p n :
  built R s T ∅ → built R (set_alloc l mx p n s) T ∅.
Proof. intros [HT [A1 A2 A3 A4 A5]]. split; [exact HT|by split]. Qed.

(** The pool call and the clearing. *)
Lemma pool_clear R s T p t m n load :
  built R s T ∅ → 0 < n <= R → allocPool n (bt_machine s) = Ok p t → memory t = mem s →
  pool_room (bt_machine s) - n <= pool_room t → (∀ a, p <= a < p + n → pool_free (bt_machine s) a) →
  (∀ a, pool_free t a → pool_free (bt_machine s) a) → p <= load <= p + 0x1000 →
  (∀ a, mbyte m a = if decide (load <= a < load + n) then 0 else mbyte (memory t) a) →
  let s' := set_machine (set_memory m t) s in
  built (R - n) s' T ∅ ∧ keeps_mem s T s' T ∧ (∀ v, page_map s' v = page_map s v) ∧
  tables_left R s <= tables_left (R - n) s'.
Proof.
  intros HB Hn Ep Em Hr Hfresh Hmono Hload Hm s'.
  assert (∀ a, load <= a < load + n → pool_free (bt_machine s) a) as Hclear.
  { intros a Ha. destruct (decide (a < p + n)); [apply Hfresh; lia|]. eapply page_behind_free; [|exact Ep|]; lia. }
  destruct (pool_memory m t) as (E1 & E2 & _).
  assert (spares s T (set_memory m t)) as Hs.
  { split; [intros a Ha; by apply Hmono, E2|]. intros tab l a Ht Ha.
    change (memory (set_memory m t)) with m. rewrite Hm, decide_False; [by rewrite Em|].
    intros Hin. destruct (ar_table _ _ _ (bu_areas _ _ _ _ HB) _ _ Ht) as (_ & Hno & _). by apply (Hno a Ha), Hclear. }
  pose proof (ar_room _ _ _ (bu_areas _ _ _ _ HB)) as Hroom.
  destruct (spares_ok R (R - n) s T _ HB Hs) as (B1 & K1 & L1 & O1); [rewrite E1; lia|rewrite E1; lia|].
  split_and!; [done|split; [done|]|done|done].
  intros a Ha. change (mem s') with m. rewrite Hm, decide_False; [by rewrite Em|].
  intros Hin. apply Ha. left. by apply Hclear.
Qed.

Lemma allocMem_ok R s T memsz virt type :
  built R s T ∅ → 0 <= memsz < 2 ^ 32 → memsz + 0x1000 <= R → entries_left s 1 →
  wp (allocMem_int memsz virt type false true true) (λ load s',
    built (R - (memsz + 0x1000)) s' T ∅ ∧ keeps_mem s T s' T ∧
    load mod 0x1000 = 0 ∧ 0 < load ∧ load + memsz <= 2 ^ 52 ∧
    (∀ a, load <= a < load + memsz → owned s T a ∧ ¬ owned s' T a ∧ mbyte (mem s') a = 0) ∧
    (∀ v, page_map s' v = page_map s v) ∧ tables_left R s <= tables_left (R - (memsz + 0x1000)) s' ∧
    (∀ n, entries_left s (n + 1) → entries_left s' n) ∧
    file_position (bt_machine s') = file_position (bt_machine s)) s.
Proof.
  intros HB Hsz HR (Hlen & Hptr & Hmax). unfold allocMem_int. cbv zeta.
  rewrite (u64_id (memsz + PAGE_SZ)) by (unfold PAGE_SZ; lia). pose proof (ar_room _ _ _ (bu_areas _ _ _ _ HB)) as Hroom.
  destruct (allocPool_fresh (memsz + 0x1000) (bt_machine s)) as (p & t & Ep & Em & Hr & Hp & Hp2 & Hfresh & Hmono & Hfile);
    [lia|].
  apply wp_bind. eapply wp_eq; [by apply on_machine_ok|]. rewrite eqb_false by lia.
  rewrite KALIGN_div by lia. unfold PAGE_SZ. rewrite u64_id by zlia. set (load := p - p mod 0x1000 + 0x1000).
  assert (load mod 0x1000 = 0 ∧ p < load <= p + 0x1000) as [Hlm Hlr] by (unfold load; zlia).
  destruct (clearMem_zeroes load (memsz + 0x1000) t) as (m & Ec & Hm); [lia|].
  cbn [when]. apply wp_bind. eapply wp_eq; [by apply on_machine_ok|].
  destruct (pool_clear R s T p t m (memsz + 0x1000) load HB) as (B1 & K1 & M1 & L1);
    [lia|done|done|done|intros a Ha; by apply Hfresh|done|lia|exact Hm|].
  set (s1 := set_machine (set_memory m t) s) in *. change (set_machine _ (set_machine t s)) with s1.
  apply wp_bind, wp_get. change (bt_allocMap s1) with (bt_allocMap s). change (bt_mapPtr s1) with (bt_mapPtr s).
  destruct (nthZ_is_Some (bt_allocMap s) (bt_mapPtr s)) as [e He]; [lia|].
  apply wp_bind. eapply wp_array_get; [exact He|]. apply wp_bind. apply wp_array_set; [lia|].
  change (bt_mapMax s1) with (bt_mapMax s). change (bt_allocEntries s1) with (bt_allocEntries s).
  rewrite (u64_id (bt_mapPtr s + 1)) by lia. apply wp_bind, wp_modify. rewrite eqb_false by lia.
  cbn [when]. apply wp_bind, wp_ret, wp_ret. destruct (pool_memory m t) as (E1 & E2 & E3).
  split_and!; [by apply built_set_alloc|by destruct K1|done|lia|lia| |exact M1|exact L1| |].
  - intros a Ha. split_and!.
    + left. apply Hfresh. lia.
    + intros [Hf|[Hc|(tab & l & Ht & Hin)]]; cbn in *.
      * destruct (Hfresh a ltac:(lia)) as [_ Hn]. by apply Hn, E2.
      * apply (ar_chunk _ _ _ (bu_areas _ _ _ _ HB) a Hc), Hfresh. lia.
      * destruct (ar_table _ _ _ (bu_areas _ _ _ _ HB) _ _ Ht) as (_ & Hno & _). apply (Hno a Hin), Hfresh. lia.
    + change (mem _) with m. rewrite Hm, decide_True; [done|lia].
  - intros n (N1 & N2 & N3). split; cbn; [by rewrite length_updZ|lia].
  - etrans; [exact E3|exact Hfile].
Qed.
End alloc.

(** ** File operations *)

Section file_steps.
Context {HE : Efi} {HP : EfiPool} {HF : EfiFile} {HL : FileLaws}.

(** A step of the firmware: the tables and the areas are as they were. *)
Record moves (R : Z) (s : boot) (T : gmap Z nat) (s' : boot) : Prop := {
  mv_built : built R s' T ∅;
  mv_map v : page_map s' v = page_map s v;
  mv_left : tables_left R s <= tables_left R s';
  mv_owned a : owned s' T a → owned s T a;
  mv_entries n : entries_left s n → entries_left s' n
}.

Lemma moves_refl R s T : built R s T ∅ → moves R s T s.
Proof. by split. Qed.
Lemma moves_trans R s1 s2 s3 T : moves R s1 T s2 → moves R s2 T s3 → moves R s1 T s3.
Proof. intros [A1 A2 A3 A4 A5] [B1 B2 B3 B4 B5]. split; [done|by intros; rewrite B2|lia|auto|auto]. Qed.

Lemma moves_machine R s T t :
  built R s T ∅ → same_pool (bt_machine s) t →
  (∀ tab l a, T !! tab = Some l → tab <= a < tab + 0x1000 → mbyte (memory t) a = mbyte (mem s) a) →
  moves R s T (set_machine t s).
Proof.
  intros HB [Hr Hf] Hm. pose proof (ar_room _ _ _ (bu_areas _ _ _ _ HB)) as Hroom.
  destruct (spares_ok R R s T t HB) as (B & M & L & O); [split; [apply Hf|done]|lia|lia|]. by split.
Qed.

Lemma setFilePos_ok R s T pos :
  built R s T ∅ → 0 <= pos →
  wp (setFilePos pos) (λ b s', b = true ∧ moves R s T s' ∧ mem s' = mem s ∧
    file_position (bt_machine s') = pos) s.
Proof.
  intros HB Hpos. destruct (setFilePos_moves pos s Hpos) as (t & E & M & P & Hp). eapply wp_eq; [exact E|].
  split_and!; [done| |done|done]. apply moves_machine; [done|done|]. intros. by rewrite M.
Qed.

(** A read into memory that holds no table. *)
Lemma readFile_ok R s T dst n :
  let pos := file_position (bt_machine s) in
  built R s T ∅ → 0 <= n → 0 <= pos → pos + n <= file_size → (∀ a, dst <= a < dst + n → ¬ owned s T a) →
  wp (readFile dst n) (λ _ s', moves R s T s' ∧ file_position (bt_machine s') = pos + n ∧
    ∀ a, mbyte (mem s') a = if decide (dst <= a < dst + n) then mbyte file (pos + (a - dst)) else mbyte (mem s) a) s.
Proof.
  intros pos HB Hn Hpos Hend Hdst. destruct (readFile_reads dst n s Hn Hpos Hend) as (t & E & P & Hp & Hm).
  eapply wp_eq; [exact E|]. split_and!; [|done|done]. apply moves_machine; [done|done|].
  intros tab l a Ht Ha. rewrite Hm, decide_False; [done|]. intros Hin. apply (Hdst a Hin). right. right. by exists tab, l.
Qed.
End file_steps.

(** ** One segment *)

Section segment.
Context {HE : Efi} {HP : EfiPool} {HS : PoolSlack} {HF : EfiFile} {HL : FileLaws}.
Implicit Types ph : ELF64ProgramHeader.
(** Memory of the loader itself: its stack slots and literals. *)
Variable slots : Z → Prop.

Definition seg_pages ph : Z := ph_memsz ph / 0x1000 + 1.
(** The addresses of the segment lie in pages of their own. *)
Definition in_segment ph (v : Z) : Prop := in_pages (ph_vaddr ph) (seg_pages ph) v.
Record segment_ok ph : Prop := {
  so_range : range_ok (ph_vaddr ph) (seg_pages ph);
  so_memsz : 0 <= ph_memsz ph < 2 ^ 32;
  so_filesz : 0 <= ph_filesz ph <= ph_memsz ph;
  so_offset : 0 <= ph_offset ph ∧ ph_offset ph + ph_filesz ph <= file_size
}.
(** The byte [i] of the segment: from the file, and zero behind the part in the file. *)
Definition seg_byte ph (i : Z) : Z :=
  if decide (i < ph_filesz ph) then mbyte file (ph_offset ph + i) else 0.
Definition seg_pte ph (frame : Z) : Z := boot_pte frame (has (ph_flags ph) PF_W) (has (ph_flags ph) PF_X).

(** The segment is in the memory from [load] on, which nothing else uses, and its
    pages are mapped there. *)
Record loaded (s : boot) (T : gmap Z nat) ph (load : Z) : Prop := {
  lo_load : load mod 0x1000 = 0 ∧ 0 < load ∧ load + ph_memsz ph <= 2 ^ 52;
  lo_private a : load <= a < load + ph_memsz ph → ¬ owned s T a ∧ ¬ slots a;
  lo_bytes i : 0 <= i < ph_memsz ph → mbyte (mem s) (load + i) = seg_byte ph i;
  lo_map v : in_segment ph v →
    page_map s v = seg_pte ph (load + 0x1000 * (page_of v - page_of (ph_vaddr ph)))
}.

Lemma loaded_keeps s T s' T' ph load :
  loaded s T ph load → keeps_mem s T s' T' → (∀ v, in_segment ph v → page_map s' v = page_map s v) →
  loaded s' T' ph load.
Proof.
  intros [L1 L2 L3 L4] [K1 K2] Hm. split; [done| | |].
  - intros a Ha. destruct (L2 a Ha) as [N1 N2]. split; [intros Ho; by apply N1, K1|done].
  - intros i Hi. rewrite K2; [by apply L3|]. apply L2. lia.
  - intros v Hv. rewrite Hm by done. by apply L4.
Qed.

Lemma loaded_moves R s T s' ph load :
  loaded s T ph load → moves R s T s' → (∀ a, ¬ slots a → mbyte (mem s') a = mbyte (mem s) a) →
  loaded s' T ph load.
Proof.
  intros [L1 L2 L3 L4] V Hm. split; [done| | |].
  - intros a Ha. destruct (L2 a Ha) as [N1 N2]. split; [|done]. intros Ho. by apply N1, (mv_owned _ _ _ _ V).
  - intros i Hi. rewrite Hm; [by apply L3|]. apply L2. lia.
  - intros v Hv. rewrite (mv_map _ _ _ _ V). by apply L4.
Qed.

(** The program header in memory stays the same. *)
Lemma read_phdr_keeps s T s' T' prog :
  keeps_mem s T s' T' → (∀ a, prog <= a < prog + 56 → ¬ owned s T a) →
  read_phdr (mem s') prog = read_phdr (mem s) prog.
Proof.
  intros HK Ha. unfold read_phdr.
  rewrite !(keeps_mem_load s T s' T') by (done || intros i Hi; apply Ha; lia). done.
Qed.

(** Reading the part of the segment that the file has. *)
Definition read_part ph load : M boot unit :=
  if ph_filesz ph =? 0 then mret tt
  else
    save ← getFilePos;
    _ ← setFilePos (ph_offset ph);
    _ ← readFile load (ph_filesz ph);
    _ ← setFilePos save;
    mret tt.

Lemma read_part_ok R s T ph load :
  built R s T ∅ → segment_ok ph → 0 <= file_position (bt_machine s) →
  (∀ a, load <= a < load + ph_memsz ph → ¬ owned s T a) →
  wp (read_part ph load) (λ _ s', moves R s T s' ∧
    file_position (bt_machine s') = file_position (bt_machine s) ∧
    ∀ a, mbyte (mem s') a =
      if decide (load <= a < load + ph_filesz ph) then mbyte file (ph_offset ph + (a - load)) else mbyte (mem s) a) s.
Proof.
  intros HB [_ _ Hfs [Ho1 Ho2]] Hpos Hload. unfold read_part. destruct (Z.eqb_spec (ph_filesz ph) 0) as [E0|N0].
  { apply wp_ret. split_and!; [by apply moves_refl|done|]. intros a. by rewrite decide_False by lia. }
  apply wp_bind. eapply wp_eq; [apply getFilePos_tells|].
  apply wp_bind. eapply wp_mono; [by apply (setFilePos_ok R s T)|]. intros _ s1 (_ & V1 & M1 & P1).
  apply wp_bind. eapply wp_mono.
  { apply (readFile_ok R s1 T load (ph_filesz ph) (mv_built _ _ _ _ V1)); [lia|lia|lia|].
    intros a Ha Ho. apply (Hload a ltac:(lia)). by apply (mv_owned _ _ _ _ V1). }
  cbv beta. intros _ s2 (V2 & P2 & M2).
  apply wp_bind. eapply wp_mono; [apply (setFilePos_ok R s2 T); [apply V2|exact Hpos]|]. intros _ s3 (_ & V3 & M3 & P3).
  apply wp_ret. split_and!; [by eapply moves_trans; [|eapply moves_trans]|done|].
  intros a. by rewrite M3, M2, P1, M1.
Qed.

Lemma seg_pages_mapped ph : segment_ok ph → pages_mapped (ph_memsz ph / PAGE_SZ + 1) = seg_pages ph.
Proof.
  intros [_ Hm _ _]. unfold pages_mapped, seg_pages, PAGE_SZ. change 0x1000 with 4096 in *.
  assert (0 <= ph_memsz ph / 4096 < 2 ^ 20) by zlia. rewrite u32_id by lia. rewrite eqb_false by lia. lia.
Qed.

(** The fields of the header as [load_segment] reads them. *)
Lemma phdr_fields s prog ph :
  read_phdr (mem s) prog = ph →
  load 4 (mem s) prog = ph_type ph ∧ load 4 (mem s) (prog + 4) = ph_flags ph ∧
  load 8 (mem s) (prog + 8) = ph_offset ph ∧ load 8 (mem s) (prog + 16) = ph_vaddr ph ∧
  load 8 (mem s) (prog + 32) = ph_filesz ph ∧ load 8 (mem s) (prog + 40) = ph_memsz ph.
Proof. by intros <-. Qed.

Lemma load_segment_ok R s T prog type ph :
  let R' := R - (ph_memsz ph + 0x1000) in
  built R s T ∅ → segment_ok ph → read_phdr (mem s) prog = ph → 0 <= R' → entries_left s 1 →
  (∀ a, slots a → ¬ owned s T a) → (∀ a, prog <= a < prog + 56 → slots a) →
  0 <= file_position (bt_machine s) → tables_in (ph_vaddr ph) (seg_pages ph) <= tables_left R s →
  wp (load_segment prog type) (λ _ s', ∃ T' ld,
    built R' s' T' ∅ ∧ keeps_mem s T s' T' ∧ loaded s' T' ph ld ∧
    (∀ v, ¬ in_segment ph v → page_map s' v = page_map s v) ∧
    tables_left R s - tables_in (ph_vaddr ph) (seg_pages ph) <= tables_left R' s' ∧
    (∀ n, entries_left s (n + 1) → entries_left s' n) ∧
    file_position (bt_machine s') = file_position (bt_machine s)) s.
Proof.
  intros R' HB Hok Hph HR Hent Hslots Hsub Hpos Htab.
  assert (∀ a, prog <= a < prog + 56 → ¬ owned s T a) as Hprog by auto. pose proof Hok as [Hrange Hmsz Hfsz [Hof1 Hof2]].
  unfold load_segment. destruct (phdr_fields s prog ph Hph) as (_ & _ & _ & F4 & _ & F6).
  apply wp_bind. eapply wp_eq; [apply on_ld|]. apply wp_bind. eapply wp_eq; [apply on_ld|]. rewrite F4, F6.
  apply wp_bind. eapply wp_mono; [apply (allocMem_ok R s T); [done|lia|lia|done]|]. cbv beta.
  intros ld s1 (B1 & K1 & A1 & A2 & A3 & A4 & M1 & L1 & N1 & P1). fold R' in B1, L1.
  assert (read_phdr (mem s1) prog = ph) as Hph1 by (by rewrite (read_phdr_keeps s T s1 T)).
  destruct (phdr_fields s1 prog ph Hph1) as (_ & _ & F3' & _ & F5' & _).
  apply wp_bind. eapply wp_eq; [apply on_ld|]. rewrite F5'. apply wp_bind.
  eapply (wp_ext _ (read_part ph ld)).
  { unfold read_part. destruct (ph_filesz ph =? 0); [done|].
    rewrite (bind_ok _ _ _ _ _ (getFilePos_tells s1)), (bind_ok _ _ _ _ _ (on_ld _ _ _)), F3'.
    by rewrite (bind_ok _ _ _ _ _ (getFilePos_tells s1)). }
  eapply wp_mono; [apply (read_part_ok R' s1 T ph ld B1 Hok); [lia|intros a Ha; by apply A4]|].
  cbv beta. intros _ s2 ([B2 M2 L2 O2 E2] & P2 & Hbytes).
  assert (keeps_mem s T s2 T) as K2.
  { split; [intros a Ha; by apply (km_owned _ _ _ _ K1), O2|]. intros a Ha. rewrite Hbytes, decide_False.
    - by apply K1.
    - intros Hin. apply Ha, A4. lia. }
  assert (read_phdr (mem s2) prog = ph) as Hph2 by (by rewrite (read_phdr_keeps s T s2 T)).
  destruct (phdr_fields s2 prog ph Hph2) as (_ & F2' & _).
  apply wp_bind. eapply wp_eq; [apply on_ld|]. rewrite F2'.
  assert (0 <= ld + 0x1000 * seg_pages ph <= 2 ^ 64) as Hend by (unfold seg_pages; zlia).
  eapply wp_mono; [apply (boot_mapPages_ok R' HR s2 T); rewrite ?seg_pages_mapped by done; (done || lia)|].
  cbv beta. rewrite seg_pages_mapped by done. intros _ s3 (M3 & L3 & Hmap).
  destruct (mp_built _ _ _ _ M3) as (T' & B3 & S3 & K3). exists T', ld. split_and!.
  - done.
  - eapply keeps_mem_trans; [exact K2|by apply keeps_weaken].
  - split; [done| | |].
    + intros a Ha. split.
      * intros Ho. apply (A4 a Ha), O2. by apply (kp_owned _ _ _ _ K3).
      * intros Hsl. apply (Hslots a Hsl). by apply A4.
    + intros j Hj. rewrite (kp_mem _ _ _ _ K3) by (intros Ho; apply (A4 (ld + j) ltac:(lia)), O2, Ho).
      rewrite Hbytes. unfold seg_byte. case_decide as Hd.
      * rewrite decide_True by lia. do 2 f_equal. lia.
      * rewrite decide_False by lia. apply A4. lia.
    + intros v Hv. rewrite Hmap, decide_True by done. done.
  - intros v Hv. rewrite Hmap, decide_False by done. by rewrite M2, M1.
  - lia.
  - intros n Hn. destruct (kp_alloc _ _ _ _ K3) as (C1 & C2 & C3). specialize (N1 n Hn). unfold entries_left.
    rewrite C1, C2, C3. by apply E2.
  - rewrite (kp_file _ _ _ _ K3). congruence.
Qed.
End segment.

(** ** The program headers *)

Section load.
Context {HE : Efi} {HP : EfiPool} {HS : PoolSlack} {HF : EfiFile} {HL : FileLaws}.
Context (fuel : nat) (header prog magic_literal : Z).
Implicit Types ph : ELF64ProgramHeader.

(** The stack slots of [loadELF] and the magic literal. *)
Definition slots (a : Z) : Prop :=
  header <= a < header + 64 ∨ prog <= a < prog + 56 ∨ magic_literal <= a < magic_literal + 4.
Definition elf_phoff : Z := load 8 file 32.
Definition elf_phnum : Z := load 2 file 56.
(** The program headers from [i] on. *)
Definition phdrs_from (i : Z) : list ELF64ProgramHeader :=
  (λ j, read_phdr file (elf_phoff + 56 * j)) <$> seqZ i (elf_phnum - i).
Definition loads (l : list ELF64ProgramHeader) : list ELF64ProgramHeader := filter (λ ph, ph_type ph = PT_LOAD) l.

(** The pool bytes and the tables that the segments need. *)
Definition pool_needed (l : list ELF64ProgramHeader) : Z := foldr Z.add 0 ((λ ph, ph_memsz ph + 0x1000) <$> loads l).
Definition tables_needed (l : list ELF64ProgramHeader) : Z :=
  foldr Z.add 0 ((λ ph, tables_in (ph_vaddr ph) (seg_pages ph)) <$> loads l).

Definition apart_segments (l : list ELF64ProgramHeader) : Prop :=
  ∀ i j ph ph' v, i ≠ j → l !! i = Some ph → l !! j = Some ph' → in_segment ph v → ¬ in_segment ph' v.

(** Before program header [i]; [done] are the segments loaded so far. *)
Record at_header (s : boot) (T : gmap Z nat) (i : Z) (rest done : list ELF64ProgramHeader) : Prop := {
  ah_built : built (pool_needed rest) s T ∅;
  ah_tables : tables_needed rest <= tables_left (pool_needed rest) s;
  ah_entries : entries_left s (Z.of_nat (length (loads rest)));
  ah_slots a : slots a → ¬ owned s T a;
  ah_header k : 0 <= k < 64 → mbyte (mem s) (header + k) = mbyte file k;
  ah_pos : file_position (bt_machine s) = elf_phoff + 56 * i;
  ah_done ph : ph ∈ done → ∃ ld, loaded slots s T ph ld
}.

Lemma loads_cons ph l : loads (ph :: l) = if decide (ph_type ph = PT_LOAD) then ph :: loads l else loads l.
Proof. unfold loads. by rewrite filter_cons. Qed.
Lemma needed_cons ph l :
  pool_needed (ph :: l) = (if decide (ph_type ph = PT_LOAD) then ph_memsz ph + 0x1000 else 0) + pool_needed l ∧
  tables_needed (ph :: l) =
    (if decide (ph_type ph = PT_LOAD) then tables_in (ph_vaddr ph) (seg_pages ph) else 0) + tables_needed l.
Proof. unfold pool_needed, tables_needed. rewrite loads_cons. by case_decide. Qed.
Lemma pool_needed_pos l : Forall segment_ok (loads l) → 0 <= pool_needed l.
Proof.
  unfold pool_needed. induction (loads l) as [|ph l' IH]; cbn; [done|].
  intros [Hph Hl]%Forall_cons. specialize (IH Hl). pose proof (so_memsz _ Hph). lia.
Qed.

(** A field of a struct read from the file. *)
Lemma load_copied n m a off :
  (∀ k, 0 <= k < Z.of_nat n → mbyte m (a + k) = mbyte file (off + k)) → load n m a = load n file off.
Proof.
  revert a off. induction n as [|n IH]; intros a off H; [done|].
  change (mbyte m a + 256 * load n m (a + 1) = mbyte file off + 256 * load n file (off + 1)).
  rewrite (IH (a + 1) (off + 1)).
  - specialize (H 0 ltac:(lia)). rewrite !Z.add_0_r in H. by rewrite H.
  - intros k Hk. specialize (H (k + 1) ltac:(lia)).
    replace (a + 1 + k) with (a + (k + 1)) by lia. by replace (off + 1 + k) with (off + (k + 1)) by lia.
Qed.

Section image.
Hypothesis Hslots : header + 64 <= prog ∨ prog + 56 <= header.
Hypothesis Hphoff : 0 <= elf_phoff.
Hypothesis Hsize : elf_phoff + 56 * elf_phnum <= file_size.

(** Reading the next program header. *)
Lemma next_header s T i rest done :
  at_header s T i rest done → 0 <= i < elf_phnum →
  wp (readFile prog sizeof_ELF64ProgramHeader) (λ _ s', at_header s' T (i + 1) rest done ∧
    read_phdr (mem s') prog = read_phdr file (elf_phoff + 56 * i)) s.
Proof.
  intros [B1 B2 B3 B4 B5 B6 B7] Hi. unfold sizeof_ELF64ProgramHeader.
  eapply wp_mono.
  { apply (readFile_ok (pool_needed rest) s T prog 56 B1); [done|lia|lia|].
    intros a Ha. apply B4. right. by left. }
  cbv beta. intros _ s' (V & P & Hm). split; [split|].
  - apply V.
  - pose proof (mv_left _ _ _ _ V). lia.
  - by apply (mv_entries _ _ _ _ V).
  - intros a Ha Ho. by apply (B4 a Ha), (mv_owned _ _ _ _ V).
  - intros k Hk. rewrite Hm, decide_False by lia. by apply B5.
  - lia.
  - intros ph Hph. destruct (B7 ph Hph) as [ld Hld]. exists ld. eapply loaded_moves; [exact Hld|exact V|].
    intros a Ha. rewrite Hm, decide_False; [done|]. intros Hin. apply Ha. right. by left.
  - rewrite B6 in Hm. set (o := elf_phoff + 56 * i) in *.
    assert (∀ n k, 0 <= k → k + Z.of_nat n <= 56 → load n (mem s') (prog + k) = load n file (o + k)) as Hf.
    { intros n k Hk Hn. apply load_copied. intros j Hj. rewrite Hm, decide_True by lia. f_equal. lia. }
    pose proof (Hf 4%nat 0 ltac:(lia) ltac:(lia)) as H0. rewrite !Z.add_0_r in H0.
    unfold read_phdr. by rewrite H0, !Hf by lia.
Qed.

(** One round: a header that is not LOAD is skipped, a LOAD segment is loaded. *)
Lemma load_round type s T i ph rest done :
  at_header s T i (ph :: rest) done → 0 <= i < elf_phnum → ph = read_phdr file (elf_phoff + 56 * i) →
  Forall segment_ok (loads (ph :: rest)) →
  (ph_type ph = PT_LOAD → ∀ ph' v, ph' ∈ done → in_segment ph' v → ¬ in_segment ph v) →
  wp (_ ← readFile prog sizeof_ELF64ProgramHeader;
      ptype ← on_machine (ld 4 prog);
      if negb (ptype =? PT_LOAD) then mret tt else load_segment prog type)
    (λ _ s', ∃ T', at_header s' T' (i + 1) rest (if decide (ph_type ph = PT_LOAD) then ph :: done else done)) s.
Proof.
  intros HA Hi Eph Hok Happ. apply wp_bind.
  eapply wp_mono; [by apply (next_header s T i (ph :: rest) done)|]. cbv beta.
  intros _ s1 [HA1 Hph]. rewrite <- Eph in Hph. apply wp_bind. eapply wp_eq; [apply on_ld|].
  rewrite (proj1 (phdr_fields s1 prog ph Hph)). destruct HA1 as [B1 B2 B3 B4 B5 B6 B7].
  destruct (needed_cons ph rest) as [Ep Et]. rewrite Ep in B1, B2. rewrite Et in B2. rewrite loads_cons in B3, Hok.
  destruct (decide (ph_type ph = PT_LOAD)) as [El|Nl].
  2:{ rewrite eqb_false by done. cbn [negb]. apply wp_ret. exists T. by split. }
  rewrite El. cbn [negb Z.eqb PT_LOAD Pos.eqb]. apply Forall_cons in Hok as [Hsok Hrest].
  pose proof (pool_needed_pos rest Hrest) as Hpos. pose proof (so_memsz _ Hsok) as Hmsz.
  assert (0 <= tables_needed rest) as Htpos.
  { unfold tables_needed. clear -Hrest. induction (loads rest) as [|ph' l IH]; cbn; [done|].
    apply Forall_cons in Hrest as [H1 H2]. specialize (IH H2).
    pose proof (so_memsz _ H1). destruct (so_range _ H1) as (_ & Hv & _). 
    pose proof (tables_in_mono (ph_vaddr ph') (seg_pages ph') (seg_pages ph') Hv). unfold seg_pages in *. zlia. }
  eapply wp_mono.
  { eapply (load_segment_ok slots _ s1 T prog type ph B1 Hsok Hph).
    - lia.
    - cbn [length] in B3. destruct B3 as (C1 & C2 & C3). split; [done|lia].
    - done.
    - intros a Ha. right. by left.
    - lia.
    - lia. }
  cbv beta. intros _ s2 (T' & ld & B & K & L & M & Hl & N & P). exists T'.
  replace (ph_memsz ph + 0x1000 + pool_needed rest - (ph_memsz ph + 0x1000)) with (pool_needed rest) in B, Hl by lia.
  split; [done|lia| | | |congruence|].
  - apply N. cbn [length] in B3. by replace (Z.of_nat (length (loads rest)) + 1) with (Z.of_nat (S (length (loads rest)))) by lia.
  - intros a Ha Ho. by apply (B4 a Ha), (km_owned _ _ _ _ K).
  - intros k Hk. rewrite (km_mem _ _ _ _ K); [by apply B5|]. apply B4. left. lia.
  - intros ph' [->|Hin]%elem_of_cons; [by exists ld|]. destruct (B7 ph' Hin) as [ld' L']. exists ld'.
    eapply loaded_keeps; [exact L'|exact K|]. intros v Hv. apply M. by apply (Happ El ph' v).
Qed.

Lemma header_field s T i rest done n k :
  at_header s T i rest done → 0 <= k → k + Z.of_nat n <= 64 → load n (mem s) (header + k) = load n file k.
Proof.
  intros HA Hk Hn. apply load_copied. intros j Hj. rewrite <- Z.add_assoc. apply (ah_header _ _ _ _ _ HA). lia.
Qed.

Lemma phdrs_from_cons i :
  i < elf_phnum → phdrs_from i = read_phdr file (elf_phoff + 56 * i) :: phdrs_from (i + 1).
Proof.
  intros Hi. unfold phdrs_from. rewrite seqZ_cons by lia. cbn [fmap list_fmap].
  do 3 f_equal; lia.
Qed.
Lemma phdrs_from_nil : phdrs_from elf_phnum = [].
Proof. unfold phdrs_from. by rewrite Z.sub_diag. Qed.

Lemma apart_segments_cons ph l :
  apart_segments (ph :: l) →
  (∀ ph' v, ph' ∈ l → in_segment ph v → ¬ in_segment ph' v) ∧ apart_segments l.
Proof.
  intros H. split.
  - intros ph' v [j Hj]%list_elem_of_lookup. by apply (H 0%nat (S j)).
  - intros i j ph1 ph2 v Hij H1 H2. apply (H (S i) (S j)); [lia|done|done].
Qed.

(** The loop over the headers. *)
Lemma load_loop type n i s T done fuel' :
  i + Z.of_nat n = elf_phnum → 0 <= i → (n < fuel')%nat → at_header s T i (phdrs_from i) done →
  Forall segment_ok (loads (phdrs_from i)) → apart_segments (loads (phdrs_from i)) →
  (∀ ph ph' v, ph ∈ done → ph' ∈ loads (phdrs_from i) → in_segment ph v → ¬ in_segment ph' v) →
  wp (iter fuel' (λ i,
        phnum ← on_machine (ld 2 (header + 56));
        if i <? phnum then
          _ ← readFile prog sizeof_ELF64ProgramHeader;
          ptype ← on_machine (ld 4 prog);
          _ ← (if negb (ptype =? PT_LOAD) then mret tt else load_segment prog type);
          mret (inl (u16 (i + 1)))
        else mret (inr tt)) i)
    (λ _ s', ∃ T' done', at_header s' T' elf_phnum [] done' ∧
       ∀ ph, ph ∈ done ∨ ph ∈ loads (phdrs_from i) → ph ∈ done') s.
Proof.
  revert i s T done fuel'. induction n as [|n IH]; intros i s T done [|fuel'] Hi Hi0 Hf HA Hok Hap Hdone; try lia.
  all: apply wp_iter_S, wp_bind; eapply wp_eq; [apply on_ld|].
  all: rewrite (header_field _ _ _ _ _ 2 56 HA) by lia; fold elf_phnum.
  - rewrite ltb_false by lia. apply wp_ret, wp_ret. exists T, done.
    replace i with elf_phnum in * by lia. rewrite phdrs_from_nil in *. split; [done|].
    intros ph [H|H]; [done|by apply elem_of_nil in H].
  - rewrite ltb_true by lia. rewrite phdrs_from_cons in * by lia. set (ph := read_phdr file _) in *.
    eapply (wp_ext _ (_ ← (_ ← readFile prog sizeof_ELF64ProgramHeader;
        ptype ← on_machine (ld 4 prog);
        if negb (ptype =? PT_LOAD) then mret tt else load_segment prog type); mret (inl (u16 (i + 1))))).
    { unfold mbind, M_bind. destruct (readFile _ _ s) as [[] s1|]; [|done]. by destruct (on_machine _ s1). }
    apply wp_bind. eapply wp_mono.
    { apply (load_round type s T i ph (phdrs_from (i + 1)) done); [done|lia|done|done|].
      intros El ph' v H. apply (Hdone ph' ph v H). rewrite loads_cons, decide_True by done. apply list_elem_of_here. }
    cbv beta. intros _ s1 (T1 & HA1). apply wp_ret. cbv iota.
    assert (elf_phnum < 2 ^ 16) as H16 by apply (load_2_range file 56).
    assert (u16 (i + 1) = i + 1) as -> by (apply u16_id; lia).
    rewrite loads_cons in Hok, Hap, Hdone |- *.
    destruct (decide (ph_type ph = PT_LOAD)) as [El|Nl].
    + apply Forall_cons in Hok as [_ Hok]. apply apart_segments_cons in Hap as [Hph Hap].
      eapply wp_mono; [apply (IH (i + 1) s1 T1 (ph :: done) fuel'); try done; try lia|].
      * intros ph1 ph2 v [->|H1]%elem_of_cons H2; [by apply Hph|].
        apply (Hdone ph1 ph2 v H1). by apply elem_of_cons; right.
      * cbv beta. intros _ s' (T' & done' & HA' & Hin). exists T', done'. split; [done|].
        intros ph' [H|[->|H]%elem_of_cons]; apply Hin; [left; by apply elem_of_cons; right|left; apply list_elem_of_here|by right].
    + by eapply wp_mono; [apply (IH (i + 1) s1 T1 done fuel'); try done; lia|].
Qed.
End image.

(** ** The whole file *)

(** A program the loader is meant for: 64-bit, all of it in the file, its segments
    page aligned and in pages of their own. *)
Record elf_ok : Prop := {
  eo_magic i x : ELF_MAGIC !! i = Some x → mbyte file (Z.of_nat i) = x;
  eo_class : mbyte file 4 = ELF_CLASS64;
  eo_size : 64 <= file_size ∧ elf_phoff + 56 * elf_phnum <= file_size;
  eo_segments : Forall segment_ok (loads (phdrs_from 0));
  eo_apart : apart_segments (loads (phdrs_from 0))
}.

(** The loader's state: room for the segments, and its own memory apart from the
    tables and the pool. *)
Record loader_ok (s : boot) (T : gmap Z nat) : Prop := {
  lk_built : built (pool_needed (phdrs_from 0)) s T ∅;
  lk_tables : tables_needed (phdrs_from 0) <= tables_left (pool_needed (phdrs_from 0)) s;
  lk_entries : entries_left s (Z.of_nat (length (loads (phdrs_from 0))));
  lk_slots a : slots a → ¬ owned s T a;
  lk_literal i x : ELF_MAGIC !! i = Some x → mbyte (mem s) (magic_literal + Z.of_nat i) = x;
  lk_apart : (header + 64 <= prog ∨ prog + 56 <= header) ∧
    (header + 64 <= magic_literal ∨ magic_literal + 4 <= header)
}.

Lemma magic_index i x : ELF_MAGIC !! i = Some x → (i < 4)%nat.
Proof. intros H. by apply lookup_lt_Some in H. Qed.

(** The header is read and accepted. *)
Lemma read_header s T :
  elf_ok → loader_ok s T →
  wp (ok ← setFilePos 0; _ ← readFile header sizeof_ELF64Header; mret ok)
    (λ ok s', ok = true ∧ moves (pool_needed (phdrs_from 0)) s T s' ∧
       (∀ k, 0 <= k < 64 → mbyte (mem s') (header + k) = mbyte file k) ∧
       (∀ i x, ELF_MAGIC !! i = Some x → mbyte (mem s') (magic_literal + Z.of_nat i) = x)) s.
Proof.
  intros HE' [B1 _ _ B4 B5 [_ B6]]. apply wp_bind. eapply wp_mono; [by apply (setFilePos_ok (pool_needed (phdrs_from 0)) s T 0 B1)|].
  intros b s1 (-> & V1 & M1 & P1). unfold sizeof_ELF64Header. apply wp_bind. eapply wp_mono.
  { apply (readFile_ok (pool_needed (phdrs_from 0)) s1 T header 64); [apply V1|done|lia| |].
    - rewrite P1. apply HE'.
    - intros a Ha Ho. apply (B4 a); [by left|]. by apply (mv_owned _ _ _ _ V1). }
  cbv beta. rewrite P1, M1. intros _ s2 (V2 & P2 & M2). apply wp_ret. split_and!; [done|by eapply moves_trans| |].
  - intros k Hk. rewrite M2, decide_True by lia. f_equal. lia.
  - intros i x Hi. pose proof (magic_index _ _ Hi). rewrite M2, decide_False by lia. by apply B5.
Qed.

(** The magic of the header is that of the literal. *)
Lemma magic_accepted s :
  elf_ok → (4 <= fuel)%nat → (∀ k, 0 <= k < 64 → mbyte (mem s) (header + k) = mbyte file k) →
  (∀ i x, ELF_MAGIC !! i = Some x → mbyte (mem s) (magic_literal + Z.of_nat i) = x) →
  on_machine (checkMagic fuel magic_literal header) s = Ok true s.
Proof.
  intros HE' Hf Hh Hlit. destruct (checkMagic_accepts fuel magic_literal header (bt_machine s) Hlit Hf) as (b & Eb & Hb).
  assert (b = true) as ->.
  { apply Hb. exists 3%nat. split; [lia|]. unfold magic_prefix. change (memory (bt_machine s)) with (mem s). split.
    - intros i Hi. rewrite (Hh (Z.of_nat i)) by lia.
      destruct (lookup_lt_is_Some_2 ELF_MAGIC i) as [x Hx]; [cbn; lia|]. by rewrite Hx, (eo_magic HE' i x Hx).
    - rewrite (Hh (Z.of_nat 3)) by lia. by apply (eo_magic HE'). }
  rewrite (on_machine_ok _ _ _ _ Eb). by destruct s.
Qed.

(** What the loaded segments are to the program. *)
Lemma loaded_visible R s T ph ld i :
  0 <= R → built R s T ∅ → segment_ok ph → loaded slots s T ph ld → 0 <= i < ph_memsz ph →
  ∃ frame, frame mod 0x1000 = 0 ∧ 0 < frame < 2 ^ 52 ∧
    testPath (bt_pml s) (ph_vaddr ph + i) s = Ok (0, seg_pte ph frame) s ∧
    mbyte (mem s) (frame + (ph_vaddr ph + i) mod 0x1000) = seg_byte ph i.
Proof.
  intros HR HB [Hrange Hmsz _ _] [(L1 & L2 & L3) _ Hbytes Hmap] Hi.
  pose proof Hrange as (V1 & V2 & V3 & _). set (v := ph_vaddr ph + i).
  assert (page_of v = page_of (ph_vaddr ph) + i / 0x1000) as Epage.
  { rewrite <- (page_of_add (ph_vaddr ph) (seg_pages ph)) by (done || (unfold seg_pages; zlia)).
    unfold page_of, v. f_equal. zlia. }
  assert (in_segment ph v) as Hin by (unfold in_segment, in_pages, seg_pages; rewrite Epage; zlia).
  specialize (Hmap v Hin). rewrite Epage in Hmap.
  replace (page_of (ph_vaddr ph) + i / 0x1000 - page_of (ph_vaddr ph)) with (i / 0x1000) in Hmap by lia.
  exists (ld + 0x1000 * (i / 0x1000)). split_and!; [zlia|zlia|zlia| |].
  - destruct (testPath_finds R HR s T v HB) as [Hyes _]; [unfold v, seg_pages in *; zlia|].
    rewrite Hmap in Hyes. apply Hyes, boot_pte_present.
  - rewrite <- Hbytes by done. f_equal. unfold v. zlia.
Qed.

(** C9: [loadELF] of a well-formed program returns its entry point, and every byte of
    every LOAD segment is then found through the page tables at its virtual address:
    the bytes of the file, zero behind them, in pages with the write and execute
    permissions of the segment. *)
Theorem loadELF_loads kernel s T :
  elf_ok → loader_ok s T → (Z.to_nat elf_phnum < fuel)%nat → (4 <= fuel)%nat →
  wp (loadELF fuel header prog magic_literal kernel) (λ entry s', entry = load 8 file 24 ∧
    ∀ ph i, ph ∈ loads (phdrs_from 0) → 0 <= i < ph_memsz ph →
      ∃ frame, frame mod 0x1000 = 0 ∧ 0 < frame < 2 ^ 52 ∧
        testPath (bt_pml s') (ph_vaddr ph + i) s' = Ok (0, seg_pte ph frame) s' ∧
        mbyte (mem s') (frame + (ph_vaddr ph + i) mod 0x1000) = seg_byte ph i) s.
Proof.
  intros HE' HK Hf Hf4. pose proof (load_8_range file 32) as Hphoff. fold elf_phoff in Hphoff.
  pose proof (load_2_range file 56) as Hphnum. fold elf_phnum in Hphnum.
  destruct (eo_size HE') as [Hsz Hend]. destruct (lk_apart _ _ HK) as [Hap _].
  assert (0 <= pool_needed (phdrs_from 0)) as HR by apply pool_needed_pos, HE'.
  unfold loadELF. pose proof (read_header s T HE' HK) as Hread. apply wp_bind_inv in Hread.
  apply wp_bind. eapply wp_mono; [exact Hread|]. cbv beta. intros ok s0 H0. apply wp_bind_inv in H0.
  apply wp_ok in H0 as ([] & s1 & E1 & -> & V1 & Hh & Hlit). cbn [negb].
  apply wp_bind. eapply wp_eq; [exact E1|].
  apply wp_bind. eapply wp_eq; [by apply magic_accepted|]. cbn [negb].
  apply wp_bind. eapply wp_eq; [apply on_ld|].
  rewrite load_1, (Hh 4), (eo_class HE') by lia. cbn [negb Z.eqb ELF_CLASS64 Pos.eqb].
  apply wp_bind. eapply wp_eq; [apply on_ld|].
  rewrite (load_copied 8 (mem s1) (header + 32) 32) by (intros k Hk; rewrite <- Z.add_assoc; apply Hh; lia).
  fold elf_phoff. apply wp_bind.
  eapply wp_mono; [apply (setFilePos_ok (pool_needed (phdrs_from 0)) s1 T elf_phoff); [apply V1|lia]|].
  intros b s2 (-> & V2 & M2 & P2). cbn [negb]. pose proof (moves_trans _ _ _ _ _ V1 V2) as V.
  assert (at_header s2 T 0 (phdrs_from 0) []) as HA.
  { split; [apply V|pose proof (mv_left _ _ _ _ V); pose proof (lk_tables _ _ HK); lia|
      apply (mv_entries _ _ _ _ V), HK| | |lia|].
    - intros a Ha Ho. by apply (lk_slots _ _ HK a Ha), (mv_owned _ _ _ _ V).
    - intros k Hk. rewrite M2. by apply Hh.
    - by intros ph []%elem_of_nil. }
  apply wp_bind. eapply wp_mono.
  { apply (load_loop Hap ltac:(lia) Hend (if kernel then MMAP_TYPE_KERNEL else MMAP_TYPE_ELF) (Z.to_nat elf_phnum) 0 s2 T [] fuel); try done; try lia; try apply HE'.
    by intros ph ph' v []%elem_of_nil. }
  cbv beta. intros [] s3 (T3 & done & HA3 & Hall).
  eapply wp_eq; [apply on_ld|]. split; [by rewrite (header_field _ _ _ _ _ 8 24 HA3)|].
  intros ph i Hph Hi. destruct (ah_done _ _ _ _ _ HA3 ph) as [ld Hld]; [apply Hall; by right|].
  apply (loaded_visible _ s3 T3 ph ld i (Z.le_refl 0)); [apply HA3| |done|done].
  by apply (proj1 (Forall_forall _ _) (eo_segments HE')).
Qed.
End load.

(** ** Witness *)

(** A program of one LOAD segment, readable and executable, at the kernel's address:
    16 bytes in the file and 16 zero bytes; and a header that is not LOAD. *)
Definition demo_file : gmap Z Z := Eval vm_compute in
  let f := write_bytes ∅ 0 (ELF_MAGIC ++ [ELF_CLASS64]) in
  let f := store 8 f 24 0xFFFFFFFF80000000 in
  let f := store 2 (store 8 f 32 64) 56 2 in
  let f := store 4 (store 4 f 64 PT_LOAD) 68 5 in
  let f := store 8 (store 8 f 72 176) 80 0xFFFFFFFF80000000 in
  let f := store 8 (store 8 f 96 16) 104 32 in
  write_bytes (store 4 f 120 2) 176 [0x55; 0x48; 0x89; 0xE5; 0xF4; 0xEB; 0xFD; 0; 0; 0; 0; 0; 0; 0; 0; 0xC3].

Definition demo_efi_file : EfiFile := {|
  setFilePos := λ pos, _ ← on_machine (gwrite g_bpp pos); mret true;
  getFilePos := on_machine (gread g_bpp);
  readFile := λ dst n, on_machine (λ m,
    let pos := globals m g_bpp in
    Ok tt (set_global g_bpp (pos + n)
      (set_memory (write_bytes (memory m) dst (bytes_at demo_file pos (Z.to_nat n))) m)))
|}.

Definition demo_efi : Efi := pool_efi [].
Definition demo_pool : @EfiPool demo_efi := pool_efi_pool [].
#[local] Existing Instances demo_efi demo_pool demo_efi_file.

Definition demo_laws : FileLaws.
Proof.
  refine (@Build_FileLaws demo_efi demo_pool demo_efi_file demo_file 192 _ _ _).
  - intros pos s Hpos. eexists. split; [reflexivity|]. by repeat split.
  - intros s. by destruct s.
  - intros dst n s pos Hn Hpos Hend. eexists. split; [reflexivity|]. split; [done|]. split; [by split|].
    intros a. cbn [memory set_global set_memory]. rewrite mbyte_write_bytes. unfold nthZ.
    case_decide as E; [|by rewrite decide_False by lia].
    destruct (decide (dst <= a < dst + n)) as [Hin|Hout].
    + rewrite bytes_at_lookup by lia. rewrite u8_id by apply mbyte_range. f_equal. unfold pos. cbn. lia.
    + by rewrite lookup_ge_None_2 by (rewrite length_bytes_at; lia).
Defined.

Lemma demo_slack : PoolSlack.
Proof.
  split. intros n s p t a Hn E Ha. injection E as <- _. cbn. lia.
Qed.

(** The literal at 0x100, an empty root table at 0x5000, 40 entries for allocations. *)
Definition demo_boot : boot :=
  Boot (set_global g_vbuffer 0x40000000 (set_memory (write_bytes ∅ 0x100 ELF_MAGIC) machine0))
    [] (replicate 40 empty_entry) 40 0 0 0x5000 0 0 0 0 0.
Definition demo_ph : ELF64ProgramHeader :=
  PHdr PT_LOAD 5 176 0xFFFFFFFF80000000 0 16 32 0.

#[local] Existing Instances demo_laws demo_slack.

Lemma demo_loads : loads (phdrs_from 0) = [demo_ph].
Proof. vm_compute. reflexivity. Qed.

Lemma demo_elf_ok : elf_ok.
Proof.
  split.
  - intros i x. do 4 (destruct i as [|i]; [intros [= <-]; vm_compute; reflexivity|]). done.
  - vm_compute. reflexivity.
  - split; vm_compute; congruence.
  - rewrite demo_loads. repeat constructor; vm_compute; congruence.
  - rewrite demo_loads. intros [|i] [|j] ph ph' v Hij Hi Hj; try done; by destruct i.
Qed.

Lemma demo_loader_ok : loader_ok 0x2000 0x2100 0x100 demo_boot {[0x5000 := 4%nat]}.
Proof.
  split.
  - split.
    + apply empty_tree; [done|done|]. intros i Hi. change 0 with (load 8 ∅ (0x5000 + 8 * i)).
      unfold entry. apply load_ext. intros a Ha. unfold mem. cbn [bt_machine demo_boot memory set_global set_memory].
      rewrite mbyte_write_bytes. unfold nthZ. case_decide; [|done].
      rewrite lookup_ge_None_2; [done|]. cbn [length ELF_MAGIC]. lia.
    + split; [done|vm_compute; repeat split; congruence|vm_compute; congruence|intros a Ha; exfalso; unfold demo_boot in Ha; cbn in Ha; lia|].
      intros t l [<- _]%lookup_singleton_Some. unfold demo_boot. split_and!; [done| |cbn; lia].
      intros a Ha Hf. change (0x40000000 <= a) in Hf. lia.
  - vm_compute. congruence.
  - vm_compute. repeat split; congruence.
  - intros a Ha. unfold slots in Ha. intros [Hf|[Hc|(t & l & [<- _]%lookup_singleton_Some & Hin)]].
    + change (0x40000000 <= a) in Hf. lia.
    + unfold demo_boot in Hc. cbn in Hc. lia.
    + lia.
  - intros i x. do 4 (destruct i as [|i]; [intros [= <-]; vm_compute; reflexivity|]). done.
  - lia.
Qed.

Lemma loadELF_loads_witness :
  wp (loadELF 5 0x2000 0x2100 0x100 true) (λ entry s', entry = 0xFFFFFFFF80000000 ∧
    (∃ frame, testPath (bt_pml s') 0xFFFFFFFF80000003 s' = Ok (0, boot_pte frame false true) s' ∧
       mbyte (mem s') (frame + 3) = 0xE5) ∧
    ∃ frame, testPath (bt_pml s') 0xFFFFFFFF80000014 s' = Ok (0, boot_pte frame false true) s' ∧
       mbyte (mem s') (frame + 0x14) = 0) demo_boot.
Proof.
  eapply wp_mono.
  { apply (loadELF_loads 5 0x2000 0x2100 0x100 true demo_boot {[0x5000 := 4%nat]} demo_elf_ok demo_loader_ok);
      vm_compute; lia. }
  cbv beta. rewrite demo_loads. intros entry s' [-> Hall]. split; [vm_compute; reflexivity|].
  split; [destruct (Hall demo_ph 3) as (frame & _ & _ & Ht & Hb)|destruct (Hall demo_ph 0x14) as (frame & _ & _ & Ht & Hb)];
    try apply list_elem_of_here; try (split; vm_compute; congruence); exists frame; by split.
Defined.
