(* ===== verification/Loader.v ===== *)
(** * The boot loader: file.c, gop.c, kload.c and polarboot.c

    The firmware's protocols are a parameter ([EfiProtocols]); statuses are
    numbers, [EFI_SUCCESS] is 0.  [efi_file] gives the ELF loader the file
    functions it is written against.  [kinf] is the record of Mmap.v that the
    kernel's [initMmap] takes. *)

From S2P Require Import Prelude Kmonad Mem Mmap BootMem BootElf.

(** What a graphics mode says of itself; [gm_blt_only] is PixelFormat == PixelBltOnly. *)
Record gop_mode := GopMode { gm_width : Z; gm_height : Z; gm_scanline : Z; gm_blt_only : bool }.

(** The functions and constants of the firmware and of sefi.h.  A call with an
    output argument gives the status and the output. *)
Class EfiProtocols := {
  EFI_BUFFER_TOO_SMALL : Z;
  EFI_FILE_SYSTEM : Z;
  EFI_FILE_MODE_READ : Z;
  EFI_FILE_READ_ONLY : Z;
  loadedImageProtocol : Z → M boot (Z * Z);              (* handleProtocol(handle, loaded image) *)
  simpleFileSystem : Z → M boot (Z * Z);                 (* handleProtocol(handle, file system) *)
  DeviceHandle : Z → M boot Z;
  OpenVolume : Z → M boot (Z * Z);
  Open : Z → Z → Z → Z → M boot (Z * Z);                 (* volume, name, mode, flags *)
  GetInfo : Z → Z → Z → M boot (Z * Z);                  (* file, size, buffer: status and size *)
  GetPosition : Z → M boot (Z * Z);
  SetPosition : Z → Z → M boot Z;
  Read : Z → Z → Z → M boot Z;                           (* file, bytes, destination *)
  Close : Z → M boot Z;
  FileSize : Z → M boot Z;                               (* of an EFI_FILE_INFO *)
  freePool : Z → M boot unit;
  graphicsOutput : M boot (Z * Z);                       (* locateProtocol *)
  sizeof_MODE_INFORMATION : Z;
  MaxMode : Z → M boot Z;
  QueryMode : Z → Z → M boot (Z * gop_mode);             (* the buffer of the mode and the mode *)
  FrameBuffer : Z → M boot (Z * Z);                      (* base and size *)
  ConfigurationTable : list (Z * Z);                     (* vendor GUID and table *)
  EFI_ACPI_TABLE_GUID : Z;
  mmapKey : M boot (option Z);                           (* the key of getMmap, None for NULL *)
  ExitBootServices : Z → Z → M boot Z
}.

Definition EFI_SUCCESS : Z := 0.
(** [!EFI_SUCCESS] *)
Definition not_EFI_SUCCESS : Z := 1.

Record EFIFile := MkEFIFile {
  ef_name : Z; ef_image : Z; ef_Volume : Z; ef_File : Z; ef_Info : Z;
  ef_mode : Z; ef_flags : Z; ef_ldImg : Z; ef_io : Z
}.
(** A file structure after [clearMem]. *)
Definition no_file : EFIFile := MkEFIFile 0 0 0 0 0 0 0 0 0.

Section file.
Context {HP : Efi} {EP : EfiProtocols}.
Implicit Types f : EFIFile.

(** ** file.c: each function returns the status and the updated structure *)

Definition openVolume f (IH : Z) : M boot (Z * EFIFile) :=
'(status, ld) ← loadedImageProtocol IH;
let f := MkEFIFile (ef_name f) IH (ef_Volume f) (ef_File f) (ef_Info f) (ef_mode f) (ef_flags f) ld (ef_io f) in
if negb (status =? EFI_SUCCESS) then mret (status, f)
else
  dev ← DeviceHandle ld;
  '(status, io) ← simpleFileSystem dev;
  let f := MkEFIFile (ef_name f) IH (ef_Volume f) (ef_File f) (ef_Info f) (ef_mode f) (ef_flags f) ld io in
  if negb (status =? EFI_SUCCESS) then mret (status, f)
  else
    '(status, v) ← OpenVolume io;
    mret (status, MkEFIFile (ef_name f) IH v (ef_File f) (ef_Info f) (ef_mode f) (ef_flags f) ld io).

Definition set_info (i : Z) f : EFIFile :=
MkEFIFile (ef_name f) (ef_image f) (ef_Volume f) (ef_File f) i (ef_mode f) (ef_flags f) (ef_ldImg f) (ef_io f).

Definition getFileInfo f : M boot (Z * EFIFile) :=
'(status, sz) ← GetInfo (ef_File f) 0 0;
if negb (status =? EFI_BUFFER_TOO_SMALL) then mret (status, f)
else
  i ← on_machine (allocPool sz);
  let f := set_info i f in
  '(status, _) ← GetInfo (ef_File f) sz i;
  if negb (status =? EFI_SUCCESS) then _ ← freePool (ef_Info f); mret (status, f)
  else mret (EFI_SUCCESS, f).

Definition getFilePos_ f : M boot Z := '(_, pos) ← GetPosition (ef_File f); mret pos.
Definition setFilePos_ f (pos : Z) : M boot Z := SetPosition (ef_File f) pos.

(** [mode] and [flags] are kept in the structure with a bit that [Open] does not get. *)
Definition openFile f (name mode flags : Z) : M boot (Z * EFIFile) :=
'(status, h) ← Open (ef_Volume f) name mode flags;
let f := MkEFIFile name (ef_image f) (ef_Volume f) h (ef_Info f) mode (Z.lor flags EFI_FILE_SYSTEM)
  (ef_ldImg f) (ef_io f) in
mret (if status =? EFI_SUCCESS then EFI_SUCCESS else not_EFI_SUCCESS, f).

Definition readFile_ f (dest bytes : Z) : M boot Z := Read (ef_File f) bytes dest.

(** The freed information stays in the structure. *)
Definition closeFile f : M boot Z :=
_ ← (if negb (ef_Info f =? 0) then freePool (ef_Info f) else mret tt);
Close (ef_File f).

Definition closeVolume f : M boot Z := Close (ef_Volume f).

(** The interface of the ELF loader, for an open file. *)
Definition efi_file f : EfiFile := {|
setFilePos := λ pos, status ← setFilePos_ f pos; mret (status =? EFI_SUCCESS);
getFilePos := getFilePos_ f;
readFile := λ dest bytes, _ ← readFile_ f dest bytes; mret tt
|}.
End file.

(** ** The loader's state: memory, [kinf] and the page table register *)

Record loader := LoaderState { ls_boot : boot; ls_kinf : bootInfo; ls_cr3 : Z }.
Definition set_boot (b : boot) (s : loader) : loader := LoaderState b (ls_kinf s) (ls_cr3 s).
Definition set_kinf (k : bootInfo) (s : loader) : loader := LoaderState (ls_boot s) k (ls_cr3 s).
(** mem.c: from here on addresses go through the loader's page tables. *)
Definition setCR3 : M loader unit :=
  modify (λ s, LoaderState (ls_boot s) (ls_kinf s) (bt_pml (ls_boot s))).
Definition on_boot {A} (m : M boot A) : M loader A := zoom ls_boot set_boot m.
Definition with_kinf (f : bootInfo → bootInfo) : M loader unit := modify (λ s, set_kinf (f (ls_kinf s)) s).

Definition no_kinf : bootInfo :=
  BootInfo 0 (GopInfo 0 0 0 0 0 0 0 0 0) (MemInfo None 0 None 0 0 0) 0 0 0 0.
Definition BOOTINFO_MAGIC : Z := 0x424F4F54494E464F.

Definition kinf_magic (k : bootInfo) : bootInfo :=
  BootInfo BOOTINFO_MAGIC (bi_ui k) (bi_mem k) (bi_rdptr k) (bi_rdsz k) (bi_acpiptr k) (bi_devtree k).
Definition kinf_ui (u : gopInfo) (k : bootInfo) : bootInfo :=
  BootInfo (bi_magic k) u (bi_mem k) (bi_rdptr k) (bi_rdsz k) (bi_acpiptr k) (bi_devtree k).
Definition kinf_mem (m : memInfo) (k : bootInfo) : bootInfo :=
  BootInfo (bi_magic k) (bi_ui k) m (bi_rdptr k) (bi_rdsz k) (bi_acpiptr k) (bi_devtree k).
Definition kinf_rd (p z : Z) (k : bootInfo) : bootInfo :=
  BootInfo (bi_magic k) (bi_ui k) (bi_mem k) p z (bi_acpiptr k) (bi_devtree k).
Definition kinf_acpi (a : Z) (k : bootInfo) : bootInfo :=
  BootInfo (bi_magic k) (bi_ui k) (bi_mem k) (bi_rdptr k) (bi_rdsz k) a (bi_devtree k).
Definition mem_sym (p z : Z) (m : memInfo) : memInfo :=
  MemInfo (mi_ptr m) (mi_entries m) (mi_aptr m) (mi_aentries m) p z.

Section loader.
Context {HP : Efi} {EP : EfiProtocols}.

(** ** gop.c *)

(** The loop over the modes from [i] on, with the best so far; [bestWidth] and
  [bestHeight] are never set. *)
Fixpoint best_mode (n : nat) (gop i best : Z) : M boot Z :=
match n with
| O => mret best
| S n' =>
    '(_, m) ← QueryMode gop i;
    if gm_blt_only m then mret best
    else if (gm_width m >=? 0) && (gm_height m >=? 0) then best_mode n' gop (i + 1) i
    else best_mode n' gop (i + 1) best
end.

Definition initGOP : M loader Z :=
'(status, gop) ← on_boot graphicsOutput;
if negb (status =? EFI_SUCCESS) then mret status
else
  _ ← on_boot (allocMem_int sizeof_MODE_INFORMATION 0 0 true false false);
  mx ← on_boot (MaxMode gop);
  bestMode ← on_boot (best_mode (Z.to_nat mx) gop 0 0);
  '(mode, m) ← on_boot (QueryMode gop bestMode);
  '(base, size) ← on_boot (FrameBuffer gop);
  _ ← with_kinf (kinf_ui (GopInfo (gm_width m) (gm_height m) (gm_scanline m)
        0xFFFFFF 0xFFFFFF 0xFFFFFF 0 size base));
  _ ← on_boot (freePool mode);
  mret EFI_SUCCESS.
End loader.

(** ** kload.c *)

Section kload.
Context {HP : Efi} {EP : EfiProtocols}.
(** The stack slots and the literal of loadELF, and the addresses of the names. *)
Variables (fuel : nat) (header prog magic_literal : Z).
Variables (name_kernel name_ramdisk name_symbols : Z).

(** Open a file and read its information: [None] when either fails. *)
Definition open_with_info (fl : EFIFile) (name : Z) : M loader (EFIFile * bool) :=
'(status, fl) ← on_boot (openFile fl name EFI_FILE_MODE_READ EFI_FILE_READ_ONLY);
if negb (status =? EFI_SUCCESS) then mret (fl, false)
else
  '(status, fl) ← on_boot (getFileInfo fl);
  mret (fl, status =? EFI_SUCCESS).

(** Read the whole file into new memory: its address, and whether that worked. *)
Definition load_file_image (fl : EFIFile) (align : bool) : M loader (Z * bool) :=
sz ← on_boot (FileSize (ef_Info fl));
buff ← on_boot (allocMem_int (u64 (sz + PAGE_SZ)) 0 MMAP_TYPE_OTHER false align false);
sz ← on_boot (FileSize (ef_Info fl));
status ← on_boot (readFile_ fl buff sz);
mret (buff, status =? EFI_SUCCESS).

(** From the label [exit] on. *)
Definition load_exit (fl : EFIFile) (entry : Z) : M loader Z :=
_ ← on_boot (closeVolume fl); mret entry.

Definition bootstrapKernel (handle : Z) : M loader Z :=
'(status, fl) ← on_boot (openVolume no_file handle);
if negb (status =? EFI_SUCCESS) then mret 0 else
'(fl, ok) ← open_with_info fl name_kernel;
if negb ok then mret 0 else
entry ← on_boot (@loadELF HP (efi_file fl) fuel header prog magic_literal true);
if entry =? 0 then mret 0 else
_ ← on_boot (closeFile fl);
'(fl, ok) ← open_with_info fl name_ramdisk;
if negb ok then load_exit fl entry else
'(buff, ok) ← load_file_image fl true;
if negb ok then load_exit fl entry else
sz ← on_boot (FileSize (ef_Info fl));
_ ← with_kinf (kinf_rd buff sz);
_ ← on_boot (closeFile fl);
'(fl, ok) ← open_with_info fl name_symbols;
if negb ok then mret 0 else
'(buff, ok) ← load_file_image fl false;
if negb ok then load_exit fl entry else
sz ← on_boot (FileSize (ef_Info fl));
_ ← with_kinf (λ k, kinf_mem (mem_sym buff sz (bi_mem k)) k);
load_exit fl entry.

(** ** polarboot.c *)

Fixpoint find_table (guid : Z) (l : list (Z * Z)) : Z :=
match l with
| [] => 0
| (g, t) :: l' => if guid =? g then t else find_table guid l'
end.
Definition getXSDT : Z := find_table EFI_ACPI_TABLE_GUID ConfigurationTable.

(** What [initMMAP] writes to [kinf.mem]. *)
Definition publish_map : M loader unit :=
s ← get;
let b := ls_boot s in
with_kinf (λ k, kinf_mem (MemInfo (Some (bt_kmmap b)) (bt_entries b) (Some (bt_allocMap b)) (bt_aentries b)
  (mi_symptr (bi_mem k)) (mi_symsz (bi_mem k))) k).

(** [efi_main] behind [bootstrapKernel], to the jump: the entry point and the
  pointer to [kinf] the kernel gets, or the status returned to the firmware.  The
  label [failure] is an endless loop.  [rbp] is the frame pointer, [kinf_addr] the
  address of [kinf]. *)
Definition hand_over (rbp kinf_addr ImageHandle entry : Z) : M loader (Z * Z + Z) :=
_ ← with_kinf (kinf_acpi getXSDT);
_ ← on_boot (boot_mapPage rbp rbp true false);
_ ← on_boot (boot_mapPage (KALIGN kinf_addr) (KALIGN kinf_addr) true false);
_ ← with_kinf kinf_magic;
ok ← on_boot initMMAP;
if negb ok then fail Halt else
_ ← publish_map;
key ← on_boot mmapKey;
match key with
| None => fail Halt
| Some key =>
    status ← on_boot (ExitBootServices ImageHandle key);
    if negb (status =? EFI_SUCCESS) then mret (inr not_EFI_SUCCESS)
    else
      _ ← with_kinf kinf_magic;
      _ ← setCR3;
      mret (inl (entry, kinf_addr))
end.

Definition efi_main (rbp kinf_addr ImageHandle : Z) : M loader (Z * Z + Z) :=
_ ← with_kinf (λ _, no_kinf);
_ ← on_boot boot_initMem;
_ ← initGOP;
entry ← bootstrapKernel ImageHandle;
if entry =? 0 then fail Halt else hand_over rbp kinf_addr ImageHandle entry.
End kload.

(** ** The hand-over *)

(** [P] of every result the computation returns. *)
Definition returns {S A} (m : M S A) (P : A → S → Prop) (s : S) : Prop :=
  match m s with Ok a s' => P a s' | Fault _ => True end.

Section returns.
Context {S : Type}.
Implicit Types s : S.

Lemma returns_bind {A B} (m : M S A) (f : A → M S B) P s :
returns m (λ a, returns (f a) P) s → returns (m ≫= f) P s.
Proof. unfold returns, mbind, M_bind. by destruct (m s). Qed.
Lemma returns_true {A} (m : M S A) s : returns m (λ _ _, True) s.
Proof. unfold returns. by destruct (m s). Qed.
Lemma returns_mono {A} (m : M S A) (P Q : A → S → Prop) s :
returns m P s → (∀ a s', P a s' → Q a s') → returns m Q s.
Proof. unfold returns. destruct (m s); naive_solver. Qed.
End returns.

(** A computation on the memory of the loader leaves [kinf] alone. *)
Lemma returns_on_boot {A} (m : M boot A) (s : loader) :
  returns (on_boot m) (λ a s', ls_kinf s' = ls_kinf s ∧ m (ls_boot s) = Ok a (ls_boot s')) s.
Proof. unfold returns, on_boot, zoom. by destruct (m (ls_boot s)). Qed.

Section handover.
Context {HP : Efi} {EP : EfiProtocols}.
Variables (fuel : nat) (header prog magic_literal name_kernel name_ramdisk name_symbols : Z).

(** [kinf] as the kernel may rely on it: the magic number, the table the firmware
  lists for ACPI and a map made by [initMMAP]. *)
Definition kinf_ready (k : bootInfo) : Prop :=
bi_magic k = BOOTINFO_MAGIC ∧ bi_acpiptr k = getXSDT ∧
∃ b0 b, initMMAP b0 = Ok true b ∧
  mi_ptr (bi_mem k) = Some (bt_kmmap b) ∧ mi_entries (bi_mem k) = bt_entries b ∧
  mi_aptr (bi_mem k) = Some (bt_allocMap b) ∧ mi_aentries (bi_mem k) = bt_aentries b.

Lemma returns_on_boot_bind {A B} (m : M boot A) (f : A → M loader B) P s :
(∀ a s', ls_kinf s' = ls_kinf s → m (ls_boot s) = Ok a (ls_boot s') → returns (f a) P s') →
returns (on_boot m ≫= f) P s.
Proof.
intros H. apply returns_bind. eapply returns_mono; [apply returns_on_boot|]. intros a s' [Hk Hm]. by apply H.
Qed.

(** [efi_main] jumps to the kernel only with an entry point, after the memory
  map has been made, with [kinf] filled in and the loader's page tables in use:
  the assertion [kmain] starts with, on the magic number, holds. *)
Theorem efi_main_hands_over rbp kinf_addr ImageHandle s :
returns (efi_main fuel header prog magic_literal name_kernel name_ramdisk name_symbols rbp kinf_addr ImageHandle)
  (λ r s', match r with
     | inl (entry, ptr) => entry ≠ 0 ∧ ptr = kinf_addr ∧ ls_cr3 s' = bt_pml (ls_boot s') ∧ kinf_ready (ls_kinf s')
     | inr status => status ≠ EFI_SUCCESS end) s.
Proof.
unfold efi_main, hand_over. apply returns_bind. cbn [returns with_kinf modify].
apply returns_on_boot_bind. intros _ s1 _ _.
apply returns_bind. eapply returns_mono; [apply returns_true|]. intros _ s2 _.
apply returns_bind. eapply returns_mono; [apply returns_true|]. intros entry s3 _.
destruct (Z.eqb_spec entry 0) as [|Hentry]; [done|].
apply returns_bind. unfold with_kinf at 1, modify, returns at 1.
apply returns_on_boot_bind. intros _ s4 K4 _. apply returns_on_boot_bind. intros _ s5 K5 _.
apply returns_bind. unfold with_kinf at 1, modify, returns at 1.
apply returns_on_boot_bind. intros ok s6 K6 Emap.
destruct ok; cbn [negb]; [|done].
apply returns_bind. unfold publish_map. unfold returns at 1. run. cbv [get with_kinf modify].
apply returns_on_boot_bind. intros [key|] s7 K7 _; [|done].
apply returns_on_boot_bind. intros status s8 K8 _.
destruct (negb (status =? EFI_SUCCESS)); [done|].
unfold returns. run. cbv [with_kinf setCR3 modify get]. cbn [ls_kinf set_kinf ls_boot ls_cr3] in *.
rewrite K8, K7, K6, K5, K4. split; [done|]. split; [done|]. split; [done|]. split; [done|]. split; [done|].
by eexists _, _.
Qed.
End handover.

(** ** A firmware that boots *)

(** Files are named 1 to 3; file 1 is an ELF header without segments whose entry
    is 0x100000. *)
Definition elf_image : list Z :=
  [127; 69; 76; 70; 2] ++ replicate 19 0 ++ [0; 0; 0x10; 0; 0; 0; 0; 0] ++ replicate 32 0.
Definition small_firmware : EfiProtocols := {|
  EFI_BUFFER_TOO_SMALL := 5; EFI_FILE_SYSTEM := 4; EFI_FILE_MODE_READ := 1; EFI_FILE_READ_ONLY := 1;
  loadedImageProtocol := λ _, mret (0, 0x10); simpleFileSystem := λ _, mret (0, 0x20);
  DeviceHandle := λ _, mret 0x30; OpenVolume := λ _, mret (0, 0x40);
  Open := λ _ name _ _, mret (0, name); GetInfo := λ _ sz _, mret (if sz =? 0 then 5 else 0, 80);
  GetPosition := λ _, mret (0, 0); SetPosition := λ _ _, mret 0;
  Read := λ f bytes dest, if f =? 1
    then _ ← on_machine (λ s, Ok tt (set_memory (write_bytes (memory s) dest elf_image) s)); mret 0
    else mret 0;
  Close := λ _, mret 0; FileSize := λ _, mret 0x2000; freePool := λ _, mret tt;
  graphicsOutput := mret (0, 0x50); sizeof_MODE_INFORMATION := 36; MaxMode := λ _, mret 2;
  QueryMode := λ _ i, mret (0x60, GopMode (if i =? 0 then 1920 else 640) 480 640 false);
  FrameBuffer := λ _, mret (0xE0000000, 0x12C000);
  ConfigurationTable := [(7, 0x70); (8, 0xE0000)]; EFI_ACPI_TABLE_GUID := 8;
  mmapKey := mret (Some 1); ExitBootServices := λ _ _, mret 0
|}.

Definition loader0 : loader :=
  LoaderState (set_machine (set_memory (write_bytes ∅ 0x900 ELF_MAGIC) machine0) boot0) no_kinf 0.

(** The kernel is entered at the entry point of its file. *)
Example efi_main_boots :
  match @efi_main small_efi small_firmware 100 0x1000 0x1100 0x900 1 2 3 0x8000 0x9000 5 loader0 with
  | Ok (inl (entry, ptr)) s => let k := ls_kinf s in
      entry = 0x100000 ∧ ptr = 0x9000 ∧ ls_cr3 s = bt_pml (ls_boot s) ∧ bi_magic k = BOOTINFO_MAGIC ∧ bi_acpiptr k = 0xE0000 ∧
      gop_Xres (bi_ui k) = 640 ∧ mi_entries (bi_mem k) = 2 ∧ bi_rdsz k = 0x2000 ∧ mi_symsz (bi_mem k) = 0x2000
  | _ => False
  end.
Proof. vm_compute. tauto. Qed.
