(* ===== verification/HandOver.v ===== *)
(** * The page tables at the jump to the kernel

    From [bootstrapKernel] on [efi_main] (src/Bootloader/x86_64/polarboot.c) maps its
    stack and [kinf], makes the memory map, leaves the boot services and loads CR3.
    Shown here, on the tables of BootPaging.v: what every address translates to when
    the kernel is entered. *)

From S2P Require Import Prelude Kmonad Mem Mmap Paging PagingProps BootMem PageTrees BootPaging ElfLoad Loader.

(** ** Steps that change only the entries of [kmmap] *)

Section map_steps.
Context {HE : Efi}.

Definition map_step (s s' : boot) : Prop := ∃ l, s' = set_kmmap l s ∧ length l = length (bt_kmmap s).

Lemma map_step_refl s : map_step s s.
Proof. exists (bt_kmmap s). by destruct s. Qed.
Lemma map_step_trans s1 s2 s3 : map_step s1 s2 → map_step s2 s3 → map_step s1 s3.
Proof. intros (l & -> & El) (l' & -> & El'). exists l'. split; [done|]. cbn in El'. congruence. Qed.
Lemma map_step_length s s' : map_step s s' → length (bt_kmmap s') = length (bt_kmmap s).
Proof. by intros (l & -> & El). Qed.

(** An index of the array. *)
Definition slot_of (s : boot) (i : Z) : Prop := 0 <= i < Z.of_nat (length (bt_kmmap s)).
Lemma slot_step s s' i : map_step s s' → slot_of s i → slot_of s' i.
Proof. unfold slot_of. intros H%map_step_length. by rewrite H. Qed.

Lemma wp_kmmap_get i s (Q : mmapEntry → boot → Prop) : slot_of s i → (∀ e, Q e s) → wp (kmmap_get i) Q s.
Proof.
intros Hi HQ. destruct (nthZ_is_Some _ _ Hi) as [e He]. eapply wp_eq; [by apply kmmap_get_ok|]. apply HQ.
Qed.
Lemma wp_kmmap_set i e s (Q : unit → boot → Prop) :
slot_of s i → (∀ s', map_step s s' → Q tt s') → wp (kmmap_set i e) Q s.
Proof.
intros Hi HQ. destruct (nthZ_is_Some _ _ Hi) as [e0 He]. eapply wp_eq; [by eapply kmmap_set_ok|].
apply HQ. eexists. split; [done|]. apply length_updZ.
Qed.

Lemma wp_step s1 s2 {A} (m : M boot A) : map_step s1 s2 →
wp m (λ _ s', map_step s2 s') s2 → wp m (λ _ s', map_step s1 s') s2.
Proof. intros H Hm. eapply wp_mono; [exact Hm|]. intros ? s' H'. by eapply map_step_trans. Qed.

Ltac get_slot := apply wp_bind, wp_kmmap_get; [done|intros ?].
Ltac set_slot := apply wp_bind, wp_kmmap_set; [done|intros ? ?].

Lemma merge_search_steps n z mp d s :
0 <= z → z + Z.of_nat n <= Z.of_nat (length (bt_kmmap s)) → slot_of s mp →
wp (merge_search n z mp d) (λ _ s', map_step s s') s.
Proof.
intros Hz. revert z Hz. induction n as [|n IH]; intros z Hz Hn Hmp; [apply wp_ret, map_step_refl|].
cbn [merge_search]. assert (slot_of s z) by (unfold slot_of; lia). get_slot.
destruct (desc_touches _ d); [|apply IH; (done || lia)]. get_slot. set_slot. by apply wp_ret.
Qed.

Lemma merge_loop_steps n z mp c s :
0 <= z → z + Z.of_nat n <= Z.of_nat (length (bt_kmmap s)) → slot_of s mp → slot_of s c →
wp (kmmap_merge_loop n z mp c) (λ _ s', map_step s s') s.
Proof.
revert z. induction n as [|n IH]; intros z Hz Hn Hmp Hc; [apply wp_ret, map_step_refl|].
cbn [kmmap_merge_loop]. assert (slot_of s z) as Hs by (unfold slot_of; lia).
destruct (z =? c); [apply IH; (done || lia)|]. get_slot. get_slot.
destruct (negb _); [apply IH; (done || lia)|]. destruct (entries_touch _ _); [|apply IH; (done || lia)].
get_slot. apply wp_bind, wp_kmmap_set; [done|]. intros s1 H1. apply (wp_step _ _ _ H1).
pose proof (slot_step _ _ _ H1 Hs). pose proof (slot_step _ _ _ H1 Hc).
get_slot. apply wp_bind, wp_kmmap_set; [done|]. intros s2 H2. apply (wp_step _ _ _ H2).
assert (slot_of s2 z) by by eapply slot_step. assert (slot_of s2 c) by by eapply slot_step.
get_slot. get_slot. by apply wp_kmmap_set.
Qed.

Lemma mergeKmmapEntry_steps mp c s : slot_of s mp → slot_of s c →
wp (mergeKmmapEntry mp c) (λ _ s', map_step s s') s.
Proof.
intros Hmp Hc. unfold mergeKmmapEntry. get_slot. destruct (_ =? _); [apply wp_ret, map_step_refl|].
apply merge_loop_steps; [done|unfold slot_of in Hmp; lia|done|done].
Qed.

Lemma merge_all_steps mp s : slot_of s mp →
wp (for_range 0 mp (λ c, mergeKmmapEntry mp c)) (λ _ s', map_step s s') s.
Proof.
intros Hmp. apply (wp_for_range (λ _ s', map_step s s')); [apply Hmp| |done|apply map_step_refl].
intros i s1 Hi H1. apply (wp_step _ _ _ H1). unfold slot_of in Hmp.
apply mergeKmmapEntry_steps; eapply slot_step; try exact H1; unfold slot_of; lia.
Qed.

Lemma writeKmmapEntry_steps mp d s : slot_of s mp → wp (writeKmmapEntry mp d) (λ _ s', map_step s s') s.
Proof. intros Hmp. unfold writeKmmapEntry. get_slot. by apply wp_kmmap_set. Qed.

(** ** Steps that leave the map alone *)

(** Every result of the computation leaves [kmmap] and the count of allocations alone. *)
Definition spares_map {A} (m : M boot A) : Prop := ∀ s,
match m s with Ok _ s' => bt_kmmap s' = bt_kmmap s ∧ bt_allocEntries s' = bt_allocEntries s | Fault _ => True end.

Lemma spares_map_ret {A} (a : A) : spares_map (mret a).
Proof. by intros s. Qed.
Lemma spares_map_bind {A B} (m : M boot A) (f : A → M boot B) :
spares_map m → (∀ a, spares_map (f a)) → spares_map (m ≫= f).
Proof.
intros Hm Hf s. specialize (Hm s). unfold mbind, M_bind. destruct (m s) as [a s1|]; [|done].
specialize (Hf a s1). destruct (f a s1); [|done]. intuition congruence.
Qed.
Lemma spares_map_get : spares_map get.
Proof. by intros s. Qed.
Lemma spares_map_machine {A} (m : M machine A) : spares_map (on_machine m).
Proof. intros s. unfold on_machine, zoom. by destruct (m (bt_machine s)). Qed.
Lemma spares_map_bump b p z : spares_map (modify (set_bump b p z)).
Proof. by intros s. Qed.
Lemma spares_map_when b m : spares_map m → spares_map (when b m).
Proof. by destruct b. Qed.
Lemma spares_map_for n i body : (∀ j, spares_map (body j)) → spares_map (for_from n i body).
Proof.
intros Hb. revert i. induction n as [|n IH]; intros i; [apply spares_map_ret|].
apply spares_map_bind; [apply Hb|intros; apply IH].
Qed.

Ltac spares := repeat first
  [ apply spares_map_ret | apply spares_map_get | apply spares_map_machine
  | apply spares_map_when | apply spares_map_for; intros ?
  | progress cbv zeta | apply spares_map_bind; [|intros ?] | apply spares_map_bump | case_match ].

Lemma spares_map_pgAlloc : spares_map pgAlloc.
Proof. unfold pgAlloc. spares. Qed.
Lemma spares_map_mapPage phys virt w x : spares_map (boot_mapPage phys virt w x).
Proof. unfold boot_mapPage, boot_table, boot_or. spares; apply spares_map_pgAlloc. Qed.
Lemma spares_map_mapPages phys virt n w x : spares_map (boot_mapPages phys virt n w x).
Proof.
apply spares_map_for. intros j. apply spares_map_mapPage.
Qed.
Lemma spares_map_loader d : spares_map (map_loader d).
Proof. unfold map_loader. spares; apply spares_map_mapPages. Qed.

Lemma wp_spares {A} (m : M boot A) Q s : spares_map m → wp m Q s →
wp m (λ a s', Q a s' ∧ bt_kmmap s' = bt_kmmap s ∧ bt_allocEntries s' = bt_allocEntries s) s.
Proof. intros Hm HQ. specialize (Hm s). unfold wp in *. by destruct (m s). Qed.
End map_steps.

(** ** What mapping leaves behind *)

(** The entry of a page that is mapped to itself. *)
Definition own_entry (e v : Z) : Prop := ∃ w x, e = boot_pte (0x1000 * page_of v) w x.

(** The pages of the loader's own code and data, which [initMMAP] maps. *)
Definition loader_type (t : efi_type) : Prop := t = EfiLoaderCode ∨ t = EfiLoaderData.
#[export] Instance loader_type_dec t : Decision (loader_type t).
Proof. unfold loader_type. apply _. Defined.
Definition loader_page (ds : list EFI_MEMORY_DESCRIPTOR) (v : Z) : Prop :=
  Exists (λ d, loader_type (Type_ d) ∧ in_pages (PhysicalStart d) (desc_pages d) v) ds.
(** The tables these need at most. *)
Definition loader_tables (d : EFI_MEMORY_DESCRIPTOR) : Z :=
  if decide (loader_type (Type_ d)) then tables_in (PhysicalStart d) (desc_pages d) else 0.
Definition loader_need (ds : list EFI_MEMORY_DESCRIPTOR) : Z := foldr Z.add 0 (loader_tables <$> ds).

(** From [s] with the reserve [R] to [s'] with the reserve [R']: the tables are still a
    tree, every page is mapped as before or is one of [X] and mapped to itself, and
    at most [k] new tables were made. *)
Record prepared `{EfiPool} (R : Z) (s : boot) (T : gmap Z nat) (X : Z → Prop) (k R' : Z) (s' : boot) : Prop := {
  pr_built : ∃ T', built R' s' T' ∅ ∧ keeps_mem s T s' T';
  pr_pml : bt_pml s' = bt_pml s;
  pr_map v : page_map s' v = page_map s v ∨ X v ∧ own_entry (page_map s' v) v;
  pr_left : tables_left R s - k <= tables_left R' s'
}.

Section prepared.
Context {HE : Efi} {HP : EfiPool}.

Lemma prepared_refl R s T X : built R s T ∅ → prepared R s T X 0 R s.
Proof. intros HB. split; [exists T; split; [done|apply keeps_mem_refl]|done|by left|lia]. Qed.

(** Two steps in a row, the second from whatever tables the first leaves. *)
Lemma prepared_bind {A B} (m : M boot A) (f : A → M boot B) R R1 R2 s T (X Y Z : Z → Prop) k j n
  (P : A → boot → Prop) (Q : B → boot → Prop) :
wp m (λ a s1, prepared R s T X k R1 s1 ∧ P a s1) s →
(∀ a s1 T1, P a s1 → built R1 s1 T1 ∅ → tables_left R s - k <= tables_left R1 s1 →
  wp (f a) (λ b s2, prepared R1 s1 T1 Y j R2 s2 ∧ Q b s2) s1) →
(∀ v, X v ∨ Y v → Z v) → k + j <= n →
wp (m ≫= f) (λ b s2, prepared R s T Z n R2 s2 ∧ Q b s2) s.
Proof.
intros Hm Hf HZ Hn. apply wp_bind. eapply wp_mono; [exact Hm|]. cbv beta. intros a s1 [[(T1 & B1 & K1) P1 M1 L1] HP1].
eapply wp_mono; [by apply (Hf a s1 T1)|]. cbv beta. intros b s2 [[(T2 & B2 & K2) P2 M2 L2] HQ]. split; [|done]. split.
- exists T2. split; [done|by eapply keeps_mem_trans].
- congruence.
- intros v. destruct (M2 v) as [->|[]]; [|right; auto]. destruct (M1 v) as [->|[]]; [by left|right; auto].
- lia.
Qed.

(** The arrays and counts do not matter. *)
Lemma arrays_prepared R s T X s' : built R s T ∅ →
(bt_machine s', bt_pml s', bt_bumpBase s', bt_bumpPtr s', bt_bumpSize s') =
(bt_machine s, bt_pml s, bt_bumpBase s, bt_bumpPtr s, bt_bumpSize s) → prepared R s T X 0 R s'.
Proof.
intros [HT [A1 A2 A3 A4 A5]] [= E1 E2 E3 E4 E5].
split; [exists T; split|done|intros v; left; unfold page_map, mem; by rewrite E1, E2|unfold tables_left; rewrite E1, E4, E5; lia].
- split; [unfold mem; by rewrite E1, E2|]. split; rewrite ?E1, ?E3, ?E4, ?E5; done.
- split; [intros a; unfold owned; by rewrite E1, E3, E4, E5|unfold mem; by rewrite E1].
Qed.

(** A step that maps nothing. *)
Lemma step_prepared {A} (m : M boot A) R s T X : built R s T ∅ →
wp m (λ _ s', map_step s s') s → wp m (λ _ s', prepared R s T X 0 R s' ∧ map_step s s') s.
Proof.
intros HB Hm. eapply wp_mono; [exact Hm|]. cbv beta. intros _ s' H. split; [|done]. destruct H as (l & -> & _). by apply arrays_prepared.
Qed.

Section mapping.
Variable R : Z.
Hypothesis HR : 0 <= R.

Lemma mapped_prepared s s' T (X : Z → Prop) k :
mapped R s s' T → tables_left R s - k <= tables_left R s' →
(∀ v, page_map s' v = page_map s v ∨ X v ∧ own_entry (page_map s' v) v) → prepared R s T X k R s'.
Proof. intros [(T' & B & _ & K) _ P] L M. split; [exists T'; split; [done|by apply keeps_weaken]|done|done|done]. Qed.

(** One page mapped to itself. *)
Lemma map_self s T v : built R s T ∅ → 0 <= v < 2 ^ 48 → 3 <= tables_left R s →
wp (boot_mapPage v v true false) (λ _ s', prepared R s T (λ u, page_of u = page_of v) 3 R s' ∧
  ∀ u, page_of u = page_of v → own_entry (page_map s' u) u) s.
Proof.
intros HB Hv Hl. pose proof (missing_bound (mem s) (bt_pml s) 4 v).
eapply wp_mono; [apply (boot_mapPage_ok R HR s T); (done || lia)|]. cbv beta. intros _ s' (M & L & _ & K).
assert (∀ u, page_of u = page_of v → own_entry (page_map s' u) u) as Hown.
{ intros u Hu. exists true, false. by rewrite K, decide_True, Hu, boot_pte_page by done. }
split; [|done]. apply mapped_prepared; [done|lia|]. intros u. rewrite K.
case_decide as E; [right|by left]. split; [done|]. rewrite <- (boot_pte_page v), <- E by done. by eexists _, _.
Qed.

(** A descriptor mapped to itself. *)
Lemma map_desc_self s T d w x : built R s T ∅ → desc_fits d → tables_in (PhysicalStart d) (desc_pages d) <= tables_left R s →
wp (boot_mapPages (PhysicalStart d) (PhysicalStart d) (DESC_SZ d / PAGE_SZ) w x) (λ _ s',
  prepared R s T (in_pages (PhysicalStart d) (desc_pages d)) (tables_in (PhysicalStart d) (desc_pages d)) R s') s.
Proof.
intros HB (D1 & D2 & D3) Hroom. pose proof (desc_pages_pos d).
assert (range_ok (PhysicalStart d) (desc_pages d)) as Hrange.
{ unfold range_ok. rewrite (Z.mod_small (PhysicalStart d) (2 ^ 48)) by lia. lia. }
eapply wp_mono; [apply (boot_mapPages_ok R HR s T); fold (desc_pages d); (done || lia)|].
cbv beta. fold (desc_pages d). intros _ s' (M & L & K). apply mapped_prepared; [done|exact L|].
intros v. rewrite K. case_decide; [right|by left]. split; [done|]. exists w, x. f_equal.
assert (page_of (PhysicalStart d) = PhysicalStart d / 0x1000) as -> by (unfold page_of; zlia). zlia.
Qed.

Lemma loader_tables_yes d : loader_type (Type_ d) → loader_tables d = tables_in (PhysicalStart d) (desc_pages d).
Proof. intros H. unfold loader_tables. by rewrite decide_True. Qed.
Lemma loader_tables_no d : ¬ loader_type (Type_ d) → loader_tables d = 0.
Proof. intros H. unfold loader_tables. by rewrite decide_False. Qed.
Lemma loader_page_1 d v : loader_page [d] v ↔ loader_type (Type_ d) ∧ in_pages (PhysicalStart d) (desc_pages d) v.
Proof. unfold loader_page. rewrite Exists_cons, Exists_nil. tauto. Qed.

Lemma loader_tables_pos d : desc_fits d → 0 <= loader_tables d.
Proof.
intros (_ & H & _). unfold loader_tables. case_decide; [|done]. pose proof (desc_pages_pos d).
pose proof (tables_in_mono (PhysicalStart d) (desc_pages d) (desc_pages d)). lia.
Qed.
Lemma loader_need_pos ds : Forall desc_fits ds → 0 <= loader_need ds.
Proof. induction 1 as [|d ds Hd H IH]; [done|]. pose proof (loader_tables_pos d Hd). unfold loader_need in *. cbn in *. lia. Qed.

Lemma map_loader_prepared s T d :
built R s T ∅ → desc_fits d → loader_tables d <= tables_left R s →
wp (map_loader d) (λ _ s', prepared R s T (loader_page [d]) (loader_tables d) R s') s.
Proof.
intros HB Hd Hl. unfold map_loader.
destruct (decide (loader_type (Type_ d))) as [Hty|Hty].
- rewrite loader_tables_yes in Hl |- * by done.
  assert (∀ s' k, prepared R s T (in_pages (PhysicalStart d) (desc_pages d)) k R s' →
    prepared R s T (loader_page [d]) k R s') as Hmono.
  { intros s' k [B P M L]. split; [done|done| |done]. intros v. rewrite loader_page_1. destruct (M v); tauto. }
  apply wp_bind. destruct Hty as [E|E]; rewrite E.
  + rewrite decide_True by done. eapply wp_mono; [by apply (map_desc_self s T)|]. cbv beta. intros _ s' H.
    rewrite decide_False by done. apply wp_ret. by apply Hmono.
  + rewrite decide_False by done. apply wp_ret. rewrite decide_True by done.
    eapply wp_mono; [by apply (map_desc_self s T)|]. cbv beta. auto.
- unfold loader_type in Hty. rewrite !decide_False by tauto. apply wp_bind, wp_ret, wp_ret.
  rewrite loader_tables_no by done. by apply prepared_refl.
Qed.

Lemma mergeDesc_prepared s T d mp : built R s T ∅ → desc_fits d → loader_tables d <= tables_left R s → slot_of s mp →
wp (mergeDescToMMAP mp d) (λ _ s', prepared R s T (loader_page [d]) (loader_tables d) R s' ∧
  length (bt_kmmap s') = length (bt_kmmap s)) s.
Proof.
intros HB Hd Hl Hmp. unfold mergeDescToMMAP. apply (prepared_bind _ _ R R R s T (loader_page [d]) (λ _, False) _ (loader_tables d) 0 _ (λ _ s1, bt_kmmap s1 = bt_kmmap s)).
- eapply wp_mono; [apply wp_spares; [apply spares_map_loader|by apply (map_loader_prepared s T)]|].
  cbv beta. intros _ s' [H [K _]]. split; [exact H|exact K].
- cbv beta. intros ? s1 T1 K B1 _. eapply wp_mono; [apply (step_prepared _ R s1 T1); [done|]|].
  + unfold slot_of in Hmp. apply merge_search_steps; unfold slot_of; rewrite ?K; lia.
  + cbv beta. intros _ s2 [H M]. split; [exact H|]. apply map_step_length in M. congruence.
- tauto.
- lia.
Qed.

Lemma add_descs_prepared ds s T mp :
built R s T ∅ → Forall desc_fits ds → loader_need ds <= tables_left R s → 0 <= mp →
mp + Z.of_nat (length ds) < Z.of_nat (length (bt_kmmap s)) →
wp (add_descs ds mp) (λ mp' s', prepared R s T (loader_page ds) (loader_need ds) R s' ∧
  slot_of s' mp' ∧ length (bt_kmmap s') = length (bt_kmmap s)) s.
Proof.
revert s T mp. induction ds as [|d ds IH]; intros s T mp HB Hfits Hl Hmp Hlen.
{ apply wp_ret. split; [by apply prepared_refl|]. split; [cbn in Hlen; unfold slot_of; lia|done]. }
inversion Hfits as [|? ? Hd Hds]; subst. cbn [length] in Hlen.
assert (loader_need (d :: ds) = loader_tables d + loader_need ds) as En by done.
pose proof (loader_need_pos ds Hds). pose proof (loader_tables_pos d Hd).
cbn [add_descs]. apply (prepared_bind _ _ R R R s T (loader_page [d]) (loader_page ds) _ (loader_tables d) (loader_need ds) _
  (λ _ s1, length (bt_kmmap s1) = length (bt_kmmap s))).
- apply mergeDesc_prepared; try done; unfold slot_of; lia.
- cbv beta. intros merged s1 T1 K B1 L1. destruct merged.
  + eapply wp_mono; [apply (IH s1 T1 mp); (done || lia)|]. cbv beta. intros mp' s2 (H1 & H2 & H3).
    split_and!; [done|done|congruence].
  + eapply wp_mono; [apply (prepared_bind _ _ R R R s1 T1 (λ _, False) (loader_page ds) (loader_page ds) 0 (loader_need ds) (loader_need ds)
      (λ _ s2, map_step s1 s2) (λ mp' s2, slot_of s2 mp' ∧ length (bt_kmmap s2) = length (bt_kmmap s1)))|].
    * apply step_prepared; [done|]. apply writeKmmapEntry_steps. unfold slot_of. lia.
    * intros [] s2 T2 M B2 L2. apply map_step_length in M. rewrite <- M.
      apply (IH s2 T2 (mp + 1)); (done || lia).
    * tauto.
    * lia.
    * cbv beta. intros mp' s2 (H1 & H2 & H3). split_and!; [done|done|congruence].
- intros v. rewrite loader_page_1. unfold loader_page. rewrite Exists_cons. tauto.
- lia.
Qed.
End mapping.
End prepared.

(** ** The memory map *)

Section initMMAP.
Context {HE : Efi} {HP : EfiPool} {HS : PoolSlack}.

(** The bytes [initMMAP] asks the pool for, for [n] descriptors and [a] allocations. *)
Definition map_request (n a : Z) : Z := 48 * (n + a * 2 + 5) + 0x1000.

Lemma allocMem_temp_ok R s T n : built R s T ∅ → 0 <= n < 2 ^ 52 → n + 0x1000 <= R →
wp (allocMem_int n 0 MMAP_TYPE_OTHER true true true) (λ _ s',
  (∀ X, prepared R s T X 0 (R - (n + 0x1000)) s') ∧ bt_kmmap s' = bt_kmmap s ∧ bt_allocEntries s' = bt_allocEntries s) s.
Proof.
intros HB Hn HR. unfold allocMem_int. cbv zeta. rewrite (u64_id (n + PAGE_SZ)) by (unfold PAGE_SZ; lia).
pose proof (ar_room _ _ _ (bu_areas _ _ _ _ HB)) as Hroom.
destruct (allocPool_fresh (n + 0x1000) (bt_machine s)) as (p & t & Ep & Em & Hr & Hp & Hp2 & Hfresh & Hmono & _); [lia|].
apply wp_bind. eapply wp_eq; [by apply on_machine_ok|]. rewrite eqb_false by lia.
rewrite KALIGN_div by lia. unfold PAGE_SZ. rewrite u64_id by zlia. set (load := p - p mod 0x1000 + 0x1000).
assert (p < load <= p + 0x1000) as Hlr by (unfold load; zlia).
destruct (clearMem_zeroes load (n + 0x1000) t) as (m & Ec & Hm); [lia|].
cbn [when]. apply wp_bind. eapply wp_eq; [by apply on_machine_ok|].
destruct (pool_clear R s T p t m (n + 0x1000) load HB) as (B1 & K1 & M1 & L1);
  [lia|done|done|done|intros a Ha; by apply Hfresh|done|lia|exact Hm|].
apply wp_ret. split; [|done]. intros X. split; [by exists T|done|intros v; left; by rewrite <- M1|].
rewrite Z.sub_0_r. exact L1.
Qed.

(** [initMMAP] maps the loader's own pages to themselves and leaves the other pages
    as they are. *)
Lemma initMMAP_prepared R s T d ds :
(∀ m, getEfiMmap m = Ok (Some (d :: ds)) m) → Forall desc_fits (d :: ds) →
built R s T ∅ → 0 <= bt_allocEntries s < 2 ^ 30 → Z.of_nat (length (d :: ds)) < 2 ^ 30 →
map_request (Z.of_nat (length (d :: ds))) (bt_allocEntries s) <= R → loader_need (d :: ds) <= tables_left R s →
wp initMMAP (λ ok s', ok = true ∧ ∃ R', prepared R s T (loader_page (d :: ds)) (loader_need (d :: ds)) R' s') s.
Proof.
intros Hget Hfits HB Ha Hlen HR Hl. inversion Hfits as [|? ? Hd Hds]; subst.
set (n := map_request (Z.of_nat (length (d :: ds))) (bt_allocEntries s)) in *.
assert (∀ s, on_machine getEfiMmap s = Ok (Some (d :: ds)) s) as Hg.
{ intros s0. rewrite (on_machine_ok _ _ _ _ (Hget _)). by destruct s0. }
assert (loader_need (d :: ds) = loader_tables d + loader_need ds) as En by done.
pose proof (loader_need_pos ds Hds) as P1. pose proof (loader_tables_pos d Hd) as P2.
unfold initMMAP. apply wp_bind. eapply wp_eq; [apply Hg|]. apply wp_bind, wp_gets.
eapply wp_mono with (Q := λ ok s', prepared R s T (loader_page (d :: ds)) (loader_need (d :: ds)) (R - n) s' ∧ ok = true);
  [|cbv beta; intros ok s' [H1 H2]; split; [done|by eexists]].
apply (prepared_bind _ _ R (R - n) (R - n) s T (λ _, False) (loader_page (d :: ds)) _ 0 (loader_need (d :: ds)) _
  (λ _ s1, bt_allocEntries s1 = bt_allocEntries s)); [| |tauto|lia].
{ eapply wp_mono; [apply (allocMem_temp_ok R s T)|]; [done|unfold map_request in *; lia|unfold n, map_request in *; lia|].
  cbv beta. intros _ s1 (H1 & _ & H3). by split. }
cbv beta. intros p s1 T1 Ea B1 L1. rewrite Z.sub_0_r in L1.
set (fresh := replicate _ empty_entry). assert (Z.of_nat (length fresh) = Z.of_nat (length (d :: ds)) + bt_allocEntries s * 2 + 5) as Lf.
{ unfold fresh. rewrite length_replicate. lia. }
assert (0 <= R - n) as HRn by (unfold n; lia).
apply (prepared_bind _ _ _ (R - n) (R - n) s1 T1 (λ _, False) (loader_page (d :: ds)) _ 0 (loader_need (d :: ds)) _
  (λ _ s2, bt_kmmap s2 = fresh)); [| |tauto|lia].
{ apply wp_modify. split; [by apply arrays_prepared|done]. }
intros [] s2 T2 E2 B2 L2. apply wp_bind. eapply wp_eq; [apply Hg|].
assert (slot_of s2 0) as H0 by (unfold slot_of; rewrite E2; lia).
apply (prepared_bind _ _ _ (R - n) (R - n) s2 T2 (λ _, False) (loader_page (d :: ds)) _ 0 (loader_need (d :: ds)) _
  (λ _ s3, length (bt_kmmap s3) = length fresh)); [| |tauto|lia].
{ eapply wp_mono; [apply (step_prepared _ (R - n) s2 T2); [done|by apply writeKmmapEntry_steps]|].
  cbv beta. intros _ s3 [H1 H2%map_step_length]. split; [exact H1|congruence]. }
intros [] s3 T3 E3 B3 L3.
apply (prepared_bind _ _ _ (R - n) (R - n) s3 T3 (loader_page [d]) (loader_page ds) _ (loader_tables d) (loader_need ds) _
  (λ _ s4, length (bt_kmmap s4) = length fresh)); [| |intros v; rewrite loader_page_1; unfold loader_page; rewrite Exists_cons; tauto|lia].
{ eapply wp_mono; [apply wp_spares; [apply spares_map_loader|apply (map_loader_prepared _ HRn s3 T3); (done || lia)]|].
  cbv beta. intros _ s4 (H1 & H2 & _). split; [exact H1|congruence]. }
intros [] s4 T4 E4 B4 L4.
apply (prepared_bind _ _ _ (R - n) (R - n) s4 T4 (loader_page ds) (λ _, False) _ (loader_need ds) 0 _
  (λ mp s5, slot_of s5 mp)); [| |tauto|lia].
{ eapply wp_mono; [apply (add_descs_prepared _ HRn ds s4 T4 0); [done|done|lia|lia|rewrite E4; cbn [length] in Lf; lia]|].
  cbv beta. intros mp s5 (H1 & H2 & _). by split. }
intros mp s5 T5 Hmp B5 L5.
apply (prepared_bind _ _ _ (R - n) (R - n) s5 T5 (λ _, False) (λ _, False) _ 0 0 _ (λ _ _, True)); [| |tauto|lia].
{ eapply wp_mono; [apply (step_prepared _ (R - n) s5 T5); [done|by apply merge_all_steps]|]. cbv beta. intros _ s6 [H1 _]. by split. }
intros [] s6 T6 _ B6 L6. apply wp_bind, wp_get, wp_bind, wp_modify, wp_ret. split; [by apply arrays_prepared|done].
Qed.
End initMMAP.

(** ** The jump *)

(** The firmware takes nothing but memory of its pool. *)
Definition leaves `{EfiPool} (m t : machine) : Prop :=
  (∀ a, pool_free t a → pool_free m a) ∧ ∀ a, ¬ pool_free m a → mbyte (memory t) a = mbyte (memory m) a.

(** The key of the map can be had, and leaving the boot services fails or works. *)
Class EfiExit `{EfiPool} `{EfiProtocols} := {
  mmapKey_reads s : ∃ key t, mmapKey s = Ok (Some key) (set_machine t s) ∧ leaves (bt_machine s) t;
  ExitBootServices_keeps h key s : ∃ status t,
    ExitBootServices h key s = Ok status (set_machine t s) ∧ leaves (bt_machine s) t
}.

(** The physical address the processor finds for [v] when CR3 holds [cr3]. *)
Definition walk_to (m : gmap Z Z) (cr3 v : Z) : option Z :=
  let e := leaf_entry m cr3 4 v in
  if Z.land e PG_PRESENT =? 0 then None else Some (TABLE_BASE e + v mod 0x1000).
Definition sees (s : loader) (v : Z) : option Z := walk_to (mem (ls_boot s)) (ls_cr3 s) v.

(** [struct bootInfo] as the kernel reads it through a pointer: the loader's [kinf]
    when the first and the last byte are found where [kinf] lies. *)
Definition KINF_SIZE : Z := 136.
Definition kinf_at (kinf_addr : Z) (s : loader) (ptr : Z) : option bootInfo :=
  if decide (sees s ptr = Some kinf_addr ∧ sees s (ptr + KINF_SIZE - 1) = Some (kinf_addr + KINF_SIZE - 1))
  then Some (ls_kinf s) else None.

Lemma own_walk m cr3 v : 0 <= v < 2 ^ 48 → own_entry (leaf_entry m cr3 4 v) v → walk_to m cr3 v = Some v.
Proof.
  intros Hv (w & x & E). unfold walk_to. rewrite E, boot_pte_page by done.
  pose proof (boot_pte_present v w x) as Hp. unfold present in Hp. rewrite eqb_false by done. f_equal.
  assert (TABLE_BASE (boot_pte v w x) = KALIGN v) as ->; [|rewrite KALIGN_div by lia; lia].
  unfold boot_pte. rewrite TABLE_BASE_lor.
  rewrite (TABLE_BASE_table (KALIGN v)) by (rewrite KALIGN_div by lia; zlia). by destruct w, x.
Qed.
Lemma page_of_KALIGN v : 0 <= v < 2 ^ 48 → page_of (KALIGN v) = page_of v ∧ 0 <= KALIGN v < 2 ^ 48.
Proof. intros Hv. unfold page_of. rewrite KALIGN_div by lia. zlia. Qed.

Section jump.
Context {HE : Efi} {HP : EfiPool} {HS : PoolSlack} {EP : EfiProtocols} {HX : EfiExit}.

Lemma leaves_trans m1 m2 m3 : leaves m1 m2 → leaves m2 m3 → leaves m1 m3.
Proof. intros [A1 A2] [B1 B2]. split; [auto|]. intros a Ha. rewrite B2 by auto. by apply A2. Qed.

(** The tables are not memory of the pool. *)
Lemma leaves_tables R s T t : built R s T ∅ → leaves (bt_machine s) t →
(∀ v, page_map (set_machine t s) v = page_map s v) ∧ keeps_mem s T (set_machine t s) T.
Proof.
intros [HT HA] [Hf Hm].
assert (spares s T t) as Hs.
{ split; [exact Hf|]. intros tab l a Ht Ha. apply Hm. by apply (ar_table _ _ _ HA tab l Ht). }
split.
- intros v. eapply leaf_same; [exact HT|intros ?????; f_equal; by eapply spares_entry|].
  intros p i Hp Hi. by eapply spares_entry.
- split; [intros a [Ha|Ha]; [left; by apply Hf|by right]|]. intros a Ha. apply Hm. intros Hfree. apply Ha. by left.
Qed.

(** The pages of the stack and of [kinf]. *)
Definition handed_page (rbp kinf_addr v : Z) : Prop := page_of v = page_of rbp ∨ page_of v = page_of kinf_addr.

(** The loader when the kernel is entered, against the loader behind [bootstrapKernel]. *)
Record at_jump (ds : list EFI_MEMORY_DESCRIPTOR) (rbp kinf_addr : Z) (T : gmap Z nat) (s s' : loader) : Prop := {
aj_cr3 : ls_cr3 s' = bt_pml (ls_boot s);
aj_self v : 0 <= v < 2 ^ 48 → handed_page rbp kinf_addr v → sees s' v = Some v;
aj_loader v : 0 <= v < 2 ^ 48 → sees s' v = Some v ∨ sees s' v = walk_to (mem (ls_boot s)) (bt_pml (ls_boot s)) v;
aj_rest v : ¬ handed_page rbp kinf_addr v → ¬ loader_page ds v →
  sees s' v = walk_to (mem (ls_boot s)) (bt_pml (ls_boot s)) v;
aj_mem a : ¬ owned (ls_boot s) T a → mbyte (mem (ls_boot s')) a = mbyte (mem (ls_boot s)) a;
aj_kinf : ls_kinf s' = BootInfo BOOTINFO_MAGIC (bi_ui (ls_kinf s))
  (MemInfo (Some (bt_kmmap (ls_boot s'))) (bt_entries (ls_boot s'))
     (Some (bt_allocMap (ls_boot s'))) (bt_aentries (ls_boot s')) (mi_symptr (bi_mem (ls_kinf s))) (mi_symsz (bi_mem (ls_kinf s))))
  (bi_rdptr (ls_kinf s)) (bi_rdsz (ls_kinf s)) getXSDT (bi_devtree (ls_kinf s))
}.

(** The pages and the memory, from the page map before the boot services are left. *)
Lemma at_jump_intro ds rbp kinf_addr T b T' (s s' : loader) :
bt_pml b = bt_pml (ls_boot s) → ls_cr3 s' = bt_pml b →
(∀ v, leaf_entry (mem (ls_boot s')) (bt_pml b) 4 v = page_map b v) →
(∀ v, handed_page rbp kinf_addr v → own_entry (page_map b v) v) →
(∀ v, page_map b v = page_map (ls_boot s) v ∨
   (loader_page ds v ∨ handed_page rbp kinf_addr v) ∧ own_entry (page_map b v) v) →
keeps_mem (ls_boot s) T (ls_boot s') T' →
ls_kinf s' = BootInfo BOOTINFO_MAGIC (bi_ui (ls_kinf s))
  (MemInfo (Some (bt_kmmap (ls_boot s'))) (bt_entries (ls_boot s'))
     (Some (bt_allocMap (ls_boot s'))) (bt_aentries (ls_boot s')) (mi_symptr (bi_mem (ls_kinf s))) (mi_symsz (bi_mem (ls_kinf s))))
  (bi_rdptr (ls_kinf s)) (bi_rdsz (ls_kinf s)) getXSDT (bi_devtree (ls_kinf s)) →
at_jump ds rbp kinf_addr T s s'.
Proof.
intros P C E O M [_ K] I.
assert (∀ v, page_map b v = page_map (ls_boot s) v →
  sees s' v = walk_to (mem (ls_boot s)) (bt_pml (ls_boot s)) v) as Hsame.
{ intros v H. unfold sees, walk_to. by rewrite C, E, H. }
assert (∀ v, 0 <= v < 2 ^ 48 → own_entry (page_map b v) v → sees s' v = Some v) as Hself.
{ intros v Hv H. apply own_walk; [done|]. by rewrite C, E. }
split; [congruence|auto| | |done|done].
- intros v Hv. destruct (M v) as [H|[_ H]]; [right|left]; auto.
- intros v N1 N2. destruct (M v) as [H|[[] _]]; [auto|done|done].
Qed.

Lemma wp_on_boot {A} (m : M boot A) s (Q : A → loader → Prop) :
wp m (λ a b, Q a (set_boot b s)) (ls_boot s) → wp (on_boot m) Q s.
Proof. apply wp_zoom. Qed.

Lemma hand_over_ok R T d ds rbp kinf_addr IH entry s :
(∀ m, getEfiMmap m = Ok (Some (d :: ds)) m) → Forall desc_fits (d :: ds) →
built R (ls_boot s) T ∅ → 0 <= R → 0 <= rbp < 2 ^ 48 → 0 <= kinf_addr < 2 ^ 48 →
0 <= bt_allocEntries (ls_boot s) < 2 ^ 30 → Z.of_nat (length (d :: ds)) < 2 ^ 30 →
map_request (Z.of_nat (length (d :: ds))) (bt_allocEntries (ls_boot s)) <= R →
6 + loader_need (d :: ds) <= tables_left R (ls_boot s) →
wp (hand_over rbp kinf_addr IH entry) (λ r s', match r with
  | inl (entry', ptr) => entry' = entry ∧ ptr = kinf_addr ∧ at_jump (d :: ds) rbp kinf_addr T s s'
  | inr status => status ≠ EFI_SUCCESS
  end) s.
Proof.
intros Hget Hfits HB HR Hrbp Hk Ha Hlen Hreq Hroom. pose proof (loader_need_pos _ Hfits).
destruct (page_of_KALIGN _ Hk) as [Ek Rk].
unfold hand_over. apply wp_bind. unfold with_kinf at 1. apply wp_modify.
apply wp_bind, wp_on_boot. cbn [ls_boot set_kinf].
eapply wp_mono; [apply wp_spares; [apply (spares_map_mapPage)|apply (map_self R HR _ T); [done|done|lia]]|].
cbv beta. intros _ b1 ([[(T1 & B1 & K1) P1 M1 L1] O1] & _ & A1).
apply wp_bind, wp_on_boot. cbn [ls_boot set_kinf set_boot].
eapply wp_mono; [apply wp_spares; [apply (spares_map_mapPage)|apply (map_self R HR b1 T1); [done|done|lia]]|].
cbv beta. intros _ b2 ([[(T2 & B2 & K2) P2 M2 L2] O2] & _ & A2). rewrite Ek in M2, O2.
apply wp_bind. unfold with_kinf at 1. apply wp_modify.
apply wp_bind, wp_on_boot. cbn [ls_boot set_kinf set_boot].
eapply wp_mono; [apply (initMMAP_prepared R b2 T2 d ds); (done || (rewrite ?A2, ?A1; done) || lia)|].
cbv beta. intros ? b3 (-> & R' & [(T3 & B3 & K3) P3 M3 L3]). cbn [negb].
apply wp_bind. unfold publish_map. apply wp_bind, wp_get. unfold with_kinf. apply wp_modify.
apply wp_bind, wp_on_boot. cbn [ls_boot set_kinf set_boot].
destruct (mmapKey_reads b3) as (key & t & Em & Hlv). eapply wp_eq; [exact Em|].
apply wp_bind, wp_on_boot. cbn [ls_boot set_kinf set_boot].
destruct (ExitBootServices_keeps IH key (set_machine t b3)) as (status & u & Eu & Hlu). eapply wp_eq; [exact Eu|].
destruct (status =? EFI_SUCCESS) eqn:Est; cbn [negb]; [|by apply wp_ret].
apply wp_bind, wp_modify, wp_bind. unfold setCR3. apply wp_modify, wp_ret. split; [done|]. split; [done|].
destruct (leaves_tables R' b3 T3 u B3 (leaves_trans _ _ _ Hlv Hlu)) as [M4 K4].
assert (bt_pml b3 = bt_pml (ls_boot s)) as P by (rewrite P3, P2; exact P1).
apply (at_jump_intro _ _ _ T b3 T3); [exact P|done|..]; cbn [ls_boot set_kinf set_boot].
- exact M4.
- intros v [Hv|Hv].
  + destruct (M3 v) as [->|[]]; [|done]. destruct (M2 v) as [->|[]]; [|done]. by apply O1.
  + destruct (M3 v) as [->|[]]; [|done]. by apply O2.
- intros v. destruct (M3 v) as [->|[]]; [|by right; split; [left|]]. destruct (M2 v) as [->|[]]; [|by right; split; [right; right|]].
  destruct (M1 v) as [->|[]]; [by left|by right; split; [right; left|]].
- eapply keeps_mem_trans; [exact K1|]. eapply keeps_mem_trans; [exact K2|]. by eapply keeps_mem_trans.
- done.
Qed.
End jump.
