(* ===== verification/Lienzo.v ===== *)
(** * lienzo.c and libpng.c: the image renderer

    Windows are structs in memory with a buffer of their own; drawing goes to the
    double buffer [dbuffer], which [swapLienzoBuffer] copies to the screen.
    Pixels are 4 bytes ([bpp]). *)

From S2P Require Import Prelude Kmonad Mem Libc Layout Heap Mmap Vmm Ramdisk Vfs.

(** ** lienzo.h, libpng.h *)

Definition LIENZO_OTYPE_WINDOW : Z := 0.
(** The arguments are [uint32_t] but for the last. *)
Definition LIENZO_BUFFER_SIZE (xsz ysz sz : Z) : Z := u32 (u32 (xsz * ysz) * sz).
(** In [drawRow] the arguments are [uint64_t]. *)
Definition LIENZO_BUFFER_OFFSET (xsz yoff xoff sz : Z) : Z := u64 (u64 (u64 (yoff * xsz) + xoff) * sz).

Definition lienzoHeader : layout :=
  Layout Natural [U16 "objectType"; U16 "flags"; U32 "relX"; U32 "relY"; U32 "xSz"; U32 "ySz"].
Definition rgbaS : layout := Layout Natural [U8 "alpha"; U8 "red"; U8 "green"; U8 "blue"].
Definition lienzoWindow : layout :=
  Layout Natural [Sub lienzoHeader "header"; Sub rgbaS "color"; U64 "children"; U32 "childCount"; U32 "slots";
    U64 "buffer"].
Definition lienzoImage : layout :=
  Layout Natural [Sub lienzoHeader "header"; U64 "buffer"; U32 "size"].
Definition PNG_SIGNATURE : Z := 0x89504E470D0A1A0A.
Definition pngSignature : layout := Layout Packed [U64 "signature"].

Section lienzo.
Context {HO : HeapOps} {VM : VmemOps} {VO : VmemPhysOps}.

Definition initLienzo (kinf : bootInfo) : M machine unit :=
let ui := bi_ui kinf in
if gop_framebuffer ui =? 0 then mret tt
else
  _ ← gwrite g_bpp 4;
  v ← vmallocPhys (gop_framebuffer ui) (u64 (gop_size ui * 4)) (vType_value VTYPE_VIMEM)
        (Z.lor (Z.lor VFLAG_MAKE VFLAG_WC) VFLAG_WRITE);
  _ ← gwrite g_vbuffer v;
  if v =? 0 then mret tt
  else
    d ← vmalloc (u64 (gop_size ui * 4)) (vType_value VTYPE_VIMEM)
          (Z.lor (Z.lor VFLAG_MAKE VFLAG_WC) VFLAG_WRITE);
    _ ← gwrite g_dbuffer d;
    if d =? 0 then mret tt
    else
      _ ← gwrite g_xSz (gop_Xres ui);
      _ ← gwrite g_ySz (gop_Yres ui);
      gwrite g_bufferLen (u64 (gop_size ui * 4)).

Definition swapLienzoBuffer : M machine unit :=
v ← gread g_vbuffer; d ← gread g_dbuffer; n ← gread g_bufferLen;
_ ← memcpy v d n; mret tt.

(** [color] is the four bytes of the struct; [relX] and [relY] are not set. *)
Definition lienzoCreateWindow (xSz ySz color flags : Z) : M machine Z :=
win ← kmalloc (size_of lienzoWindow);
if win =? 0 then mret 0
else
  let header := win + fld lienzoWindow "header" in
  _ ← st 4 (win + fld lienzoWindow "color") color;
  _ ← stf lienzoHeader "xSz" header xSz;
  _ ← stf lienzoHeader "ySz" header ySz;
  _ ← stf lienzoHeader "flags" header flags;
  _ ← stf lienzoHeader "objectType" header LIENZO_OTYPE_WINDOW;
  bpp ← gread g_bpp;
  b ← vmalloc (LIENZO_BUFFER_SIZE xSz ySz bpp) (vType_value VTYPE_VIMEM) (Z.lor VFLAG_WRITE VFLAG_MAKE);
  _ ← stf lienzoWindow "buffer" win b;
  mret win.

Definition clearWindow (win : Z) : M machine unit :=
let header := win + fld lienzoWindow "header" in
b ← ldf lienzoWindow "buffer" win;
x ← ldf lienzoHeader "xSz" header;
y ← ldf lienzoHeader "ySz" header;
bpp ← gread g_bpp;
_ ← memset b 0 (LIENZO_BUFFER_SIZE x y bpp); mret tt.

(** [drawRow]: pixel [p + x] of a buffer of [uint32_t] for [x] from [xoff] to [xsz]. *)
Definition drawRow (fuel : nat) (buff yoff xoff xsz : Z) : M machine unit :=
bpp ← gread g_bpp;
let p := LIENZO_BUFFER_OFFSET xsz yoff xoff bpp in
iter fuel (λ x,
  if x <? xsz then
    _ ← st 4 (buff + 4 * u64 (p + x)) 0xFF00FF;
    mret (inl (u32 (x + 1)))
  else mret (inr tt)) (u32 xoff).

Definition drawLienzoWindow (fuel : nat) (win : Z) : M machine unit :=
let header := win + fld lienzoWindow "header" in
iter fuel (λ i,
  h ← ldf lienzoHeader "ySz" header;
  if i <? h then
    ys ← gread g_ySz;
    if i >? ys then mret (inr tt)
    else
      ry ← ldf lienzoHeader "relY" header;
      rx ← ldf lienzoHeader "relX" header;
      d ← gread g_dbuffer;
      xs ← gread g_xSz;
      _ ← drawRow fuel d (u64 (i + ry)) rx xs;
      mret (inl (u64 (i + 1)))
  else mret (inr tt)) 0.
End lienzo.

(** ** libpng.c *)

Section png.
(** Of vfs.c: the fuel and the address of ramdiskReadFile; the stack slot of [sig]. *)
Variables (fuel : nat) (ramdiskReadFile_addr sig : Z).

Definition checkPNG (fl : Z) : M machine bool :=
_ ← fileSeek fl 0 VFS_SEEK_SET;
_ ← readFile fuel ramdiskReadFile_addr fl (size_of pngSignature) sig;
v ← ldf pngSignature "signature" sig;
mret (v =? PNG_SIGNATURE).

Definition lienzoLoadImage (win image : Z) : M machine bool :=
ok ← checkPNG image;
if negb ok then mret false else mret true.
End png.

(** ** Drawing *)

(** [s'] is [s] with the first [x] pixels from [base] on filled. *)
Definition filled (s : machine) (base x : Z) (s' : machine) : Prop :=
  (∀ k, 0 <= k < x → load 4 (memory s') (base + 4 * k) = 0xFF00FF) ∧
  same_on (λ a, a < base ∨ base + 4 * x <= a) (memory s) (memory s') ∧ globals s' = globals s.

(** C40: [drawRow] fills the pixels [xoff] to [xsz] counted from the pixel index [p],
    and nothing else.  [p] is the byte offset of pixel [xoff] of the row: it is a number
    of bytes used as an index of 4-byte pixels, and it counts [xoff] a first time.  From
    a quarter of the height on a row is written behind a buffer of [xsz] by [ysz] pixels. *)
Theorem drawRow_fills fuel buff yoff xoff xsz ysz s :
  let bpp := globals s g_bpp in
  let p := (yoff * xsz + xoff) * bpp in
  0 <= bpp → 0 <= yoff → 0 <= xoff <= xsz → xsz < 2 ^ 32 → yoff * xsz + xoff < 2 ^ 64 → p + xsz < 2 ^ 64 →
  (Z.to_nat xsz < fuel)%nat →
  wp (drawRow fuel buff yoff xoff xsz) (λ _, filled s (buff + 4 * (p + xoff)) (xsz - xoff)) s ∧
  (ysz <= 4 * yoff → buff + bpp * xsz * ysz <= buff + 4 * p).
Proof.
  intros bpp p Hb Hy Hx Hxs Ho Hp Hf. assert (0 <= yoff * xsz) by nia. assert (0 <= p) by (unfold p; nia).
  split.
  2:{ intros Hys. unfold p. assert (0 <= bpp * xsz) by nia. assert (0 <= xoff * bpp) by nia.
    pose proof (Z.mul_le_mono_nonneg_l ysz (4 * yoff) (bpp * xsz) ltac:(lia) Hys). nia. }
  unfold drawRow. wp_step. wp_step. fold bpp.
  unfold LIENZO_BUFFER_OFFSET. rewrite (u64_id (yoff * xsz)), (u64_id (yoff * xsz + xoff)) by lia. fold p.
  rewrite (u64_id p), (u32_id xoff) by lia.
  apply (wp_iter (λ n x s', n = Z.to_nat (xsz - x) ∧ xoff <= x <= xsz ∧
    filled s (buff + 4 * (p + xoff)) (x - xoff) s')) with (n := Z.to_nat (xsz - xoff)); [|split_and!|lia].
  - intros n x s' (-> & Hxr & Hd & Hs & Hg). destruct (Z.ltb_spec x xsz).
    + wp_steps. rewrite u64_id, u32_id by lia. eexists. split; [|split; [reflexivity|split; [lia|]]]; [lia|].
      replace (buff + 4 * (p + x)) with (buff + 4 * (p + xoff) + 4 * (x - xoff)) by lia.
      split_and!; [|intros a Ha|done]; cbn [memory set_memory].
      * intros k Hk. destruct (decide (k = x - xoff)) as [->|].
        -- by rewrite load_store_4.
        -- rewrite load_store_ne by lia. apply Hd. lia.
      * rewrite mbyte_store_ne by lia. apply Hs. lia.
    + wp_step. assert (x = xsz) as -> by lia. by split_and!.
  - done.
  - lia.
  - lia.
  - rewrite Z.sub_diag. split_and!; [lia|reflexivity|done].
Qed.

(** ** PNG files *)

(** The signature of a PNG file. *)
Definition png_bytes : list Z := [0x89; 0x50; 0x4E; 0x47; 0x0D; 0x0A; 0x1A; 0x0A].

(** A file of the ramdisk at [fl]: its header, size and contents. *)
Record ram_file (rf : Z) (fl file src size : Z) (s : machine) : Prop := {
  rm_file : load 8 (memory s) fl = file;
  rm_mount : load 8 (memory s) (fl + 8) ≠ 0;
  rm_read : load 8 (memory s) (load 8 (memory s) (fl + 8) + 32) = rf;
  rm_offset : load 8 (memory s) (fl + 16) = 0;
  rm_size : load 4 (memory s) (file + 24) = size;
  rm_src : u64 (load 8 (memory s) (file + 16) - globals s g_ramdiskPbase + globals s g_ramdiskVbase) = src
}.

Lemma load_S n m a : load (S n) m a = mbyte m a + 256 * load n m (a + 1).
Proof. done. Qed.

(** The eight bytes of the signature, loaded little endian. *)
Lemma load_png m a :
  (∀ i b, png_bytes !! i = Some b → mbyte m (a + Z.of_nat i) = b) → load 8 m a = 0x0A1A0A0D474E5089.
Proof.
  intros H. rewrite !load_S. rewrite <- !Z.add_assoc.
  change (1 + 1) with 2. change (1 + 2) with 3. change (1 + 3) with 4. change (1 + 4) with 5.
  change (1 + 5) with 6. change (1 + 6) with 7.
  pose proof (H 0%nat _ eq_refl) as E0. rewrite Z.add_0_r in E0. rewrite E0.
  rewrite (H 1%nat _ eq_refl : mbyte m (a + 1) = 0x50), (H 2%nat _ eq_refl : mbyte m (a + 2) = 0x4E),
    (H 3%nat _ eq_refl : mbyte m (a + 3) = 0x47), (H 4%nat _ eq_refl : mbyte m (a + 4) = 0x0D),
    (H 5%nat _ eq_refl : mbyte m (a + 5) = 0x0A), (H 6%nat _ eq_refl : mbyte m (a + 6) = 0x1A),
    (H 7%nat _ eq_refl : mbyte m (a + 7) = 0x0A).
  done.
Qed.

(** [a] is apart from the file structures. *)
Definition apart_from (fl file mount lo hi : Z) : Prop :=
  (hi <= fl ∨ fl + 24 <= lo) ∧ (hi <= file ∨ file + 32 <= lo) ∧ (hi <= mount ∨ mount + 40 <= lo).

(** [checkPNG] rejects every PNG file of the ramdisk: the signature is
    compared in the byte order of the file with a load in the byte order of the
    machine.  It also writes the whole file, not the 8 bytes asked for, over the
    stack from [sig] on. *)
Theorem checkPNG_rejects_png fuel rf sig fl file src size s :
  let mount := load 8 (memory s) (fl + 8) in
  ram_file rf fl file src size s → 8 <= size → size < Z.of_nat fuel →
  (∀ i b, png_bytes !! i = Some b → mbyte (memory s) (src + Z.of_nat i) = b) →
  apart_from fl file mount sig (sig + size) → sig + size <= src ∨ src + size <= sig →
  src + size <= fl ∨ fl + 24 <= src → fl + 24 <= file ∨ file + 32 <= fl → fl + 24 <= mount ∨ mount + 40 <= fl →
  wp (checkPNG fuel rf sig fl) (λ ok s',
    ok = false ∧ ∀ i, 0 <= i < size → mbyte (memory s') (sig + i) = mbyte (memory s) (src + i)) s.
Proof.
  intros mount [Hfile Hmnt Hrd Hoff Hsize Hsrc] H8 Hfuel Hpng (A1 & A2 & A3) Hd Hsf Hff Hfm.
  fold mount in Hmnt, Hrd. pose proof (load_4_range (memory s) (file + 24)).
  unfold checkPNG. wp_step. unfold fileSeek. do 6 wp_step. rewrite Hoff, Hfile, Hsize.
  change (u64 (0 + 0)) with 0. rewrite leb_false by lia.
  change ((VFS_SEEK_SET =? VFS_SEEK_CUR) || (VFS_SEEK_SET =? VFS_SEEK_SET)) with true. cbn iota.
  wp_steps. set (s1 := set_memory _ s).
  assert (∀ n a, a + Z.of_nat n <= fl + 16 ∨ fl + 24 <= a → load n (memory s1) a = load n (memory s) a) as L1
    by (intros; subst s1; cbn [memory set_memory]; apply load_store_ne; lia).
  unfold readFile. do 2 wp_step. rewrite (L1 8%nat) by lia. fold mount. rewrite eqb_false by done.
  do 6 wp_step. rewrite !(L1 8%nat) by lia. rewrite Hrd, Hfile.
  assert (load 8 (memory s1) (fl + 16) = 0) as Ho
    by (subst s1; cbn [memory set_memory]; rewrite load_store_8; done).
  rewrite Ho. wp_step. unfold call_mfread. rewrite eqb_true by done.
  eapply wp_mono; [apply (ramdiskReadFile_ignores_size fuel _ file 0 sig s1)|];
    rewrite ?(L1 4%nat), ?(L1 8%nat), ?Hsize by lia;
    change (globals s1) with (globals s); rewrite ?Z.add_0_r, ?Hsrc, ?Z.sub_0_r; try lia.
  cbv beta. intros n s2 (-> & Hg2 & Hm2).
  assert (∀ i, 0 <= i < size → mbyte (memory s2) (sig + i) = mbyte (memory s) (src + i)) as Hcopy.
  { intros i Hi. rewrite Hm2, decide_True by lia. replace (src + (sig + i - sig)) with (src + i) by lia.
    subst s1. cbn [memory set_memory]. apply mbyte_store_ne. lia. }
  assert (∀ m, (∀ i, 0 <= i < size → mbyte m (sig + i) = mbyte (memory s2) (sig + i)) → 
    load 8 m sig = 0x0A1A0A0D474E5089) as Hload.
  { intros m Hm. apply load_png. intros i b Hi. pose proof (lookup_lt_Some _ _ _ Hi) as Hl. cbn in Hl.
    rewrite Hm, Hcopy by lia. by apply Hpng. }
  wp_steps. fsteps. rewrite Z.add_0_r.
  assert (∀ i v, 0 <= i < size → mbyte (store 8 (memory s2) (fl + 16) v) (sig + i) = mbyte (memory s2) (sig + i))
    as Hst by (intros; apply mbyte_store_ne; lia).
  cbn [memory set_memory]. rewrite Hload by (intros; by apply Hst).
  split; [done|]. intros i Hi. rewrite Hst by done. by apply Hcopy.
Qed.

(** ** Witnesses *)

(** Row 3 of a screen of 2 by 10 pixels: 96 bytes into a buffer of 80. *)
Definition draw_machine : machine := set_global g_bpp 4 machine0.
Lemma drawRow_fills_witness :
  wp (drawRow 4 0x1000 3 1 3) (λ _, filled draw_machine (0x1000 + 4 * ((3 * 3 + 1) * 4 + 1)) (3 - 1)) draw_machine ∧
  (12 <= 4 * 3 → 0x1000 + 4 * 3 * 12 <= 0x1000 + 4 * ((3 * 3 + 1) * 4)).
Proof.
  assert (globals draw_machine g_bpp = 4) as E by done.
  pose proof (drawRow_fills 4 0x1000 3 1 3 12 draw_machine) as H. cbv zeta in H. rewrite E in H. apply H; done || lia.
Defined.

(** A PNG file of 10 bytes. *)
Definition png_machine : machine :=
  set_memory (write_bytes (store 8 (store 4 (store 8 (store 8 (store 8 ∅ 0x100 0x200) 0x108 0x300)
    0x210 0x2000) 0x218 10) 0x320 0x77) 0x2000 (png_bytes ++ [1; 2])) machine0.
Lemma checkPNG_rejects_png_witness :
  wp (checkPNG 20 0x77 0x8000 0x100) (λ ok s',
    ok = false ∧ ∀ i, 0 <= i < 10 → mbyte (memory s') (0x8000 + i) = mbyte (memory png_machine) (0x2000 + i))
    png_machine.
Proof.
  assert (load 8 (memory png_machine) (0x100 + 8) = 0x300) as E by by vm_compute.
  apply (checkPNG_rejects_png 20 0x77 0x8000 0x100 0x200 0x2000 10 png_machine);
    rewrite ?E; unfold apart_from; try lia.
  - split; rewrite ?E; by vm_compute.
  - intros i b Hi. do 8 (destruct i as [|i]; [injection Hi as <-; by vm_compute|]). done.
Defined.
