(* ===== verification/Kernel.v ===== *)
(** * kernel.c, syscall.c and mutex.h

    [kmain] is the order in which the kernel brings its parts up.  The parts
    work on states of their own (machine, Pmm, timers, ...), so they are
    parameters of one kernel state here.  The lock macros are a step relation of
    two processors. *)

From stdpp Require Import relations.
From S2P Require Import Prelude Kmonad Mem Mmap Loader.

(** ** kernel.c *)

(** What [kmain] calls, in the order of the calls.  [lienzoCreateWindow] gives
    the window the next call draws. *)
Class KernelParts (S : Type) := {
  do_bootstrapCPU : M S unit;
  do_initMmap : bootInfo → M S unit;
  do_initPMM : bootInfo → M S unit;
  do_initTimers : M S unit;
  do_initTasking : M S unit;
  do_initPIT : M S unit;
  do_initACPI : bootInfo → M S unit;
  do_initVFS : bootInfo → M S unit;
  do_initLienzo : bootInfo → M S unit;
  do_lienzoCreateWindow : Z → Z → Z → Z → M S Z;
  do_drawLienzoWindow : Z → M S unit;
  do_swapLienzoBuffer : M S unit
}.

(** [kmain] never returns: it ends in a [hlt] loop. *)
Definition kmain {S} `{KernelParts S} (kinf : bootInfo) : M S unit :=
  _ ← kassert (bi_magic kinf =? BOOTINFO_MAGIC) "Invalid bootinfo magic";
  _ ← do_bootstrapCPU;
  _ ← do_initMmap kinf;
  _ ← do_initPMM kinf;
  _ ← do_initTimers;
  _ ← do_initTasking;
  _ ← do_initPIT;
  _ ← do_initACPI kinf;
  _ ← do_initVFS kinf;
  _ ← do_initLienzo kinf;
  win ← do_lienzoCreateWindow (gop_Xres (bi_ui kinf)) (gop_Yres (bi_ui kinf)) 0xFFFFFFFF 0;
  _ ← do_drawLienzoWindow win;
  _ ← do_swapLienzoBuffer;
  fail Halt.

(** ** syscall.c *)

(** The state is [handles], two function pointers. *)
Section syscall.
(** Calling a handler with its argument. *)
Variable call : Z → Z → M (list Z) unit.

Definition registerSyscall (handle n : Z) : M (list Z) unit :=
handles ← get; l ← array_set handles n handle; put l.

Definition syscallEntry (n : Z) : M (list Z) unit :=
handles ← get;
h ← array_get handles n;
_ ← kassert (h =? 0) "Unhandled syscall";
handles ← get;
h ← array_get handles n;
if h =? 0 then fail WildCall else call h n.

(** no system call is ever handled: one with a handler panics, one without
  calls a null pointer, and a number above 1 is read behind the table. *)
Theorem syscallEntry_never_dispatches n handles :
syscallEntry n handles =
  Fault (match nthZ handles n with
         | None => OutOfBounds
         | Some h => if h =? 0 then WildCall else Panic "Unhandled syscall"
         end).
Proof.
unfold syscallEntry. run. unfold get, array_get. destruct (nthZ handles n) as [h|] eqn:E; [|done].
cbv [mret M_ret]. destruct (h =? 0) eqn:Eh; [|done]. rewrite E. cbv [mret M_ret]. by rewrite Eh.
Qed.
End syscall.

(** ** mutex.h *)

(** Where a processor is: outside, behind the test of [GET_LOCK], between the
    read and the write of [lock |= 0x1] with the value read, or inside. *)
Inductive lock_pc := Outside | Tested | Loaded (v : Z) | Inside.

#[export] Instance lock_pc_eq_dec : EqDecision lock_pc.
Proof. solve_decision. Defined.

Record lock_state := LockState { lk_lock : Z; lk_a : lock_pc; lk_b : lock_pc }.

(** One memory access of one processor: its place and the lock before and after. *)
Inductive lock_step : Z → lock_pc → Z → lock_pc → Prop :=
  | GET_LOCK_test l : Z.land l 0x1 = 0 → lock_step l Outside l Tested
  | GET_LOCK_spin l : Z.land l 0x1 ≠ 0 → lock_step l Outside l Outside
  | GET_LOCK_load l : lock_step l Tested l (Loaded l)
  | GET_LOCK_store l v : lock_step l (Loaded v) (Z.lor v 0x1) Inside
  | FREE_LOCK_store l : lock_step l Inside 0x0 Outside.

(** Either processor moves. *)
Inductive lock_move : lock_state → lock_state → Prop :=
  | move_a l p b l' p' : lock_step l p l' p' → lock_move (LockState l p b) (LockState l' p' b)
  | move_b l p a l' p' : lock_step l p l' p' → lock_move (LockState l a p) (LockState l' a p').

(** A processor moves only while the other is outside or inside: no access falls
    between the test and the store of the other one. *)
Definition settled (p : lock_pc) : Prop := p = Outside ∨ p = Inside.
Inductive lock_move_settled : lock_state → lock_state → Prop :=
  | settled_a s s' : lock_move s s' → lk_b s = lk_b s' → settled (lk_b s) → lock_move_settled s s'
  | settled_b s s' : lock_move s s' → lk_a s = lk_a s' → settled (lk_a s) → lock_move_settled s s'.

Definition lock_init : lock_state := LockState 0 Outside Outside.

(** The invariant of the moves without interleaved macros. *)
Definition lock_inv (s : lock_state) : Prop :=
  match lk_a s, lk_b s with
  | Outside, Outside => lk_lock s = 0
  | Tested, Outside | Outside, Tested => lk_lock s = 0
  | Loaded v, Outside | Outside, Loaded v => lk_lock s = 0 ∧ v = 0
  | Inside, Outside | Outside, Inside => lk_lock s = 1
  | _, _ => False
  end.

Lemma lock_inv_step s s' : lock_move_settled s s' → lock_inv s → lock_inv s'.
Proof.
  intros H. destruct H as [s s' Hm He Hset|s s' Hm He Hset]; destruct Hm as [l p b l' p' Hs|l p a l' p' Hs];
    cbn in He, Hset; destruct Hs; unfold lock_inv; cbn [lk_a lk_b lk_lock];
    destruct Hset as [? | ?]; subst; try done; repeat case_match; intros; naive_solver.
Qed.

(** C25: when no access of a processor falls into [GET_LOCK] of the other, at most
    one of them is ever inside; as the macro is written, with the test, the read
    and the write of the lock as three accesses, both can be inside at once. *)
Theorem GET_LOCK_exclusion :
  (∀ s, rtc lock_move_settled lock_init s → ¬ (lk_a s = Inside ∧ lk_b s = Inside)) ∧
  (∃ s, rtc lock_move lock_init s ∧ lk_a s = Inside ∧ lk_b s = Inside).
Proof.
  split.
  - intros s Hs [Ha Hb]. assert (lock_inv s) as HI.
    { eapply (rtc_ind_r (λ s, lock_inv s) lock_init); [done| |exact Hs].
      intros y z _ Hyz Hy. by eapply lock_inv_step. }
    unfold lock_inv in HI. by rewrite Ha, Hb in HI.
  - exists (LockState 1 Inside Inside). split; [|done]. unfold lock_init.
    apply rtc_l with (LockState 0 Tested Outside); [by do 2 constructor|].
    apply rtc_l with (LockState 0 Tested Tested); [by do 2 constructor|].
    apply rtc_l with (LockState 0 (Loaded 0) Tested); [by do 2 constructor|].
    apply rtc_l with (LockState 0 (Loaded 0) (Loaded 0)); [by do 2 constructor|].
    apply rtc_l with (LockState 1 Inside (Loaded 0)); [by apply move_a, (GET_LOCK_store 0 0)|].
    apply rtc_once. by apply move_b, (GET_LOCK_store 1 0).
Qed.
