(* ===== verification/Startup.v ===== *)
(** * From the boot loader into the kernel

    The loader of Loader.v, [kmain] of Kernel.v and the components [kmain] starts
    first, put together: [bootstrapCPU] of Cpu.v on the machine and [initMmap] of
    Mmap.v on the globals of mmap.c.  The kernel gets a pointer to [kinf] and reads
    it through the page tables CR3 points to.  What [kmain] starts later is a
    parameter. *)

From S2P Require Import Prelude Kmonad Mem Heap Mmap Cpu BootMem PageTrees BootPaging ElfLoad Loader HandOver Kernel.

(** The state of the kernel: machine, globals of mmap.c, the other components. *)
Record kernel (R : Type) := MkKernel { k_machine : machine; k_mmap : mmap_state; k_rest : R }.
Arguments MkKernel {R}.
Arguments k_machine {R}.
Arguments k_mmap {R}.
Arguments k_rest {R}.

(** The calls of [kmain] behind [initMmap]. *)
Class LateParts (R : Type) := {
  late_initPMM : bootInfo → M (kernel R) unit;
  late_initTimers : M (kernel R) unit;
  late_initTasking : M (kernel R) unit;
  late_initPIT : M (kernel R) unit;
  late_initACPI : bootInfo → M (kernel R) unit;
  late_initVFS : bootInfo → M (kernel R) unit;
  late_initLienzo : bootInfo → M (kernel R) unit;
  late_createWindow : Z → Z → Z → Z → M (kernel R) Z;
  late_drawWindow : Z → M (kernel R) unit;
  late_swapBuffer : M (kernel R) unit
}.

Section startup.
Context {R : Type} {LP : LateParts R}.
(** The static objects of cpu.c and the entry points of cpu.asm. *)
Variables (bspgptr gdtEntries idtp idtEntries : Z) (isr_entry irq_entry : Z → Z).

Definition on_k_machine {A} (m : M machine A) : M (kernel R) A :=
zoom k_machine (λ t s, MkKernel t (k_mmap s) (k_rest s)) m.
Definition on_k_mmap {A} (m : M mmap_state A) : M (kernel R) A :=
zoom k_mmap (λ t s, MkKernel (k_machine s) t (k_rest s)) m.

Definition kernel_parts : KernelParts (kernel R) := {|
do_bootstrapCPU := on_k_machine (bootstrapCPU bspgptr gdtEntries idtp idtEntries isr_entry irq_entry);
do_initMmap kinf := on_k_mmap (initMmap kinf);
do_initPMM := late_initPMM;
do_initTimers := late_initTimers;
do_initTasking := late_initTasking;
do_initPIT := late_initPIT;
do_initACPI := late_initACPI;
do_initVFS := late_initVFS;
do_initLienzo := late_initLienzo;
do_lienzoCreateWindow := late_createWindow;
do_drawLienzoWindow := late_drawWindow;
do_swapLienzoBuffer := late_swapBuffer
|}.

(** [kmain] behind [initMmap]. *)
Definition kmain_late (kinf : bootInfo) : M (kernel R) unit :=
_ ← late_initPMM kinf;
_ ← late_initTimers;
_ ← late_initTasking;
_ ← late_initPIT;
_ ← late_initACPI kinf;
_ ← late_initVFS kinf;
_ ← late_initLienzo kinf;
win ← late_createWindow (gop_Xres (bi_ui kinf)) (gop_Yres (bi_ui kinf)) 0xFFFFFFFF 0;
_ ← late_drawWindow win;
_ ← late_swapBuffer;
fail Halt.

(** ** The GDT *)

Definition segment_word (dpl : Z) (code : bool) : Z :=
let flags := Z.lor (Z.lor (Z.lor GDT_PRESENT GDT_LM) GDT_SYSTEM) (GDT_DPL dpl) in
if code then Z.lor flags GDT_EXECUTE else flags.

(** Kernel code and data, user code and data. *)
Definition gdt_filled (m : gmap Z Z) : Prop :=
load 8 m (gdtEntries + 8) = segment_word 0 true ∧ load 8 m (gdtEntries + 16) = segment_word 0 false ∧
load 8 m (gdtEntries + 24) = segment_word 3 true ∧ load 8 m (gdtEntries + 32) = segment_word 3 false.

Definition apart (a n b k : Z) : Prop := a + n <= b ∨ b + k <= a.

Lemma initBSPGDT_ok s :
0 <= gdtEntries < 2 ^ 64 → apart bspgptr 10 gdtEntries 64 →
wp (initBSPGDT bspgptr gdtEntries) (λ _ s',
  gdt_filled (memory s') ∧ globals s' g_gdtr = gdtEntries ∧ globals s' g_gdtLimit = 63) s.
Proof.
intros Hg Ha. unfold apart in Ha. unfold initBSPGDT. do 4 wp_step. change (8 * 8) with (4 * 16).
wp_step. eapply wp_mono; [apply memset_zero; lia|]. cbv beta. intros _ s1 (_ & Hm1).
unfold write_segments, writeGDTSegment, loadGDT. wp_steps.
assert (same_on (λ b, b < gdtEntries ∨ gdtEntries + 64 <= b)
  (store 8 (store 2 (memory s) bspgptr (4 * 16 - 1)) (bspgptr + 2) gdtEntries) (memory s1)) as Hs.
{ intros b Hb. rewrite Hm1, decide_False by lia. done. }
split; [|split].
- unfold gdt_filled. cbn [memory set_memory set_global]. by split_and!; mem.
- mem. rewrite (same_on_load _ _ _ _ _ Hs) by (intros; lia). mem. by rewrite u64_id by lia.
- mem. rewrite (same_on_load _ _ _ _ _ Hs) by (intros; lia). by mem.
Qed.

(** ** Both tables *)

(** Where the linker puts the static objects of cpu.c, and the entry points. *)
Record cpu_objects : Prop := {
co_gdt : 0 <= gdtEntries < 2 ^ 64;
co_idt : 0 <= idtEntries < 2 ^ 64;
co_bspgptr : apart bspgptr 10 gdtEntries 64;
co_idtp : apart idtp 10 idtEntries 4096;
co_tables : apart gdtEntries 64 idtEntries 4096;
co_gdt_idtp : apart gdtEntries 64 idtp 10;
co_isr : ∀ n, 0 <= isr_entry n < 2 ^ 64;
co_irq : ∀ n, 0 <= irq_entry n < 2 ^ 64
}.

(** The processor after [bootstrapCPU]: both registers lead to their tables. *)
Definition cpu_ready (s : machine) : Prop :=
gdt_filled (memory s) ∧ globals s g_gdtr = gdtEntries ∧ globals s g_gdtLimit = 63 ∧
idt_filled idtEntries isr_entry irq_entry 48 (memory s) ∧
globals s g_idtr = idtEntries ∧ globals s g_idtLimit = 16 * 256 - 1.

Lemma bootstrapCPU_ok s :
cpu_objects → wp (bootstrapCPU bspgptr gdtEntries idtp idtEntries isr_entry irq_entry) (λ _, cpu_ready) s.
Proof.
intros [Hg Hi Hb Hp Ht Hgp Hs Hq]. unfold apart in *. unfold bootstrapCPU. wp_step.
eapply wp_mono; [by apply initBSPGDT_ok|]. intros [] s1 (Hgdt & Hr & Hl).
eapply wp_mono; [by apply initIDT_ok|]. intros [] s2 (Hf & [Hir Hil] & Hsame & Hgl).
unfold cpu_ready. rewrite !Hgl by done. split_and!; try done. unfold gdt_filled in *.
by rewrite !(same_on_load _ _ _ _ _ Hsame) by (intros; lia).
Qed.

(** ** The first calls of kmain *)

(** A kernel whose map is at hand: the globals of mmap.c after [initMmap]. *)
Definition mmap_of (k : bootInfo) : mmap_state :=
MmapState (mi_entries (bi_mem k)) (mi_aentries (bi_mem k)) (mi_ptr (bi_mem k)) (mi_aptr (bi_mem k)).

Lemma kmain_starts k ks :
cpu_objects → bi_magic k = BOOTINFO_MAGIC → is_Some (mi_ptr (bi_mem k)) →
∃ ks', @kmain _ kernel_parts k ks = kmain_late k ks' ∧ cpu_ready (k_machine ks') ∧
  k_mmap ks' = mmap_of k ∧ k_rest ks' = k_rest ks.
Proof.
intros Hc Hm Hp. destruct (wp_ok _ _ _ (bootstrapCPU_ok (k_machine ks) Hc)) as ([] & m & E & Hr).
exists (MkKernel m (mmap_of k) (k_rest ks)). split; [|split; [exact Hr|split; reflexivity]].
unfold kmain. rewrite Hm, Z.eqb_refl. mstep. cbn [do_bootstrapCPU do_initMmap kernel_parts].
erewrite bind_ok; [|unfold on_k_machine, zoom; rewrite E; reflexivity]. cbv beta.
erewrite bind_ok; [reflexivity|]. unfold on_k_mmap, zoom, initMmap.
cbv [mbind M_bind modify kassert mret M_ret]. rewrite bool_decide_eq_true_2 by done. done.
Qed.

(** A map pointer that is null stops the kernel when the tables are loaded. *)
Lemma kmain_no_map k ks :
cpu_objects → bi_magic k = BOOTINFO_MAGIC → mi_ptr (bi_mem k) = None →
@kmain _ kernel_parts k ks = Fault (Panic "Bootloader failed to pass valid mmap").
Proof.
intros Hc Hm Hp. destruct (wp_ok _ _ _ (bootstrapCPU_ok (k_machine ks) Hc)) as ([] & m & E & _).
unfold kmain. rewrite Hm, Z.eqb_refl. mstep. cbn [do_bootstrapCPU do_initMmap kernel_parts].
erewrite bind_ok; [|unfold on_k_machine, zoom; rewrite E; reflexivity]. cbv beta.
apply bind_fault. unfold on_k_mmap, zoom, initMmap.
cbv [mbind M_bind modify kassert mret M_ret]. by rewrite Hp, bool_decide_eq_false_2 by (by intros [? ?]).
Qed.
End startup.

(** ** Boot *)

(** The loader behind [bootstrapKernel]: page tables as [initMem] and [loadELF] build
    them, room for those of the stack, [kinf] and the loader's own pages, and [kinf]
    inside a page. *)
Record boot_ready `{EfiPool} (R : Z) (T : gmap Z nat) (ds : list EFI_MEMORY_DESCRIPTOR) (rbp kinf_addr : Z) (s : loader) : Prop := {
  br_map m : getEfiMmap m = Ok (Some ds) m;
  br_some : ds ≠ [];
  br_fits : Forall desc_fits ds;
  br_built : built R (ls_boot s) T ∅;
  br_rbp : 0 <= rbp < 2 ^ 48;
  br_kinf : 0 <= kinf_addr < 2 ^ 48 ∧ kinf_addr mod 0x1000 + KINF_SIZE <= 0x1000;
  br_counts : 0 <= bt_allocEntries (ls_boot s) < 2 ^ 30 ∧ Z.of_nat (length ds) < 2 ^ 30;
  br_reserve : map_request (Z.of_nat (length ds)) (bt_allocEntries (ls_boot s)) <= R;
  br_room : 6 + loader_need ds <= tables_left R (ls_boot s)
}.

Section boot.
Context {HE : Efi} {HP : EfiPool} {HS : PoolSlack} {EP : EfiProtocols} {HX : EfiExit} {R : Type} {LP : LateParts R}.
Variables (bspgptr gdtEntries idtp idtEntries : Z) (isr_entry irq_entry : Z → Z).

(** C24: behind [bootstrapKernel], [efi_main] reaches the kernel unless the firmware
    refuses to leave the boot services.  With the page tables then in CR3 the pages
    of the stack and of [kinf] translate to themselves, the pages that are neither of
    these nor the loader's own translate as before, and memory the loader does not
    make tables from is unchanged.  The kernel finds [kinf] behind the pointer it
    gets and passes the start of [kmain]: the magic number and the map pointer are
    accepted, the GDT and the IDT are loaded and filled, and the memory map mmap.c
    searches from then on is the one the loader made. *)
Theorem loader_starts_kernel reserve T ds rbp kinf_addr ImageHandle entry s :
  cpu_objects bspgptr gdtEntries idtp idtEntries isr_entry irq_entry →
  boot_ready reserve T ds rbp kinf_addr s →
  wp (hand_over rbp kinf_addr ImageHandle entry) (λ r s', match r with
    | inl (entry', ptr) => entry' = entry ∧
        (∀ v, 0 <= v < 2 ^ 48 → handed_page rbp kinf_addr v → sees s' v = Some v) ∧
        (∀ v, ¬ handed_page rbp kinf_addr v → ¬ loader_page ds v →
           sees s' v = walk_to (mem (ls_boot s)) (bt_pml (ls_boot s)) v) ∧
        (∀ a, ¬ owned (ls_boot s) T a → mbyte (mem (ls_boot s')) a = mbyte (mem (ls_boot s)) a) ∧
        ∃ k, kinf_at kinf_addr s' ptr = Some k ∧ bi_acpiptr k = getXSDT ∧ ∀ ks : kernel R, ∃ ks',
          @kmain _ (kernel_parts bspgptr gdtEntries idtp idtEntries isr_entry irq_entry) k ks = kmain_late k ks' ∧
          cpu_ready gdtEntries idtEntries isr_entry irq_entry (k_machine ks') ∧
          k_mmap ks' = MmapState (bt_entries (ls_boot s')) (bt_aentries (ls_boot s'))
            (Some (bt_kmmap (ls_boot s'))) (Some (bt_allocMap (ls_boot s')))
    | inr status => status ≠ EFI_SUCCESS
    end) s.
Proof.
  intros Hc [Hget Hne Hfits HB Hrbp [Hk Hpage] [Ha Hlen] Hreq Hroom]. destruct ds as [|d ds]; [done|].
  assert (0 <= reserve) as HR by (unfold map_request in Hreq; lia).
  eapply wp_mono; [by apply (hand_over_ok reserve T d ds)|].
  cbv beta. intros [[e ptr]|status] s' Hr; [|done]. destruct Hr as (-> & -> & [_ Hself _ Hrest Hmem Hkinf]).
  split_and!; [done|exact Hself|exact Hrest|exact Hmem|]. exists (ls_kinf s').
  assert (kinf_at kinf_addr s' kinf_addr = Some (ls_kinf s')) as ->.
  { unfold kinf_at, KINF_SIZE in *. rewrite decide_True; [done|].
    split; apply Hself; unfold handed_page, page_of; try right; zlia. }
  rewrite Hkinf. split; [done|]. split; [done|]. intros ks.
  destruct (kmain_starts bspgptr gdtEntries idtp idtEntries isr_entry irq_entry (ls_kinf s') ks Hc) as (ks' & Ek & Hr & Hmm & _).
  { by rewrite Hkinf. } { rewrite Hkinf. by eexists. }
  exists ks'. rewrite <- Hkinf. split; [exact Ek|]. split; [exact Hr|]. rewrite Hmm. unfold mmap_of. by rewrite Hkinf.
Qed.
End boot.

(** ** Witnesses *)

(** A kernel without further parts. *)
Definition no_parts : LateParts unit := {|
  late_initPMM _ := mret tt; late_initTimers := mret tt; late_initTasking := mret tt; late_initPIT := mret tt;
  late_initACPI _ := mret tt; late_initVFS _ := mret tt; late_initLienzo _ := mret tt;
  late_createWindow _ _ _ _ := mret 0; late_drawWindow _ := mret tt; late_swapBuffer := mret tt
|}.

(** The loader's code and data, and free memory. *)
Definition jump_map : list EFI_MEMORY_DESCRIPTOR :=
  [Desc EfiLoaderCode 0x100000 0 4; Desc EfiLoaderData 0x104000 0 4; Desc EfiConventionalMemory 0x300000 0 4].
Definition jump_efi : Efi := pool_efi jump_map.
Definition jump_pool : @EfiPool jump_efi := pool_efi_pool jump_map.
Lemma jump_slack : @PoolSlack jump_efi jump_pool.
Proof. split. intros n s p t a Hn E Ha. injection E as <- _. cbn. lia. Qed.
Lemma jump_exit : @EfiExit jump_efi jump_pool small_firmware.
Proof. split; [intros [?]; exists 1|intros h key [?]; exists 0]; by eexists. Qed.

(** An empty root table at 0x5000 and a used up piece of memory for tables. *)
Definition jump_loader : loader :=
  LoaderState (Boot (set_global g_vbuffer 0x40000000 machine0) [] (replicate 40 empty_entry) 40 0 0 0x5000 0 0 0 0 0) no_kinf 0.

Lemma jump_ready : @boot_ready jump_efi jump_pool 0x10000 {[0x5000 := 4%nat]} jump_map 0x8000 0x105080 jump_loader.
Proof.
  split; [done|done|repeat constructor; vm_compute; congruence| |done|done|done|by vm_compute|by vm_compute].
  split.
  - apply empty_tree; [done|done|]. done.
  - split; [done|vm_compute; repeat split; congruence|vm_compute; congruence|intros a Ha; cbn in Ha; lia|].
    intros t l [<- _]%lookup_singleton_Some. split_and!; [done| |cbn; lia].
    intros a Ha Hf. change (0x40000000 <= a) in Hf. lia.
Qed.

Lemma loader_starts_kernel_witness :
  wp (@hand_over jump_efi small_firmware 0x8000 0x105080 5 0x100000) (λ r s', match r with
    | inl (entry', ptr) => entry' = 0x100000 ∧ sees s' 0x8010 = Some 0x8010 ∧ sees s' 0x105090 = Some 0x105090 ∧
        sees s' 0x300000 = None ∧
        ∃ k, kinf_at 0x105080 s' ptr = Some k ∧ bi_acpiptr k = 0xE0000 ∧ ∀ ks : kernel unit, ∃ ks',
          @kmain _ (@kernel_parts unit no_parts 0x4000 0x4100 0x4200 0x5000 (λ n, 0x10000 + n mod 32) (λ n, 0x20000 + n mod 16))
            k ks = @kmain_late unit no_parts k ks' ∧
          cpu_ready 0x4100 0x5000 (λ n, 0x10000 + n mod 32) (λ n, 0x20000 + n mod 16) (k_machine ks') ∧
          k_mmap ks' = MmapState (bt_entries (ls_boot s')) (bt_aentries (ls_boot s'))
            (Some (bt_kmmap (ls_boot s'))) (Some (bt_allocMap (ls_boot s')))
    | inr status => status ≠ EFI_SUCCESS
    end) jump_loader.
Proof.
  eapply wp_mono.
  { apply (@loader_starts_kernel jump_efi jump_pool jump_slack small_firmware jump_exit unit no_parts
      0x4000 0x4100 0x4200 0x5000 (λ n, 0x10000 + n mod 32) (λ n, 0x20000 + n mod 16) 0x10000 {[0x5000 := 4%nat]} jump_map
      0x8000 0x105080 5 0x100000 jump_loader).
    - by split; unfold apart; try (left; lia); try (right; lia); try lia; intros n; zlia.
    - exact jump_ready. }
  cbv beta. intros [[e ptr]|status] s' H; [|exact H]. destruct H as (-> & Hself & Hrest & _ & Hk).
  split_and!; [done| | | |exact Hk].
  - apply Hself; [lia|by left].
  - apply Hself; [lia|by right].
  - rewrite Hrest; [by vm_compute|by intros [H|H]|]. apply (bool_decide_unpack _). by vm_compute.
Defined.
