(* ===== verification/Dumps.v ===== *)
(** * The diagnostic output: dumpVMarker, dumpKmallocChain and kpanicInt

    What the dumps print, as data: one record per block of lines.  The loops, the
    tests and the memory they read are those of vmm.c, kmalloc.c and kutil.c. *)

From S2P Require Import Prelude Kmonad Mem Paging Kmalloc Task Vmm Ksym.

(** ** vmm.c *)

(** The array has [VTYPE_MAX_TYPE + 1] elements and 12 initialisers; [None] is a
    null pointer. *)
Definition vtypeToString : list (option string) :=
  (Some <$> ["FREE"%string; "HEAP"%string; "CODE"%string; "DATA"%string; "STACK"%string; "OTHER"%string;
             "USER"%string; "LCODE"%string; "LDATA"%string; "VIMEM"%string; "DEV"%string; "FILE"%string])
  ++ replicate 2 None.

(** The letter of a flag or a dash. *)
Definition flag_char (flags f : Z) (c : string) : string := if has flags f then c else "-".
Definition printVFlags (flags : Z) : string :=
  (flag_char flags VFLAG_WRITE "W" ++ flag_char flags VFLAG_EXEC "X" ++ flag_char flags VFLAG_UC "U" ++
   flag_char flags VFLAG_MAKE "M" ++ flag_char flags VFLAG_WT "T" ++ flag_char flags VFLAG_KERNEL "K" ++
   flag_char flags VFLAG_WC "C")%string.

Record vline := VLine { vl_base : Z; vl_end : Z; vl_pages : Z; vl_type : string; vl_flags : string }.

(** The string printed for a type: [array_get] faults behind the array, and printing
    the null pointer of a type without a name reads through it. *)
Definition type_name (type : Z) : M machine string :=
  name ← array_get vtypeToString type;
  match name with Some t => mret t | None => fail NullDeref end.

Definition dump_marker (head : Z) : M machine vline :=
  base ← ld 8 head;
  pages ← ld 4 (head + 8);
  flags ← ld 4 (head + 12);
  type ← ld 1 (head + 16);
  name ← type_name type;
  mret (VLine base (VMARKER_END base pages) pages name (printVFlags flags)).

Definition dumpVMarker (fuel : nat) (head : Z) : M machine (list vline) :=
  iter fuel (λ '(head, lines),
    if head =? 0 then mret (inr lines)
    else
      l ← dump_marker head;
      next ← ld 8 (head + 24);
      mret (inl (next, lines ++ [l]))) (head, []).

(** ** kmalloc.c *)

(** What [dumpKmallocBlock] prints of a block; the redzone is only looked at when
    [rdz] is set. *)
Record block_dump := BlockDump {
  bd_block : Z; bd_magic : Z; bd_allocated : Z; bd_free : Z; bd_border : bool; bd_prev : Z; bd_next : Z;
  bd_redzone_at : Z; bd_redzone : option Z
}.
Definition corrupted_magic (d : block_dump) : bool := negb (bd_magic d =? KHEAP_MAGIC).
Definition corrupted_redzone (d : block_dump) : bool :=
  match bd_redzone d with Some r => negb (r =? KHEAP_REDZONE_MAGIC) | None => false end.

Definition dumpKmallocBlock (block : Z) (rdz : bool) : M machine block_dump :=
  magic ← ld 2 block;
  allocated ← ld 4 (block + 4);
  free ← ld 4 (block + 8);
  border ← ld 1 (block + 12);
  prev ← ld 8 (block + 16);
  next ← ld 8 (block + 24);
  let red := KHEAP_REDZONE_OFFSET block allocated in
  r ← (if rdz then v ← ld 8 red; mret (Some v) else mret None);
  mret (BlockDump block magic allocated free (negb (border =? 0)) prev next red r).

(** One round of [dumpKmallocChain]; [ign] is [ignAddr]. *)
Definition chain_step (faultAddr : Z) (ign : bool) (st : Z * list block_dump)
    : M machine (Z * list block_dump + list block_dump) :=
  let '(block, out) := st in
  if block =? 0 then mret (inr out)
  else
    allocated ← ld 4 (block + 4);
    let rdz := negb ((faultAddr <=? KHEAP_REDZONE_OFFSET block allocated) && negb ign) in
    d ← dumpKmallocBlock block rdz;
    next ← ld 8 (block + 24);
    if (faultAddr <=? next) && negb ign then mret (inr (out ++ [d]))
    else if (faultAddr <=? u64 (next + 32)) && negb ign then mret (inr (out ++ [d]))
    else mret (inl (next, out ++ [d])).

Definition dumpKmallocChain (fuel : nat) (faultAddr : Z) : M machine (list block_dump) :=
  block ← gread g_startBlock;
  iter fuel (chain_step faultAddr (faultAddr <? block)) (block, []).

(** ** kutil.c *)

(** What [kpanicInt] prints after its banner before it stops the processor. *)
Definition kpanicInt (fuel : nat) (rbp : Z) : M machine (list vline * list trace_line) :=
  vm ← currentProcessVMarker;
  ms ← dumpVMarker fuel vm;
  ts ← stackTrace fuel rbp;
  mret (ms, ts).

(** ** Properties *)

(** The markers linked from [a] on, all of types that have a name in
    [vtypeToString]. *)
Definition named_type (type : Z) : Prop := ∃ t, nthZ vtypeToString type = Some (Some t).
Fixpoint marker_chain (m : gmap Z Z) (a : Z) (l : list Z) : Prop :=
  match l with
  | [] => a = 0
  | b :: l' => a = b ∧ b ≠ 0 ∧ named_type (load 1 m (b + 16)) ∧ marker_chain m (load 8 m (b + 24)) l'
  end.

Definition vline_of (m : gmap Z Z) (b : Z) : vline :=
  VLine (load 8 m b) (VMARKER_END (load 8 m b) (load 4 m (b + 8))) (load 4 m (b + 8))
    (default "?"%string (mjoin (nthZ vtypeToString (load 1 m (b + 16))))) (printVFlags (load 4 m (b + 12))).

Lemma dump_marker_ok b s :
  named_type (load 1 (memory s) (b + 16)) → dump_marker b s = Ok (vline_of (memory s) b) s.
Proof.
  intros [t Ht]. unfold dump_marker, vline_of. repeat mstep.
  assert (type_name (load 1 (memory s) (b + 16)) s = Ok t s) as E
    by (unfold type_name, array_get; by rewrite Ht).
  rewrite (bind_ok _ _ _ _ _ E). by rewrite Ht.
Qed.

(** The dump of a marker of type [VTYPE_FILE], which has no name, faults. *)
Lemma dump_marker_nameless b s :
  load 1 (memory s) (b + 16) = vType_value VTYPE_FILE → dump_marker b s = Fault NullDeref.
Proof.
  intros Ht. unfold dump_marker. repeat mstep. apply bind_fault. unfold type_name. by rewrite Ht.
Qed.

(** On a list that ends, [dumpVMarker] ends and shows every marker in order. *)
Lemma dumpVMarker_ok fuel a l s :
  marker_chain (memory s) a l → (length l < fuel)%nat → dumpVMarker fuel a s = Ok (vline_of (memory s) <$> l) s.
Proof.
  intros Hc Hf. unfold dumpVMarker.
  assert (∀ out, iter fuel (λ '(head, lines), if head =? 0 then mret (inr lines)
    else l ← dump_marker head; next ← ld 8 (head + 24); mret (inl (next, lines ++ [l]))) (a, out) s =
    Ok (out ++ (vline_of (memory s) <$> l)) s) as H; [|apply H].
  revert a fuel Hc Hf. induction l as [|b l IH]; intros a [|fuel] Hc Hf out; simpl in Hf; try lia; cbn [iter].
  - cbn in Hc. rewrite Hc. cbn. by rewrite app_nil_r.
  - destruct Hc as (-> & Hb & Ht & Hc). rewrite eqb_false by done.
    erewrite bind_ok; [|rewrite (bind_ok _ _ _ _ _ (dump_marker_ok b s Ht)); reflexivity].
    cbv beta iota. rewrite (IH _ fuel Hc) by lia. by rewrite <- app_assoc.
Qed.

(** The blocks linked from [a] on. *)
Fixpoint block_chain (m : gmap Z Z) (a : Z) (l : list Z) : Prop :=
  match l with
  | [] => a = 0
  | b :: l' => a = b ∧ 0 < b < 2 ^ 63 ∧ block_chain m (load 8 m (b + 24)) l'
  end.

Definition dump_of (s : machine) (b : Z) (rdz : bool) : block_dump :=
  let m := memory s in
  let red := KHEAP_REDZONE_OFFSET b (load 4 m (b + 4)) in
  BlockDump b (load 2 m b) (load 4 m (b + 4)) (load 4 m (b + 8)) (negb (load 1 m (b + 12) =? 0))
    (load 8 m (b + 16)) (load 8 m (b + 24)) red (if rdz then Some (load 8 m red) else None).

Lemma dumpKmallocBlock_ok s b rdz : dumpKmallocBlock b rdz s = Ok (dump_of s b rdz) s.
Proof. unfold dumpKmallocBlock. run. by destruct rdz. Qed.

(** The blocks a dump shows: the first and those whose header ends below the
    fault, up to the first that does not. *)
Fixpoint shown (faultAddr : Z) (ign : bool) (l : list Z) : list Z :=
  match l with
  | [] => []
  | b :: l' => if (faultAddr <=? b + 32) && negb ign then [] else b :: shown faultAddr ign l'
  end.

(** Whether the redzone of [b] is looked at. *)
Definition redzone_shown (s : machine) (faultAddr : Z) (ign : bool) (b : Z) : bool :=
  negb ((faultAddr <=? KHEAP_REDZONE_OFFSET b (load 4 (memory s) (b + 4))) && negb ign).

Lemma chain_step_ok s faultAddr ign b out :
  b ≠ 0 → load 8 (memory s) (b + 24) + 32 < 2 ^ 64 →
  chain_step faultAddr ign (b, out) s =
    let next := load 8 (memory s) (b + 24) in
    let out' := out ++ [dump_of s b (redzone_shown s faultAddr ign b)] in
    Ok (if (faultAddr <=? next + 32) && negb ign then inr out' else inl (next, out')) s.
Proof.
  intros Hb Hn. unfold chain_step. rewrite eqb_false by done. mstep.
  rewrite (bind_ok _ _ _ _ _ (dumpKmallocBlock_ok s b _)). mstep. pose proof (load_8_range (memory s) (b + 24)).
  rewrite u64_id by lia. fold (redzone_shown s faultAddr ign b). set (next := load 8 _ _) in *.
  destruct ign; cbn [negb]; rewrite ?andb_false_r, ?andb_true_r; [done|].
  destruct (Z.leb_spec faultAddr next); [by rewrite leb_true by lia|]. by destruct (faultAddr <=? next + 32).
Qed.

Lemma redzone_below s faultAddr ign b r :
  let d := dump_of s b (redzone_shown s faultAddr ign b) in
  bd_redzone d = Some r → ign = true ∨ bd_redzone_at d < faultAddr.
Proof.
  intros d. subst d. unfold redzone_shown, dump_of. cbn [bd_redzone bd_redzone_at].
  destruct ign; [by left|]. rewrite andb_true_r.
  destruct (Z.leb_spec faultAddr (KHEAP_REDZONE_OFFSET b (load 4 (memory s) (b + 4)))); [done|by right].
Qed.

Lemma chain_loop faultAddr ign s l : ∀ fuel b out,
  32 < faultAddr → block_chain (memory s) b (b :: l) → (length l < fuel)%nat →
  ∃ ds, iter (S fuel) (chain_step faultAddr ign) (b, out) s = Ok (out ++ ds) s ∧
    bd_block <$> ds = b :: shown faultAddr ign l ∧
    Forall (λ d, ∀ r, bd_redzone d = Some r → ign = true ∨ bd_redzone_at d < faultAddr) ds.
Proof.
  induction l as [|c l IH]; intros fuel b out Hfa (_ & Hb & Hc) Hf;
    set (d := dump_of s b (redzone_shown s faultAddr ign b)); cbn [iter].
  - cbn in Hc. rewrite (bind_ok _ _ _ _ _ (chain_step_ok s faultAddr ign b out ltac:(lia) ltac:(lia))).
    cbv zeta. rewrite Hc. rewrite leb_false by lia. cbn [andb]. fold d.
    exists [d]. destruct fuel as [|fuel]; [lia|]. cbn [iter].
    split_and!; [done|done|]. constructor; [|constructor]. intros r. apply redzone_below.
  - destruct Hc as (Hn & Hcr & Hc). cbn in Hf. destruct fuel as [|fuel]; [lia|].
    rewrite (bind_ok _ _ _ _ _ (chain_step_ok s faultAddr ign b out ltac:(lia) ltac:(lia))).
    cbv zeta. rewrite Hn. fold d. cbn [shown].
    destruct ((faultAddr <=? c + 32) && negb ign).
    + exists [d]. split_and!; [done|done|]. constructor; [|constructor]. intros r. apply redzone_below.
    + destruct (IH fuel c (out ++ [d]) Hfa) as (ds & E & Hds & HF); [by split; [done|split; [exact Hcr|exact Hc]]|lia|].
      exists (d :: ds). split_and!.
      * rewrite E. by rewrite <- app_assoc.
      * cbn. by f_equal.
      * constructor; [intros r; apply redzone_below|done].
Qed.

(** on a chain that ends, [dumpKmallocChain] ends; it shows the first block
    and the ones after it up to the first whose header does not end below the
    faulting address, and reads no redzone that starts at that address or
    above, so that a dump in the fault handler does not fault there again. *)
Theorem dumpKmallocChain_stops fuel faultAddr b l s :
  globals s g_startBlock = b → 32 < faultAddr → block_chain (memory s) b (b :: l) → (length l < fuel)%nat →
  ∃ ds, dumpKmallocChain (S fuel) faultAddr s = Ok ds s ∧
    bd_block <$> ds = b :: shown faultAddr (faultAddr <? b) l ∧
    Forall (λ d, ∀ r, bd_redzone d = Some r → faultAddr < b ∨ bd_redzone_at d < faultAddr) ds.
Proof.
  intros Hb Hfa Hc Hf. unfold dumpKmallocChain. mstep. rewrite Hb.
  destruct (chain_loop faultAddr (faultAddr <? b) s l fuel b [] Hfa Hc Hf) as (ds & E & Hds & HF).
  exists ds. split_and!; [exact E|exact Hds|]. eapply Forall_impl; [exact HF|].
  cbv beta. intros d H r Hr. destruct (H r Hr) as [Hl|]; [left; by apply Z.ltb_lt|by right].
Qed.

(** Two blocks at 0x1000 and 0x1100; the fault is at 0x1110. *)
Definition dump_machine : machine :=
  set_global g_startBlock 0x1000 (set_memory (store 8 (store 4 (store 4 ∅ 0x1004 0xB8) 0x1104 0x40) 0x1018 0x1100) machine0).
Lemma dumpKmallocChain_stops_witness :
  ∃ ds, dumpKmallocChain 3 0x1110 dump_machine = Ok ds dump_machine ∧
    bd_block <$> ds = 0x1000 :: shown 0x1110 (0x1110 <? 0x1000) [0x1100] ∧
    Forall (λ d, ∀ r, bd_redzone d = Some r → 0x1110 < 0x1000 ∨ bd_redzone_at d < 0x1110) ds.
Proof.
  apply (dumpKmallocChain_stops 2 0x1110 0x1000 [0x1100] dump_machine); [done|lia| |simpl; lia].
  split_and!; try lia. change (load 8 (memory dump_machine) (0x1000 + 24)) with 0x1100.
  by split_and!; try lia.
Defined.
