(* ===== verification/FaultHandlers.v ===== *)
(** * The exception handlers: gp.c, pf.c, de.c, db.c, op.c and dumpRegisters

    What a handler prints before it stops the processor, as a list of items in
    the order of the output.  [cr2], [cr3] are the control registers at the time of
    the fault; [fuel] bounds the walks of the marker list and the stack.  Banners, and
    the '[Invalid entry]' the quiet [getPageInfo] prints, are left out. *)

From S2P Require Import Prelude Kmonad Mem Layout Mmap Paging PagingProps Kmalloc Task Vmm Ksym Cpu Faults Dumps.

(** [registers] (cpu.h). *)
Definition regs : layout := Layout Packed (U64 <$>
  ["r15"%string; "r14"%string; "r13"%string; "r12"%string; "r11"%string; "r10"%string; "r9"%string; "r8"%string;
   "rbp"%string; "rdi"%string; "rsi"%string; "rdx"%string; "rcx"%string; "rbx"%string; "rax"%string; "ec"%string;
   "rip"%string; "cs"%string; "rflags"%string; "rsp"%string; "ss"%string]).

(** Read the globals of mmap.c, which no handler changes. *)
Definition with_mmap {A} (mm : mmap_state) (m : M mmap_state A) : M machine A :=
  λ s, match m mm with Ok a _ => Ok a s | Fault e => Fault e end.

(** ** getPageInfo with its prints *)

Inductive walk_line :=
  | WTable (level : string) (index table : Z)
  | WNone (level : string)
  | WEntry (entry : Z)
  | WInvalid.

(** The third and the fourth test are on [pdpe] again, so the entry is read and
    printed through a null page table as well. *)
Definition getPageInfo_print (cr3 virt : Z) : M machine (list walk_line * Z) :=
  let pml := WTable "PML" (PML_ENTRY virt) cr3 in
  e1 ← ld 8 (cr3 + 8 * PML_ENTRY virt);
  let pdpe := TABLE_BASE e1 in
  if pdpe =? 0 then mret ([pml; WNone "PDPE"], 0)
  else
    let l1 := [pml; WTable "PDPE" (PDPE_ENTRY virt) pdpe] in
    e2 ← ld 8 (pdpe + 8 * PDPE_ENTRY virt);
    let pde := TABLE_BASE e2 in
    let l2 := l1 ++ [WTable "PDE" (PDE_ENTRY virt) pde] in
    if pde =? 0 then mret (l2 ++ [WInvalid], 0)
    else
      e3 ← ld 8 (pde + 8 * PDE_ENTRY virt);
      let pte := TABLE_BASE e3 in
      e ← ld 8 (pte + 8 * PTE_ENTRY virt);
      let l3 := l2 ++ [WTable "PTE" (PTE_ENTRY virt) pte; WEntry e] in
      if pte =? 0 then mret (l3, 0)
      else e ← ld 8 (pte + 8 * PTE_ENTRY virt); mret (l3, e).

(** ** The handlers *)

Inductive dump_item :=
  | Text (r : report)
  | PageWalk (w : list walk_line)
  | Markers (l : list vline)
  | MapEntry (alloc : bool) (type : string) (phys virt : Z) (align parsed : bool) (bytes : Z)
  | MemoryMap (l : list mmap_line)
  | Registers (l : report)
  | Stack (l : list trace_line).

Section handlers.
Variables (fuel : nat) (cr2 cr3 : Z) (mm : mmap_state).

(** The registers in the order [dumpRegisters] prints them. *)
Definition printed_registers : list string :=
["rax"%string; "rcx"%string; "rbx"%string; "rdi"%string; "rsi"%string; "rdx"%string; "rip"%string; "rbp"%string;
 "rsp"%string; "r8"%string; "r9"%string; "r10"%string; "r11"%string; "r12"%string; "r13"%string; "r14"%string;
 "r15"%string; "cs"%string; "ss"%string; "ec"%string; "rflags"%string].

Fixpoint read_registers (names : list string) (reg : Z) : M machine report :=
match names with
| [] => mret []
| x :: names' => v ← ldf regs x reg; r ← read_registers names' reg; mret (line1 x v ++ r)
end.

Definition dumpRegisters (reg : Z) : M machine (list dump_item) :=
r ← read_registers printed_registers reg;
rbp ← ldf regs "rbp" reg;
t ← stackTrace fuel rbp;
mret [Registers (r ++ line1 "CR2" cr2 ++ line1 "CR3" cr3); Stack t].

Definition dump_markers : M machine dump_item :=
vm ← currentProcessVMarker; l ← dumpVMarker fuel vm; mret (Markers l).

(** The lines of the entry the frame is in and of the maps. *)
Definition entry_dump (alloc : bool) (e : mmapEntry) : M mmap_state (list dump_item) :=
t ← array_get mmapTypeString (me_type e);
d ← dumpMmap;
mret [MapEntry alloc t (me_phys e) (me_virt e) (flag_set e MMAP_FLAG_ALIGN) (flag_set e MMAP_FLAG_PARSED) (me_bytes e);
      MemoryMap d].

(** The part of [pageFault] that looks the frame up in the two maps. *)
Definition mapping_dump (phys : Z) : M mmap_state (list dump_item) :=
m ← getMmapEntry phys;
a ← getAllocMapEntry phys;
s ← get;
match a, m with
| None, None => mret [Text (line "No relevant mmap entry found")]
| Some i, _ => e ← map_get (allocMap s) i; entry_dump true e
| None, Some i => e ← map_get (mmap s) i; entry_dump false e
end.

Definition pageFault_dump (reg : Z) : M machine (list dump_item) :=
ec ← ldf regs "ec" reg;
page ← getPageInfo cr3 cr2;
rip ← ldf regs "rip" reg;
'(walk, rawpe) ← getPageInfo_print cr3 cr2;
vm ← dump_markers;
maps ← (if rawpe =? 0 then mret [] else with_mmap mm (mapping_dump (TABLE_BASE rawpe)));
rs ← dumpRegisters reg;
mret ([Text (pf_report ec cr3 cr2 rip page); PageWalk walk; vm] ++ maps ++ rs).

Definition generalProtectionFault_dump (reg : Z) : M machine (list dump_item) :=
ec ← ldf regs "ec" reg;
phys ← virtToPhys cr2;
vm ← dump_markers;
rs ← dumpRegisters reg;
mret ([Text (gp_report ec ++ line1 "Potential fault addr: 0x%lx" cr2 ++
         (if phys =? 0 then line "Address is not mapped" else line1 "Addr is mapped to 0x%lx" phys)); vm] ++ rs).

(** The [for(;;){asm("hlt");}] every handler ends in. *)
Definition halt_after {S A} (m : M S A) : M S unit := _ ← m; fail Halt.

Definition divByZero_handler (reg : Z) : M machine unit := halt_after (dumpRegisters reg).
Definition debugException_handler (reg : Z) : M machine unit := halt_after (dumpRegisters reg).
Definition invalidOpcode_handler (reg : Z) : M machine unit := halt_after (dumpRegisters reg).
Definition generalProtectionFault_handler (reg : Z) : M machine unit := halt_after (generalProtectionFault_dump reg).
Definition pageFault_handler (reg : Z) : M machine unit := halt_after (pageFault_dump reg).

Definition fault_handlers : ExceptionHandlers := {|
divByZero := divByZero_handler;
debugException := debugException_handler;
invalidOpcode := invalidOpcode_handler;
generalProtectionFault := generalProtectionFault_handler;
pageFault := pageFault_handler
|}.
End handlers.

(** ** What the handlers show *)

(** The walk of the tables at [cr3] and the entry it ends in. *)
Definition page_walk (m : gmap Z Z) (cr3 virt : Z) : list walk_line * Z :=
  let pdpe := child m cr3 (PML_ENTRY virt) in
  let pde := child m pdpe (PDPE_ENTRY virt) in
  let pte := child m pde (PDE_ENTRY virt) in
  let e := load 8 m (pte + 8 * PTE_ENTRY virt) in
  let pml := WTable "PML" (PML_ENTRY virt) cr3 in
  let upper := [WTable "PDPE" (PDPE_ENTRY virt) pdpe; WTable "PDE" (PDE_ENTRY virt) pde] in
  if pdpe =? 0 then ([pml; WNone "PDPE"], 0)
  else if pde =? 0 then (pml :: upper ++ [WInvalid], 0)
  else (pml :: upper ++ [WTable "PTE" (PTE_ENTRY virt) pte; WEntry e], if pte =? 0 then 0 else e).

Definition register_value (m : gmap Z Z) (reg : Z) (x : string) : Z := load (fsize regs x) m (reg + fld regs x).

(** The registers, the control registers and the frames [fs]. *)
Definition register_items (s : machine) (cr2 cr3 reg : Z) (fs : list Z) : list dump_item :=
  [Registers ((printed_registers ≫= λ x, line1 x (register_value (memory s) reg x)) ++ line1 "CR2" cr2 ++ line1 "CR3" cr3);
   Stack (line_of s <$> fs)].

(** The entry of the allocation map, or else of the memory map, the frame is in,
    with both maps. *)
Definition entry_items (l al : list mmapEntry) (alloc : bool) (e : mmapEntry) : list dump_item :=
  [MapEntry alloc (default "?"%string (nthZ mmapTypeString (me_type e))) (me_phys e) (me_virt e)
     (flag_set e MMAP_FLAG_ALIGN) (flag_set e MMAP_FLAG_PARSED) (me_bytes e);
   MemoryMap (omap line_of_entry l ++ omap line_of_entry al)].
Definition mapping_items (l al : list mmapEntry) (phys : Z) : list dump_item :=
  match find (entry_covers phys) al, find (entry_covers phys) l with
  | Some e, _ => entry_items l al true e
  | None, Some e => entry_items l al false e
  | None, None => [Text (line "No relevant mmap entry found")]
  end.

Definition pageFault_items (s : machine) (cr2 cr3 reg : Z) (l al : list mmapEntry) (ms fs : list Z) : list dump_item :=
  let m := memory s in
  let '(walk, e) := page_walk m cr3 cr2 in
  [Text (pf_report (register_value m reg "ec") cr3 cr2 (register_value m reg "rip") e); PageWalk walk;
   Markers (vline_of m <$> ms)] ++
  (if e =? 0 then [] else mapping_items l al (TABLE_BASE e)) ++ register_items s cr2 cr3 reg fs.

Definition generalProtectionFault_items (s : machine) (cr2 cr3 reg space : Z) (ms fs : list Z) : list dump_item :=
  let m := memory s in
  let phys := translate m space cr2 in
  [Text (gp_report (register_value m reg "ec") ++ line1 "Potential fault addr: 0x%lx" cr2 ++
         (if phys =? 0 then line "Address is not mapped" else line1 "Addr is mapped to 0x%lx" phys));
   Markers (vline_of m <$> ms)] ++ register_items s cr2 cr3 reg fs.

(** ** The walk with its prints *)

Lemma getPageInfo_print_ok cr3 virt s : getPageInfo_print cr3 virt s = Ok (page_walk (memory s) cr3 virt) s.
Proof.
  unfold getPageInfo_print, page_walk, child. run. destruct (_ =? 0); [done|].
  run. destruct (_ =? 0); [done|]. run. by destruct (_ =? 0).
Qed.

(** The quiet walk ends in the same entry. *)
Lemma getPageInfo_ok cr3 virt s : getPageInfo cr3 virt s = Ok (page_walk (memory s) cr3 virt).2 s.
Proof.
  unfold getPageInfo, page_walk, child. run. destruct (_ =? 0); [done|].
  run. destruct (_ =? 0); [done|]. run. by destruct (_ =? 0).
Qed.

(** ** The handlers end *)

Lemma read_registers_ok names reg s :
  read_registers names reg s = Ok (names ≫= λ x, line1 x (register_value (memory s) reg x)) s.
Proof.
  induction names as [|x names IH]; [done|]. cbn [read_registers]. unfold ldf. mstep.
  by rewrite (bind_ok _ _ _ _ _ IH).
Qed.

(** The maps start with the entries [l] and [al], all of known types; there are
    [entries] of both. *)
Definition maps_known (mm : mmap_state) (l al : list mmapEntry) : Prop :=
  ∃ rest arest, mmap mm = Some (l ++ rest) ∧ allocMap mm = Some (al ++ arest) ∧
    entries mm = Z.of_nat (length l) ∧ entries mm = Z.of_nat (length al) ∧
    Forall type_known l ∧ Forall type_known al.

(** The current task [t] has a page space, its markers [ms] end and have types
    with a name, and so do the frames [fs] of the interrupted code. *)
Record dumpable (fuel : nat) (mm : mmap_state) (l al : list mmapEntry) (reg t : Z) (ms fs : list Z)
  (s : machine) : Prop := {
  dp_current : getCurrentTask s = Ok t s;
  dp_ticket : t ≠ 0;
  dp_space : load 8 (memory s) (t + 64) ≠ 0;
  dp_markers : marker_chain (memory s) (load 8 (memory s) (t + 48)) ms;
  dp_frames : frame_chain (memory s) fs;
  dp_rbp : head fs = Some (load 8 (memory s) (reg + fld regs "rbp"));
  dp_fuel : (length ms + length fs < fuel)%nat;
  dp_maps : maps_known mm l al
}.

Section halts.
Context (fuel : nat) (cr2 cr3 : Z) (mm : mmap_state) (l al : list mmapEntry) (reg t : Z) (ms fs : list Z).
Context (s : machine) (D : dumpable fuel mm l al reg t ms fs s).

Lemma dumpRegisters_ok : dumpRegisters fuel cr2 cr3 reg s = Ok (register_items s cr2 cr3 reg fs) s.
Proof.
unfold dumpRegisters. rewrite (bind_ok _ _ _ _ _ (read_registers_ok printed_registers reg s)). unfold ldf. mstep.
pose proof (dp_rbp _ _ _ _ _ _ _ _ _ D) as Hr. pose proof (dp_frames _ _ _ _ _ _ _ _ _ D) as Hf.
pose proof (dp_fuel _ _ _ _ _ _ _ _ _ D) as Hn. destruct fs as [|f fl]; [done|].
injection Hr as Hr. change (fsize regs "rbp") with 8%nat. rewrite <- Hr. unfold stackTrace.
by rewrite (bind_ok _ _ _ _ _ (trace_loop f fl s fuel [] Hf ltac:(simpl in Hn; lia))).
Qed.

Lemma dump_markers_ok : dump_markers fuel s = Ok (Markers (vline_of (memory s) <$> ms)) s.
Proof.
destruct D. unfold dump_markers, currentProcessVMarker.
erewrite bind_ok; [|rewrite (bind_ok _ _ _ _ _ dp_current0); rewrite eqb_false by done; reflexivity].
by rewrite (bind_ok _ _ _ _ _ (dumpVMarker_ok fuel _ ms s dp_markers0 ltac:(lia))).
Qed.

Lemma virtToPhys_ok virt : virtToPhys virt s = Ok (translate (memory s) (load 8 (memory s) (t + 64)) virt) s.
Proof.
destruct D. unfold virtToPhys. rewrite (bind_ok _ _ _ _ _ dp_current0). rewrite eqb_false by done. cbn [negb].
mstep. mstep. rewrite eqb_false by done. cbn [negb]. mstep. apply virtToPhysInt_translate.
Qed.

Lemma find_from_find (k : list mmapEntry) p i :
match find_from p k i with
| Some j => ∃ e, find p k = Some e ∧ e ∈ k ∧ nthZ k (j - i) = Some e ∧ i <= j
| None => find p k = None
end.
Proof.
revert i. induction k as [|e k IH]; intros i; [done|]. cbn [find_from find]. destruct (p e).
- exists e. rewrite Z.sub_diag. split_and!; [done|by left|done|lia].
- specialize (IH (i + 1)). destruct (find_from p k (i + 1)) as [j|]; [|done].
  destruct IH as (e' & Hf & He & Hn & Hj). exists e'. split_and!; [done|by right| |lia].
  unfold nthZ in *. rewrite decide_True in * by lia. rewrite decide_True in Hn by lia.
  replace (Z.to_nat (j - i)) with (S (Z.to_nat (j - (i + 1)))) by lia. exact Hn.
Qed.

Lemma entry_get (k rest : list mmapEntry) j e :
nthZ k (j - 0) = Some e → map_get (S := mmap_state) (Some (k ++ rest)) j mm = Ok e mm.
Proof.
rewrite Z.sub_0_r. intros Hn. unfold map_get, array_get. pose proof (nthZ_Some _ _ _ Hn).
unfold nthZ in *. rewrite decide_True in * by lia. by rewrite lookup_app_l, Hn by lia.
Qed.

Lemma entry_dump_ok alloc e :
type_known e → dumpMmap mm = Ok (omap line_of_entry l ++ omap line_of_entry al) mm →
entry_dump alloc e mm = Ok (entry_items l al alloc e) mm.
Proof.
intros H Hd. unfold entry_dump, entry_items, array_get. destruct (nthZ_is_Some mmapTypeString (me_type e)) as [x ->].
- unfold type_known, MMAP_TYPE_MAX in H. simpl. lia.
- mstep. by rewrite (bind_ok _ _ _ _ _ Hd).
Qed.

Lemma mapping_dump_ok phys : mapping_dump phys mm = Ok (mapping_items l al phys) mm.
Proof.
destruct (dp_maps _ _ _ _ _ _ _ _ _ D) as (rest & arest & Hm & Ha & Hl & Hal & Hk & Hka).
pose proof (dumpMmap_ok mm l rest al arest Hm Ha Hl Hal Hk Hka) as Hd.
unfold mapping_dump, mapping_items.
rewrite (bind_ok _ _ _ _ _ (getMmapEntry_first mm l rest false phys Hm Hl)).
rewrite (bind_ok _ _ _ _ _ (getMmapEntry_first mm al arest true phys Ha Hal)). mstep. rewrite Ha, Hm.
rewrite Forall_forall in Hk, Hka.
pose proof (find_from_find al (entry_covers phys) 0) as Fa. pose proof (find_from_find l (entry_covers phys) 0) as Fl.
destruct (find_from _ al 0) as [k|].
- destruct Fa as (e & -> & He & Hn & _). rewrite (bind_ok _ _ _ _ _ (entry_get al arest k e Hn)).
  by apply entry_dump_ok; [apply Hka|].
- rewrite Fa. destruct (find_from _ l 0) as [k|]; [|by rewrite Fl].
  destruct Fl as (e & -> & He & Hn & _). rewrite (bind_ok _ _ _ _ _ (entry_get l rest k e Hn)).
  by apply entry_dump_ok; [apply Hk|].
Qed.

Lemma pageFault_dump_ok :
pageFault_dump fuel cr2 cr3 mm reg s = Ok (pageFault_items s cr2 cr3 reg l al ms fs) s.
Proof.
unfold pageFault_dump, pageFault_items, ldf. mstep. rewrite (bind_ok _ _ _ _ _ (getPageInfo_ok cr3 cr2 s)). mstep.
rewrite (bind_ok _ _ _ _ _ (getPageInfo_print_ok cr3 cr2 s)).
destruct (page_walk (memory s) cr3 cr2) as [w e]. cbn [snd].
rewrite (bind_ok _ _ _ _ _ dump_markers_ok).
assert ((if e =? 0 then mret [] else with_mmap mm (mapping_dump (TABLE_BASE e))) s =
  Ok (if e =? 0 then [] else mapping_items l al (TABLE_BASE e)) s) as Em.
{ destruct (e =? 0); [done|]. unfold with_mmap. by rewrite mapping_dump_ok. }
by rewrite (bind_ok _ _ _ _ _ Em), (bind_ok _ _ _ _ _ dumpRegisters_ok).
Qed.

Lemma generalProtectionFault_dump_ok :
generalProtectionFault_dump fuel cr2 cr3 reg s =
Ok (generalProtectionFault_items s cr2 cr3 reg (load 8 (memory s) (t + 64)) ms fs) s.
Proof.
unfold generalProtectionFault_dump, generalProtectionFault_items, ldf. mstep.
rewrite (bind_ok _ _ _ _ _ (virtToPhys_ok cr2)), (bind_ok _ _ _ _ _ dump_markers_ok).
by rewrite (bind_ok _ _ _ _ _ dumpRegisters_ok).
Qed.
End halts.

(** ** Properties *)


(** A page fault of a mapped frame that no allocation covers faults again in the
    handler when the allocation map is shorter than the memory map. *)
Lemma pageFault_overruns fuel cr2 cr3 mm dl dal reg t ms fs s l rest al :
  dumpable fuel (MmapState (entries mm) (aentries mm) (mmap mm) (mmap mm)) dl dal reg t ms fs s →
  mmap mm = Some (l ++ rest) → entries mm = Z.of_nat (length l) → allocMap mm = Some al →
  Z.of_nat (length al) < entries mm →
  (∀ v, getPageInfo cr3 cr2 s = Ok v s → v ≠ 0 ∧ Forall (λ e, entry_covers (TABLE_BASE v) e = false) al) →
  pageFault_dump fuel cr2 cr3 mm reg s = Fault OutOfBounds.
Proof.
  intros D Hm Hl Ha Hal Hv. unfold pageFault_dump, ldf. mstep.
  destruct (Hv _ (getPageInfo_ok cr3 cr2 s)) as [Hv0 Hc].
  rewrite (bind_ok _ _ _ _ _ (getPageInfo_ok cr3 cr2 s)). mstep.
  rewrite (bind_ok _ _ _ _ _ (getPageInfo_print_ok cr3 cr2 s)).
  destruct (page_walk (memory s) cr3 cr2) as [w v]. cbn [snd] in *.
  rewrite (bind_ok _ _ _ _ _ (dump_markers_ok _ _ _ _ _ _ _ _ _ D)).
  apply bind_fault. rewrite eqb_false by done. unfold with_mmap, mapping_dump.
  rewrite (bind_ok _ _ _ _ _ (getMmapEntry_first mm l rest false (TABLE_BASE v) Hm Hl)).
  by rewrite (bind_fault _ _ _ _ (getAllocMapEntry_overruns mm al (TABLE_BASE v) Ha Hc Hal)).
Qed.

(** ** Witnesses *)

(** The current task at 0x1000 (scheduler at 0x900), its page space at 0x2000, one
    marker at 0x3000; the registers at 0x4000 with the frame at 0x5000. *)
Definition fault_machine : machine :=
  set_global g_scheduler 0x900 (set_memory
    (store 8 (store 1 (store 8 (store 8 (store 8 ∅ 0x918 0x1000) 0x1030 0x3000) 0x1040 0x2000) 0x3010 1)
       0x4040 0x5000) machine0).
Definition fault_maps : mmap_state := MmapState 2 2 (Some map2) (Some map2).

