(* ===== verification/ArmMem.v ===== *)
(** * The aarch64 boot loader's memory (src/Bootloader/aarch64/mem.c)

    The memory map and the allocation map are arrays in the memory it was given
    (fields the code does not write count as 0);
    both are lists of the entries written so far, and an access past what was
    written is out of bounds.  The first word of an entry is [offset]. *)

From S2P Require Import Prelude Kmonad Mem Mmap.

Record arm_state := Arm {
  am_base : Z; am_max : Z; am_cursor : Z;
  am_mmap : list mmapEntry; am_amap : list mmapEntry;
  am_mmapEntries : Z; am_allocEntries : Z; am_ldAddr : Z; am_ldSize : Z; am_pageBase : Z
}.
Definition arm0 : arm_state := Arm 0 0 0 [] [] 0 0 0 0 0.

(** [offset] of an entry. *)
Definition me_offset (e : mmapEntry) : Z := me_magic e.

(** Writing entry [cursor]: the entry after the last one is new. *)
Definition put_entry (l : list mmapEntry) (i : Z) (e : mmapEntry) : M arm_state (list mmapEntry) :=
  if i <? Z.of_nat (length l) then mret (updZ l i e)
  else if i =? Z.of_nat (length l) then mret (l ++ [e])
  else fail OutOfBounds.

Definition addMmapEntry (phys virt len type : Z) : M arm_state unit :=
  s ← get;
  l ← put_entry (am_mmap s) (am_cursor s) (MmapEntry 0 0 type phys virt len);
  put (Arm (am_base s) (am_max s) (u64 (am_cursor s + 1)) l (am_amap s) (am_mmapEntries s)
         (am_allocEntries s) (am_ldAddr s) (am_ldSize s) (am_pageBase s)).

Definition addAllocation (phys virt sz type : Z) : M arm_state unit :=
  s ← get;
  l ← put_entry (am_amap s) (am_cursor s) (MmapEntry 0 0 type phys virt sz);
  put (Arm (am_base s) (am_max s) (u64 (am_cursor s + 1)) (am_mmap s) l (am_mmapEntries s)
         (u64 (am_allocEntries s + 1)) (am_ldAddr s) (am_ldSize s) (am_pageBase s)).

Definition initAllocmmap : M arm_state unit :=
  s ← get;
  put (Arm (am_base s) (am_max s) 1 (am_mmap s)
         [MmapEntry 0 0 MMAP_TYPE_BOOT (am_base s) (am_base s) (am_max s)]
         (am_cursor s) 1 (am_ldAddr s) (am_ldSize s) (am_pageBase s)).

Definition arm_initMem (mem sz loaderAddr loaderSize : Z) : M arm_state unit :=
  s ← get;
  put (Arm mem sz (am_cursor s) (am_mmap s) (am_amap s) (am_mmapEntries s) (am_allocEntries s)
         loaderAddr loaderSize (am_pageBase s)).

(** The size rounded up to pages. *)
Definition round_size (sz : Z) : Z :=
  if sz mod 0x1000 =? 0 then sz else Z.land (u64 (sz + 0x1000)) (u64 (Z.lnot 0xFFF)).

Definition set_offset (o : Z) (e : mmapEntry) : mmapEntry :=
  MmapEntry o (me_flags e) (me_type e) (me_phys e) (me_virt e) (me_bytes e).

(** The search of [allocMem] from entry [i] on, [n] entries: the address. *)
Fixpoint alloc_search (n : nat) (i sz : Z) : M arm_state (option Z) :=
  match n with
  | O => mret None
  | S n' =>
      s ← get;
      e ← array_get (am_mmap s) i;
      if negb (me_type e =? MMAP_TYPE_FREE) then alloc_search n' (i + 1) sz
      else if me_bytes e <=? u64 (me_offset e + sz) then alloc_search n' (i + 1) sz
      else
        let addr := u64 (me_phys e + sz) in
        l ← array_set (am_mmap s) i (set_offset (u64 (me_offset e + sz)) e);
        _ ← put (Arm (am_base s) (am_max s) (am_cursor s) l (am_amap s) (am_mmapEntries s)
                  (am_allocEntries s) (am_ldAddr s) (am_ldSize s) (am_pageBase s));
        mret (Some addr)
  end.

(** [allocMem]; 0 for NULL. *)
Definition allocMem (size type virt : Z) (map : bool) : M arm_state Z :=
  let sz := round_size size in
  s ← get;
  r ← alloc_search (Z.to_nat (am_mmapEntries s)) 0 sz;
  match r with
  | None => mret 0
  | Some addr =>
      let va := if map && negb (virt =? 1) then virt else addr in
      _ ← addAllocation addr va sz type;
      mret addr
  end.

Definition arm_initPaging : M arm_state unit :=
  p ← allocMem (8 * 512) MMAP_TYPE_PAGE 1 false;
  s ← get;
  put (Arm (am_base s) (am_max s) (am_cursor s) (am_mmap s) (am_amap s) (am_mmapEntries s)
         (am_allocEntries s) (am_ldAddr s) (am_ldSize s) p).

(** ** Properties *)

Lemma round_size_spec sz :
  0 <= sz < 2 ^ 63 → round_size sz mod 0x1000 = 0 ∧ sz <= round_size sz < sz + 0x1000.
Proof.
  intros Hs. unfold round_size. destruct (Z.eqb_spec (sz mod 0x1000) 0); [lia|].
  rewrite u64_id by lia. change (u64 (Z.lnot 0xFFF)) with (Z.shiftl (Z.ones 52) 12).
  assert (Z.land (sz + 0x1000) (Z.shiftl (Z.ones 52) 12) = (sz + 0x1000) / 0x1000 * 0x1000) as ->.
  { rewrite <- (Z.shiftl_mul_pow2 _ 12), <- (Z.shiftr_div_pow2 _ 12) by lia.
    apply Z.bits_inj'. intros i Hi. rewrite Z.land_spec.
    destruct (Z.lt_ge_cases i 12).
    - by rewrite !Z.shiftl_spec_low, andb_false_r by lia.
    - rewrite !Z.shiftl_spec, Z.shiftr_spec by lia. replace (i - 12 + 12) with i by lia.
      destruct (Z.lt_ge_cases i 64).
      + rewrite Z.ones_spec_low by lia. apply andb_true_r.
      + rewrite <- (Z.mod_small (sz + 0x1000) (2 ^ 64)) by lia.
        by rewrite Z.mod_pow2_bits_high by lia. }
  zlia.
Qed.

(** The first entry of the map is free and has room for the request. *)
Definition room_in_first (s : arm_state) (sz : Z) : Prop :=
  ∃ e rest, am_mmap s = e :: rest ∧ me_type e = MMAP_TYPE_FREE ∧ 1 <= am_mmapEntries s ∧
    0 <= me_offset e ∧ 0 <= me_phys e ∧ me_phys e + me_bytes e < 2 ^ 63 ∧
    me_offset e + round_size sz < me_bytes e.

(** An allocation that fits in the first entry returns its start plus the size of
    the request, whatever was allocated before. *)
Lemma allocMem_first size type s :
  0 <= size < 2 ^ 62 → room_in_first s size →
  am_cursor s = Z.of_nat (length (am_amap s)) →
  ∃ e s', nthZ (am_mmap s) 0 = Some e ∧
    allocMem size type 1 false s = Ok (me_phys e + round_size size) s' ∧
    am_mmap s' = updZ (am_mmap s) 0 (set_offset (me_offset e + round_size size) e) ∧
    am_mmapEntries s' = am_mmapEntries s ∧
    am_amap s' = am_amap s ++ [MmapEntry 0 0 type (me_phys e + round_size size)
                                 (me_phys e + round_size size) (round_size size)] ∧
    am_cursor s' = u64 (am_cursor s + 1).
Proof.
  intros Hsz (e & rest & Em & Ht & Hn & Ho & Hp & Hb & Hfit) Hc.
  pose proof (round_size_spec size ltac:(lia)) as Hr.
  assert (nthZ (am_mmap s) 0 = Some e) as He by by rewrite Em.
  exists e. eexists. split; [done|].
  destruct (Z.to_nat (am_mmapEntries s)) as [|n] eqn:En; [lia|].
  split.
  { unfold allocMem. mstep. rewrite En. erewrite bind_ok.
    2:{ cbn [alloc_search]. mstep. unfold array_get. rewrite He. mstep.
        rewrite Ht. change (negb (MMAP_TYPE_FREE =? MMAP_TYPE_FREE)) with false. cbv iota.
        rewrite (u64_id (me_offset e + round_size size)), leb_false by lia.
        unfold array_set. rewrite He. mstep. mstep. by rewrite u64_id by lia. }
    cbv beta iota. erewrite bind_ok.
    2:{ unfold addAllocation. mstep. cbn [am_amap am_cursor]. rewrite Hc.
        unfold put_entry. rewrite ltb_false, eqb_true by lia. mstep. reflexivity. }
    done. }
  cbn [am_mmap am_amap am_mmapEntries am_cursor]. rewrite <- Hc. split_and!; done.
Qed.

(** Two requests for as many pages from the same free entry get the same
    address: the position in the entry is recorded but not used. *)
Theorem allocMem_same_address size type1 type2 s :
  0 < size < 2 ^ 62 → room_in_first s size →
  am_cursor s = Z.of_nat (length (am_amap s)) → Z.of_nat (length (am_amap s)) < 2 ^ 63 →
  (∀ e, nthZ (am_mmap s) 0 = Some e → me_offset e + 2 * round_size size < me_bytes e) →
  wp (a ← allocMem size type1 1 false; b ← allocMem size type2 1 false; mret (a, b))
     (λ r s', r.1 = r.2 ∧ r.1 ≠ 0 ∧
        am_amap s' = am_amap s ++ [MmapEntry 0 0 type1 r.1 r.1 (round_size size);
                                   MmapEntry 0 0 type2 r.1 r.1 (round_size size)]) s.
Proof.
  intros Hsz Hroom Hc Hl Hfit2. pose proof (round_size_spec size ltac:(lia)) as Hr.
  destruct (allocMem_first size type1 s ltac:(lia) Hroom Hc)
    as (e & s1 & He & E1 & M1 & N1 & A1 & C1).
  specialize (Hfit2 e He). destruct Hroom as (e' & rest & Em & Ht & Hn & Ho & Hp & Hb & Hfit).
  assert (e' = e) as -> by (rewrite Em in He; by injection He).
  set (e1 := set_offset (me_offset e + round_size size) e) in *.
  assert (am_mmap s1 = e1 :: rest) as M1' by by rewrite M1, Em.
  destruct (allocMem_first size type2 s1 ltac:(lia)) as (e2 & s2 & He2 & E2 & M2 & N2 & A2 & C2).
  { exists e1, rest. split_and!; try done; try (rewrite N1; done); cbn; lia. }
  { rewrite C1, A1, length_app, u64_id by lia. cbn. lia. }
  assert (e2 = e1) as -> by (rewrite M1' in He2; by injection He2).
  wp_step. eapply wp_eq; [exact E1|]. wp_step. eapply wp_eq; [exact E2|]. wp_step. cbn [fst snd].
  split_and!; [done|lia|]. rewrite A2, A1, <- app_assoc. done.
Qed.

(** A free entry of 64 KiB at 1 MiB, with the allocation map set up. *)
Definition arm_ready : arm_state :=
  match (_ ← addMmapEntry 0x100000 0x100000 0x10000 MMAP_TYPE_FREE; initAllocmmap) arm0 with
  | Ok _ s => s
  | Fault _ => arm0
  end.

(** Both requests get 0x102000. *)
Lemma allocMem_same_address_witness :
  wp (a ← allocMem 0x1800 MMAP_TYPE_ELF 1 false; b ← allocMem 0x1800 MMAP_TYPE_PAGE 1 false; mret (a, b))
     (λ r s', r.1 = r.2 ∧ r.1 ≠ 0 ∧
        am_amap s' = am_amap arm_ready ++ [MmapEntry 0 0 MMAP_TYPE_ELF r.1 r.1 (round_size 0x1800);
                                   MmapEntry 0 0 MMAP_TYPE_PAGE r.1 r.1 (round_size 0x1800)]) arm_ready.
Proof.
  apply (allocMem_same_address 0x1800 MMAP_TYPE_ELF MMAP_TYPE_PAGE arm_ready); try done.
  - exists (MmapEntry 0 0 MMAP_TYPE_FREE 0x100000 0x100000 0x10000), []. by split_and!.
  - intros e [= <-]. done.
Defined.
