(* ===== verification/Registers.v ===== *)
(** * The device registers of the headers

    ahci.h, uart.h, xhci.h, lapic.h, ioapic.h, hpet.h, pci.h, paging.h and aml.h describe a
    register by macros: [#define REG_F 1<<n] for a bit and
    [#define REG_F(reg) ((reg>>s)&m)] for a wider field.  Here a register is the list
    of its fields.  The macros that write a field are functions, as in the header. *)

From S2P Require Import Prelude Kmonad Mem Layout Device Pci Apic Hpet Ahci.

(** ** Fields *)

(** The bits [f_low] to [f_low + f_width - 1]. *)
Record field := Field { f_name : string; f_low : Z; f_width : Z }.
(** A register: its width and its fields. *)
Record register := Register { r_width : Z; r_fields : list field }.

#[export] Instance field_eq_dec : EqDecision field.
Proof. solve_decision. Defined.

(** A field of one bit. *)
Definition Bit (x : string) (n : Z) : field := Field x n 1.

(** The macro [1<<n] of a bit: an [int], so bit 31 is the sign. *)
Definition flag (f : field) : Z := if f_low f =? 31 then - 2 ^ 31 else 2 ^ f_low f.

(** What a getter macro computes, and the specification of a write: the register with
    another value in the field. *)
Definition get_field (f : field) (v : Z) : Z := bits v (f_low f) (f_width f).
Definition set_field (f : field) (x v : Z) : Z :=
  Z.lor (Z.ldiff v (Z.shiftl (Z.ones (f_width f)) (f_low f)))
    (Z.shiftl (Z.land x (Z.ones (f_width f))) (f_low f)).

Definition field_in (w : Z) (f : field) : Prop := 0 <= f_low f ∧ 0 < f_width f ∧ f_low f + f_width f <= w.
Definition fields_apart (f g : field) : Prop :=
  f_low f + f_width f <= f_low g ∨ f_low g + f_width g <= f_low f.

(** Every field is inside the register and apart from those behind it. *)
Fixpoint fields_ok (w : Z) (fs : list field) : Prop :=
  match fs with
  | [] => True
  | f :: fs' => field_in w f ∧ Forall (fields_apart f) fs' ∧ fields_ok w fs'
  end.
Definition register_ok (r : register) : Prop := 0 < r_width r ∧ fields_ok (r_width r) (r_fields r).

#[export] Instance field_in_dec w f : Decision (field_in w f).
Proof. unfold field_in. apply _. Defined.
#[export] Instance fields_apart_dec f g : Decision (fields_apart f g).
Proof. unfold fields_apart. apply _. Defined.
#[export] Instance fields_ok_dec w fs : Decision (fields_ok w fs).
Proof. induction fs; cbn [fields_ok]; apply _. Defined.
#[export] Instance register_ok_dec r : Decision (register_ok r).
Proof. unfold register_ok. apply _. Defined.

(** ** ahci.h *)

Definition AHCI_PORT_CMD_reg : register := Register 32
  [Bit "ST" 0; Bit "SUD" 1; Bit "POD" 2; Bit "CLO" 3; Bit "FRE" 4; Field "CCS" 8 4; Bit "MPSS" 13; Bit "FR" 14;
   Bit "CR" 15; Bit "CPS" 16; Bit "PMA" 17; Bit "HPCP" 18; Bit "MPSP" 19; Bit "CPD" 20; Bit "ESP" 21;
   Bit "FBSCP" 22; Bit "APSTE" 23; Bit "ATAPI" 24; Bit "DLAE" 25; Bit "ALPE" 26; Bit "ASP" 27; Field "ICC" 28 4].
Definition AHCI_PORT_CMD_ICC_values : list (string * Z) :=
  [("NOOP", 0x0); ("ACTIVE", 0x1); ("PARTIAL", 0x2); ("SLUMBER", 0x6); ("DEVSLP", 0x8)]%string.

Definition AHCI_PORT_SSTS_reg : register := Register 32 [Field "DET" 0 4; Field "SPD" 4 4; Field "IPM" 8 4].
Definition AHCI_PORT_SSTS_DET_values : list (string * Z) :=
  [("NONE", 0x0); ("NPHYS", 0x1); ("PRES", 0x2); ("OFFLINE", 0x3)]%string.
Definition AHCI_PORT_SSTS_SPD_values : list (string * Z) :=
  [("NONE", 0x0); ("GEN1", 0x1); ("GEN2", 0x2); ("GEN3", 0x3)]%string.
Definition AHCI_PORT_SSTS_IPM_values : list (string * Z) :=
  [("NONE", 0x0); ("ACTIVE", 0x1); ("PARTIAL", 0x2); ("SLUMBER", 0x3); ("DEVSLP", 0x4)]%string.

(** The values to write: those of SPD are in their place. *)
Definition AHCI_PORT_SCTL_values : list (string * Z) :=
  [("DET_NO_ACTION", 0x0); ("DET_COMRESET", 0x1); ("DET_DISABLE", 0x4); ("SPD_NO_LIMIT", 0x0);
   ("SPD_GEN1", Z.shiftl 0x1 4); ("SPD_GEN2", Z.shiftl 0x2 4); ("SPD_GEN3", Z.shiftl 0x3 4);
   ("IPM_NO_LIMIT", 0x0)]%string.

(** [NPS] is a mask, not a getter.  The body of [ISS] names the variable [hc], its parameter is [HC]. *)
Definition AHCI_HBA_CAPABILITIES_reg : register := Register 32
  [Field "NPS" 0 4; Bit "SXS" 5; Bit "EMS" 6; Bit "CCCS" 7; Field "NCS" 8 4; Bit "PSC" 13; Bit "SSC" 14;
   Bit "PMD" 15; Bit "FBSS" 16; Bit "SPM" 17; Bit "SAM" 18; Field "ISS" 20 4; Bit "SCLO" 24; Bit "SAL" 25;
   Bit "SALP" 26; Bit "SSS" 27; Bit "SMPS" 28; Bit "SSNTF" 29; Bit "SNCQ" 30; Bit "S64A" 31].
Definition AHCI_HBA_CAPABILITIES_ISS_values : list (string * Z) :=
  [("GEN1", 0x1); ("GEN2", 0x2); ("GEN3", 0x3)]%string.

Definition AHCI_GLOBAL_HBA_CONTROL_reg : register := Register 32
  [Bit "HR" 0; Bit "IE" 1; Bit "MRSM" 2; Bit "AE" 31].
Definition AHCI_VERSION_reg : register := Register 32 [Field "MINOR" 0 16; Field "MAJOR" 16 16].
Definition AHCI_COMMAND_CC_CONTROL_reg : register := Register 32
  [Bit "EN" 0; Field "INT" 3 4; Field "CC" 8 7; Field "TV" 16 16].
Definition AHCI_EM_LOCATION_reg : register := Register 32 [Field "SZ" 0 16; Field "OFST" 16 16].
Definition AHCI_EM_CONTROL_reg : register := Register 32
  [Bit "MR" 0; Bit "TM" 8; Bit "RST" 9; Bit "LED" 16; Bit "SAFTE" 17; Bit "SES2" 18; Bit "SGPIO" 19;
   Bit "SMB" 24; Bit "XMT" 25; Bit "ALHD" 26; Bit "PM" 27].
Definition AHCI_xHOST_CAPABILITIES_reg : register := Register 32
  [Bit "BOH" 0; Bit "NVMHCI" 1; Bit "APST" 2; Bit "SDS" 3; Bit "SADM" 4; Bit "DESO" 5].
Definition AHCI_BIOS_HANDOFF_CS_reg : register := Register 32
  [Bit "BOS" 0; Bit "OOS" 1; Bit "SMI" 2; Bit "OOC" 3; Bit "BB" 4].

(** The interrupt bit of a port below 32. *)
Definition AHCI_INTERRUPT_STATUS_OF_PORT (port ints : Z) : Z := Z.land ints (u32 (Z.shiftl 1 port)).

(** Writing the coalescing register [CCC], an unsigned 32-bit value. *)
Definition AHCI_COMMAND_CC_CONTROL_CC_GET (CCC : Z) : Z := Z.land (Z.shiftr CCC 8) 0x7F.
Definition AHCI_COMMAND_CC_CONTROL_CC_SET (CCC n : Z) : Z := Z.lor (Z.shiftl (Z.land n 0x7F) 8) CCC.
Definition AHCI_COMMAND_CC_CONTROL_CC_CLR (CCC : Z) : Z :=
  Z.lxor (u32 (Z.shiftl (AHCI_COMMAND_CC_CONTROL_CC_GET CCC) 8)) CCC.
Definition AHCI_COMMAND_CC_CONTROL_TV_GET (CCC : Z) : Z := Z.shiftr CCC 16.
Definition AHCI_COMMAND_CC_CONTROL_TV_SET (CCC v : Z) : Z := Z.lor (u32 (Z.shiftl (u32 v) 16)) CCC.

(** The offsets in PCI configuration space and in the block of a port. *)
Definition AHCI_PCI_offsets : list (string * Z) :=
  [("HBA", 0x0); ("CMD", 0x4); ("STS", 0x6); ("RID", 0x8); ("CC", 0x9); ("CLS", 0xC); ("MLT", 0xD);
   ("HTYPE", 0xE); ("BIST", 0x0F); ("ABAR", 0x24); ("SS", 0x2C); ("EROM", 0x30); ("CAP", 0x34); ("INTR", 0x3C);
   ("MGNT", 0x3E); ("MLAT", 0x3F)]%string.
Definition AHCI_PORT_offsets : list (string * Z) :=
  [("CLBL", 0x0); ("CLBU", 0x4); ("FBL", 0x8); ("FBU", 0xC); ("IS", 0x10); ("IE", 0x14); ("CMD", 0x18);
   ("TFD", 0x20); ("SIG", 0x24); ("SSTS", 0x28); ("SCTL", 0x2C); ("SERR", 0x30); ("SACT", 0x34); ("CI", 0x38);
   ("NTF", 0x4C); ("FBS", 0x50); ("DEVSLP", 0x54); ("VS", 0x70)]%string.

(** ** uart.h: the UART of the BCM2711 *)

Definition UART_bases : list (string * Z) :=
  [("0", 0x7E201000); ("2", 0x7E201400); ("3", 0x7E201600); ("4", 0x7E201800); ("5", 0x7E201a00)]%string.

(** [DATA_OUT] and [DATA_INT] are the same bits. *)
Definition UART_DR_reg : register := Register 32
  [Field "DATA" 0 8; Bit "FE" 8; Bit "PE" 9; Bit "BE" 10; Bit "OE" 11].
Definition UART_RSRECR_reg : register := Register 32 [Bit "FE" 0; Bit "PE" 1; Bit "BE" 2; Bit "OE" 3].
Definition UART_FE_reg : register := Register 32
  [Bit "CTS" 0; Bit "DSR" 1; Bit "DCD" 2; Bit "BUSY" 3; Bit "RXFE" 4; Bit "TXFF" 5; Bit "RXFF" 6; Bit "TXFE" 7;
   Bit "RI" 8].
Definition UART_LCRH_reg : register := Register 32
  [Bit "BRK" 0; Bit "PEN" 1; Bit "EPS" 2; Bit "STP2" 3; Bit "FEN" 4; Field "WLEN" 5 2; Bit "SPS" 7].
Definition UART_CR_reg : register := Register 32
  [Bit "UARTEN" 0; Bit "SIREN" 1; Bit "SIRLP" 2; Bit "LBE" 7; Bit "TXE" 8; Bit "RXE" 9; Bit "DTR" 10; Bit "RTS" 11;
   Bit "OUT1" 12; Bit "OUT2" 13; Bit "RTSEN" 14; Bit "CTSEN" 15].
Definition UART_IFLS_reg : register := Register 32 [Field "TXIFLSEL" 0 2; Field "RXIFLSEL" 3 2].
(** The mask and the status bits, named after their interrupt: [RX] is [RXIM], [RXRIS],
    [RXMIS] and [RXIC]. *)
Definition UART_IMSC_reg : register := Register 32
  [Bit "RI" 0; Bit "CTS" 1; Bit "DCD" 2; Bit "DSR" 3; Bit "RX" 4; Bit "TX" 5; Bit "RT" 6; Bit "FE" 7; Bit "PE" 8;
   Bit "BE" 9; Bit "OE" 10].
Definition UART_RIS_reg : register := Register 32
  [Bit "RI" 0; Bit "CTS" 1; Bit "DCD" 2; Bit "DSR" 3; Bit "RX" 4; Bit "TX" 6; Bit "RT" 7; Bit "FE" 8; Bit "PE" 9;
   Bit "BE" 10; Bit "OE" 11].
Definition UART_MIS_reg : register := Register 32
  [Bit "RI" 0; Bit "CTS" 1; Bit "DCD" 2; Bit "DSR" 3; Bit "RX" 4; Bit "TX" 6; Bit "RT" 7; Bit "FE" 8; Bit "PE" 9;
   Bit "BE" 10; Bit "OE" 11].
Definition UART_ICR_reg : register := Register 32
  [Bit "RI" 0; Bit "CTS" 1; Bit "DCD" 2; Bit "DSR" 3; Bit "RX" 4; Bit "TX" 6; Bit "RT" 7; Bit "FE" 8; Bit "PE" 9;
   Bit "BE" 10; Bit "OE" 11].
Definition UART_DMA_reg : register := Register 32 [Bit "RXDMAE" 0; Bit "TXDMAE" 1; Bit "DMAONERR" 2].

Definition UART_LCRH_WLEN (w : Z) : Z := u32 (Z.shiftl (Z.land (u32 w) 0x03) 5).
Definition UART_IFLS_TXIFLSEL (l : Z) : Z := Z.land l 0x3.
Definition UART_IFLS_RXIFLSEL (l : Z) : Z := u32 (Z.shiftl (Z.land (u32 l) 0x3) 3).

Definition uartMMIO : layout := Layout Packed
  [U32 "data"; U32 "rsrecr"; U64 "pad"; U32 "flags"; U32 "ilpr"; U32 "intBRD"; U32 "fracBRD"; U32 "lineControl";
   U32 "control"; U32 "interruptFIFOLevelSelect"; U32 "interruptMaskSetClear"; U32 "rawInterruptStatus";
   U32 "maskedInterruptStatus"; U32 "interruptClear"; U32 "dmaControl"; U32 "testControl";
   U32 "integrationTestInput"; U32 "integrationTestOutput"; U32 "testData"].

(** ** lapic.h and ioapic.h *)

Definition LAPIC_MSR_BASE_reg : register := Register 64
  [Bit "BSC" 0; Bit "X2APIC_ENABLE" 10; Bit "APIC_ENABLE" 11; Field "APIC_BAR" 12 40].
Definition LAPIC_ICR_reg : register := Register 32
  [Bit "DM_LOGICAL" 11; Bit "DM_PHYSICAL" 12; Bit "DS" 13; Bit "L_ASSERT" 14; Bit "TGM_LEVEL_SENSITIVE" 15;
   Field "RRS" 16 2].
Definition LAPIC_ICR_MT_values : list (string * Z) :=
  [("FIXED", 0x0); ("LOWEST_PRIORITY", 0x1); ("SMI", 0x2); ("REMOTE_READ", 0x3); ("NMI", 0x4); ("INIT", 0x5);
   ("SIPI", 0x6); ("EXTINT", 0x7)]%string.
Definition LAPIC_ICR_RRS_values : list (string * Z) :=
  [("INVALID_READ", 0x0); ("DELIVERY_PENDING", 0x1); ("DELIVERY_COMPLETE", 0x2)]%string.
Definition LAPIC_ICR_DSH_values : list (string * Z) :=
  [("DESTINATION_UNUSED", 0x0); ("DESTINATION_SELF", 0x1); ("DESTINATION_ALL_EXC_SELF", 0x2);
   ("DESTINATION_ALL_INC_SELF", 0x3)]%string.
Definition LAPIC_ICR_VECTOR (vec : Z) : Z := vec.
Definition LAPIC_ICR_DES (des : Z) : Z := u64 (Z.shiftl (u64 des) 56).
Definition LAPIC_TIMER_MODES : list (string * Z) :=
  [("ONE_SHOT", 0x0); ("PERIODIC", u32 (Z.shiftl 0x1 17)); ("DEADLINE", u32 (Z.shiftl 0x2 17))]%string.

(** [DELIVERY_MODE_*] go to bits 10 to 12 with [IOAPIC_REDTBL_DELIVER_MODE]. *)
Definition IOAPIC_REDTBL_flags : register := Register 64
  [Bit "DEST_LOGICAL" 11; Bit "DELIVERY_STATUS" 12; Bit "POLARITY_LOW" 13; Bit "REMOTE_IRR" 14;
   Bit "TRIGGER_LEVEL" 15; Bit "MASK" 16].
Definition IOAPIC_DELIVERY_MODE_values : list (string * Z) :=
  [("FIXED", 0x0); ("LOWEST", 0x1); ("SMI", 0x2); ("NMI", 0x4); ("INIT", 0x5); ("EXTINIT", 0x6)]%string.
Definition IOAPIC_offsets : list (string * Z) := [("ID", 0x0); ("VER", 0x1); ("ARB", 0x2); ("REDTBL", 0x10)]%string.

(** ** hpet.h *)

Definition HPET_GENERAL_CAPABILITIES_reg : register := Register 64
  [Field "REV" 0 8; Field "TIMERS" 8 4; Bit "COUNT_SIZE" 13; Bit "LEG_ROUTE" 15; Field "VENDOR_ID" 16 16;
   Field "CLOCK_PER" 32 32].
Definition HPET_GENERAL_CONFIGURATION_reg : register := Register 64 [Bit "ENABLE_CNF" 0; Bit "LEG_RT_CNF" 1].
Definition HPET_GENERAL_INTERRUPT_STATUS_CHECK (status timer : Z) : Z := Z.land (Z.shiftr status timer) 0x1.
Definition HPET_GENERAL_offsets : list (string * Z) :=
  [("CAPABILITIES", 0x0); ("CONFIGURATIION", 0x10); ("INTERRUPT_STATUS", 0x20)]%string.
(** [INT_ROUTE_CNF] is written from bit 9 on, without a mask. *)
Definition HPET_TIMER_reg : register := Register 64
  [Bit "INT_TYPE_CNF" 1; Bit "INT_ENB_CNF" 2; Bit "TYPE_CNF" 3; Bit "PER_INT_CAP" 4; Bit "SIZE_CAP" 5;
   Bit "VAL_SET_CNF" 6; Bit "32MODE_CNF" 8; Bit "FSB_EN_CNF" 14; Bit "FSB_INT_DEL_CAP" 15;
   Field "INT_ROUTE_CAP" 32 32].
Definition HPET_TIMER_INT_ROUTE_CNF (cfg v : Z) : Z := Z.lor (u64 (Z.shiftl (u64 v) 9)) cfg.
Definition HPET_FSB_INT_ADDR (cnf v : Z) : Z := Z.lor cnf (Z.land v 0xFFFFFFFF).
Definition HPET_FSB_INT_VAL (cnf v : Z) : Z := Z.lor cnf (u64 (Z.shiftl v 32)).

(** ** pci.h, pit.h, paging.h *)

(** The dword at [PCI_HEADER_STATUS_COMMAND]. *)
Definition PCI_HEADER_COMMAND_reg : register := Register 16
  [Bit "IO_SPACE" 0; Bit "MEMORY_SPACE" 1; Bit "BUS_MASTER" 2; Bit "SPECIAL_CYCLES" 3; Bit "MWIE" 4; Bit "VGA" 5;
   Bit "PER" 6; Bit "SERR" 8; Bit "FBTB" 9; Bit "ID" 10].
Definition PCI_HEADER_STATUS_reg : register := Register 16 [Bit "CAPABILITIES_LIST" 4].
Definition PCI_HEADER_GET_SUBSYSTEMID (d : Z) : Z := Z.shiftr d 16.
Definition PCI_MSIX_MCONTROL (fld : Z) : Z := Z.land (Z.shiftr fld 16) 0xFFFF.
Definition PCI_MSIX_MCONTROL_reg : register := Register 16 [Field "TABLE_SIZE" 0 11; Bit "FNMASK" 14; Bit "ENABLE" 15].
Definition PCI_MSI_MCONTROL_reg : register := Register 16
  [Bit "ENABLE" 0; Field "VECTORS_REQUESTED" 1 3; Bit "EXTENDED_ADDRESSING" 7; Bit "PER_VECTOR_MASKING" 8].

Definition PIT_MODE_reg : register := Register 8
  [Bit "BCD" 0; Field "OPERATING" 1 3; Field "ACCESS" 4 2; Field "CHANNEL" 6 2].
Definition PIT_OPERATING_MODE_values : list (string * Z) :=
  [("INT_ON_COUNT", 0x0); ("ONE_SHOT", 0x1); ("RATE", 0x2); ("SQUARE", 0x3); ("SOFT_STROBE", 0x4);
   ("HARD_STROBE", 0x5); ("RATE2", 0x6); ("SQUARE2", 0x7)]%string.
Definition PIT_ACCESS_values : list (string * Z) := [("LATCH", 0x0); ("LO", 0x1); ("HI", 0x2); ("HILO", 0x3)]%string.
Definition PIT_CHANNEL_values : list (string * Z) :=
  [("CHANNEL0", 0x0); ("CHANNEL1", 0x1); ("CHANNEL2", 0x2); ("READBACK", 0x3)]%string.

(** An entry of a page table: the macros [PG_IS_*]. *)
Definition PG_reg : register := Register 64
  [Bit "WRITEABLE" 1; Bit "USER" 2; Bit "ACCESSED" 5; Bit "DIRTY" 6; Bit "WC" 12; Bit "NX" 63].

(** ** fdebug.h *)

Definition INS_REX_reg : register := Register 8
  [Bit "MODRM_RM" 0; Bit "SIB" 1; Bit "MODRM_REG" 2; Bit "OPSZ" 3; Field "FIXED" 4 4].
Definition INS_IS_REX (b : Z) : Z := Z.land (Z.shiftr b 4) 0x4.
Definition INS_LEGACY_prefixes : list (string * Z) :=
  [("LOCK", 0xF0); ("REPN", 0xF2); ("REP", 0xF3); ("CS", 0x2E); ("SS", 0x36); ("DS", 0x3E); ("ES", 0x26);
   ("FS", 0x64); ("GS", 0x65); ("BRT", 0x2E); ("BRNT", 0x3E); ("OPS", 0x66); ("ADS", 0x67)]%string.
Definition INS_OPCODE_PREFIXES : list (string * Z) := [("0F", 0x0F); ("0", 0x38); ("1", 0x3A)]%string.

(** ** xhci.h *)

(** A bit-field struct of 128 bits. *)
Definition xhciEventRingSegment : register := Register 128
  [Field "rsvd0" 0 6; Field "segmentBase" 6 58; Field "size" 64 16; Field "rsvd1" 80 48].
Definition xhciEventRingInfo_layout : layout := Layout Natural [U64 "maxSegments"].
(** [msixBAR] shares its place with [msiBAR]. *)
Definition xhciMSIInfo_layout : layout := Layout Natural
  [Bool "hasMSIX"; U8 "msixAddress"; U16 "msixTableSize"; U64 "msiBAR"; U64 "pbaBAR"].
Definition xhciDeviceInfo_layout : layout := Layout Natural
  [U64 "capLen"; U64 "slotsUsed"; U64 "maxSlots"; U64 "runtimeOffset"; U64 "doorbellOffset"; U8 "bus"; U8 "dev";
   U64 "capabilitiesBAR"; U64 "hostOpBAR"; U64 "doorbellBAR"; U64 "runtimeBAR"; U64 "dcbPtr"; U64 "cmdQueueSz";
   U64 "commandQueue"; Sub xhciMSIInfo_layout "msi"; U64 "eventRing"].

Definition XHCI_PCI_offsets : list (string * Z) :=
  [("BAR0", 0x10); ("BAR1", 0x14); ("CACHET", 0x8); ("CAPABILITIES", 0x34); ("LATINT", 0x3C); ("DBRN", 0x60)]%string.
Definition XHCI_PCI_CACHET_reg : register := Register 32
  [Field "CACHESZ" 0 8; Field "MAXLAT_TIMER" 8 8; Field "BIST" 24 8].
Definition XHCI_PCI_LATINT_reg : register := Register 32
  [Field "INTLINE" 0 8; Field "INTPIN" 8 8; Field "MINGNT" 16 8; Field "MAXLAT" 24 8].
Definition XHCI_PCI_DBRN_reg : register := Register 32
  [Field "SBRN" 0 8; Field "FLADJ" 8 8; Field "DBSEL" 16 4; Field "DBSLD" 20 4].
(** The body of [MAX_INTRS] names the variable [hcs], its parameter is [hsc]. *)
Definition XHCI_HCSPARAMS1_reg : register := Register 32
  [Field "MAX_SLOTS" 0 8; Field "MAX_INTRS" 8 11; Field "MAX_PORTS" 24 8].
Definition XHCI_HCSPARAMS2_reg : register := Register 32
  [Field "IST" 0 4; Field "MAX_ERST" 4 4; Field "MAX_SCRATCHPADS" 8 5; Bit "MAX_SPR" 26;
   Field "MAX_SCRATCHPADS_LOW" 27 5].
Definition XHCI_CAPABILITIES_offsets : list (string * Z) :=
  [("LENGTH", 0x0); ("HIVERSION", 0x2); ("HCSPARAMS1", 0x4); ("HCSPARAMS2", 0x8); ("HCSPRARMS3", 0xC);
   ("HCCPARAMS1", 0x10); ("DBOFF", 0x14); ("RTSOFF", 0x18); ("HCCPARAMS2", 0x1C)]%string.
Definition XHCI_USBCMD_reg : register := Register 32
  [Bit "RS" 0; Bit "HCRST" 1; Bit "INTE" 2; Bit "HSEE" 3; Bit "LHCRST" 7; Bit "CSS" 8; Bit "CRS" 9; Bit "EWE" 10;
   Bit "EU3S" 11; Bit "CME" 13].
Definition XHCI_USBSTS_reg : register := Register 32 [Bit "CNR" 11].
(** [CRP] is written with [pnt<<6]. *)
Definition XHCI_CRCR_reg : register := Register 64
  [Bit "RCS" 0; Bit "CS" 1; Bit "CA" 2; Bit "CRR" 3; Field "CRP" 6 58].
Definition XHCI_OPERATION_REGISTER_CRCR_CRP (pnt : Z) : Z := u64 (Z.shiftl (u64 pnt) 6).
Definition XHCI_OPERATION_offsets : list (string * Z) :=
  [("USBCMD", 0x0); ("USBSTS", 0x4); ("PAGESIZE", 0x8); ("DNCTRL", 0x14); ("CRCR", 0x18); ("DCBAAP", 0x30);
   ("CONFIG", 0x38)]%string.
Definition XHCI_OPERATION_REGISTER_SPACE (bar clen : Z) : Z := u64 (bar + clen).
Definition XHCI_OPERATION_REGISTER_PORTREG (prt : Z) : Z := 0x400 + Z.land prt 0xC.
Definition XHCI_PORTREG_offsets : list (string * Z) :=
  [("PORTSC", 0x0); ("PORTPMSC", 0x4); ("PORTLI", 0x8); ("PORTHLPMC", 0xC)]%string.
Definition XHCI_COMMAND_TRB_ID_values : list (string * Z) :=
  [("NORMAL", 1); ("SETUP", 2); ("DATA", 3); ("STATUS", 4); ("ISOCH", 5); ("LINK", 6); ("EVENT", 7); ("NOOP", 8);
   ("ECMD", 9); ("DCMD", 10); ("ADCMD", 11); ("CECMD", 12)]%string.
Definition XHCI_COMMAND_NOOP (c type : Z) : Z := Z.lor (u32 c) (u32 (Z.shiftl (u32 type) 10)).
Definition XHCI_INTERRUPTER_BAR (base intr : Z) : Z := u64 (base + intr * 32).
Definition XHCI_INTERRUPTER_offsets : list (string * Z) :=
  [("IMAN", 0x20); ("ERSTSZ", 0x28); ("ERSTBA", 0x30); ("ERDP", 0x38)]%string.
Definition XHCI_IMAN_reg : register := Register 32 [Bit "IP" 0; Bit "IE" 1].
Definition XHCI_IMOD_reg : register := Register 32 [Field "IMODI" 0 16; Field "IMODC" 16 16].
Definition XHCI_INTERRUPTER_IMOD_IMODI_SET (imodi value : Z) : Z := Z.lor imodi (Z.land value 0xFFFF).
Definition XHCI_INTERRUPTER_IMOD_IMODI_GET (imodi : Z) : Z := Z.land imodi 0xFFFF.
Definition XHCI_INTERRUPTER_IMOD_IMODC_SET (imodi value : Z) : Z :=
  Z.lor imodi (u32 (Z.shiftl (Z.land value 0xFFFF) 16)).
Definition XHCI_INTERRUPTER_IMOD_IMODC_GET (imodi : Z) : Z := Z.shiftr imodi 16.

(** ** dt.h: the flattened device tree *)

(** Nine hexadecimal digits. *)
Definition DT_MAGIC : Z := 0xD00DFEED3.
Definition DT_NODE_values : list (string * Z) :=
  [("NODE_BEGIN", 0x1); ("NODE_END", 0x2); ("PROP", 0x3); ("NOP", 0x4); ("END", 0x9)]%string.
Definition DT_INC_NODE (node : Z) : Z := u64 (node + 4).
Definition DT_STR_OFFSET (base off : Z) : Z := u64 (base + off).
(** Both structs are big-endian. *)
Definition fdtHeader_layout : layout := Layout Packed
  [U32 "magic"; U32 "totalSize"; U32 "structOff"; U32 "stringOff"; U32 "rsvmapOff"; U32 "version";
   U32 "lastCompatVersion"; U32 "bootcpuid"; U32 "stringSize"; U32 "structSize"].
Definition fdtProp_layout : layout := Layout Packed [U32 "len"; U32 "nameOff"].

(** ** acpi.h, elf.h, mailbox.h *)

(** The types of interrupt controller structures. *)
Definition ICS_values : list (string * Z) :=
  [("LAPIC", 0); ("IOAPIC", 1); ("ISO", 2); ("NMI", 3); ("LAPIC_NMI", 4); ("LAPIC_AO", 5); ("SOAPIC", 6);
   ("LSAPIC", 7); ("PLATFORM_IS", 8); ("X2APIC", 9); ("GICC", 10); ("GICD", 11); ("GICMSI", 12); ("GICR", 13);
   ("GICITS", 14); ("MP_WAKEUP", 15); ("CPIC", 16); ("LPIC", 17); ("HPIC", 18); ("EPIC", 19); ("MPIC", 20);
   ("BPIC", 21); ("LWPIC", 22)]%string.
Definition SHT_values : list (string * Z) :=
  [("NULL", 0); ("PROGBITS", 1); ("SYMTAB", 2); ("STRTAB", 3); ("RELA", 4); ("HASH", 5); ("DYNAMIC", 6); ("NOTE", 7);
   ("NOBITS", 8); ("REL", 9); ("SHLIB", 10); ("DYNSYM", 11)]%string.
Definition PT_values : list (string * Z) :=
  [("NULL", 0); ("LOAD", 1); ("DYNAMIC", 2); ("INTERP", 3); ("NOTE", 4); ("SHLIB", 5); ("PHDR", 6)]%string.
Definition SHF_values : list (string * Z) := [("WRITE", 0x1); ("ALLOC", 0x2); ("EXEC", 0x4)]%string.
Definition PF_values : list (string * Z) := [("X", 0x1); ("W", 0x2); ("R", 0x4)]%string.
Definition STB_values : list (string * Z) :=
  [("LOCAL", 0); ("GLOBAL", 1); ("WEAK", 2); ("LOOS", 10); ("HIOS", 12); ("LOPROC", 13); ("HIPROC", 14)]%string.
Definition STT_values : list (string * Z) := [("NOTYPE", 0); ("OBJECT", 1); ("FUNC", 2); ("SECTION", 3)]%string.

Definition MAILBOX_MAIL_TYPE_values : list (string * Z) :=
  [("INVLD", 0x0); ("ALLOC", 0x1); ("FREE", 0x2); ("MAP", 0x3); ("UNMAP", 0x4)]%string.
Definition mail_layout : layout := Layout Natural [U16 "id"; U8 "type"; U8 "flags"; U64 "data"].
Definition mailbox_layout : layout := Layout Natural [U64 "mail"; U64 "mailTop"; U8 "inUse"].
(** [sz] and [ptr] share their place. *)
Definition messageAlloc_layout : layout := Layout Packed [U64 "sz"].
Definition messageFree_layout : layout := Layout Packed [U64 "ptr"].
Definition messageMap_layout : layout := Layout Packed [U64 "ptr"; U16 "flags"].
Definition messageUnmap_layout : layout := Layout Packed [U64 "ptr"].

(** ** aml.h, libhook.h, paging.h of aarch64 *)

Definition AML_PREFIX_values : list (string * Z) :=
  [("BYTE", 0x0A); ("WORD", 0x0B); ("DWORD", 0x0C); ("QWORD", 0x0E); ("STRING", 0x0D); ("EXT_OP", 0x5B);
   ("DUAL_NAME", 0x2E)]%string.
(** [AML_NULL_CHAR] is [AML_ZERO_OP]. *)
Definition AML_CONST_values : list (string * Z) :=
  [("ZERO_OP", 0x0); ("ONE_OP", 0x1); ("ONES_OP", 0xFF); ("REVISION_OP", 0x5B30)]%string.
Definition AML_OP_values : list (string * Z) :=
  [("ALIAS", 0x06); ("NAME", 0x08); ("SCOPE", 0x10); ("BUFFER", 0x11); ("PACKAGE", 0x12); ("VARPACKAGE", 0x13);
   ("METHOD", 0x14); ("EXTERNAL", 0x15)]%string.
Definition AML_FIELD_FLAG_reg : register := Register 8
  [Field "ACCESS_TYPE" 0 4; Bit "LOCK_RULE" 4; Field "UPDATE_RULE" 5 2].
Definition AML_FIELD_FLAG_ACCESS_TYPE_values : list (string * Z) :=
  [("ANY", 0); ("BYTE", 1); ("WORD", 2); ("DWORD", 3); ("QWORD", 4); ("BUFFER", 5)]%string.
Definition AML_FIELD_FLAG_LOCK_RULE_values : list (string * Z) := [("NONE", 0); ("LOCK", 1)]%string.
Definition AML_FIELD_FLAG_UPDATE_RULE (ff : Z) : Z := Z.land (Z.shiftr ff 5) 0x3.
Definition AML_FIELD_FLAG_UPDATE_RULE_values : list (string * Z) :=
  [("PRESERVE", 0); ("WRITE_ONES", 1); ("WRITE_ZEROS", 2)]%string.

Definition HOOK_values : list (string * Z) := [("IO_READY", 0); ("END", 1); ("BEGIN", 2); ("EVENT", 3)]%string.

(** The page attributes of a call and the flags of a table entry; [FLAG_NX], the [int]
    shift [1<<54], has no value. *)
Definition ARM_PAGE_reg : register := Register 32 [Bit "WRITE" 0; Bit "EXECUTE" 1].
Definition ARM_FLAG_reg : register := Register 32 [Bit "PRESENT" 0; Bit "PAGE" 1; Bit "DIRTY" 2; Bit "ACCESS" 10].

(** ** All of them *)

(** The registers whose fields do not overlap.  The fields [DELIVER_MODE] of the I/O APIC
    and [INT_ROUTE_CNF] of the HPET timers are written over their neighbours and are not
    fields of their registers here ([IOAPIC_REDTBL_DELIVER_MODE],
    [HPET_TIMER_INT_ROUTE_CNF], [register_macros_off]). *)
Definition header_registers : list register :=
  [AHCI_PORT_CMD_reg; AHCI_PORT_SSTS_reg; AHCI_HBA_CAPABILITIES_reg; AHCI_GLOBAL_HBA_CONTROL_reg;
   AHCI_VERSION_reg; AHCI_COMMAND_CC_CONTROL_reg; AHCI_EM_LOCATION_reg; AHCI_EM_CONTROL_reg;
   AHCI_xHOST_CAPABILITIES_reg; AHCI_BIOS_HANDOFF_CS_reg; UART_DR_reg; UART_RSRECR_reg; UART_FE_reg;
   UART_LCRH_reg; UART_CR_reg; UART_IFLS_reg; UART_IMSC_reg; UART_RIS_reg; UART_MIS_reg; UART_ICR_reg;
   UART_DMA_reg; LAPIC_MSR_BASE_reg; LAPIC_ICR_reg; IOAPIC_REDTBL_flags; HPET_GENERAL_CAPABILITIES_reg;
   HPET_GENERAL_CONFIGURATION_reg; HPET_TIMER_reg; PCI_HEADER_COMMAND_reg; PCI_HEADER_STATUS_reg;
   PCI_MSIX_MCONTROL_reg; PCI_MSI_MCONTROL_reg; PIT_MODE_reg; PG_reg; INS_REX_reg; XHCI_PCI_CACHET_reg;
   XHCI_PCI_LATINT_reg; XHCI_PCI_DBRN_reg; XHCI_HCSPARAMS1_reg; XHCI_HCSPARAMS2_reg; XHCI_USBCMD_reg;
   XHCI_USBSTS_reg; XHCI_CRCR_reg; XHCI_IMAN_reg; XHCI_IMOD_reg; xhciEventRingSegment; AML_FIELD_FLAG_reg;
   ARM_PAGE_reg; ARM_FLAG_reg].

(** The tables of values and offsets in which no value is listed twice, each with the
    number of bits its values have; [AHCI_PORT_SCTL_values] and [INS_LEGACY_prefixes] list
    values twice. *)
Definition value_tables : list (Z * list (string * Z)) :=
  [(4, AHCI_PORT_CMD_ICC_values); (4, AHCI_PORT_SSTS_DET_values); (4, AHCI_PORT_SSTS_SPD_values);
   (4, AHCI_PORT_SSTS_IPM_values); (4, AHCI_HBA_CAPABILITIES_ISS_values); (8, AHCI_PCI_offsets);
   (7, AHCI_PORT_offsets); (32, UART_bases); (3, LAPIC_ICR_MT_values); (2, LAPIC_ICR_RRS_values);
   (2, LAPIC_ICR_DSH_values); (19, LAPIC_TIMER_MODES); (3, IOAPIC_DELIVERY_MODE_values); (8, IOAPIC_offsets);
   (8, HPET_GENERAL_offsets); (3, PIT_OPERATING_MODE_values); (2, PIT_ACCESS_values); (2, PIT_CHANNEL_values);
   (8, INS_OPCODE_PREFIXES); (8, XHCI_PCI_offsets); (8, XHCI_CAPABILITIES_offsets); (8, XHCI_OPERATION_offsets);
   (4, XHCI_PORTREG_offsets); (6, XHCI_COMMAND_TRB_ID_values); (6, XHCI_INTERRUPTER_offsets); (8, ICS_values);
   (32, SHT_values); (32, PT_values); (64, SHF_values); (32, PF_values); (4, STB_values); (4, STT_values);
   (8, MAILBOX_MAIL_TYPE_values); (32, DT_NODE_values); (8, AML_PREFIX_values); (15, AML_CONST_values);
   (8, AML_OP_values); (4, AML_FIELD_FLAG_ACCESS_TYPE_values); (1, AML_FIELD_FLAG_LOCK_RULE_values);
   (2, AML_FIELD_FLAG_UPDATE_RULE_values); (8, HOOK_values)].
Definition table_ok (t : Z * list (string * Z)) : Prop :=
  NoDup t.2.*2 ∧ Forall (λ v, 0 <= v < 2 ^ t.1) t.2.*2.
#[export] Instance table_ok_dec t : Decision (table_ok t).
Proof. unfold table_ok. apply _. Defined.

(** The members of [struct ahciPortMMIO] and the offsets of the registers. *)
Definition port_members : list (string * string) :=
  [("cmdListBaseLower", "CLBL"); ("cmdListBaseUpper", "CLBU"); ("FISBaseLower", "FBL"); ("FISBaseUpper", "FBU");
   ("interruptStatus", "IS"); ("interruptEnable", "IE"); ("command", "CMD"); ("taskFileData", "TFD");
   ("signature", "SIG"); ("sataStatus", "SSTS"); ("sataControl", "SCTL"); ("sataError", "SERR")]%string.
Definition value_of (t : list (string * Z)) (x : string) : option Z :=
  snd <$> head (filter (λ nv, nv.1 = x) t).

(** The macros the drivers use, as fields of the registers. *)
Definition drivers_agree (v : Z) : Prop :=
  AHCI_PORT_CMD_ICC v = get_field (Field "ICC" 28 4) v ∧
  AHCI_PORT_SSTS_DET v = get_field (Field "DET" 0 4) v ∧
  AHCI_HBA_CAPABILITIES_NCS v = get_field (Field "NCS" 8 4) v ∧
  AHCI_COMMAND_CC_CONTROL_CC_GET v = get_field (Field "CC" 8 7) v ∧
  AHCI_COMMAND_CC_CONTROL_TV_GET v = get_field (Field "TV" 16 16) v ∧
  AML_FIELD_FLAG_UPDATE_RULE v = get_field (Field "UPDATE_RULE" 5 2) v ∧
  HPET_GENERAL_CAPABILITIES_TIMERS v = get_field (Field "TIMERS" 8 4) v ∧
  HPET_GENERAL_CAPABILITIES_COUNT_SIZE v = get_field (Bit "COUNT_SIZE" 13) v ∧
  HPET_GENERAL_CAPABILITIES_LEG_ROUTE v = get_field (Bit "LEG_ROUTE" 15) v ∧
  PCI_MSIX_MCONTROL_TABLE_SIZE v = get_field (Field "TABLE_SIZE" 0 11) v ∧
  PCI_MSI_MCONTROL_EXTENDED_ADDRESSING v = get_field (Bit "EXTENDED_ADDRESSING" 7) v ∧
  PCI_MSI_MCONTROL_PER_VECTOR_MASKING v = get_field (Bit "PER_VECTOR_MASKING" 8) v ∧
  PCI_MSI_MCONTROL_VECTORS_REQUESTED v = 2 ^ get_field (Field "VECTORS_REQUESTED" 1 3) v.

(** ** Facts *)

Section fields.
Implicit Types (f g : field) (v x w : Z).

Lemma set_field_testbit f x v i :
  0 <= f_low f → 0 < f_width f → 0 <= i →
  Z.testbit (set_field f x v) i =
    if decide (f_low f <= i < f_low f + f_width f) then Z.testbit x (i - f_low f) else Z.testbit v i.
Proof.
  intros Hl Hw Hi. unfold set_field. rewrite Z.lor_spec, Z.ldiff_spec, !Z.shiftl_spec, Z.land_spec by lia.
  case_decide as E.
  - rewrite Z.ones_spec_low by lia. by rewrite andb_false_r, andb_true_r.
  - assert (Z.testbit (Z.ones (f_width f)) (i - f_low f) = false) as ->.
    { destruct (decide (i < f_low f)); [apply Z.testbit_neg_r; lia|apply Z.ones_spec_high; lia]. }
    by rewrite andb_false_r, andb_true_r, orb_false_r.
Qed.

Lemma get_field_testbit f v i :
  0 <= f_low f → 0 < f_width f → 0 <= i →
  Z.testbit (get_field f v) i = (i <? f_width f) && Z.testbit v (i + f_low f).
Proof. intros. unfold get_field. by rewrite bits_testbit by lia. Qed.

Lemma get_set_field w f x v :
  field_in w f → 0 <= x < 2 ^ f_width f → get_field f (set_field f x v) = x.
Proof.
  intros (Hl & Hw & _) Hx. apply Z.bits_inj'. intros i Hi.
  rewrite get_field_testbit, set_field_testbit by lia.
  destruct (Z.ltb_spec i (f_width f)); cbn [andb].
  - rewrite decide_True by lia. f_equal. lia.
  - symmetry. by apply (testbit_small x (f_width f)).
Qed.

Lemma get_set_field_ne w f g x v :
  field_in w f → field_in w g → fields_apart f g → get_field g (set_field f x v) = get_field g v.
Proof.
  intros (? & ? & _) (? & ? & _) Ha. apply Z.bits_inj'. intros i Hi.
  rewrite !get_field_testbit, set_field_testbit by lia.
  destruct (Z.ltb_spec i (f_width g)); cbn [andb]; [|done].
  unfold fields_apart in Ha. by rewrite decide_False by lia.
Qed.

Lemma set_field_range w f x v : field_in w f → 0 <= v < 2 ^ w → 0 <= set_field f x v < 2 ^ w.
Proof.
  intros (Hl & Hw & Hle) Hv.
  assert (set_field f x v = Z.land (set_field f x v) (Z.ones w)) as ->.
  { apply Z.bits_inj'. intros i Hi. rewrite Z.land_spec, set_field_testbit by lia.
    destruct (decide (i < w)) as [Hi'|Hi'].
    - by rewrite Z.ones_spec_low, andb_true_r by lia.
    - rewrite decide_False, (testbit_small v w) by lia. done. }
  rewrite Z.land_ones by lia. apply Z.mod_pos_bound. lia.
Qed.

Lemma fields_ok_in w fs f : fields_ok w fs → f ∈ fs → field_in w f.
Proof.
  induction fs as [|g fs IH]; intros Hok Hf; [by apply elem_of_nil in Hf|].
  destruct Hok as (H1 & _ & H2). apply elem_of_cons in Hf as [->|Hf]; auto.
Qed.

Lemma fields_apart_sym f g : fields_apart f g → fields_apart g f.
Proof. unfold fields_apart. lia. Qed.

Lemma fields_ok_apart w fs f g : fields_ok w fs → f ∈ fs → g ∈ fs → g ≠ f → fields_apart f g.
Proof.
  induction fs as [|h fs IH]; intros Hok Hf Hg Hne; [by apply elem_of_nil in Hf|].
  destruct Hok as (_ & Ha & Hok). rewrite Forall_forall in Ha.
  apply elem_of_cons in Hf as [->|Hf], Hg as [->|Hg]; [done|auto|by apply fields_apart_sym, Ha|auto].
Qed.

Lemma flag_testbit f i : 0 <= f_low f < 32 → 0 <= i < 32 → Z.testbit (flag f) i = (i =? f_low f).
Proof.
  intros Hl Hi. unfold flag. destruct (Z.eqb_spec (f_low f) 31) as [->|Hne].
  - rewrite Z.bits_opp, <- Z.sub_1_r by lia. change (2 ^ 31 - 1) with (Z.ones 31).
    destruct (Z.eqb_spec i 31) as [->|]; [done|]. by rewrite Z.ones_spec_low by lia.
  - rewrite Z.pow2_bits_eqb by lia. apply Z.eqb_sym.
Qed.

Lemma land_7F_testbit y i : 0 <= i → Z.testbit (Z.land y 0x7F) i = (i <? 7) && Z.testbit y i.
Proof. intros Hi. rewrite <- (Z.shiftr_0_r y) at 1. change 0x7F with (2 ^ 7 - 1). fold (bits y 0 7).
  rewrite bits_testbit by lia. by rewrite Z.add_0_r. Qed.

(** The idioms [v|F] and [v&F] for a bit [F] of a 32-bit register. *)
Lemma flag_set f v :
  field_in 32 f → f_width f = 1 → 0 <= v < 2 ^ 32 → u32 (Z.lor v (flag f)) = set_field f 1 v.
Proof.
  intros (Hl & _ & Hle) H1 Hv. rewrite H1 in Hle. apply Z.bits_inj'. intros i Hi.
  unfold u32. rewrite set_field_testbit by lia.
  destruct (decide (i < 32)); [rewrite Z.mod_pow2_bits_low by lia|rewrite Z.mod_pow2_bits_high by lia].
  - rewrite Z.lor_spec, flag_testbit by lia. case_decide as E.
    + replace i with (f_low f) by lia. by rewrite Z.eqb_refl, Z.sub_diag, orb_true_r.
    + by rewrite eqb_false, orb_false_r by lia.
  - rewrite decide_False, (testbit_small v 32) by lia. done.
Qed.

Lemma flag_test f v :
  field_in 32 f → f_width f = 1 → 0 <= v < 2 ^ 32 → Z.land v (flag f) = 2 ^ f_low f * get_field f v.
Proof.
  intros (Hl & _ & Hle) H1 Hv. rewrite H1 in Hle. rewrite Z.mul_comm, <- Z.shiftl_mul_pow2 by lia.
  apply Z.bits_inj'. intros i Hi. rewrite Z.land_spec, Z.shiftl_spec by lia.
  destruct (decide (i < 32)) as [Hi'|Hi'].
  - rewrite flag_testbit by lia. destruct (Z.eqb_spec i (f_low f)) as [->|Hne].
    + rewrite get_field_testbit, H1 by lia. by rewrite Z.sub_diag, andb_true_r.
    + rewrite andb_false_r. symmetry. destruct (decide (i < f_low f)); [apply Z.testbit_neg_r; lia|].
      rewrite get_field_testbit, H1, ltb_false by lia. done.
  - rewrite (testbit_small v 32) by lia. symmetry. rewrite get_field_testbit, H1, ltb_false by lia. done.
Qed.
End fields.

Lemma registers_ok : Forall register_ok header_registers.
Proof. apply (bool_decide_unpack _). by vm_compute. Qed.

Lemma value_tables_ok : Forall table_ok value_tables.
Proof. apply (bool_decide_unpack _). by vm_compute. Qed.

(** A getter that shifts without a mask reads the top field of a 32-bit value. *)
Lemma get_top v lo w : 0 <= v < 2 ^ (lo + w) → 0 <= lo → 0 <= w → bits v lo w = Z.shiftr v lo.
Proof.
  intros Hv Hlo Hw. unfold bits. replace (2 ^ w - 1) with (Z.ones w) by (rewrite Z.ones_equiv; lia).
  rewrite Z.land_ones, Z.shiftr_div_pow2 by lia. apply Z.mod_small. rewrite Z.pow_add_r in Hv by lia.
  split; [apply Z.div_pos; lia|]. apply Z.div_lt_upper_bound; lia.
Qed.

Lemma drivers_agree_all v : 0 <= v < 2 ^ 32 → drivers_agree v.
Proof.
  intros Hv. unfold drivers_agree, get_field, Bit. cbn [f_low f_width]. rewrite (get_top v 16 16), (get_top v 28 4) by (cbn; lia).
  split_and!; try done.
  - unfold PCI_MSI_MCONTROL_VECTORS_REQUESTED. change 0x7 with (2 ^ 3 - 1). fold (bits v 1 3).
    pose proof (bits_range v 1 3 ltac:(lia)). rewrite Z.shiftl_1_l. apply u32_id.
    split; [lia|]. apply Z.pow_lt_mono_r; lia.
Qed.

(** The fields of the registers listed are apart: a field that is written has the value
    written and the others keep theirs; in a 32-bit register [v|F] sets a one-bit
    field and [v&F] tests it. *)
Lemma fields_independent r f x v :
  r ∈ header_registers → f ∈ r_fields r → 0 <= v < 2 ^ r_width r → 0 <= x < 2 ^ f_width f →
  get_field f (set_field f x v) = x ∧ 0 <= set_field f x v < 2 ^ r_width r ∧
  (∀ g, g ∈ r_fields r → g ≠ f → get_field g (set_field f x v) = get_field g v) ∧
  (r_width r = 32 → f_width f = 1 →
     u32 (Z.lor v (flag f)) = set_field f 1 v ∧ Z.land v (flag f) = 2 ^ f_low f * get_field f v).
Proof.
  intros Hr Hf Hv Hx. pose proof registers_ok as Hok. rewrite Forall_forall in Hok.
  destruct (Hok r Hr) as [Hw Hfs]. pose proof (fields_ok_in _ _ _ Hfs Hf) as Hin.
  split; [by eapply get_set_field|]. split; [by apply set_field_range|]. split.
  - intros g Hg Hne. apply (get_set_field_ne (r_width r)); [done| |].
    + by eapply fields_ok_in.
    + by eapply fields_ok_apart.
  - intros Hw32 H1. rewrite Hw32 in *. split; [by apply flag_set|by apply flag_test].
Qed.

(** The members of the AHCI port block are at the offsets of the registers. *)
Lemma port_members_ok : Forall (λ '(m, n), offset_of ahciPortMMIO m = value_of AHCI_PORT_offsets n) port_members.
Proof. repeat constructor. Qed.

(** Writing the coalescing register: after [CC_CLR], [CC_SET] writes the low seven bits
    of the count; without it the old count is or-ed in, as [TV_SET] does with the
    timeout, for which there is no clear macro.  The enable bit and the interrupt
    number stay. *)
Theorem ccc_update c n :
  0 <= c < 2 ^ 32 → 0 <= n →
  AHCI_COMMAND_CC_CONTROL_CC_SET (AHCI_COMMAND_CC_CONTROL_CC_CLR c) n = set_field (Field "CC" 8 7) n c ∧
  AHCI_COMMAND_CC_CONTROL_CC_GET (AHCI_COMMAND_CC_CONTROL_CC_SET c n) =
    Z.lor (AHCI_COMMAND_CC_CONTROL_CC_GET c) (Z.land n 0x7F) ∧
  AHCI_COMMAND_CC_CONTROL_TV_GET (AHCI_COMMAND_CC_CONTROL_TV_SET c n) =
    Z.lor (AHCI_COMMAND_CC_CONTROL_TV_GET c) (n mod 2 ^ 16) ∧
  Z.land (AHCI_COMMAND_CC_CONTROL_TV_SET c n) 0xFFFF = Z.land c 0xFFFF.
Proof.
  intros Hc Hn. pose proof (land_bound (Z.shiftr c 8) 0x7F 7 ltac:(lia) ltac:(lia)) as Hb.
  unfold AHCI_COMMAND_CC_CONTROL_CC_SET, AHCI_COMMAND_CC_CONTROL_CC_CLR, AHCI_COMMAND_CC_CONTROL_CC_GET,
    AHCI_COMMAND_CC_CONTROL_TV_SET, AHCI_COMMAND_CC_CONTROL_TV_GET.
  rewrite (u32_id (Z.shiftl (Z.land (Z.shiftr c 8) 0x7F) 8)) by (rewrite Z.shiftl_mul_pow2; lia).
  split_and!; apply Z.bits_inj'; intros i Hi.
  - rewrite set_field_testbit by (cbn; lia). cbn [f_low f_width].
    rewrite Z.lor_spec, Z.lxor_spec, !Z.shiftl_spec by lia. case_decide as E.
    + rewrite !land_7F_testbit, Z.shiftr_spec by lia. rewrite ltb_true by lia. cbn [andb].
      by rewrite Z.sub_add, xorb_nilpotent, orb_false_r.
    + assert (∀ y, Z.testbit (Z.land y 0x7F) (i - 8) = false) as H.
      { intros y. destruct (decide (i < 8)); [apply Z.testbit_neg_r; lia|].
        by rewrite land_7F_testbit, ltb_false by lia. }
      by rewrite !H, xorb_false_l.
  - rewrite Z.lor_spec, !land_7F_testbit, !Z.shiftr_spec, Z.lor_spec, Z.shiftl_spec by lia.
    rewrite Z.add_simpl_r, land_7F_testbit by lia.
    destruct (i <? 7), (Z.testbit n i), (Z.testbit c (i + 8)); done.
  - rewrite Z.lor_spec, !Z.shiftr_spec, Z.lor_spec by lia. rewrite orb_comm. f_equal.
    unfold u32. destruct (decide (i < 16)).
    + rewrite !Z.mod_pow2_bits_low, Z.shiftl_spec, Z.mod_pow2_bits_low by lia. f_equal. lia.
    + by rewrite !Z.mod_pow2_bits_high by lia.
  - change 0xFFFF with (Z.ones 16). rewrite !Z.land_spec, Z.lor_spec.
    destruct (decide (i < 16)).
    + unfold u32. rewrite Z.mod_pow2_bits_low, Z.shiftl_spec, Z.testbit_neg_r by lia. done.
    + rewrite Z.ones_spec_high by lia. by rewrite !andb_false_r.
Qed.

(** Macros that are not where their neighbours or the devices are: the status bits of
    the UART from TX on are one above their mask bits; the flags register of the UART
    is at 0x10; the delivery mode of an I/O APIC entry covers the bits of the flags
    [DEST_LOGICAL] and [DELIVERY_STATUS]; the registers of xHCI ports depend only on
    bits 2 and 3 of the port; [INS_IS_REX] accepts bytes that are no REX prefix; no
    device tree has the magic number. *)
Theorem register_macros_off :
  (∀ n b, Bit n b ∈ r_fields UART_IMSC_reg → 5 <= b →
     Bit n (b + 1) ∈ r_fields UART_RIS_reg ∧ Bit n (b + 1) ∈ r_fields UART_MIS_reg ∧
     Bit n (b + 1) ∈ r_fields UART_ICR_reg) ∧
  offset_of uartMMIO "flags" = Some 0x10 ∧
  IOAPIC_REDTBL_DELIVER_MODE 6 = Z.lor (flag (Bit "DEST_LOGICAL" 11)) (flag (Bit "DELIVERY_STATUS" 12)) ∧
  (∀ p, 0 <= p < 4 → XHCI_OPERATION_REGISTER_PORTREG p = 0x400) ∧
  INS_IS_REX 0x5D ≠ 0 ∧
  (∀ m a, load 4 m (a + fld fdtHeader_layout "magic") ≠ DT_MAGIC).
Proof.
  split_and!.
  - intros n b Hin Hb. cbn [r_fields UART_IMSC_reg] in Hin.
    repeat (apply elem_of_cons in Hin as [Hin|Hin];
      [injection Hin as -> ->; first [lia | split_and!; cbn; set_solver]|]).
    by apply elem_of_nil in Hin.
  - reflexivity.
  - reflexivity.
  - intros p Hp. assert (p = 0 ∨ p = 1 ∨ p = 2 ∨ p = 3) as [->|[->|[->| ->]]] by lia; reflexivity.
  - discriminate.
  - intros m a. fields. pose proof (load_range 4 m (a + 0)). unfold DT_MAGIC. lia.
Qed.
