(* ===== verification/Xhci.v ===== *)
(** * xhci.c: the search for MSI-X

    The part of the file that is complete C but for two macros: [checkForMSIX] and
    the functions with an empty body.  [PCI_CAPABILITIES_POINTER] and
    [PCI_CAPABILITY_MSIX] are declared in no header and are parameters, as is the
    address of the struct [xhci]. *)

From S2P Require Import Prelude Kmonad Mem Layout Device Heap Kprintf Pci Registers.

(** The macro of pci.h expands without parentheses. *)
Definition PCI_HEADER_STATUS_CAPABILITIES_LIST : Z := Z.shiftl 1 4.

Section xhci.
Context {PT : Ports}.
Variables (fuel : nat) (xhci : Z) (PCI_CAPABILITIES_POINTER : Z → Z) (PCI_CAPABILITY_MSIX : Z).

(** [&xhci.msi] *)
Definition xhci_msi : Z := xhci + fld xhciDeviceInfo_layout "msi".

Definition xhciCacheConstructor (ptr : Z) : M machine unit := mret tt.
Definition xhciCacheDestructor (ptr : Z) : M machine unit := mret tt.
Definition initScratchpads : M machine unit := mret tt.
Definition initMSI : M machine unit := mret tt.

(** A register of function 0 of the controller. *)
Definition xhciPCIData (reg : Z) : M machine Z :=
bus ← ldf xhciDeviceInfo_layout "bus" xhci;
dev ← ldf xhciDeviceInfo_layout "dev" xhci;
getPCIData bus dev 0 reg.

(** One round of the loop.  [==] binds tighter than [&]. *)
Definition msix_round (capability : Z) : M machine (Z + unit) :=
if capability =? 0 then mret (inr tt)
else
  check ← xhciPCIData capability;
  if negb (Z.land check (Z.b2z (0xFF =? PCI_CAPABILITY_MSIX)) =? 0) then
    _ ← stf xhciMSIInfo_layout "hasMSIX" xhci_msi 1;
    _ ← stf xhciMSIInfo_layout "msixAddress" xhci_msi capability;
    mret (inr tt)
  else mret (inl (Z.land (Z.shiftr check 8) 0xFF)).

Definition checkForMSIX : M machine unit :=
scmd ← xhciPCIData PCI_HEADER_STATUS_COMMAND;
let status := PCI_HEADER_STATUS scmd in
if negb (Z.land status (Z.b2z (PCI_HEADER_STATUS_CAPABILITIES_LIST =? 0)) =? 0) then
  stf xhciMSIInfo_layout "hasMSIX" xhci_msi 0
else
  capability ← xhciPCIData PCI_HEADER_CAPABILITIES_PTR_RESERVED;
  iter fuel msix_round (PCI_CAPABILITIES_POINTER capability).

(** ** Properties *)

Context {PB : PciBus}.
Implicit Types (s : machine) (l : list (Z * Z)).

(** Only the selected address has changed. *)
Definition only_selected s s' : Prop :=
memory s' = memory s ∧ ∀ g, g ≠ g_pciAddress → globals s' g = globals s g.

Lemma xhciPCIData_ok s bus dev reg :
load 1 (memory s) (xhci + 40) = bus → load 1 (memory s) (xhci + 41) = dev → 0 <= dev < 32 → 0 <= reg < 256 →
∃ s', xhciPCIData reg s = Ok (pci_cfg s bus dev 0 (reg / 4)) s' ∧ only_selected s s'.
Proof.
intros Hb Hd Hdr Hr. pose proof (load_1_range (memory s) (xhci + 40)) as Hbr. rewrite Hb in Hbr.
eexists. split.
- unfold xhciPCIData. do 2 mstep.
  change (fld xhciDeviceInfo_layout "bus") with 40. change (fld xhciDeviceInfo_layout "dev") with 41.
  change (fsize xhciDeviceInfo_layout "bus") with 1%nat. change (fsize xhciDeviceInfo_layout "dev") with 1%nat.
  rewrite Hb, Hd, getPCIData_ok by lia.
  by rewrite (Z.div_small dev 32), (Z.mod_small dev 32), Z.lor_0_r by lia.
- split; [done|]. intros g Hg. by rewrite globals_set_global_ne.
Qed.

Lemma only_selected_trans s s1 s2 : only_selected s s1 → only_selected s1 s2 → only_selected s s2.
Proof. intros [H1 H2] [H3 H4]. split; [by rewrite H3|]. intros g Hg. by rewrite H4, H2. Qed.

Lemma only_selected_chain s s' bus dev next l :
only_selected s s' → cap_chain s bus dev next l → cap_chain s' bus dev next l.
Proof.
intros [Hm Hg] Hc. eapply (cap_chain_ext 0); [|lia|exact Hc]. split; [|done]. by rewrite Hm.
Qed.

Lemma msix_round_ok s bus dev p :
PCI_CAPABILITY_MSIX ≠ 0xFF → load 1 (memory s) (xhci + 40) = bus → load 1 (memory s) (xhci + 41) = dev →
0 <= dev < 32 → 0 < p < 256 →
wp (msix_round p) (λ r s', r = inl (PCI_CAPABILITY_NEXT (pci_cfg s bus dev 0 (p / 4))) ∧ only_selected s s') s.
Proof.
intros Hne Hb Hd Hdr Hp. unfold msix_round. rewrite eqb_false by lia. wp_step.
destruct (xhciPCIData_ok s bus dev p) as (s2 & E & Hs2); [done..|lia|].
eapply wp_eq; [exact E|]. cbv beta. rewrite (eqb_false 0xFF) by lia. cbn [Z.b2z]. rewrite Z.land_0_r.
cbn [Z.eqb negb]. by wp_step.
Qed.

Lemma msix_walk s bus dev l : ∀ n next s1,
PCI_CAPABILITY_MSIX ≠ 0xFF → load 1 (memory s) (xhci + 40) = bus → load 1 (memory s) (xhci + 41) = dev →
0 <= dev < 32 → cap_chain s1 bus dev next l → only_selected s s1 → (length l < n)%nat →
wp (iter n msix_round next) (λ _ s', only_selected s s') s1.
Proof.
induction l as [|[p id] l IH]; intros [|n] next s1 Hne Hb Hd Hdr Hc Hs Hn; cbn [length] in Hn; try lia;
  apply wp_iter_S; cbn [cap_chain] in Hc.
- subst next. by apply wp_ret.
- destruct Hc as (-> & Hp & _ & Hc). pose proof Hs as [Hm Hg].
  eapply wp_mono; [apply (msix_round_ok s1 bus dev p); rewrite ?Hm; done|]. intros r s2 [-> Hs2].
  apply (IH n _ s2); try done; [|by eapply only_selected_trans|lia].
  by eapply only_selected_chain.
Qed.

(** [checkForMSIX] never finds MSI-X: both tests compare before they mask, so a list
  that ends is walked to its end and [hasMSIX] is not written, whatever it holds. *)
Theorem checkForMSIX_finds_nothing s bus dev l :
PCI_CAPABILITY_MSIX ≠ 0xFF →
load 1 (memory s) (xhci + 40) = bus → load 1 (memory s) (xhci + 41) = dev → 0 <= dev < 32 →
cap_chain s bus dev (PCI_CAPABILITIES_POINTER (pci_cfg s bus dev 0 0xD)) l → (length l < fuel)%nat →
wp checkForMSIX (λ _ s', memory s' = memory s) s.
Proof.
intros Hne Hb Hd Hdr Hc Hf. unfold checkForMSIX. wp_step.
destruct (xhciPCIData_ok s bus dev PCI_HEADER_STATUS_COMMAND) as (s1 & E1 & Hs1);
  [done|done|done|unfold PCI_HEADER_STATUS_COMMAND; lia|].
eapply wp_eq; [exact E1|]. cbv beta zeta.
change (Z.b2z (PCI_HEADER_STATUS_CAPABILITIES_LIST =? 0)) with 0. rewrite Z.land_0_r. cbn [Z.eqb negb].
wp_step. pose proof Hs1 as [Hm1 Hg1].
destruct (xhciPCIData_ok s1 bus dev PCI_HEADER_CAPABILITIES_PTR_RESERVED) as (s2 & E2 & Hs2);
  [by rewrite Hm1..|done|unfold PCI_HEADER_CAPABILITIES_PTR_RESERVED; lia|].
eapply wp_eq; [exact E2|]. cbv beta. change (PCI_HEADER_CAPABILITIES_PTR_RESERVED / 4) with 0xD.
assert (pci_cfg s1 bus dev 0 0xD = pci_cfg s bus dev 0 0xD) as -> by (apply pci_cfg_frame; by rewrite Hm1).
pose proof (only_selected_trans _ _ _ Hs1 Hs2) as Hs02.
eapply wp_mono; [apply (msix_walk s bus dev l fuel); try done; by eapply only_selected_chain|].
by intros [] s' [Hm _].
Qed.
End xhci.

(** Device 3 of [example_cfg] has an MSI-X capability at 0x50: it is not found. *)
Definition xhci_machine : machine := set_memory (store 1 ∅ (0x7000 + 41) 3) machine0.

Lemma checkForMSIX_finds_nothing_witness :
  wp (@checkForMSIX (pci_ports example_cfg) 5 0x7000 PCI_HEADER_CAPABILITIES_POINTER PCI_CAPABILITY_ID_MSIX)
    (λ _ s', memory s' = memory xhci_machine) xhci_machine.
Proof.
  apply (@checkForMSIX_finds_nothing (pci_ports example_cfg) 5 0x7000 PCI_HEADER_CAPABILITIES_POINTER
    PCI_CAPABILITY_ID_MSIX (pci_ports_bus example_cfg) xhci_machine 0 3 [(0x40, 5); (0x50, 0x11)]);
    first [done | lia | cbn; lia | vm_compute; by repeat split].
Defined.
