(* ===== verification/DeviceTree.v ===== *)
(** * dt.c: the device tree of the aarch64 boot loader

    The comparison of a node's name, the two stubs and [parseTree], but for
    [bswap32(c)], which does not name its operand and whose result nothing reads.
    [parseNode] ([while(;;)]) is left out; it is called only behind a [continue].  The
    pointers are the file's globals; a field of the big-endian header is read with its
    bytes swapped. *)

From S2P Require Import Prelude Kmonad Mem Layout Libc Pci Registers.

Record dt := Dt { dt_memory : gmap Z Z; strptr : Z; nodeptr : Z; memptr : Z }.

Definition set_nodeptr (p : Z) (s : dt) : dt := Dt (dt_memory s) (strptr s) p (memptr s).
Definition dt_ld (n : nat) (a : Z) : M dt Z := gets (λ s, load n (dt_memory s) a).

(** The four bytes at [a], the first the most significant. *)
Definition load_be (m : gmap Z Z) (a : Z) : Z :=
  fold_left (λ n b, 256 * n + b) (bytes_at m a 4) 0.
Definition fdt_field (x : string) (header : Z) : M dt Z :=
  gets (λ s, load_be (dt_memory s) (header + fld fdtHeader_layout x)).

Section dt.
Variable fuel : nat.

Definition parseCpuNode : M dt unit := mret tt.

Definition parseMemNode : M dt unit :=
modify (λ s, set_nodeptr (u64 (nodeptr s + size_of fdtProp_layout)) s).

Definition nodecheck (check : Z) : M dt bool :=
str ← gets nodeptr;
iter fuel (λ t,
  a ← dt_ld 1 (str + t);
  b ← dt_ld 1 (check + t);
  mret (if negb (a =? b) then inr false else if a =? 0 then inr true else inl (u32 (t + 1)))) 0.

(** The loop reads a word and steps to the next one: [continue] comes before the
    tests. *)
Definition parseTree (dtb : Z) : M dt bool :=
magic ← fdt_field "magic" dtb;
if negb (DT_MAGIC =? magic) then mret false
else
  version ← fdt_field "version" dtb;
  last ← fdt_field "lastCompatVersion" dtb;
  if negb (version =? 17) && negb (last =? 17) then mret false
  else
    stringOff ← fdt_field "stringOff" dtb;
    rsvmapOff ← fdt_field "rsvmapOff" dtb;
    _ ← modify (λ s, Dt (dt_memory s) (u64 (dtb + stringOff)) (u64 (dtb + stringOff)) (u64 (dtb + rsvmapOff)));
    iter fuel (λ _ : unit,
      p ← gets nodeptr;
      c ← dt_ld 4 p;
      _ ← modify (set_nodeptr (DT_INC_NODE p));
      mret (inl tt)) tt.

(** ** Properties *)

Lemma nodecheck_loop s p q l1 : ∀ l2 n t,
cstr (dt_memory s) (p + t) l1 → cstr (dt_memory s) (q + t) l2 → 0 <= t → t + Z.of_nat (length l1) < 2 ^ 32 - 1 →
(length l1 < n)%nat →
iter n (λ t,
  a ← dt_ld 1 (p + t);
  b ← dt_ld 1 (q + t);
  mret (if negb (a =? b) then inr false else if a =? 0 then inr true else inl (u32 (t + 1)))) t s =
Ok (bool_decide (l1 = l2)) s.
Proof.
induction l1 as [|x l1 IH]; intros l2 [|n] t H1 H2 Ht Hl Hn; cbn [length] in *; try lia; cbn [iter];
  unfold mbind at 1, M_bind at 1, mbind at 1, M_bind at 1, mbind at 1, M_bind at 1, dt_ld at 1, gets at 1;
  unfold dt_ld at 1, gets at 1; rewrite !load_1; destruct l2 as [|y l2].
- apply cstr_nil_inv in H1, H2. by rewrite H1, H2.
- apply cstr_nil_inv in H1. apply cstr_cons_inv in H2 as (E2 & Hy & _). rewrite H1, E2, (eqb_false 0) by lia. done.
- apply cstr_nil_inv in H2. apply cstr_cons_inv in H1 as (E1 & Hx & _). rewrite E1, H2, (eqb_false x) by lia. done.
- apply cstr_cons_inv in H1 as (E1 & Hx & H1). apply cstr_cons_inv in H2 as (E2 & Hy & H2). rewrite E1, E2.
  destruct (Z.eqb_spec x y) as [->|Hne]; cbn [negb].
  + rewrite (eqb_false y) by lia. cbn [mret M_ret]. rewrite u32_id by lia.
    rewrite (IH l2); [|by rewrite ?Z.add_assoc..|lia|lia|lia].
    f_equal. apply bool_decide_ext. split; [by intros ->|by intros [= ->]].
  + cbn. f_equal. symmetry. apply bool_decide_eq_false. by intros [= ->].
Qed.

(** [nodecheck] is equality of the name at the node and the given one. *)
Lemma nodecheck_equal s check l1 l2 :
cstr (dt_memory s) (nodeptr s) l1 → cstr (dt_memory s) check l2 → Z.of_nat (length l1) < 2 ^ 32 - 1 →
(length l1 < fuel)%nat → nodecheck check s = Ok (bool_decide (l1 = l2)) s.
Proof.
intros H1 H2 Hl Hf. unfold nodecheck, mbind at 1, M_bind at 1, gets at 1.
apply nodecheck_loop; rewrite ?Z.add_0_r; done || lia.
Qed.

Lemma load_be_range m a : 0 <= load_be m a < 2 ^ 32.
Proof.
unfold load_be. rewrite !bytes_at_S. cbn [fold_left bytes_at].
pose proof (mbyte_range m a). pose proof (mbyte_range m (a + 1)). pose proof (mbyte_range m (a + 1 + 1)).
pose proof (mbyte_range m (a + 1 + 1 + 1)). cbn. lia.
Qed.

(** No tree is accepted: the magic number has nine digits. *)
Lemma parseTree_rejects dtb s : parseTree dtb s = Ok false s.
Proof.
pose proof (load_be_range (dt_memory s) (dtb + fld fdtHeader_layout "magic")).
unfold parseTree. erewrite bind_ok; [|reflexivity]. by rewrite eqb_false by (unfold DT_MAGIC; lia).
Qed.

(** A tree that was accepted would be read for ever. *)
Lemma parse_loop_diverges n s :
iter n (λ _ : unit,
  p ← gets nodeptr;
  c ← dt_ld 4 p;
  _ ← modify (set_nodeptr (DT_INC_NODE p));
  mret (inl tt : unit + bool)) tt s = Fault NoFuel.
Proof. revert s. induction n as [|n IH]; intros s; [done|]. cbn [iter]. apply IH. Qed.
End dt.
