(* ===== verification/Structs.v ===== *)
(** * The structs of the headers and their members in memory

    Most components read and write the members of a struct at offsets written as
    numbers.  Here the structs are declared member by member, in the order and with
    the types of the headers, gcc's layout rules ([offset_of], [size_of]) give the
    offsets, and the numbers are proved to be those offsets. *)

From S2P Require Import Prelude Kmonad Mem Layout Pmm Kmalloc Hashtable Kcache Task Vmm Vfs Ksym Ramdisk Cpu Acpi Pci Apic Hpet Ahci Lienzo Registers.

(** A pointer, a [size_t], an enumeration and a [mutex_t]. *)
Definition Ptr (x : string) : member := U64 x.
Definition Size (x : string) : member := U64 x.
Definition Mutex (x : string) : member := U8 x.

(** ** Memory: kmalloc.h, hashtable.h, dstack.h, kcache.h, vmm.h, pmm.h, mmap.h *)

Definition kheapBlock_layout : layout := Layout Natural
  [U16 "magic"; U32 "allocated"; U32 "free"; Bool "chunkBorder"; Ptr "prev"; Ptr "next"].
Definition kDebugBlock_layout : layout := Layout Natural [U16 "magic"; U16 "line"; Ptr "name"].
Definition hashbucket_layout : layout := Layout Natural
  [Ptr "hash"; Size "hashLen"; U8 "flags"; U64 "data"; Ptr "chain"].
Definition hashtable_layout : layout := Layout Natural [Ptr "buckets"; U16 "bucketCount"].
Definition dstack_layout : layout := Layout Natural [Ptr "base"; Ptr "top"; Size "maxSize"; Mutex "lock"].
Definition kbuff_layout : layout := Layout Natural [U8 "flags"; U64 "start"].
Definition kslab_layout : layout := Layout Natural
  [U32 "flags"; U16 "references"; Size "size"; U32 "bufferCount"; U64 "phys"; U64 "virt"; Ptr "prev";
   Ptr "next"; Ptr "bitmap"; Mutex "lock"].
(** [slabs] shares its place with [pageTable]. *)
Definition kcache_layout : layout := Layout Natural
  [U64 "flags"; Ptr "name"; Size "objSize"; U16 "align"; U8 "type"; Ptr "slabs"; Ptr "constructor";
   Ptr "destructor"; Mutex "lock"].
Definition vMarker_layout : layout := Layout Natural
  [U64 "base"; U32 "pages"; U32 "flags"; U8 "type"; Ptr "next"].
Definition memOrder_layout : layout := Layout Natural [U32 "entryn"; U32 "used"; Ptr "entry"].
Definition memRegion_layout : layout := Layout Natural
  [U8 "type"; U8 "flags"; U64 "base"; U64 "limit"; U64 "blockCount"; U8 "ordern";
   Arr (Sub memOrder_layout) "order" Pmm.MAXORDER].
(** [magic] shares its place with [offset]. *)
Definition mmapEntry_layout : layout := Layout Natural
  [U64 "magic"; U8 "flags"; U64 "type"; U64 "phys"; U64 "virt"; U64 "bytes"].
Definition gopInfo_layout : layout := Layout Natural
  [U32 "Xres"; U32 "Yres"; U32 "pps"; U32 "rmask"; U32 "gmask"; U32 "bmask"; U32 "resmask"; U64 "size";
   U64 "framebuffer"].
Definition memInfo_layout : layout := Layout Natural
  [U64 "ptr"; U32 "entries"; U64 "aptr"; U32 "aentries"; U64 "symptr"; U64 "symsz"].
Definition bootInfo_layout : layout := Layout Natural
  [U64 "magic"; Sub gopInfo_layout "ui"; Sub memInfo_layout "mem"; U64 "rdptr"; U64 "rdsz"; U64 "acpiptr";
   Ptr "devtree"].

(** ** Tasks and files: cpu.h, task.h, timer.h, vfs.h, ramdisk.h, devmap.h *)

Definition tscDeviceInfo_layout : layout := Layout Natural [U16 "flags"].
Definition gdtPointer_layout : layout := Layout Packed [U16 "limit"; U64 "base"].
Definition idtPointer_layout : layout := Layout Packed [U16 "limit"; U64 "base"].
(** The bit fields of a byte are one member. *)
Definition idtEntry_layout : layout := Layout Packed
  [U16 "baseLower"; U16 "selector"; U8 "ist, ign0"; U8 "type, a0, dpl, present"; Member "baseUpper" 6 1 1;
   U32 "reserved"].
Definition TSS_layout : layout := Layout Packed
  [U32 "res0"; U64 "RSP0"; U64 "RSP1"; U64 "RSP2"; U64 "res1"; U64 "IST0"; U64 "IST1"; U64 "IST2"; U64 "IST3";
   U64 "IST4"; U64 "IST5"; U64 "IST6"; U64 "IST7"; U64 "res2"; U32 "res3"; U32 "iopb"].
Definition localCPUInfo_layout : layout := Layout Natural [Ptr "idt"; Ptr "gdt"; Ptr "tss"].
Definition processTicket_layout : layout := Layout Natural
  [Ptr "name"; U8 "priority"; U16 "flags"; U64 "processID"; U64 "blocker"; U32 "gs"; U32 "fs"; U32 "ec";
   Ptr "vmem"; Ptr "tss"; Ptr "space"].
Definition taskQueue_layout : layout := Layout Natural
  [Ptr "tickets"; U32 "ticketCursor"; U32 "maxTickets"; U32 "ticketCount"].
Definition cpuScheduler_layout : layout := Layout Natural
  [Sub localCPUInfo_layout "cpu"; Ptr "currentTask"; U32 "taskCursor"].
Definition timerInfo_layout : layout := Layout Natural [U8 "type"; Ptr "set"].
Definition timerEvent_layout : layout := Layout Natural [U64 "ns"; U64 "id"; Ptr "callback"].
Definition vfsHeader_layout : layout := Layout Natural [U16 "type"; U16 "flags"; U16 "length"].
Definition vfsMountpoint_layout : layout := Layout Natural
  [Sub vfsHeader_layout "header"; U8 "type"; U32 "childCount"; Ptr "table"; U8 "letter"; U16 "references";
   Ptr "mfread"].
Definition vfsFile_layout : layout := Layout Natural
  [Sub vfsHeader_layout "header"; Ptr "name"; U64 "phys"; U32 "size"; U16 "references"].
Definition vfsDirectory_layout : layout := Layout Natural [Sub vfsHeader_layout "header"].
Definition vfsRoot_layout : layout := Layout Natural [Ptr "children"; U32 "childCount"; U16 "mounted"].
Definition vFILE_layout : layout := Layout Natural [Ptr "file"; Ptr "mount"; Size "fileOffset"].
Definition ramdiskHeader_layout : layout := Layout Packed [U32 "magic"; U16 "files"].
Definition ramdiskFile_layout : layout := Layout Packed [U32 "magic"; Size "size"].
Definition devmapEntry_layout : layout := Layout Packed [U16 "flags"; U16 "len"; U16 "deplen"; U32 "id"].

(** ** elf.h *)

Abbreviation ELF64_Byte := U8 (only parsing).
Abbreviation ELF64_Half := U16 (only parsing).
Abbreviation ELF64_Word := U32 (only parsing).
Abbreviation ELF64_Addr := U64 (only parsing).
Abbreviation ELF64_Off := U64 (only parsing).
Abbreviation ELF64_Xword := U64 (only parsing).

(** [magic] shares its place with [fmagic]. *)
Definition ELF64ident_layout : layout := Layout Natural
  [ELF64_Word "fmagic"; ELF64_Byte "class"; ELF64_Byte "data"; ELF64_Byte "version"; ELF64_Word "pad0"].
Definition ELF64Header_layout : layout := Layout Natural
  [Sub ELF64ident_layout "ident"; ELF64_Half "type"; ELF64_Half "machine"; ELF64_Word "version";
   ELF64_Addr "entry"; ELF64_Off "phoff"; ELF64_Off "shoff"; ELF64_Word "flags"; ELF64_Half "ehsize";
   ELF64_Half "phentsize"; ELF64_Half "phnum"; ELF64_Half "shentsize"; ELF64_Half "shnum";
   ELF64_Half "shstrndx"].
Definition ELF64Section_layout : layout := Layout Natural
  [ELF64_Word "name"; ELF64_Word "type"; ELF64_Xword "flags"; ELF64_Addr "addr"; ELF64_Off "offset";
   ELF64_Xword "size"; ELF64_Word "link"; ELF64_Word "info"; ELF64_Xword "align"; ELF64_Xword "entsize"].
Definition ELF64ProgramHeader_layout : layout := Layout Natural
  [ELF64_Word "type"; ELF64_Word "flags"; ELF64_Off "offset"; ELF64_Addr "vaddr"; ELF64_Addr "paddr";
   ELF64_Xword "filesz"; ELF64_Xword "memsz"; ELF64_Xword "align"].
Definition ELF64Sym_layout : layout := Layout Natural
  [ELF64_Word "name"; U8 "info"; U8 "other"; ELF64_Half "shndx"; ELF64_Addr "value"; ELF64_Xword "size"].

(** ** Devices: acpi.h, pci.h, hpet.h, ahci.h, device.h, sysinf.h *)

Definition acpiFACP_layout : layout := Layout Packed
  [U32 "signature"; U32 "length"; U8 "majorVersion"; U8 "checksum"; Arr U8 "oemid" 6; U64 "oemTableid";
   U32 "oemRevision"; Arr U8 "creatorid" 4; U32 "creatorRevision"; U32 "firmwareCTRL"].
Definition mpWake_layout : layout := Layout Packed
  [U8 "type"; U32 "length"; U16 "mailboxVersion"; U32 "reserved"; U64 "mailboxAddress"].
Definition mpMailbox_layout : layout := Layout Packed
  [U16 "command"; U16 "reserved"; U32 "apicID"; U64 "wakeupVector"].
Definition lapicNMI_layout : layout := Layout Packed
  [Sub icsHeader "header"; U8 "uid"; U16 "flags"; U8 "lint"].
Definition pciInfo_layout : layout := Layout Natural
  [U16 "deviceCount"; Ptr "device"; U16 "bridgeCount"; Ptr "bridge"].
Definition hpetInfo_layout : layout := Layout Natural
  [Ptr "mmio"; U64 "physBAR"; U8 "timers"; Bool "extended"; Bool "legacyRoute"; U32 "minClock";
   U32 "clockPeriod"; U8 "pageProtection"].
Definition ahciInfo_layout : layout := Layout Natural [Ptr "mmio"; U64 "physBAR"; U64 "capabilities"].
Definition deviceInfo_layout : layout := Layout Natural [Bool "claimed"].
Definition deviceList_layout : layout := Layout Natural [Ptr "devices"; U32 "listLen"; U32 "unclaimed"].
Definition systemInfo_layout : layout := Layout Natural
  (Sub deviceList_layout <$> ["storageController"; "networkController"; "displayController"; "mmController";
     "memoryController"; "serialController"; "wirelessController"; "unknown"; "storage"]).
Definition systemInformation_layout : layout := Layout Natural
  [Ptr "tsc"; Ptr "ioapic"; Ptr "hpet"; Ptr "xhci"; Ptr "ahci"; Ptr "pci"; U16 "cpuCount"].

(** libhook.h and libipc.h *)
Definition hook_layout : layout := Layout Natural [U64 "id"; Ptr "msgQueue"; Size "queueSize"; U64 "cursor"].
Definition hookMessage_layout : layout := Layout Natural [U8 "type"; Size "sz"].
Definition hookLibrary_layout : layout := Layout Natural [U16 "id"; Ptr "hooks"; Size "hookCount"].
Definition ipcMail_layout : layout := Layout Natural [U16 "sender"].
Definition ipcMailbox_layout : layout := Layout Natural [Ptr "buffer"].

(** ** The values of members *)

(** The layouts, with one member for each place: of a union the first member stands for
    all of them (the magic number of an [mmapEntry], the slabs of a cache, the table of
    [pciMSIInfo], the magic number of an ELF file), and bit-fields are the word they share. *)
Definition struct_layouts : list layout :=
  [kheapBlock_layout; kDebugBlock_layout; hashbucket_layout; hashtable_layout; dstack_layout; kbuff_layout;
   kslab_layout; kcache_layout; vMarker_layout; memOrder_layout; memRegion_layout; mmapEntry_layout;
   gopInfo_layout; memInfo_layout; bootInfo_layout; tscDeviceInfo_layout; gdtPointer_layout; idtPointer_layout;
   idtEntry_layout; TSS_layout; localCPUInfo_layout; processTicket_layout; taskQueue_layout;
   cpuScheduler_layout; timerInfo_layout; timerEvent_layout; vfsHeader_layout; vfsMountpoint_layout;
   vfsFile_layout; vfsDirectory_layout; vfsRoot_layout; vFILE_layout; ramdiskHeader_layout; ramdiskFile_layout;
   devmapEntry_layout; ELF64ident_layout; ELF64Header_layout; ELF64Section_layout; ELF64ProgramHeader_layout;
   ELF64Sym_layout; acpiFACP_layout; mpWake_layout; mpMailbox_layout; lapicNMI_layout; pciInfo_layout;
   hpetInfo_layout; ahciInfo_layout; deviceInfo_layout; deviceList_layout; systemInfo_layout;
   systemInformation_layout; rsdp; rsdt; acpiDescHeader; acpiMADT; icsHeader; ics_lapic; ioApic;
   interruptSourceOverride; pciDeviceInfo; pciMSIInfo; pciMSIXTbl; ioapicMMIO; ioapicInfo; lapicMMIO;
   lapicInfo; acpiHPET; hpetTimerMMIO; hpetMMIO; ahciPortMMIO; ahciMMIO; lienzoHeader; rgbaS; lienzoWindow;
   lienzoImage; pngSignature; uartMMIO; mail_layout; mailbox_layout; messageAlloc_layout; messageFree_layout;
   messageMap_layout; messageUnmap_layout; xhciEventRingInfo_layout; xhciMSIInfo_layout; xhciDeviceInfo_layout;
   fdtHeader_layout; fdtProp_layout; hook_layout; hookMessage_layout; hookLibrary_layout; ipcMail_layout;
   ipcMailbox_layout].

(** Reading and writing a member (the first element of an array). *)
Definition getf (l : layout) (x : string) (m : gmap Z Z) (a : Z) : Z := load (fsize l x) m (a + fld l x).
Definition setf (l : layout) (x : string) (m : gmap Z Z) (a v : Z) : gmap Z Z :=
  store (fsize l x) m (a + fld l x) v.
Definition has_member (l : layout) (x : string) : Prop := is_Some (lookup_member l x).

Section members.
Implicit Types (l : layout) (x y : string) (m : gmap Z Z).

Lemma lookup_member_placed l x o mb :
  lookup_member l x = Some (o, mb) →
  mb_name mb = x ∧ (o, mb) ∈ placed (ly_packing l) (ly_members l) 0.
Proof.
  unfold lookup_member. intros H. apply head_Some_elem_of in H.
  apply list_elem_of_filter in H as [H1 H2]. by split.
Qed.

Lemma fld_lookup l x o mb :
  lookup_member l x = Some (o, mb) → fld l x = o ∧ fsize l x = Z.to_nat (mb_size mb).
Proof. intros H. unfold fld, fsize, offset_of. by rewrite H. Qed.

(** Members of different names occupy different bytes. *)
Lemma members_apart l x y o mb o' mb' :
  Forall member_ok (ly_members l) → lookup_member l x = Some (o, mb) → lookup_member l y = Some (o', mb') →
  x ≠ y → o + member_bytes mb <= o' ∨ o' + member_bytes mb' <= o.
Proof.
  intros Hok Hx Hy Hne. apply lookup_member_placed in Hx as [Nx Hx], Hy as [Ny Hy].
  apply list_elem_of_lookup in Hx as [i Hi], Hy as [j Hj].
  destruct (Nat.lt_trichotomy i j) as [Hij|[<-|Hij]].
  - left. eapply (placed_disjoint _ _ 0 i j); [exact Hok|exact Hij|exact Hi|exact Hj].
  - congruence.
  - right. eapply (placed_disjoint _ _ 0 j i); [exact Hok|exact Hij|exact Hj|exact Hi].
Qed.

Lemma placed_ok p ms o a mb : Forall member_ok ms → (a, mb) ∈ placed p ms o → member_ok mb.
Proof.
  intros H. revert o. induction H as [|c ms Hc H IH]; intros o; cbn [placed].
  - by intros []%elem_of_nil.
  - intros [[= -> ->]|Ha]%elem_of_cons; [done|by eapply IH].
Qed.

Lemma getf_setf l x y m a v :
  Forall member_ok (ly_members l) → has_member l x → has_member l y →
  getf l y (setf l x m a v) a = if decide (x = y) then v mod 256 ^ Z.of_nat (fsize l x) else getf l y m a.
Proof.
  intros Hok [[o mb] Hx] [[o' mb'] Hy]. unfold getf, setf.
  case_decide as E; [subst y; apply load_store_eq|]. apply load_store_ne.
  destruct (fld_lookup _ _ _ _ Hx) as [-> ->], (fld_lookup _ _ _ _ Hy) as [-> ->].
  destruct (lookup_member_placed _ _ _ _ Hx) as [_ Px%(placed_ok _ _ _ _ _ Hok)].
  destruct (lookup_member_placed _ _ _ _ Hy) as [_ Py%(placed_ok _ _ _ _ _ Hok)].
  pose proof (members_apart _ _ _ _ _ _ _ Hok Hx Hy E) as Hap. unfold member_bytes, member_ok in *. nia.
Qed.
End members.

#[export] Instance member_ok_dec m : Decision (member_ok m).
Proof. unfold member_ok. apply _. Defined.

Lemma struct_layouts_ok : Forall (λ l, Forall member_ok (ly_members l)) struct_layouts.
Proof. apply (bool_decide_unpack _). by vm_compute. Qed.

(** The components' readers, member by member. *)
Definition readers_agree (m : gmap Z Z) (a : Z) : Prop :=
  let get l x := getf l x m a in
  read_block m a = KheapBlock (get kheapBlock_layout "magic") (get kheapBlock_layout "allocated")
    (get kheapBlock_layout "free") (get kheapBlock_layout "chunkBorder") (get kheapBlock_layout "prev")
    (get kheapBlock_layout "next") ∧
  read_bucket m a = Hashbucket (get hashbucket_layout "hash") (get hashbucket_layout "hashLen")
    (get hashbucket_layout "flags") (get hashbucket_layout "data") (get hashbucket_layout "chain") ∧
  read_slab m a = Kslab (get kslab_layout "flags") (get kslab_layout "references") (get kslab_layout "size")
    (get kslab_layout "bufferCount") (get kslab_layout "phys") (get kslab_layout "virt")
    (get kslab_layout "prev") (get kslab_layout "next") (get kslab_layout "bitmap") (get kslab_layout "lock") ∧
  read_cache m a = Kcache (get kcache_layout "flags") (get kcache_layout "name") (get kcache_layout "objSize")
    (get kcache_layout "align") (get kcache_layout "type") (get kcache_layout "slabs")
    (get kcache_layout "constructor") (get kcache_layout "destructor") (get kcache_layout "lock") ∧
  read_marker m a = VMarker (get vMarker_layout "base") (get vMarker_layout "pages")
    (get vMarker_layout "flags") (get vMarker_layout "type") (get vMarker_layout "next") ∧
  read_ticket m a = ProcessTicket (get processTicket_layout "name") (get processTicket_layout "priority")
    (get processTicket_layout "flags") (get processTicket_layout "processID")
    (get processTicket_layout "blocker") (get processTicket_layout "gs") (get processTicket_layout "fs")
    (s32 (get processTicket_layout "ec")) (get processTicket_layout "vmem") (get processTicket_layout "tss")
    (get processTicket_layout "space") ∧
  read_scheduler m a = CpuScheduler (get cpuScheduler_layout "currentTask")
    (get cpuScheduler_layout "taskCursor") ∧
  Vfs.read_file m a = VfsFile (getf vfsHeader_layout "type" m (a + fld vfsFile_layout "header"))
    (get vfsFile_layout "name") (get vfsFile_layout "phys") (get vfsFile_layout "size")
    (get vfsFile_layout "references") ∧
  read_ehdr m a = EHdr (getf ELF64ident_layout "fmagic" m (a + fld ELF64Header_layout "ident"))
    (getf ELF64ident_layout "class" m (a + fld ELF64Header_layout "ident")) (get ELF64Header_layout "entry")
    (get ELF64Header_layout "phoff") (get ELF64Header_layout "shoff") (get ELF64Header_layout "phnum")
    (get ELF64Header_layout "shnum") (get ELF64Header_layout "shstrndx") ∧
  read_shdr m a = SHdr (get ELF64Section_layout "name") (get ELF64Section_layout "type")
    (get ELF64Section_layout "flags") (get ELF64Section_layout "addr") (get ELF64Section_layout "offset")
    (get ELF64Section_layout "size") (get ELF64Section_layout "link") (get ELF64Section_layout "info")
    (get ELF64Section_layout "align") (get ELF64Section_layout "entsize") ∧
  read_phdr m a = PHdr (get ELF64ProgramHeader_layout "type") (get ELF64ProgramHeader_layout "flags")
    (get ELF64ProgramHeader_layout "offset") (get ELF64ProgramHeader_layout "vaddr")
    (get ELF64ProgramHeader_layout "paddr") (get ELF64ProgramHeader_layout "filesz")
    (get ELF64ProgramHeader_layout "memsz") (get ELF64ProgramHeader_layout "align") ∧
  read_sym m a = Sym (get ELF64Sym_layout "name") (get ELF64Sym_layout "info") (get ELF64Sym_layout "other")
    (get ELF64Sym_layout "shndx") (get ELF64Sym_layout "value") (get ELF64Sym_layout "size").

(** The sizes that the code passes to kmalloc and steps through arrays with. *)
Definition struct_sizes : list (layout * Z) :=
  [(kheapBlock_layout, KHEAP_BLOCK_DATA_SZ); (hashbucket_layout, 40); (hashtable_layout, 16);
   (dstack_layout, 32); (kslab_layout, 72); (kcache_layout, 64); (vMarker_layout, 32);
   (processTicket_layout, 72); (cpuScheduler_layout, 40); (vfsMountpoint_layout, sizeof_vfsMountpoint);
   (vfsFile_layout, sizeof_vfsFile); (vFILE_layout, sizeof_vFILE); (ramdiskHeader_layout, sizeof_ramdiskHeader);
   (ramdiskFile_layout, sizeof_ramdiskFile); (ELF64Header_layout, sizeof_ELF64Header);
   (ELF64Section_layout, sizeof_ELF64Section); (ELF64ProgramHeader_layout, sizeof_ELF64ProgramHeader);
   (ELF64Sym_layout, sizeof_ELF64Sym); (gdtPointer_layout, sizeof_gdtPointer); (TSS_layout, sizeof_TSS);
   (idtEntry_layout, sizeof_idtEntry); (mmapEntry_layout, 48)].

(** Writing a member of one of these layouts changes the value of no other. *)
Lemma members_independent l x y m a v :
  l ∈ struct_layouts → has_member l x → has_member l y →
  getf l y (setf l x m a v) a =
    if decide (x = y) then v mod 256 ^ Z.of_nat (fsize l x) else getf l y m a.
Proof. intros Hl. apply getf_setf. exact (proj1 (Forall_forall _ _) struct_layouts_ok l Hl). Qed.

(** The offsets and sizes written as numbers elsewhere are those of the layouts. *)
Lemma readers_agree_ok m a : readers_agree m a.
Proof. unfold readers_agree, getf. fields. rewrite !Z.add_0_r. repeat split. Qed.
Lemma struct_sizes_ok : Forall (λ '(l, n), size_of l = n) struct_sizes.
Proof. repeat constructor. Qed.

(** elf.h has no [e_type] at 16: the identification is 12 bytes, not 16, so [type],
    [machine] and [version] are read four bytes early; the members from [entry] on
    are in their place because of the alignment of [entry]. *)
Theorem elf_header_shifted :
  size_of ELF64ident_layout = 12 ∧
  offset_of ELF64Header_layout "type" = Some 12 ∧ offset_of ELF64Header_layout "machine" = Some 14 ∧
  offset_of ELF64Header_layout "version" = Some 16 ∧ offset_of ELF64Header_layout "entry" = Some 24.
Proof. by vm_compute. Qed.
